(* ===== verification/_CoqProject ===== *)
-Q . S2P
Prelude.v
Boost.v
StdMap.v
Datum.v
DatumDouble.v
EhsTypes.v
HttpRequest.v
HttpRequestFacts.v
HttpRender.v
HttpRequestProps.v
FormData.v
Multipart.v
HttpResponse.v
HttpResponseFacts.v
Network.v
Locking.v
Socket.v
SocketFacts.v
SocketOwners.v
BindHelper.v
SslError.v
SecureSocket.v
SecureSocketFacts.v
Connection.v
ConnectionFacts.v
Server.v
ServerFacts.v
Threads.v
Interleave.v
Ehs.v
EhsFacts.v
InterleaveFacts.v
InterleaveBooks.v
InterleaveRaces.v
ServerNetworks.v
InterleaveNetworks.v
SocketNetwork.v
SecureNetwork.v
SecureNetworkFacts.v
Serve.v
Sha1.v
Sha1Facts.v
Base64.v
SampleHandlers.v
Console.v
Samples.v
BackTrace.v
Utf8.v
WsFrame.v
WsFrameFacts.v
WsEndpoint.v
WsLock.v
WsEndpointFacts.v
WsSession.v
WsGate.v
WsGateFacts.v
