(* ===== verification/Prelude.v ===== *)
(** * EHS: a verification development

    EHS (Embedded HTTP Server) is a C++ library that puts an HTTP(S) server into an
    application.  This development models the library and the samples that go with it, in
    the order of the calls from the bytes up, and proves what makes each part correct, or
    how it fails to be.

    ** The parts

    - Bytes, strings, containers.  Prelude (this file): byte strings, the exceptions of the
      code, machine integers, record update, lists.  Boost: the interface to Boost.Regex and
      its relatives, with laws and a reference implementation.  StdMap: [std::map] with the two
      comparators of [ehstypes.h].  Datum, DatumDouble: [datum.cpp].  EhsTypes: [ehstypes.h],
      [formvalue.cpp], [contentdisposition.h].
    - Requests.  HttpRequest: the state machine of [HttpRequest::ParseData]
      ([httprequest.cpp]), one [step_*] function for each [case]; HttpRequestFacts (lines,
      termination, segmentation), HttpRender (messages, their rendering, the round trip),
      HttpRequestProps, FormData (url-encoded forms), Multipart (uploads).
    - Responses.  HttpResponse: [httpresponse.cpp]; HttpResponseFacts.
    - The network.  Network: the class [Env], the virtual functions of [NetworkAbstraction] and
      [RawSocketHandler] and the C library as the server uses them.  Socket: [socket.cpp] on
      the system calls of the class [Os]; SocketFacts, SocketOwners (who owns which
      descriptor).  Locking: [mutexhelper.h], [staticssllocking.cpp], [dynamicssllocking.cpp].
      SslError: [sslerror.cpp] and the class [Ssl] of OpenSSL; SecureSocket:
      [securesocket.cpp]; SecureSocketFacts.
    - The server ([ehs.cpp]).  Connection: [EHSConnection]; ConnectionFacts.  Server:
      [EHSServer]; ServerFacts; Serve (one request through all of it).  Threads: the
      interleavings of the server threads, cut where the server mutex is released;
      Interleave: the same, cut at every critical section of both mutexes and every call
      between them, and the thread that [pthread_create] has made before it has counted itself;
      InterleaveFacts, InterleaveBooks (what all these interleavings keep), InterleaveRaces.  ServerNetworks: who owns
      which network object; InterleaveNetworks: the same over the fine steps; SocketNetwork: [Env] implemented by the objects of Socket, a server on the
      descriptors of the system; SecureNetwork, SecureNetworkFacts: the same in a build with
      SSL, where plain and secure sockets stand side by side.  Ehs: the tree of [EHS] objects; EhsFacts.
    - The WebSocket gateway ([samples/]).  Sha1, Sha1Facts: [sha1.cpp] against FIPS 180.
      Base64: [base64.cpp].  Utf8: [wsutf8.h].  WsFrame, WsFrameFacts: [wscommon.h],
      [wsframe.h].  WsEndpoint, WsEndpointFacts, WsSession: [wsendpoint.h]; WsLock: its mutex.
      WsGate, WsGateFacts: [ehs_wsgate.cpp].
    - The other samples.  SampleHandlers: the request handlers of [ehs_basicauth.cpp] and
      [ehs_uploader.cpp].  Samples: those of the others, and how each [main] starts its server.
      Console: the keyboard of [common.h].  BindHelper: the helper for privileged ports and the
      program [bindhelper.c].  BackTrace: [btexception.cpp] on libbfd or libdw.

    How they interact: [EHSServer::HandleData] ([Server.HandleData]) reads from the sockets
    ([Env]) into connections ([Connection.AddBuffer]), which run the parser
    ([HttpRequest.ParseData]) and queue the requests; a thread takes a request
    ([Server.srv_GetNextRequest]) and hands it to the application, the class [App], which the
    tree of objects implements ([Ehs.tree_app], with the application's overrides in the class
    [Handlers]); the response goes back through [Connection.SendResponse].  A connection that
    has been upgraded is raw: its bytes go to the gateway ([WsGate.OnData]) and from there to
    the endpoint of the connection ([WsEndpoint.AddRxData]), whose handler answers through the
    connection.

    ** How the code is modelled

    Objects are records; a method maps the object, its arguments and the state [W] of the
    world outside to the new object, the result and the new world.  What lies outside the
    repository is a class of operations on [W] ([Env], [App], [Handlers], [Boost], [Os], [Ssl],
    [WsHandler], [Tty], [Bfd], [Dwfl], and [OtherThreads], what happens while a thread waits for a broadcast), so every theorem holds for whatever the system and the application do,
    unless it names a law ([BoostLaws], [AnswerLaws], [OthersOk], [AppNetLaws], [NetLaws], [OsLaws], [HostLaws], [SslLaws], [TlsLaws], [TlsKeeps],
    [TtyLaws], [BfdLaws]); each class has a
    concrete instance, on which the witnesses of the theorems run.  Exceptions are the values
    [Throw] of the type [res]; [Undefined] marks the use of a deleted object (or of a null pointer): it is not an exception,
    no handler catches it, and a thread that has come to it takes no further step in the model.  Integers are
    [Z], cut to their width where the code can overflow them.

    Loops take fuel, [None] meaning that it has run out, and for each fuel the development
    chooses a theorem says that it is enough: [parse_fuel] (two iterations for a byte),
    [add_buffer_fuel] (every request but two consumes its request line), [rx_fuel] (every
    iteration reads a byte or completes a frame), [route_fuel] (every level takes a part off
    the path), the length of the list in [RemoveFinishedConnections].  Loops that need not
    end are given the fuel as an argument: the busy waits of sockets ([SocketFacts.Read_waits]; a
    world of SocketNetwork or SecureNetwork notes that one has outlasted its fuel) and [EHS::HandleData]
    ([Ehs.handle_until_done]).

    ** What the theorems show

    - Parsing: a rendered request is parsed back whatever follows it; how the bytes are cut into
      reads does not matter; every call returns or throws; pipelined requests are queued in
      order; forms, cookies, dates and datums, doubles too, have their round trips; which doubles overrun the
      buffer they are printed to.
    - Serving: one message through the whole server, from [select] to the bytes of the answer;
      the books of connections and server balance, and when a connection is done; when [HandleData] of a
      server waits for good; [EHS::HandleData] returns, or, when a
      request is lost, does not; at most one thread accepts, and none any more after an
      exception in the accepting phase; [EndServerThread] does not wait for a thread that has not begun to run.
    - Threads: as long as no request is rejected, no interleaving deletes a connection that
      owes a response; the coarse interleavings are runs of the fine ones; and three races:
      behind [SendResponse], between an error answer and a handler, and between two responses
      on one connection.
      In all fine interleavings a server owns its network objects alone and never calls a deleted one:
      a thread whose connection has been deleted under it stops in the model right where the code
      would use freed memory.  When the threads have ended it gives all of them back; on sockets, it has one
      descriptor open for each, leaves those of the
      rest of the program alone, and leaves none behind.  With SSL the same holds, the count
      of secure sockets is right, and the static members are not used after their deletion
      as long as no other server is started later; a client whose handshake fails changes
      nothing, and cannot end the server.
    - The tree: routing follows the registered objects; registration and its life cycle, and
      what a failed registration does.
    - Sockets: every object owns its descriptor alone; a failed handshake gives it back; the
      static members of [SecureSocket] are safe until the last object is deleted, and a
      restarted server uses deleted ones; the passphrase callback writes behind its buffer.
    - WebSockets: the handshake answers 101 exactly to the requests it should; frames have
      their round trip and the parser stays within its memory; a session serves its frames in
      order, however they are cut; the closing handshake; what escapes as an exception;
      [on_close] is called once with Boost's guard, and can be called twice without;
      SHA-1 is FIPS 180, base 64 has its round trip, the validator accepts exactly UTF-8.
    - Samples: whom basic authentication lets in; an upload stays in its directory and
      overwrites nothing; what the helper binds; what becomes of an exception in a handler; the
      lines [ehs_test] serves; which ways of starting a server leave it without service; the
      terminal gets its settings back; the text of a back trace, and that the pointer
      [where] returns does not keep it.

    Theorems whose comment begins with a claim number are the properties the development
    stands for; the others carry them or complete them.

    ** What is not modelled

    - Mutexes and condition variables as objects: Threads and Interleave make a step of what
      happens between two places where another thread can come in, Locking models the helper
      and the tables OpenSSL is given on their own.  In the sequential model of Server what the other
      threads do during [pthread_cond_wait] is the class [OtherThreads], and in single-threaded mode nobody ever
      broadcasts.  A thread that waits may wake up at any time in Threads and Interleave.  Accesses without any mutex (the counters
      of the server, which [EHS::HandleData] reads) are steps like the others, not races of
      the memory model.
    - What the program does after it has used a deleted object: the model says where that happens, and
      stops.
    - In the model of the server the handler of raw sockets cannot change its connection; what
      it does to it is in WsGate, where connection and handler meet.
    - The class mutex of [SecureSocket] and that of the bind helper; the calls OpenSSL makes back
      into its mutex callbacks in the middle of a handshake.
    - The Windows variants, [osdep.cpp] (thread numbers on Windows), debug output,
      and what the samples print to the terminal. *)
From stdpp Require Export base decidable list strings gmap fin_maps.
From Stdlib Require Export ZArith Ascii Lia.

#[export] Set Default Goal Selector "!".

(** ** Byte strings

    A C++ [std::string] is a list of bytes; a byte is an [ascii].  [lit]
    turns a Rocq string literal into a byte string. *)
Abbreviation bytes := (list ascii).

Definition lit (s : String.string) : bytes := String.list_ascii_of_string s.

Declare Scope ehs_scope.
Delimit Scope ehs_scope with ehs.
Notation "'#' s" := (lit s%string) (at level 1, s at level 0, format "# s") : ehs_scope.
Open Scope ehs_scope.

(** The unsigned value of a byte, and the byte holding an integer modulo 256. *)
Definition bz (a : ascii) : Z := Z.of_N (N_of_ascii a).
Definition zb (z : Z) : ascii := ascii_of_N (Z.to_N (z `mod` 256)).

Definition NUL : ascii := zb 0.
Definition TAB : ascii := zb 9.
Definition LF : ascii := zb 10.
Definition CR : ascii := zb 13.
Definition DQ : ascii := zb 34.
Definition crlf : bytes := [CR; LF].

(** ** The character classes of the C locale *)
Definition between (lo hi : Z) (a : ascii) : bool := (lo <=? bz a)%Z && (bz a <=? hi)%Z.
Definition is_digit (a : ascii) : bool := between 48 57 a.
Definition is_upper (a : ascii) : bool := between 65 90 a.
Definition is_lower (a : ascii) : bool := between 97 122 a.
Definition is_alpha (a : ascii) : bool := is_upper a || is_lower a.
Definition is_alnum (a : ascii) : bool := is_alpha a || is_digit a.
Definition is_xdigit (a : ascii) : bool := is_digit a || between 65 70 a || between 97 102 a.
Definition is_space (a : ascii) : bool := between 9 13 a || (bz a =? 32)%Z.
Definition tolower (a : ascii) : ascii := if is_upper a then zb (bz a + 32) else a.

(** ** [std::string] operations *)

(** The exceptions the modelled code throws or lets escape. *)
Inductive exn : Type :=
| Out_of_range                       (* std::out_of_range, from substr *)
| Runtime_error (what : bytes)       (* std::runtime_error *)
| Invalid_argument (what : bytes)    (* std::invalid_argument *)
| Std_exception                      (* a bare std::exception object *)
| C_string (what : bytes)            (* a thrown const char * *)
| Ws_error (what : bytes) (code : Z) (* tracing::wserror *)
| Tracing_error (what : bytes)       (* tracing::runtime_error *)
| Undefined (what : bytes).          (* not an exception: a use of a deleted object *)

(** The result of a call that may throw. *)
Inductive res (A : Type) : Type :=
| Ret (a : A)
| Throw (e : exn).
Arguments Ret {A} _.
Arguments Throw {A} _.

Definition is_prefix (p s : bytes) : bool := bool_decide (p = take (length p) s).

(** [std::string::find]: position of the first occurrence of [p] in [s]
    ([None] is [npos]). *)
Fixpoint find (p s : bytes) : option nat :=
  if is_prefix p s then Some 0
  else match s with
       | [] => None
       | _ :: s' => S <$> find p s'
       end.

(** [std::string::substr(pos)] and [substr(pos, len)] throw [out_of_range] when
    [pos > size()]. *)
Definition substr_from (s : bytes) (pos : nat) : res bytes :=
  if decide (pos <= length s) then Ret (drop pos s) else Throw Out_of_range.
Definition substr (s : bytes) (pos len : nat) : res bytes :=
  if decide (pos <= length s) then Ret (take len (drop pos s)) else Throw Out_of_range.

(** [c_str()] as the C string functions see it: up to the first NUL. *)
Fixpoint c_str (s : bytes) : bytes :=
  match s with
  | [] => []
  | a :: s' => if decide (a = NUL) then [] else a :: c_str s'
  end.

(** The longest prefix whose bytes satisfy [f], and what follows it. *)
Fixpoint span (f : ascii -> bool) (s : bytes) : bytes * bytes :=
  match s with
  | [] => ([], [])
  | a :: s' => if f a then let '(p, r) := span f s' in (a :: p, r) else ([], s)
  end.

(** Lexicographic order of [std::string::operator<] (bytes as unsigned). *)
Fixpoint bytes_compare (s t : bytes) : comparison :=
  match s, t with
  | [], [] => Eq
  | [], _ :: _ => Lt
  | _ :: _, [] => Gt
  | a :: s', b :: t' =>
      match Z.compare (bz a) (bz b) with
      | Eq => bytes_compare s' t'
      | c => c
      end
  end.

(** [strcasecmp] on [c_str()]s, as a comparison result. *)
Definition strcasecmp (s t : bytes) : comparison :=
  bytes_compare (tolower <$> c_str s) (tolower <$> c_str t).

(** ** Printing and reading integers *)
Definition digit_char (d : Z) : ascii := if (d <? 10)%Z then zb (48 + d) else zb (87 + d).
Definition digit_val (a : ascii) : Z :=
  if is_digit a then bz a - 48
  else if is_upper a then bz a - 55
  else bz a - 87.

Fixpoint digits (fuel : nat) (base n : Z) (acc : bytes) : bytes :=
  match fuel with
  | O => acc
  | S f =>
      let acc' := digit_char (n `mod` base) :: acc in
      if (n <? base)%Z then acc' else digits f base (n / base) acc'
  end.

(** [n >= 0] written in [base]; [log2 n + 1] divisions always suffice. *)
Definition print_nat_base (base n : Z) : bytes :=
  digits (S (Z.to_nat (Z.log2 n))) base n [].

(** ["%d"], ["%ld"], ["%u"], ["%lu"] and [operator<<] on integers. *)
Definition print_Z (n : Z) : bytes :=
  if (n <? 0)%Z then "-"%char :: print_nat_base 10 (- n) else print_nat_base 10 n.

Definition digits_value (base : Z) (ds : bytes) : Z :=
  fold_left (fun acc d => acc * base + digit_val d)%Z ds 0%Z.

(** ** Fixed-width integers *)
Definition u8 (z : Z) : Z := z `mod` 2 ^ 8.
Definition u16 (z : Z) : Z := z `mod` 2 ^ 16.
Definition u32 (z : Z) : Z := z `mod` 2 ^ 32.
Definition u64 (z : Z) : Z := z `mod` 2 ^ 64.

(** Two's complement reading of a [w]-bit word. *)
Definition signed (w z : Z) : Z :=
  let m := (z `mod` 2 ^ w)%Z in if (m <? 2 ^ (w - 1))%Z then m else (m - 2 ^ w)%Z.
Definition i32 (z : Z) : Z := signed 32 z.

(** ** Record update

    [r <| f := v |>] is [r] with field [f] replaced by [v].  A record type opts
    in with an [Eta] instance, its constructor applied to its own fields. *)
Class Eta (R : Type) : Type := eta : R -> R.
Class Field {R T : Type} (f : R -> T) : Type := update : (T -> T) -> R -> R.
#[global] Arguments update {R T} f {_} g r /.

Ltac solve_field :=
  match goal with
  | |- @Field ?R ?T ?f =>
      let g := fresh "g" in let r := fresh "r" in
      unfold Field; intros g r;
      let i := constr:(_ : Eta R) in
      let e := eval hnf in (i r) in
      let e' := eval pattern (f r) in e in
      match e' with
      | ?h _ => let x := eval cbv beta in (h (g (f r))) in exact x
      end
  end.
#[export] Hint Extern 1 (Field _) => solve_field : typeclass_instances.

Notation "r <| f := v |>" := (update f (fun _ => v) r)
  (at level 12, left associativity, f at level 11, v at level 200,
   format "r  <| f  :=  v |>") : ehs_scope.
Notation "r <| f ::= g |>" := (update f g r)
  (at level 12, left associativity, f at level 11, g at level 200,
   format "r  <| f  ::=  g |>") : ehs_scope.

(** ** Tactics *)

(** Case on every [match] of the goal, simplifying the equations found. *)
Ltac case_all := repeat (case_match; simplify_eq/=).

(** Reduce boolean tests to propositions in hypotheses and goal. *)
Ltac bool_facts :=
  repeat match goal with
         | H : _ && _ = true |- _ => apply andb_true_iff in H as [? ?]
         | H : _ || _ = false |- _ => apply orb_false_iff in H as [? ?]
         | H : negb _ = true |- _ => apply negb_true_iff in H
         | H : negb _ = false |- _ => apply negb_false_iff in H
         | H : (_ <=? _)%Z = true |- _ => apply Z.leb_le in H
         | H : (_ <=? _)%Z = false |- _ => apply Z.leb_gt in H
         | H : (_ <? _)%Z = true |- _ => apply Z.ltb_lt in H
         | H : (_ <? _)%Z = false |- _ => apply Z.ltb_ge in H
         | H : (_ =? _)%Z = true |- _ => apply Z.eqb_eq in H
         | H : (_ =? _)%Z = false |- _ => apply Z.eqb_neq in H
         | H : bool_decide _ = true |- _ => apply bool_decide_eq_true in H
         | H : bool_decide _ = false |- _ => apply bool_decide_eq_false in H
         end.

(** Linear arithmetic with division and remainder by constants. *)
Ltac dlia := Z.to_euclidean_division_equations; lia.

Create HintDb ehs.
Create Rewrite HintDb ehs.

(** ** Lemmas on bytes *)
Lemma bz_range a : (0 <= bz a < 256)%Z.
Proof.
  unfold bz. pose proof (N_ascii_bounded a). lia.
Qed.
#[export] Hint Resolve bz_range : ehs.

Lemma zb_bz a : zb (bz a) = a.
Proof.
  unfold zb, bz. pose proof (N_ascii_bounded a).
  rewrite Z.mod_small by lia. rewrite N2Z.id. apply ascii_N_embedding.
Qed.

Lemma bz_zb z : bz (zb z) = (z `mod` 256)%Z.
Proof.
  unfold zb, bz. pose proof (Z.mod_pos_bound z 256).
  rewrite N_ascii_embedding by lia. lia.
Qed.

Lemma bz_inj a b : bz a = bz b -> a = b.
Proof. intros H. rewrite <- (zb_bz a), <- (zb_bz b). by rewrite H. Qed.

Lemma bz_zb_small z : (0 <= z < 256)%Z -> bz (zb z) = z.
Proof. intros. rewrite bz_zb. by apply Z.mod_small. Qed.
#[export] Hint Rewrite zb_bz : ehs.

(** A property of every byte can be checked by computation. *)
Definition all_bytes : list ascii := (zb ∘ Z.of_nat) <$> seq 0 256.

Lemma all_bytes_spec (P : ascii -> bool) :
  forallb P all_bytes = true -> forall a, P a = true.
Proof.
  intros H a. rewrite forallb_forall in H. apply H.
  unfold all_bytes. apply in_map_iff. exists (Z.to_nat (bz a)).
  pose proof (bz_range a). split.
  - simpl. rewrite Z2Nat.id by lia. apply zb_bz.
  - apply in_seq. lia.
Qed.

Lemma all_bytes_impl (P Q : ascii -> bool) :
  forallb (fun a => implb (P a) (Q a)) all_bytes = true -> forall a, P a = true -> Q a = true.
Proof.
  intros H a HP. pose proof (all_bytes_spec _ H a) as Ha. simpl in Ha. by rewrite HP in Ha.
Qed.

Ltac by_all_bytes := apply all_bytes_spec; vm_compute; reflexivity.

Lemma digit_not_space a : is_digit a = true -> negb (is_space a) = true.
Proof. apply (all_bytes_impl is_digit (negb ∘ is_space)). by vm_compute. Qed.

(** A test that holds of the first [n] integers, and a union of disjoint bits. *)
Lemma below_Z (n : nat) (P : Z -> bool) :
  forallb (fun i => P (Z.of_nat i)) (seq 0 n) = true -> forall x, (0 <= x < Z.of_nat n)%Z -> P x = true.
Proof.
  intros H x Hx. rewrite forallb_forall in H. specialize (H (Z.to_nat x)).
  rewrite Z2Nat.id in H by lia. apply H. apply in_seq. lia.
Qed.

Lemma lor_add a b k : (0 <= k -> 0 <= b < 2 ^ k -> Z.lor (a * 2 ^ k) b = a * 2 ^ k + b)%Z.
Proof.
  intros Hk Hb. rewrite <- Z.add_lor_land. replace (Z.land (a * 2 ^ k) b) with 0%Z; [lia|].
  symmetry. apply Z.bits_inj'. intros n Hn. rewrite Z.land_spec, Z.bits_0.
  destruct (Z.ltb_spec n k).
  - by rewrite Z.mul_pow2_bits_low.
  - rewrite <- (Z.mod_small b (2 ^ k)) by done. rewrite Z.testbit_mod_pow2 by lia.
    rewrite (proj2 (Z.ltb_ge n k)) by done. by rewrite andb_false_r.
Qed.

(** ** Lemmas on lists *)
Lemma Forall_app_mid {A} (P : A -> Prop) u a v : Forall P (u ++ a :: v) -> P a.
Proof. intros H. by apply Forall_app in H as [_ H%Forall_inv]. Qed.

Lemma length_pos {A} (l : list A) : l <> [] -> 1 <= length l.
Proof. destruct l; [done|simpl; lia]. Qed.

(** ** Lemmas on string operations *)
Lemma is_prefix_spec p s : is_prefix p s = true <-> exists t, s = p ++ t.
Proof.
  unfold is_prefix. rewrite bool_decide_eq_true. split.
  - intros H. exists (drop (length p) s). rewrite H at 1. by rewrite take_drop.
  - intros [t ->]. by rewrite take_app_length.
Qed.

Lemma is_prefix_app p s t : length p <= length s -> is_prefix p (s ++ t) = is_prefix p s.
Proof.
  intros H. unfold is_prefix. apply bool_decide_ext. rewrite take_app_le by lia. done.
Qed.

Lemma find_Some p s n :
  find p s = Some n ->
  exists u v, s = u ++ p ++ v /\ length u = n /\
    (forall i, i < n -> is_prefix p (drop i s) = false).
Proof.
  revert n. induction s as [|a s IH]; intros n; simpl;
    (destruct (is_prefix p _) eqn:E; [|]).
  - intros [= <-]. apply is_prefix_spec in E as [t ->]. exists [], t. split_and!; [done..|]. lia.
  - done.
  - intros [= <-]. apply is_prefix_spec in E as [t ->]. exists [], t. split_and!; [done..|]. lia.
  - destruct (find p s) as [k|] eqn:F; [|done]. simpl. intros [= <-].
    destruct (IH k eq_refl) as (u & v & -> & Hl & Hi).
    exists (a :: u), v. split_and!; [done|by rewrite <- Hl|].
    intros [|i] Hlt; [done|]. simpl. apply Hi. lia.
Qed.

Lemma find_Some_length p s n : find p s = Some n -> n + length p <= length s.
Proof. intros (u & v & -> & <- & _)%find_Some. rewrite !length_app. lia. Qed.

Lemma find_app p s t n : find p s = Some n -> find p (s ++ t) = Some n.
Proof.
  revert n. induction s as [|a s IH]; intros n; simpl.
  - destruct (is_prefix p []) eqn:E; [|done]. intros [= <-].
    apply is_prefix_spec in E as [u Hu]. destruct p; [|done].
    destruct t; reflexivity.
  - destruct (is_prefix p (a :: s)) eqn:E.
    + intros [= <-]. apply is_prefix_spec in E as [u Hu].
      assert (is_prefix p (a :: s ++ t) = true) as ->; [|done].
      apply is_prefix_spec. exists (u ++ t). by rewrite app_assoc, <- Hu.
    + destruct (find p s) as [k|] eqn:F; [|done]. simpl. intros [= <-].
      rewrite (IH _ eq_refl).
      assert (is_prefix p (a :: s ++ t) = false) as ->; [|done].
      change (a :: s ++ t) with ((a :: s) ++ t).
      rewrite is_prefix_app; [done|]. pose proof (find_Some_length _ _ _ F). simpl. lia.
Qed.

Lemma span_app f s : let '(p, r) := span f s in s = p ++ r.
Proof.
  induction s as [|a s IH]; simpl; [done|].
  destruct (f a); [|done]. destruct (span f s). simpl. by f_equal.
Qed.

Lemma span_all f p r :
  Forall (fun a => f a = true) p ->
  (forall a, head r = Some a -> f a = false) ->
  span f (p ++ r) = (p, r).
Proof.
  induction 1 as [|a p Ha Hp IH]; intros Hr; simpl.
  - destruct r as [|b r]; [done|]. simpl. by rewrite (Hr b).
  - by rewrite Ha, IH.
Qed.

(** ** Lemmas on printing and reading integers *)
Lemma digit_val_char d : (0 <= d < 16)%Z -> digit_val (digit_char d) = d.
Proof.
  intros H. assert (d = 0 \/ d = 1 \/ d = 2 \/ d = 3 \/ d = 4 \/ d = 5 \/ d = 6 \/ d = 7
    \/ d = 8 \/ d = 9 \/ d = 10 \/ d = 11 \/ d = 12 \/ d = 13 \/ d = 14 \/ d = 15)%Z as Hd by lia.
  repeat destruct Hd as [->|Hd]; [vm_compute; reflexivity..|]. by subst.
Qed.

Lemma digit_char_digit d : (0 <= d < 10)%Z -> is_digit (digit_char d) = true.
Proof.
  intros H. unfold digit_char. destruct (Z.ltb_spec d 10); [|lia].
  unfold is_digit, between. rewrite bz_zb_small by lia.
  apply andb_true_iff. split; apply Z.leb_le; lia.
Qed.

Lemma digit_char_xdigit d : (0 <= d < 16)%Z -> is_xdigit (digit_char d) = true.
Proof.
  intros H. assert (d = 0 \/ d = 1 \/ d = 2 \/ d = 3 \/ d = 4 \/ d = 5 \/ d = 6 \/ d = 7
    \/ d = 8 \/ d = 9 \/ d = 10 \/ d = 11 \/ d = 12 \/ d = 13 \/ d = 14 \/ d = 15)%Z as Hd by lia.
  repeat destruct Hd as [->|Hd]; [vm_compute; reflexivity..|]. by subst.
Qed.

Lemma digits_value_app base ds es :
  digits_value base (ds ++ es) =
  fold_left (fun acc d => acc * base + digit_val d)%Z es (digits_value base ds).
Proof. unfold digits_value. by rewrite fold_left_app. Qed.

(** The digits produced below an accumulator are worth [n] times the weight of
    the accumulator. *)
Lemma digits_spec fuel base n acc a0 :
  (2 <= base <= 16)%Z -> (0 <= n)%Z -> (n < 2 ^ Z.of_nat fuel)%Z ->
  fold_left (fun acc d => acc * base + digit_val d)%Z (digits fuel base n acc) a0 =
  fold_left (fun acc d => acc * base + digit_val d)%Z acc
    (if decide (fuel = 0%nat) then a0 else
     fold_left (fun acc d => acc * base + digit_val d)%Z (digits fuel base n []) a0)%Z.
Proof.
  intros Hb. revert n acc a0. induction fuel as [|f IH]; intros n acc a0 Hn Hlt; [done|].
  rewrite decide_False by done. simpl.
  destruct (Z.ltb_spec n base); [done|].
  assert (n / base < 2 ^ Z.of_nat f)%Z as Hlt'.
  { apply Z.div_lt_upper_bound; [lia|].
    rewrite Nat2Z.inj_succ, Z.pow_succ_r in Hlt by lia. nia. }
  assert (0 <= n / base)%Z by (apply Z.div_pos; lia).
  rewrite IH by lia. symmetry. rewrite IH by lia.
  destruct (decide (f = 0%nat)); [|done].
  subst. simpl in Hlt'.
  assert (1 <= n / base)%Z by (apply Z.div_le_lower_bound; lia). lia.
Qed.

Lemma digits_value_digits fuel base n :
  (2 <= base <= 16)%Z -> (0 <= n)%Z -> (n < 2 ^ Z.of_nat fuel)%Z -> fuel <> 0%nat ->
  digits_value base (digits fuel base n []) = n.
Proof.
  intros Hb. revert n. induction fuel as [|f IH]; intros n Hn Hlt Hf; [done|].
  simpl. pose proof (Z.mod_pos_bound n base).
  destruct (Z.ltb_spec n base) as [Hs|Hs].
  - unfold digits_value. simpl. rewrite digit_val_char by lia. rewrite Z.mod_small; lia.
  - assert (n / base < 2 ^ Z.of_nat f)%Z as Hlt'.
    { apply Z.div_lt_upper_bound; [lia|].
      rewrite Nat2Z.inj_succ, Z.pow_succ_r in Hlt by lia. nia. }
    assert (1 <= n / base)%Z by (apply Z.div_le_lower_bound; lia).
    assert (f <> 0%nat) by (intros ->; simpl in Hlt'; lia).
    unfold digits_value. rewrite digits_spec by lia. rewrite decide_False by done.
    fold (digits_value base (digits f base (n / base) [])).
    rewrite IH by (done || lia). simpl. rewrite digit_val_char by lia.
    pose proof (Z.div_mod n base). lia.
Qed.

Lemma log2_fuel n : (0 <= n)%Z -> (n < 2 ^ Z.of_nat (S (Z.to_nat (Z.log2 n))))%Z.
Proof.
  intros H. rewrite Nat2Z.inj_succ, Z2Nat.id by apply Z.log2_nonneg.
  destruct (Z.eq_dec n 0) as [->|]; [done|].
  apply (Z.log2_spec n). lia.
Qed.

(** Printing then reading a number gives it back. *)
Lemma print_nat_base_value base n :
  (2 <= base <= 16)%Z -> (0 <= n)%Z -> digits_value base (print_nat_base base n) = n.
Proof.
  intros. unfold print_nat_base. apply digits_value_digits; [done..| |done].
  by apply log2_fuel.
Qed.

Lemma digits_Forall (P : ascii -> Prop) fuel base n acc :
  (0 < base)%Z -> (forall d, (0 <= d < base)%Z -> P (digit_char d)) ->
  Forall P acc -> Forall P (digits fuel base n acc).
Proof.
  intros Hb HP. revert n acc. induction fuel as [|f IH]; intros n acc Ha; simpl; [done|].
  pose proof (Z.mod_pos_bound n base).
  destruct (_ <? _)%Z; [|apply IH]; constructor; auto; apply HP; lia.
Qed.

Lemma print_nat_base_digits n : Forall (fun a => is_digit a = true) (print_nat_base 10 n).
Proof. apply digits_Forall; [lia| |done]. apply digit_char_digit. Qed.

Lemma print_nat_base_xdigits n : Forall (fun a => is_xdigit a = true) (print_nat_base 16 n).
Proof. apply digits_Forall; [lia| |done]. apply digit_char_xdigit. Qed.

Lemma digits_nonempty fuel base n acc : digits (S fuel) base n acc <> [].
Proof.
  revert n acc. induction fuel as [|f IH]; intros n acc; simpl.
  - by destruct (_ <? _)%Z.
  - destruct (_ <? _)%Z; [done|]. apply IH.
Qed.

Lemma print_nat_base_nonempty base n : print_nat_base base n <> [].
Proof. apply digits_nonempty. Qed.

(** ** Orders on byte strings *)
Lemma bytes_compare_refl s : bytes_compare s s = Eq.
Proof. induction s; simpl; [done|]. by rewrite Z.compare_refl. Qed.

Lemma bytes_compare_eq s t : bytes_compare s t = Eq <-> s = t.
Proof.
  split; [|intros ->; apply bytes_compare_refl].
  revert t. induction s as [|a s IH]; intros [|b t]; simpl; try done.
  destruct (Z.compare_spec (bz a) (bz b)) as [E|E|E]; try done.
  intros H. f_equal; [by apply bz_inj|by apply IH].
Qed.

Lemma bytes_compare_antisym s t : bytes_compare t s = CompOpp (bytes_compare s t).
Proof.
  revert t. induction s as [|a s IH]; intros [|b t]; simpl; try done.
  rewrite (Z.compare_antisym (bz a) (bz b)).
  destruct (Z.compare (bz a) (bz b)); simpl; auto.
Qed.

Lemma bytes_compare_lt_trans s t u :
  bytes_compare s t = Lt -> bytes_compare t u = Lt -> bytes_compare s u = Lt.
Proof.
  revert t u. induction s as [|a s IH]; intros [|b t] [|c u]; simpl; try done.
  destruct (Z.compare_spec (bz a) (bz b)), (Z.compare_spec (bz b) (bz c)),
    (Z.compare_spec (bz a) (bz c)); try done; try lia.
  apply IH.
Qed.
