(* ===== verification/Boost.v ===== *)
(** * The Boost interface

    The code calls Boost.Regex, Boost.StringAlgo and Boost.LexicalCast.  Boost
    is not part of the repository, so it is a parameter of every definition that
    uses it: the class [Boost] collects the calls, and the class [BoostLaws]
    states the documented behaviour the code relies on, by comparison with the
    reference functions of [Module Perl] (leftmost match, greedy repetition with
    backtracking, [.] matching any byte, [^] and [$] at line boundaries).
    [perl_boost] instantiates the interface with the reference functions. *)
From S2P Require Import Prelude.

(** ** Regular expressions: the constructs the patterns of the code use *)
Inductive regex : Type :=
| RChr (a : ascii)                                    (* a literal byte *)
| RCls (f : ascii -> bool)                            (* [...], \s, \d or . *)
| RRep (f : ascii -> bool) (min : nat) (max : option nat)
                                                      (* greedy repetition of a class *)
| RStar (r : regex)                                   (* greedy ( ... )* *)
| RAlt (r1 r2 : regex)
| RSeq (r1 r2 : regex)
| RGrp (n : nat) (r : regex)                          (* capture group n *)
| RBol                                                (* ^ *)
| REol.                                               (* $ *)

(** Pattern notations, close to the concrete syntax. *)
Declare Scope regex_scope.
Delimit Scope regex_scope with regex.
Bind Scope regex_scope with regex.
Infix "·" := RSeq (at level 50, left associativity) : regex_scope.

Definition cls_plus (f : ascii -> bool) : regex := RRep f 1 None.
Definition cls_star (f : ascii -> bool) : regex := RRep f 0 None.
Definition cls_opt (f : ascii -> bool) : regex := RRep f 0 (Some 1).

Definition any (a : ascii) : bool := true.
Definition one_of (s : bytes) (a : ascii) : bool := bool_decide (a ∈ s).
Definition none_of (s : bytes) (a : ascii) : bool := bool_decide (a ∉ s).

(** A literal text. *)
Fixpoint rlit (s : bytes) (r : regex) : regex :=
  match s with
  | [] => r
  | a :: s' => RSeq (RChr a) (rlit s' r)
  end.

(** What a match reports: the text of each group (most recent first); the text of
    a group that did not take part is empty. *)
Abbreviation captures := (list (nat * bytes)).

Fixpoint group (n : nat) (c : captures) : bytes :=
  match c with
  | [] => []
  | (i, s) :: c' => if decide (i = n) then s else group n c'
  end.

(** A search reports the text before the match, the groups, the match itself and the text after. *)
Record search_result : Type := SearchResult {
  sr_prefix : bytes;
  sr_match : bytes;
  sr_groups : captures;
  sr_suffix : bytes
}.

Class Boost : Type := {
  regex_match : regex -> bytes -> option captures;
  regex_search : regex -> bytes -> option search_result;
  split_regex : regex -> bytes -> list bytes;
  to_lower_copy : bytes -> bytes;
  trim : bytes -> bytes;
  lexical_cast_uint : bytes -> option Z
}.

(** ** Reference semantics *)
Module Perl.

(** The position of the matcher: whether it is at the start of a line, what is
    left to read, and the groups closed so far. *)
Record state : Type := State { bol : bool; rest : bytes; caps : captures }.

Definition is_sep (a : ascii) : bool := one_of [LF; CR; zb 12] a.
Definition bol_after (b : bool) (w : bytes) : bool := foldl (fun _ a => is_sep a) b w.
#[global] Arguments bol_after : simpl never.

(** Greedy repetition of a class: try to take one more byte first, then to stop. *)
Fixpoint rep {R} (f : ascii -> bool) (min : nat) (max : option nat)
    (b : bool) (s : bytes) (c : captures) (k : state -> option R) {struct s} : option R :=
  match s with
  | a :: s' =>
      if f a && negb (bool_decide (max = Some 0)) then
        match rep f (pred min) (pred <$> max) (is_sep a) s' c k with
        | Some x => Some x
        | None => if decide (min = 0) then k (State b s c) else None
        end
      else if decide (min = 0) then k (State b s c) else None
  | [] => if decide (min = 0) then k (State b s c) else None
  end.

(** Backtracking matcher in continuation-passing style: [run r st k] is the first
    success of [k] over the ways [r] matches at [st], in priority order.  An
    iteration of [RStar] that consumes nothing ends the loop. *)
Fixpoint run {R} (r : regex) (st : state) (k : state -> option R) : option R :=
  match r with
  | RChr a =>
      match rest st with
      | x :: s' => if decide (x = a) then k (State (is_sep x) s' (caps st)) else None
      | [] => None
      end
  | RCls f =>
      match rest st with
      | x :: s' => if f x then k (State (is_sep x) s' (caps st)) else None
      | [] => None
      end
  | RRep f min max => rep f min max (bol st) (rest st) (caps st) k
  | RStar r =>
      (fix loop (fuel : nat) (st : state) : option R :=
         match fuel with
         | O => k st
         | S n =>
             match run r st (fun st' =>
               if decide (length (rest st') < length (rest st)) then loop n st' else None) with
             | Some x => Some x
             | None => k st
             end
         end) (length (rest st)) st
  | RAlt r1 r2 => match run r1 st k with Some x => Some x | None => run r2 st k end
  | RSeq r1 r2 => run r1 st (fun st' => run r2 st' k)
  | RGrp n r =>
      run r st (fun st' =>
        k (State (bol st') (rest st')
             ((n, take (length (rest st) - length (rest st')) (rest st)) :: caps st')))
  | RBol => if bol st then k st else None
  | REol =>
      match rest st with
      | [] => k st
      | x :: _ => if is_sep x then k st else None
      end
  end.

(** [boost::regex_match]: the whole text must match. *)
Definition full_match (re : regex) (s : bytes) : option captures :=
  run re (State true s []) (fun st =>
    match rest st with [] => Some (caps st) | _ :: _ => None end).

Definition match_here (re : regex) (b : bool) (s : bytes) : option (captures * bytes) :=
  run re (State b s []) (fun st => Some (caps st, rest st)).

(** [boost::regex_search]: the leftmost position where the pattern matches. *)
Fixpoint search_from (re : regex) (b : bool) (pre s : bytes) : option search_result :=
  match match_here re b s with
  | Some (c, suffix) =>
      Some (SearchResult (rev pre) (take (length s - length suffix) s) c suffix)
  | None =>
      match s with
      | [] => None
      | a :: s' => search_from re (is_sep a) (a :: pre) s'
      end
  end.
Definition search (re : regex) (s : bytes) : option search_result := search_from re true [] s.

(** [boost::split_regex]: the texts between successive matches; at least one token. *)
Fixpoint split_fuel (fuel : nat) (re : regex) (s : bytes) : list bytes :=
  match fuel with
  | O => [s]
  | S n =>
      match search re s with
      | Some r => sr_prefix r :: split_fuel n re (sr_suffix r)
      | None => [s]
      end
  end.
Definition split (re : regex) (s : bytes) : list bytes := split_fuel (length s) re s.

(** [boost::to_lower_copy] and [boost::trim] in the classic locale. *)
Definition lower (s : bytes) : bytes := tolower <$> s.
Definition trim_left (s : bytes) : bytes := (span is_space s).2.
Definition trim_both (s : bytes) : bytes := rev (trim_left (rev (trim_left s))).

(** [boost::lexical_cast<unsigned int>]: an optional sign and decimal digits, the
    whole text and nothing else; a value above [UINT_MAX] is refused, and a
    negative number is taken modulo 2^32 as an unsigned conversion does. *)
Definition cast_digits (ds : bytes) : option Z :=
  if bool_decide (ds = []) || negb (forallb is_digit ds) then None
  else let v := digits_value 10 ds in if (v <? 2 ^ 32)%Z then Some v else None.
Definition cast_uint (s : bytes) : option Z :=
  match s with
  | a :: s' =>
      if decide (a = "-"%char) then (fun v => u32 (- v)) <$> cast_digits s'
      else if decide (a = "+"%char) then cast_digits s'
      else cast_digits s
  | [] => None
  end.

End Perl.

(** The documented behaviour the code relies on. *)
Class BoostLaws (B : Boost) : Prop := {
  regex_match_law : forall re s, regex_match re s = Perl.full_match re s;
  regex_search_law : forall re s, regex_search re s = Perl.search re s;
  split_regex_law : forall re s, split_regex re s = Perl.split re s;
  to_lower_copy_law : forall s, to_lower_copy s = Perl.lower s;
  trim_law : forall s, trim s = Perl.trim_both s;
  lexical_cast_law : forall s, lexical_cast_uint s = Perl.cast_uint s
}.

(** A concrete Boost: the reference functions themselves. *)
Definition perl_boost : Boost := {|
  regex_match := Perl.full_match;
  regex_search := Perl.search;
  split_regex := Perl.split;
  to_lower_copy := Perl.lower;
  trim := Perl.trim_both;
  lexical_cast_uint := Perl.cast_uint
|}.

Lemma perl_boost_laws : BoostLaws perl_boost.
Proof. by split. Qed.

(** ** Lemmas on the reference semantics *)
Import Perl.

Lemma one_of_true s a : a ∈ s -> one_of s a = true.
Proof. intros. by apply bool_decide_eq_true. Qed.

Lemma none_of_spec s a : none_of s a = true <-> a ∉ s.
Proof. apply bool_decide_eq_true. Qed.

Lemma bol_after_cons b a w : bol_after b (a :: w) = bol_after (is_sep a) w.
Proof. done. Qed.

(** A greedy repetition over a run of class bytes that cannot be extended: if the
    continuation fails inside the run, the repetition takes exactly the run. *)
Lemma rep_exact {R} f min max b w t c (k : state -> option R) :
  Forall (fun a => f a = true) w ->
  (match t with a :: _ => f a = false | [] => True end) ->
  min <= length w ->
  (match max with Some m => length w <= m | None => True end) ->
  (forall u v b' c', w = u ++ v -> v <> [] -> min <= length u -> k (State b' (v ++ t) c') = None) ->
  rep f min max b (w ++ t) c k = k (State (bol_after b w) t c).
Proof.
  intros Hw Ht. revert min max b. induction Hw as [|a w Ha Hw IH]; intros min max b Hmin Hmax Hk.
  - simpl in *. assert (min = 0) as -> by lia.
    destruct t as [|x t]; simpl; [done|]. by rewrite Ht.
  - assert (negb (bool_decide (max = Some 0)) = true) as Hm.
    { destruct max as [[|m]|]; simpl in *; [lia|done|done]. }
    assert (min = 0 -> k (State b (a :: w ++ t) c) = None) as Hka.
    { intros ->. by apply (Hk [] (a :: w)); [..|simpl; lia]. }
    simpl. rewrite Ha, Hm. simpl. rewrite IH; simpl in *.
    + rewrite bol_after_cons. destruct (k (State (bol_after (is_sep a) w) t c)); [done|].
      destruct (decide (min = 0)); [by apply Hka|done].
    + lia.
    + destruct max as [[|m]|]; simpl in *; [lia|lia|done].
    + intros u v b' c' -> Hv Hl. apply (Hk (a :: u) v); [done..|]. simpl. lia.
Qed.

(** Greedy repetition when nothing of the class follows. *)
Lemma rep_none {R} f max b t c (k : state -> option R) :
  (match t with a :: _ => f a = false | [] => True end) ->
  rep f 0 max b t c k = k (State b t c).
Proof. destruct t as [|a t]; simpl; [done|]. by intros ->. Qed.

(** [.*] (or any class all of whose bytes match) backtracks from the end: it
    takes [w] when every longer choice fails and the choice [w] succeeds. *)
Lemma rep_longest {R} f b w t c (k : state -> option R) x :
  Forall (fun a => f a = true) (w ++ t) ->
  k (State (bol_after b w) t c) = Some x ->
  (forall u v b', t = u ++ v -> u <> [] -> k (State b' v c) = None) ->
  rep f 0 None b (w ++ t) c k = Some x.
Proof.
  revert b. induction w as [|a w IH]; intros b Hall Hk Hfail; simpl in *.
  - clear -Hall Hk Hfail.
    destruct t as [|a t]; simpl; [done|]. inversion_clear Hall as [|? ? Ha Ht].
    rewrite Ha. simpl.
    assert (forall b', rep f 0 None b' t c k = None) as ->; [|done].
    assert (forall u v b', t = u ++ v -> k (State b' v c) = None) as Hf.
    { intros u v b' ->. by apply (Hfail (a :: u) v). }
    clear Hk Hfail. induction Ht as [|z t Hz Ht IH]; intros b'; simpl.
    + by apply (Hf [] []).
    + rewrite Hz. simpl. rewrite IH.
      * by apply (Hf [] (z :: t)).
      * intros u v b2 ->. by apply (Hf (z :: u) v).
  - inversion_clear Hall as [|? ? Ha Ht]. rewrite Ha. simpl.
    by rewrite (IH (is_sep a)).
Qed.

(** A literal text at the head of the input is consumed. *)
Lemma run_rlit {R} s r b t c (k : state -> option R) :
  run (rlit s r) (State b (s ++ t) c) k = run r (State (bol_after b s) t c) k.
Proof.
  revert b. induction s as [|a s IH]; intros b; simpl; [done|].
  rewrite decide_True by done. apply IH.
Qed.

Lemma run_rlit_fail {R} s r b t c (k : state -> option R) :
  is_prefix s t = false -> run (rlit s r) (State b t c) k = None.
Proof.
  revert b t. induction s as [|a s IH]; intros b t Hp; simpl.
  - assert (is_prefix [] t = true) by (apply is_prefix_spec; by exists t). congruence.
  - destruct t as [|x t]; [done|]. case_decide; [subst|done]. apply IH.
    destruct (is_prefix s t) eqn:E; [|done].
    apply is_prefix_spec in E as [u ->].
    assert (is_prefix (a :: s) (a :: s ++ u) = true) by (apply is_prefix_spec; by exists u).
    congruence.
Qed.

(** The text a closed group reports. *)
Lemma take_consumed (w t : bytes) : take (length (w ++ t) - length t) (w ++ t) = w.
Proof. rewrite length_app, Nat.add_sub. apply take_app_length. Qed.

(** [trim] leaves a text without outer white space alone. *)
Lemma trim_left_id a s : is_space a = false -> trim_left (a :: s) = a :: s.
Proof. intros H. unfold trim_left. simpl. by rewrite H. Qed.

Lemma trim_both_id s :
  (forall a, head s = Some a -> is_space a = false) ->
  (forall a, last s = Some a -> is_space a = false) ->
  trim_both s = s.
Proof.
  intros Hh Hl. unfold trim_both. destruct s as [|a s]; [done|].
  rewrite trim_left_id by (by apply Hh).
  destruct (rev (a :: s)) as [|x r] eqn:E.
  - apply (f_equal length) in E. by rewrite length_rev in E.
  - rewrite trim_left_id; [by rewrite <- E, rev_involutive|].
    apply Hl. rewrite <- (rev_involutive (a :: s)), E. simpl.
    by rewrite last_snoc.
Qed.

Lemma cast_digits_print n :
  (0 <= n < 2 ^ 32)%Z -> cast_digits (print_nat_base 10 n) = Some n.
Proof.
  intros H. unfold cast_digits. rewrite bool_decide_eq_false_2 by apply print_nat_base_nonempty.
  assert (forallb is_digit (print_nat_base 10 n) = true) as ->.
  { apply forallb_forall. intros x Hx. pose proof (print_nat_base_digits n) as HF.
    rewrite Forall_forall in HF. apply HF. by apply list_elem_of_In. }
  simpl. rewrite print_nat_base_value by lia.
  by destruct (Z.ltb_spec n (2 ^ 32)); [|lia].
Qed.

(** A printed unsigned number is read back by [lexical_cast]. *)
Lemma cast_uint_print n : (0 <= n < 2 ^ 32)%Z -> cast_uint (print_Z n) = Some n.
Proof.
  intros H. unfold print_Z. destruct (Z.ltb_spec n 0); [lia|].
  pose proof (print_nat_base_digits n) as HF. rewrite <- (cast_digits_print n) by done.
  unfold cast_uint. destruct (print_nat_base 10 n) as [|a s]; [done|].
  inversion_clear HF as [|? ? Ha _].
  rewrite !decide_False; [done|intros ->; done..].
Qed.

(** ** Running a pattern piece by piece *)

(** The continuation fails on every text that starts inside the run of the class. *)
Definition fails_on {R} (f : ascii -> bool) (k : state -> option R) : Prop :=
  forall b a s c, f a = true -> k (State b (a :: s) c) = None.

Lemma rep_run {R} f min max b w t c (k : state -> option R) :
  Forall (fun a => f a = true) w ->
  (match t with a :: _ => f a = false | [] => True end) ->
  min <= length w ->
  (match max with Some m => length w <= m | None => True end) ->
  fails_on f k ->
  rep f min max b (w ++ t) c k = k (State (bol_after b w) t c).
Proof.
  intros Hw Ht Hmin Hmax Hk. apply rep_exact; [done..|].
  intros u v b' c' -> Hv _. destruct v as [|a v]; [done|]. apply Hk. by apply Forall_app_mid in Hw.
Qed.

Lemma run_grp_rep {R} n f min max b w t c (k : state -> option R) :
  Forall (fun a => f a = true) w ->
  (match t with a :: _ => f a = false | [] => True end) ->
  min <= length w ->
  (match max with Some m => length w <= m | None => True end) ->
  (forall w', fails_on f (fun st => k (State (bol st) (rest st) ((n, w' (rest st)) :: caps st)))) ->
  run (RGrp n (RRep f min max)) (State b (w ++ t) c) k
  = k (State (bol_after b w) t ((n, w) :: c)).
Proof.
  intros Hw Ht Hmin Hmax Hk. cbn [run bol rest caps]. rewrite rep_run; [|done..|].
  - cbn [bol rest caps]. by rewrite take_consumed.
  - apply (Hk (fun x => take (length (w ++ t) - length x) (w ++ t))).
Qed.

Lemma run_seq {R} r1 r2 st (k : state -> option R) :
  run (r1 · r2)%regex st k = run r1 st (fun st' => run r2 st' k).
Proof. done. Qed.
Lemma run_bol {R} s c (k : state -> option R) : run RBol (State true s c) k = k (State true s c).
Proof. done. Qed.
Lemma run_grp {R} n r b s c (k : state -> option R) :
  run (RGrp n r) (State b s c) k = run r (State b s c) (fun st => k (State (bol st) (rest st)
             ((n, take (length s - length (rest st)) s) :: caps st))).
Proof. done. Qed.
Lemma run_chr {R} a b s c (k : state -> option R) :
  run (RChr a) (State b (a :: s) c) k = k (State (is_sep a) s c).
Proof. cbn. by rewrite decide_True. Qed.
Lemma run_chr_ne {R} a x b s c (k : state -> option R) :
  x <> a -> run (RChr a) (State b (x :: s) c) k = None.
Proof. intros. cbn. by rewrite decide_False. Qed.
Lemma run_rep {R} f min max b w t c (k : state -> option R) :
  Forall (fun a => f a = true) w ->
  (match t with a :: _ => f a = false | [] => True end) ->
  min <= length w ->
  (match max with Some m => length w <= m | None => True end) ->
  fails_on f k ->
  run (RRep f min max) (State b (w ++ t) c) k = k (State (bol_after b w) t c).
Proof. apply rep_run. Qed.

Lemma run_rep_exact {R} f min max b w t c (k : state -> option R) :
  Forall (fun a => f a = true) w ->
  (match t with a :: _ => f a = false | [] => True end) ->
  min <= length w ->
  (match max with Some m => length w <= m | None => True end) ->
  (forall u v b' c', w = u ++ v -> v <> [] -> min <= length u -> k (State b' (v ++ t) c') = None) ->
  run (RRep f min max) (State b (w ++ t) c) k = k (State (bol_after b w) t c).
Proof. apply rep_exact. Qed.

Lemma run_rep_any {R} f b w t c (k : state -> option R) x :
  Forall (fun a => f a = true) (w ++ t) ->
  k (State (bol_after b w) t c) = Some x ->
  (forall u v b', t = u ++ v -> u <> [] -> k (State b' v c) = None) ->
  run (RRep f 0 None) (State b (w ++ t) c) k = Some x.
Proof. apply rep_longest. Qed.

(** A repetition none of whose choices can be continued fails. *)
Lemma rep_fail {R} f min max b s c (k : state -> option R) :
  (forall u v b', s = u ++ v -> k (State b' v c) = None) -> rep f min max b s c k = None.
Proof.
  revert min max b. induction s as [|a s IH]; intros min max b Hk; simpl.
  - case_decide; [|done]. by apply (Hk []).
  - assert (k (State b (a :: s) c) = None) as Ha by by apply (Hk []).
    destruct (_ && _); [|by case_decide].
    rewrite IH; [by case_decide|]. intros u v b' ->. by apply (Hk (a :: u)).
Qed.

(** The first choice of a greedy repetition is the longest one. *)
Lemma rep_greedy {R} f min b w t c (k : state -> option R) x :
  Forall (fun a => f a = true) w -> min <= length w ->
  (match t with a :: _ => f a = false | [] => True end) ->
  k (State (bol_after b w) t c) = Some x ->
  rep f min None b (w ++ t) c k = Some x.
Proof.
  intros Hw Hl Ht. revert min Hl b. induction Hw as [|a w Ha Hw IH]; intros min Hl b Hk; simpl in *.
  - assert (min = 0) as -> by lia. by rewrite rep_none.
  - rewrite Ha. simpl. rewrite IH; [done|lia|done].
Qed.

Lemma run_grp_greedy {R} n f min b w t c (k : state -> option R) x :
  Forall (fun a => f a = true) w -> min <= length w ->
  (match t with a :: _ => f a = false | [] => True end) ->
  k (State (bol_after b w) t ((n, w) :: c)) = Some x ->
  run (RGrp n (RRep f min None)) (State b (w ++ t) c) k = Some x.
Proof.
  intros Hw Hl Ht Hk. cbn [run bol rest caps]. apply rep_greedy; [done..|].
  cbn [bol rest caps]. by rewrite take_consumed.
Qed.

Lemma run_greedy {R} f min b w t c (k : state -> option R) x :
  Forall (fun a => f a = true) w -> min <= length w ->
  (match t with a :: _ => f a = false | [] => True end) ->
  k (State (bol_after b w) t c) = Some x ->
  run (RRep f min None) (State b (w ++ t) c) k = Some x.
Proof. apply rep_greedy. Qed.

(** An optional byte that is there is taken. *)
Lemma rep_max0 {R} f b s c (k : state -> option R) : rep f 0 (Some 0) b s c k = k (State b s c).
Proof. destruct s as [|a s]; simpl; [done|]. by destruct (f a). Qed.

Lemma run_opt_taken {R} f a b s c (k : state -> option R) x :
  f a = true -> k (State (is_sep a) s c) = Some x ->
  run (RRep f 0 (Some 1)) (State b (a :: s) c) k = Some x.
Proof. intros Ha Hk. simpl. rewrite Ha. simpl. by rewrite rep_max0, Hk. Qed.

Lemma run_opt_none {R} f b s c (k : state -> option R) :
  (match s with a :: _ => f a = false | [] => True end) ->
  run (RRep f 0 (Some 1)) (State b s c) k = k (State b s c).
Proof. intros. by apply rep_none. Qed.

(** Only the choices within the class matter. *)
Lemma rep_fail_class {R} f min max b w t c (k : state -> option R) :
  (match t with a :: _ => f a = false | [] => True end) ->
  (forall u v b', w = u ++ v -> k (State b' (v ++ t) c) = None) ->
  rep f min max b (w ++ t) c k = None.
Proof.
  intros Ht. revert min max b. induction w as [|a w IH]; intros min max b Hk; simpl.
  - destruct t as [|x t]; simpl; [|rewrite Ht; simpl]; (case_decide; [|done]); by apply (Hk [] []).
  - assert (k (State b (a :: w ++ t) c) = None) as Ha by by apply (Hk [] (a :: w)).
    destruct (_ && _); [|by case_decide].
    rewrite IH; [by case_decide|]. intros u v b' ->. by apply (Hk (a :: u)).
Qed.

(** Advance to the next piece of a pattern; a piece that starts with a literal byte
    fails inside the run of a class that does not contain it. *)
Ltac rx := unfold cls_plus, cls_star, cls_opt; cbv beta; cbn [bol rest caps]; rewrite ?run_seq.
Ltac chr_fails := unfold fails_on; intros; cbn [bol rest caps]; rewrite ?run_seq; apply run_chr_ne; intros ->; done.
