(* ===== verification/StdMap.v ===== *)
(** * Ordered maps: [std::map] with the comparators of [ehstypes.h]

    A [std::map] is the list of its entries in iteration order.  Both
    comparators the code uses compare a normal form of the keys (the key itself
    for [std::string], the lower-cased C string for [__caseless]), so the
    operations are parametrised by the function computing that normal form. *)
From S2P Require Import Prelude.

Section ordered_map.
Context {V : Type} (norm : bytes -> bytes).

Abbreviation map := (list (bytes * V)).

(** [operator()] of the comparator, three-way. *)
Definition kcmp (a b : bytes) : comparison := bytes_compare (norm a) (norm b).

(** [m.find(k)]; [None] is [m.end()]. *)
Fixpoint m_find (k : bytes) (m : map) : option V :=
  match m with
  | [] => None
  | (k', v) :: m' => match kcmp k k' with Eq => Some v | _ => m_find k m' end
  end.

(** [m[k] = v]: an equivalent key keeps its spelling. *)
Fixpoint m_set (k : bytes) (v : V) (m : map) : map :=
  match m with
  | [] => [(k, v)]
  | (k', v') :: m' =>
      match kcmp k k' with
      | Eq => (k', v) :: m'
      | Lt => (k, v) :: (k', v') :: m'
      | Gt => (k', v') :: m_set k v m'
      end
  end.

(** [m.erase(k)]. *)
Fixpoint m_erase (k : bytes) (m : map) : map :=
  match m with
  | [] => []
  | (k', v) :: m' => match kcmp k k' with Eq => m' | _ => (k', v) :: m_erase k m' end
  end.

(** [m[k]] as a value: the entry is created with the default value when absent. *)
Definition m_ref (dflt : V) (k : bytes) (m : map) : V * map :=
  match m_find k m with
  | Some v => (v, m)
  | None => (dflt, m_set k dflt m)
  end.

(** The representation invariant: strictly increasing keys. *)
Fixpoint m_sorted (m : map) : Prop :=
  match m with
  | [] => True
  | (k, _) :: m' =>
      match m' with [] => True | (k', _) :: _ => kcmp k k' = Lt end /\ m_sorted m'
  end.

(** ** Lemmas *)
Lemma kcmp_refl k : kcmp k k = Eq.
Proof. apply bytes_compare_refl. Qed.

Lemma kcmp_eq a b : kcmp a b = Eq <-> norm a = norm b.
Proof. apply bytes_compare_eq. Qed.

Lemma kcmp_antisym a b : kcmp b a = CompOpp (kcmp a b).
Proof. apply bytes_compare_antisym. Qed.

Lemma kcmp_lt_trans a b c : kcmp a b = Lt -> kcmp b c = Lt -> kcmp a c = Lt.
Proof. apply bytes_compare_lt_trans. Qed.

Lemma kcmp_ne a b : norm a <> norm b -> kcmp a b <> Eq.
Proof. by rewrite kcmp_eq. Qed.

Lemma m_find_norm k k' m : norm k = norm k' -> m_find k m = m_find k' m.
Proof.
  intros H. induction m as [|[k2 v] m IH]; simpl; [done|].
  unfold kcmp. by rewrite H, IH.
Qed.

Lemma m_find_set k v m : m_find k (m_set k v m) = Some v.
Proof.
  induction m as [|[k' v'] m IH]; simpl.
  - by rewrite kcmp_refl.
  - destruct (kcmp k k') eqn:E; simpl.
    + by rewrite E.
    + by rewrite kcmp_refl.
    + by rewrite E.
Qed.

Lemma m_find_set_eq k k' v m : norm k = norm k' -> m_find k' (m_set k v m) = Some v.
Proof. intros H. rewrite <- (m_find_norm k k') by done. apply m_find_set. Qed.

Lemma m_find_set_ne k k' v m :
  norm k <> norm k' -> m_find k' (m_set k v m) = m_find k' m.
Proof.
  intros H. induction m as [|[k2 v2] m IH]; simpl.
  - destruct (kcmp k' k) eqn:E; [|done..]. by apply kcmp_eq in E.
  - destruct (kcmp k k2) eqn:E; simpl.
    + apply kcmp_eq in E. destruct (kcmp k' k2) eqn:E2; [|done..].
      apply kcmp_eq in E2. congruence.
    + destruct (kcmp k' k) eqn:E2; [|done..]. apply kcmp_eq in E2. congruence.
    + by rewrite IH.
Qed.

Lemma m_find_ref d k m : m_find k (m_ref d k m).2 = Some (m_ref d k m).1.
Proof.
  unfold m_ref. destruct (m_find k m) eqn:E; simpl; [done|]. apply m_find_set.
Qed.

(** Heads of the results, for the invariant. *)
Lemma m_set_sorted k v m : m_sorted m -> m_sorted (m_set k v m).
Proof.
  induction m as [|[k' v'] m IH]; simpl; [done|]. intros [Hhd Hs].
  destruct (kcmp k k') eqn:E; simpl.
  - done.
  - done.
  - split; [|by apply IH].
    assert (kcmp k' k = Lt) as Hlt by (by rewrite kcmp_antisym, E).
    destruct m as [|[k2 v2] m]; simpl; [done|].
    by destruct (kcmp k k2).
Qed.

Lemma m_sorted_lb k v m k' v' :
  m_sorted ((k, v) :: m) -> (k', v') ∈ m -> kcmp k k' = Lt.
Proof.
  revert k v. induction m as [|[k2 v2] m IH]; intros k v [Hhd Hs] Hin; [by apply not_elem_of_nil in Hin|].
  apply elem_of_cons in Hin as [[= -> ->]|Hin]; [done|].
  eapply kcmp_lt_trans; [done|]. by apply (IH k2 v2).
Qed.

Lemma m_find_elem k m v : m_find k m = Some v -> exists k', (k', v) ∈ m /\ norm k = norm k'.
Proof.
  induction m as [|[k' v'] m IH]; simpl; [done|].
  destruct (kcmp k k') eqn:E.
  - intros [= ->]. exists k'. split; [left|by apply kcmp_eq].
  - intros (k2 & ? & ?)%IH. exists k2. split; [by right|done].
  - intros (k2 & ? & ?)%IH. exists k2. split; [by right|done].
Qed.

Lemma m_erase_sorted k m : m_sorted m -> m_sorted (m_erase k m).
Proof.
  induction m as [|[k' v'] m IH]; simpl; [done|]. intros [Hhd Hs].
  assert (forall hd, match m_erase k m with [] => True | (k2, _) :: _ => kcmp hd k2 = Lt end
    \/ hd <> k') as Haux.
  { intros hd. destruct (decide (hd = k')) as [->|]; [left|by right].
    destruct (m_erase k m) as [|[k2 v2] m2] eqn:Em; [done|].
    apply (m_sorted_lb k' v' m k2 v2); [done|].
    assert (forall x, x ∈ m_erase k m -> x ∈ m) as Hsub.
    { clear. intros x. induction m as [|[a b] m IH]; simpl; [done|].
      destruct (kcmp k a); rewrite ?elem_of_cons; [by right|tauto|tauto]. }
    apply Hsub. rewrite Em. left. }
  destruct (kcmp k k'); [done| |]; (split; [by destruct (Haux k')|by apply IH]).
Qed.

Lemma m_find_erase k m : m_sorted m -> m_find k (m_erase k m) = None.
Proof.
  induction m as [|[k' v'] m IH]; intros Hm; [done|].
  pose proof Hm as [_ Hs]. simpl.
  destruct (kcmp k k') eqn:E; simpl; rewrite ?E; auto.
  destruct (m_find k m) eqn:F; [|done]. exfalso.
  apply m_find_elem in F as (k2 & Hin & Hn).
  pose proof (m_sorted_lb _ _ _ _ _ Hm Hin) as Hlt.
  apply kcmp_eq in E. unfold kcmp in Hlt.
  rewrite <- E, Hn, bytes_compare_refl in Hlt. done.
Qed.

Lemma m_find_erase_ne k k' m :
  norm k <> norm k' -> m_find k' (m_erase k m) = m_find k' m.
Proof.
  intros H. induction m as [|[k2 v2] m IH]; simpl; [done|].
  destruct (kcmp k k2) eqn:E; simpl; rewrite ?IH; [|done..].
  apply kcmp_eq in E. destruct (kcmp k' k2) eqn:E2; [|done..].
  apply kcmp_eq in E2. congruence.
Qed.

End ordered_map.

(** ** The two key orders *)

(** [std::less<std::string>] *)
Definition str_key (s : bytes) : bytes := s.
(** [__caseless]: [strcasecmp(s1.c_str(), s2.c_str()) < 0] *)
Definition caseless (s : bytes) : bytes := tolower <$> c_str s.

Abbreviation StringMap := (list (bytes * bytes)).
Abbreviation StringCaseMap := (list (bytes * bytes)).

Abbreviation sm_find := (m_find str_key).
Abbreviation sm_set := (m_set str_key).
Abbreviation sm_erase := (m_erase str_key).
Abbreviation sm_ref := (m_ref str_key).
Abbreviation scm_find := (m_find caseless).
Abbreviation scm_set := (m_set caseless).
Abbreviation scm_erase := (m_erase caseless).
Abbreviation scm_ref := (m_ref caseless).
Abbreviation scm_sorted := (m_sorted caseless).

(** [strcasecmp] decides whether two header names are the same key. *)
Lemma strcasecmp_caseless s t : strcasecmp s t = kcmp caseless s t.
Proof. done. Qed.
