(* ===== verification/Datum.v ===== *)
(** * [Datum]: a scalar held as text (datum.cpp, datum.h)

    The number conversions go through the C library's [sprintf], [strtoul],
    [atol] and [atoi] on a 64-bit [long]; [double] is in DatumDouble. *)
From S2P Require Import Prelude.

Record Datum : Type := MkDatum { sDatum : bytes }.

(** [Datum()] *)
Definition datum_empty : Datum := MkDatum [].

(** The assignment operators.  A [char *] stops at the first NUL. *)
Definition assign_unsigned_long (n : Z) : Datum := MkDatum (print_Z n).
Definition assign_long (n : Z) : Datum := MkDatum (print_Z n).
Definition assign_unsigned_int (n : Z) : Datum := MkDatum (print_Z n).
Definition assign_int (n : Z) : Datum := MkDatum (print_Z n).
Definition assign_string (s : bytes) : Datum := MkDatum s.
Definition assign_cstr (s : bytes) : Datum := MkDatum (c_str s).
Definition assign_datum (d : Datum) : Datum := MkDatum (sDatum d).

(** *** The C library's readers *)

(** White space, sign and digits of a numeral: sign and magnitude. *)
Definition scan_number (s : bytes) : bool * Z :=
  let '(_, s1) := span is_space (c_str s) in
  let '(neg, s2) :=
    match s1 with
    | a :: s' => if decide (a = "-"%char) then (true, s')
                 else if decide (a = "+"%char) then (false, s') else (false, s1)
    | [] => (false, [])
    end in
  let '(ds, _) := span is_digit s2 in
  (neg, digits_value 10 ds).

(** [strtoul(s, NULL, 10)]: saturates at [ULONG_MAX], negates modulo 2^64. *)
Definition strtoul (s : bytes) : Z :=
  let '(neg, v) := scan_number s in
  if (2 ^ 64 <=? v)%Z then 2 ^ 64 - 1 else if neg then u64 (- v) else v.

(** [strtol(s, NULL, 10)]: saturates at both ends. *)
Definition strtol (s : bytes) : Z :=
  let '(neg, v) := scan_number s in
  let x := if neg then (- v)%Z else v in
  Z.max (- 2 ^ 63) (Z.min (2 ^ 63 - 1) x).

Definition atol (s : bytes) : Z := strtol s.
(** [atoi] is [(int) strtol(...)]. *)
Definition atoi (s : bytes) : Z := i32 (strtol s).

(** The conversion operators. *)
Definition to_unsigned_long (d : Datum) : Z := strtoul (sDatum d).
Definition to_long (d : Datum) : Z := atol (sDatum d).
Definition to_int (d : Datum) : Z := atoi (sDatum d).
Definition to_string (d : Datum) : bytes := sDatum d.
Definition GetCharString (d : Datum) : bytes := c_str (sDatum d).
Definition GetInt (d : Datum) : Z := to_int d.

(** The comparison operators. *)
Definition datum_eq (d : Datum) (s : bytes) : bool := bool_decide (sDatum d = c_str s).
Definition datum_ne_int (d : Datum) (n : Z) : bool := negb (to_int d =? n)%Z.
Definition datum_ne (d : Datum) (s : bytes) : bool :=
  match strcasecmp (GetCharString d) s with Eq => false | _ => true end.

(** ** Lemmas *)
Lemma c_str_id s : Forall (fun a => a <> NUL) s -> c_str s = s.
Proof. induction 1 as [|a s Ha _ IH]; simpl; [done|]. rewrite decide_False by done. by f_equal. Qed.

Lemma digits_no_nul ds : Forall (fun a => is_digit a = true) ds -> c_str ds = ds.
Proof. intros H. apply c_str_id. eapply Forall_impl; [done|]. intros a Ha ->. done. Qed.

Lemma print_digits_scan n :
  (0 <= n)%Z -> scan_number (print_nat_base 10 n) = (false, n).
Proof.
  intros Hn. pose proof (print_nat_base_digits n) as HF.
  pose proof (print_nat_base_value 10 n ltac:(lia) Hn) as Hv.
  pose proof (print_nat_base_nonempty 10 n) as Hne.
  unfold scan_number. rewrite digits_no_nul by done.
  destruct (print_nat_base 10 n) as [|a ds]; [done|].
  assert (is_space a = false) as Hsp.
  { apply negb_true_iff, digit_not_space. by inversion HF. }
  simpl. rewrite Hsp.
  inversion_clear HF as [|? ? Ha Hds].
  rewrite !decide_False by (intros ->; done).
  rewrite <- (app_nil_r (a :: ds)), span_all by (first [done | by constructor]).
  by rewrite Hv.
Qed.

Lemma print_neg_scan n :
  (n < 0)%Z -> scan_number (print_Z n) = (true, (- n)%Z).
Proof.
  intros Hn. unfold print_Z. destruct (Z.ltb_spec n 0); [|lia].
  pose proof (print_nat_base_digits (- n)) as HF.
  pose proof (print_nat_base_value 10 (- n) ltac:(lia) ltac:(lia)) as Hv.
  unfold scan_number. simpl. rewrite digits_no_nul by done. simpl.
  rewrite <- (app_nil_r (print_nat_base 10 (- n))), span_all by done.
  by rewrite Hv.
Qed.

Lemma print_scan n :
  scan_number (print_Z n) = if (n <? 0)%Z then (true, (- n)%Z) else (false, n).
Proof.
  destruct (Z.ltb_spec n 0).
  - by apply print_neg_scan.
  - unfold print_Z. destruct (Z.ltb_spec n 0); [lia|]. by apply print_digits_scan.
Qed.

Lemma strtoul_print n : (0 <= n < 2 ^ 64)%Z -> strtoul (print_Z n) = n.
Proof.
  intros H. unfold strtoul. rewrite print_scan.
  destruct (Z.ltb_spec n 0); [lia|]. destruct (Z.leb_spec (2 ^ 64) n); lia.
Qed.

Lemma strtol_print n : (- 2 ^ 63 <= n < 2 ^ 63)%Z -> strtol (print_Z n) = n.
Proof.
  intros H. unfold strtol. rewrite print_scan. destruct (Z.ltb_spec n 0); lia.
Qed.

Lemma i32_id n : (- 2 ^ 31 <= n < 2 ^ 31)%Z -> i32 n = n.
Proof.
  intros H. unfold i32, signed.
  destruct (Z.ltb_spec (n `mod` 2 ^ 32) (2 ^ (32 - 1))) as [Hl|Hl];
    pose proof (Z.mod_pos_bound n (2 ^ 32) ltac:(lia));
    pose proof (Z.div_mod n (2 ^ 32) ltac:(lia)); simpl in *; nia.
Qed.

Lemma atoi_print n : (- 2 ^ 31 <= n < 2 ^ 31)%Z -> atoi (print_Z n) = n.
Proof.
  intros H. unfold atoi. rewrite strtol_print by lia. by apply i32_id.
Qed.

(** ** Properties *)

(** A number stored in a [Datum] reads back as the same number, for every
    value of each integer type the class converts to. *)
Theorem datum_roundtrip :
  (forall n, (0 <= n < 2 ^ 64)%Z -> to_unsigned_long (assign_unsigned_long n) = n) /\
  (forall n, (- 2 ^ 63 <= n < 2 ^ 63)%Z -> to_long (assign_long n) = n) /\
  (forall n, (- 2 ^ 31 <= n < 2 ^ 31)%Z -> to_int (assign_int n) = n /\ GetInt (assign_int n) = n) /\
  (forall n, (0 <= n < 2 ^ 32)%Z -> to_unsigned_long (assign_unsigned_int n) = n).
Proof.
  split_and!; intros n Hn.
  - by apply strtoul_print.
  - by apply strtol_print.
  - split; by apply atoi_print.
  - apply strtoul_print. lia.
Qed.
