(* ===== verification/DatumDouble.v ===== *)
(** * [Datum] and [double] (datum.cpp)

    A [double] is a sign and a magnitude; rounding to the nearest one is that of the Standard
    Library's SpecFloat, for 53 bits and exponents up to 1024.  [sprintf] with ["%f"] and
    [atof] are those of the GNU C library in the "C" locale. *)
From Stdlib Require Import SpecFloat.
From S2P Require Import Prelude Datum.

(** ** Data *)
Inductive magnitude : Type :=
| Zero
| Finite (m : positive) (e : Z)   (* m * 2 ^ e *)
| Inf
| Nan.
Record double : Type := MkDouble { d_negative : bool; d_abs : magnitude }.

(** The doubles that a machine has. *)
Definition is_double (d : double) : bool :=
  match d_abs d with Finite m e => bounded 53 1024 m e | _ => true end.

Definition of_spec (negative : bool) (x : spec_float) : double :=
  MkDouble negative (match x with
                     | S754_zero _ => Zero
                     | S754_infinity _ => Inf
                     | S754_nan => Nan
                     | S754_finite _ m e => Finite m e
                     end).

(** The double nearest to [num / den]. *)
Definition round_ratio (negative : bool) (num den : Z) : double :=
  if (num =? 0)%Z then MkDouble negative Zero
  else
    let '(q, e, l) := SFdiv_core_binary 53 1024 num 0 den 0 in
    of_spec negative (binary_round_aux 53 1024 negative q e l).

(** ** ["%f"] *)

(** Millionths, the nearest ones, and the even ones of two that are equally near. *)
Definition millionths (m : positive) (e : Z) : Z :=
  if (0 <=? e)%Z then (Zpos m * 2 ^ e * 10 ^ 6)%Z
  else
    let p := (2 ^ (- e))%Z in
    let q := (Zpos m * 10 ^ 6 / p)%Z in
    let r := ((Zpos m * 10 ^ 6) `mod` p)%Z in
    match (2 * r ?= p)%Z with
    | Lt => q
    | Gt => (q + 1)%Z
    | Eq => if Z.even q then q else (q + 1)%Z
    end.

Definition six_digits (r : Z) : bytes := (fun k => digit_char ((r / 10 ^ k) `mod` 10)) <$> [5; 4; 3; 2; 1; 0]%Z.

Definition print_millionths (n : Z) : bytes :=
  print_nat_base 10 (n / 10 ^ 6) ++ "."%char :: six_digits (n `mod` 10 ^ 6).

Definition sign_text (negative : bool) : bytes := if negative then #"-" else [].

Definition sprintf_f (d : double) : bytes :=
  sign_text (d_negative d) ++
  match d_abs d with
  | Zero => print_millionths 0
  | Finite m e => print_millionths (millionths m e)
  | Inf => #"inf"
  | Nan => #"nan"
  end.

(** [operator= (double)]: undefined when the text and its NUL do not fit into [psBuffer]. *)
Definition assign_double (d : double) : option Datum :=
  let text := sprintf_f d in
  if decide (length text + 1 <= 100) then Some (MkDatum text) else None.

(** ** [atof] *)
Definition scan_sign (s : bytes) : bool * bytes :=
  match s with
  | a :: s' =>
      if decide (a = "-"%char) then (true, s') else if decide (a = "+"%char) then (false, s') else (false, s)
  | [] => (false, [])
  end.

(** The exponent behind a mark; a mark without digits is not part of the number. *)
Definition scan_exponent (mark : ascii) (s : bytes) : Z :=
  match s with
  | a :: s =>
      if decide (tolower a = mark) then
        let '(negative, s) := scan_sign s in
        let x := digits_value 10 (span is_digit s).1 in
        if negative then (- x)%Z else x
      else 0%Z
  | [] => 0%Z
  end.

(** Digits with a point: their value, the number of digits behind the point, and what follows. *)
Definition scan_digits (is_d : ascii -> bool) (base : Z) (s : bytes) : option (Z * Z * bytes) :=
  let '(ip, s) := span is_d s in
  let '(fp, s) := match s with "."%char :: s' => span is_d s' | _ => ([], s) end in
  match ip ++ fp with
  | [] => None
  | ds => Some (digits_value base ds, Z.of_nat (length fp), s)
  end.

(** The number [n * base ^ - k * ebase ^ x]. *)
Definition scaled (negative : bool) (n base k ebase x : Z) : double :=
  round_ratio negative (n * ebase ^ Z.max x 0) (base ^ k * ebase ^ Z.max (- x) 0).

Definition scan_hex (negative : bool) (s : bytes) : option double :=
  if is_prefix #"0x" (tolower <$> s) then
    '(n, k, s) ← scan_digits is_xdigit 16 (drop 2 s);
    Some (scaled negative n 16 k 2 (scan_exponent "p" s))
  else None.

Definition scan_decimal (negative : bool) (s : bytes) : option double :=
  '(n, k, s) ← scan_digits is_digit 10 s;
  Some (scaled negative n 10 k 10 (scan_exponent "e" s)).

Definition scan_named (negative : bool) (s : bytes) : option double :=
  if is_prefix #"inf" (tolower <$> s) then Some (MkDouble negative Inf)
  else if is_prefix #"nan" (tolower <$> s) then Some (MkDouble negative Nan)
  else None.

(** What is not a number is zero. *)
Definition atof (s : bytes) : double :=
  let '(_, s) := span is_space (c_str s) in
  let '(negative, s) := scan_sign s in
  match scan_named negative s with
  | Some d => d
  | None =>
      match scan_hex negative s with
      | Some d => d
      | None => default (MkDouble false Zero) (scan_decimal negative s)
      end
  end.

(** [operator double] *)
Definition to_double (d : Datum) : double := atof (sDatum d).

Example sprintf_examples :
  sprintf_f <$>
    [MkDouble false (Finite 7074237752028440 (-51)); MkDouble true (Finite 4503599627370496 (-53));
     MkDouble true Zero; MkDouble true Inf] = [ #"3.141593"; #"-0.500000"; #"-0.000000"; #"-inf"].
Proof. vm_compute. reflexivity. Qed.

Example atof_examples :
  atof <$> [ #" 3.14159265358979312"; #"-1e400"; #"0x1.8p1"; #"1e-400"; #"nonsense"; #"5e"; #".5"; #"4.9e-324"] =
    [MkDouble false (Finite 7074237752028440 (-51)); MkDouble true Inf; MkDouble false (Finite 6755399441055744 (-51));
     MkDouble false Zero; MkDouble false Zero; MkDouble false (Finite 5629499534213120 (-50));
     MkDouble false (Finite 4503599627370496 (-53)); MkDouble false (Finite 1 (-1074))].
Proof. vm_compute. reflexivity. Qed.

(** ** Rounding a quotient that is a double *)
Lemma digits2_log2 p : Zpos (digits2_pos p) = (Z.log2 (Zpos p) + 1)%Z.
Proof.
  induction p as [p IH|p IH|]; cbn [digits2_pos]; [| |done]; rewrite Pos2Z.inj_succ, IH.
  - rewrite Pos2Z.inj_xI, Z.log2_succ_double by lia. lia.
  - rewrite Pos2Z.inj_xO, Z.log2_double by lia. lia.
Qed.

Lemma Zdigits2_log2 z : (0 < z)%Z -> Zdigits2 z = (Z.log2 z + 1)%Z.
Proof. intros Hz. destruct z; [lia|apply digits2_log2|lia]. Qed.

Lemma iter_pos_iter {X} (f : X -> X) n x : SpecFloat.iter_pos f n x = Nat.iter (Pos.to_nat n) f x.
Proof.
  revert x. induction n as [n IH|n IH|]; intros x; cbn [SpecFloat.iter_pos]; [| |done]; rewrite !IH, <- Nat.iter_add.
  - rewrite <- Nat.iter_succ_r. f_equal. lia.
  - f_equal. lia.
Qed.

Lemma shr_1_double z : (0 < z)%Z -> shr_1 (Build_shr_record (2 * z) false false) = Build_shr_record z false false.
Proof. by destruct z. Qed.

Lemma shr_1_iter k z :
  (0 < z)%Z -> Nat.iter k shr_1 (Build_shr_record (z * 2 ^ Z.of_nat k) false false) = Build_shr_record z false false.
Proof.
  intros Hz. induction k as [|k IH]; [cbn; by rewrite Z.mul_1_r|]. rewrite Nat.iter_succ_r.
  assert (z * 2 ^ Z.of_nat (S k) = 2 * (z * 2 ^ Z.of_nat k))%Z as -> by (rewrite Nat2Z.inj_succ, Z.pow_succ_r; lia).
  by rewrite shr_1_double by nia.
Qed.

Lemma shr_exact z e k : (0 < z)%Z -> (0 <= k)%Z ->
  shr (Build_shr_record (z * 2 ^ k) false false) e k = (Build_shr_record z false false, e + k)%Z.
Proof.
  intros Hz Hk. destruct k as [|k|k]; [by rewrite Z.mul_1_r, Z.add_0_r| |lia].
  cbn [shr]. rewrite iter_pos_iter. rewrite <- (positive_nat_Z k) at 1. by rewrite shr_1_iter.
Qed.

Lemma round_aux_exact negative m e k :
  bounded 53 1024 m e = true -> (0 <= k)%Z ->
  of_spec negative (binary_round_aux 53 1024 negative (Zpos m * 2 ^ k) (e - k) loc_Exact) = MkDouble negative (Finite m e).
Proof.
  intros [Hc%Z.eqb_eq He%Z.leb_le]%andb_true_iff Hk. unfold canonical_mantissa in *.
  assert (forall k, (0 <= k)%Z ->
    shr_fexp 53 1024 (Zpos m * 2 ^ k) (e - k) loc_Exact = (Build_shr_record (Zpos m) false false, e)) as Hshr.
  { clear k Hk. intros k Hk. unfold shr_fexp. cbn [shr_record_of_loc]. rewrite Zdigits2_log2 by nia.
    rewrite Z.log2_mul_pow2 by lia. rewrite digits2_log2 in Hc.
    assert (k + Z.log2 (Zpos m) + 1 + (e - k) = Z.log2 (Zpos m) + 1 + e)%Z as -> by lia. rewrite Hc.
    assert (e - (e - k) = k)%Z as -> by lia. rewrite shr_exact by lia. f_equal. lia. }
  unfold binary_round_aux. rewrite Hshr by done. cbn [shr_m loc_of_shr_record round_nearest_even].
  specialize (Hshr 0%Z ltac:(lia)). rewrite Z.mul_1_r, Z.sub_0_r in Hshr. rewrite Hshr. cbn [shr_m].
  by rewrite (proj2 (Z.leb_le e (1024 - 53)) He).
Qed.

Lemma div_eucl_exact q d : (0 < d)%Z -> Z.div_eucl (d * q) d = (q, 0%Z).
Proof.
  intros Hd. rewrite (surjective_pairing (Z.div_eucl _ _)).
  change ((Z.div_eucl (d * q) d).1) with (let (x, _) := Z.div_eucl (d * q) d in x).
  f_equal.
  - change ((let (x, _) := Z.div_eucl (d * q) d in x) = q). fold (Z.div (d * q) d). rewrite Z.mul_comm. apply Z.div_mul. lia.
  - change ((let (_, x) := Z.div_eucl (d * q) d in x) = 0%Z). fold (Z.modulo (d * q) d). rewrite Z.mul_comm. apply Z.mod_mul. lia.
Qed.

(** A quotient that is a double is rounded to it. *)
Lemma round_ratio_exact negative num den m e a b :
  bounded 53 1024 m e = true -> (0 < num)%Z -> (0 < den)%Z -> (0 <= a)%Z -> (0 <= b)%Z -> (b - a = e)%Z ->
  (num * 2 ^ a = Zpos m * den * 2 ^ b)%Z -> round_ratio negative num den = MkDouble negative (Finite m e).
Proof.
  intros Hb Hnum Hden Ha Hb0 He Heq. unfold round_ratio. rewrite (proj2 (Z.eqb_neq num 0)) by lia.
  unfold SFdiv_core_binary. rewrite !Zdigits2_log2, !Z.add_0_r, Z.sub_0_r by done.
  set (d := (Z.log2 num + 1 - (Z.log2 den + 1))%Z). set (e' := Z.min (fexp 53 1024 d) 0).
  assert (d <= Z.log2 (Zpos m) + 1 + e)%Z as Hd.
  { destruct (Z.log2_spec num Hnum) as [Hn _]. destruct (Z.log2_spec den Hden) as [_ Hd2].
    destruct (Z.log2_spec (Zpos m) ltac:(lia)) as [_ Hm2].
    pose proof (Z.log2_nonneg num). pose proof (Z.log2_nonneg den). pose proof (Z.log2_nonneg (Zpos m)).
    enough (Z.log2 num + a < Z.succ (Z.log2 (Zpos m)) + Z.succ (Z.log2 den) + b)%Z by (unfold d; lia).
    apply (Z.pow_lt_mono_r_iff 2); [lia|lia|]. rewrite !(Z.pow_add_r 2) by lia.
    eapply Z.le_lt_trans; [apply Z.mul_le_mono_nonneg_r; [lia|exact Hn]|]. rewrite Heq.
    apply Z.mul_lt_mono_pos_r; [lia|]. apply Z.mul_lt_mono_nonneg; [lia|exact Hm2|lia|exact Hd2]. }
  assert (e' <= e)%Z as He'.
  { pose proof Hb as [Hc%Z.eqb_eq _]%andb_true_iff. unfold canonical_mantissa in Hc. rewrite digits2_log2 in Hc.
    unfold e'. unfold fexp in *. lia. }
  assert (e' <= 0)%Z as Hneg by (unfold e'; lia).
  assert (match (0 - e')%Z with Z0 => num | Zpos _ => Z.shiftl num (0 - e') | Zneg _ => 0%Z end = den * (Zpos m * 2 ^ (e - e')))%Z as ->.
  { assert (num * 2 ^ (- e') = den * (Zpos m * 2 ^ (e - e')))%Z as Hm.
    { apply (Z.mul_cancel_r _ _ (2 ^ a)); [lia|].
      replace (num * 2 ^ (- e') * 2 ^ a)%Z with (num * 2 ^ a * 2 ^ (- e'))%Z by lia. rewrite Heq.
      replace (Zpos m * den * 2 ^ b * 2 ^ (- e'))%Z with (Zpos m * den * (2 ^ b * 2 ^ (- e')))%Z by lia.
      replace (den * (Zpos m * 2 ^ (e - e')) * 2 ^ a)%Z with (Zpos m * den * (2 ^ (e - e') * 2 ^ a))%Z by lia.
      rewrite <- !Z.pow_add_r by lia. do 2 f_equal. lia. }
    rewrite <- Hm. rewrite Z.sub_0_l. destruct (- e')%Z eqn:E; [by rewrite Z.mul_1_r| |lia]. rewrite Z.shiftl_mul_pow2 by lia. done. }
  rewrite div_eucl_exact by done. assert (new_location den 0 = loc_Exact) as -> by (unfold new_location; by destruct (Z.even den)).
  assert (e' = e - (e - e'))%Z as Hx by lia. rewrite Hx at 2. apply round_aux_exact; [done|lia].
Qed.

(** ** The text of a number *)
Definition numeral (a : ascii) : bool := is_digit a || bool_decide (a = "."%char).

Lemma six_digits_value r acc : (0 <= r < 10 ^ 6)%Z ->
  (fold_left (fun acc d => acc * 10 + digit_val d) (six_digits r) acc = acc * 10 ^ 6 + r)%Z.
Proof.
  intros Hr. unfold six_digits. cbn [fmap list_fmap fold_left].
  rewrite !digit_val_char by (split; [apply Z.mod_pos_bound; lia|]; eapply Z.lt_trans; [by apply Z.mod_pos_bound|lia]).
  cbn [Z.pow Z.pow_pos Pos.iter Z.mul Pos.mul] in *. dlia.
Qed.

Lemma six_digits_digits r : Forall (fun a => is_digit a = true) (six_digits r).
Proof. unfold six_digits. apply Forall_fmap, Forall_forall. intros k _. apply digit_char_digit. by apply Z.mod_pos_bound. Qed.

Lemma scan_print_millionths n :
  (0 <= n)%Z -> scan_digits is_digit 10 (print_millionths n) = Some (n, 6%Z, []).
Proof.
  intros Hn. unfold scan_digits, print_millionths.
  rewrite span_all by (try apply print_nat_base_digits; by intros a [= <-]).
  rewrite <- (app_nil_r (six_digits _)), span_all by (try apply six_digits_digits; done).
  destruct (print_nat_base 10 (n / 10 ^ 6) ++ six_digits (n `mod` 10 ^ 6)) as [|a l] eqn:E.
  { apply app_nil in E as [E _]. by apply print_nat_base_nonempty in E. }
  rewrite <- E, digits_value_app, print_nat_base_value, six_digits_value by dlia.
  cbn [length six_digits fmap list_fmap]. do 3 f_equal. dlia.
Qed.

Lemma print_millionths_numeral n : Forall (fun a => numeral a = true) (print_millionths n).
Proof.
  assert (forall l, Forall (fun a => is_digit a = true) l -> Forall (fun a => numeral a = true) l) as Hd.
  { intros l Hl. eapply Forall_impl; [exact Hl|]. intros a Ha. unfold numeral. by rewrite Ha. }
  apply Forall_app. split; [apply Hd, print_nat_base_digits|]. constructor; [done|]. apply Hd, six_digits_digits.
Qed.

Lemma print_millionths_head n : exists a l, print_millionths n = a :: l /\ is_digit a = true.
Proof.
  unfold print_millionths. pose proof (print_nat_base_digits (n / 10 ^ 6)) as Hd.
  destruct (print_nat_base 10 (n / 10 ^ 6)) as [|a l] eqn:E; [by apply print_nat_base_nonempty in E|].
  apply Forall_cons in Hd as [Ha _]. by do 2 eexists.
Qed.

(** The names and the mark of hexadecimal numbers have letters, numerals have none. *)
Lemma numeral_no_prefix p s :
  Forall (fun a => numeral a = true) s -> existsb is_lower p = true -> is_prefix p (tolower <$> s) = false.
Proof.
  intros Hs [a [Ha Hl]]%existsb_exists. apply not_true_iff_false. intros [t Ht]%is_prefix_spec.
  assert (a ∈ tolower <$> s) as (b & -> & Hb)%list_elem_of_fmap.
  { rewrite Ht. apply elem_of_app. left. by apply list_elem_of_In. }
  rewrite Forall_forall in Hs. pose proof (Hs b Hb) as Hn.
  apply (all_bytes_impl numeral (fun b => negb (is_lower (tolower b)))) in Hn; [by rewrite Hl in Hn|by vm_compute].
Qed.

Lemma atof_print negative n :
  (0 <= n)%Z -> atof (sign_text negative ++ print_millionths n) = round_ratio negative n (10 ^ 6).
Proof.
  intros Hn. pose proof (print_millionths_numeral n) as Hnum. destruct (print_millionths_head n) as (a & l & Hal & Ha).
  assert (forall b, numeral b = true -> b <> NUL) as Hnul by (intros b Hb ->; done).
  assert (c_str (sign_text negative ++ print_millionths n) = sign_text negative ++ print_millionths n) as Hc.
  { apply c_str_id, Forall_app. split; [by destruct negative; repeat constructor|]. eapply Forall_impl; [exact Hnum|done]. }
  assert (is_space a = false) as Hsp by by apply negb_true_iff, digit_not_space.
  unfold atof. rewrite Hc.
  assert (span is_space (sign_text negative ++ print_millionths n) = ([], sign_text negative ++ print_millionths n)) as ->.
  { destruct negative; [done|]. cbn [sign_text app]. rewrite Hal. cbn [span]. by rewrite Hsp. }
  assert (scan_sign (sign_text negative ++ print_millionths n) = (negative, print_millionths n)) as ->.
  { destruct negative; [done|]. cbn [sign_text app]. rewrite Hal. cbn [scan_sign]. by rewrite !decide_False by (intros ->; done). }
  unfold scan_named, scan_hex. rewrite !numeral_no_prefix by done. unfold scan_decimal.
  rewrite scan_print_millionths by done. cbn [mbind option_bind default scan_exponent]. unfold scaled.
  cbn [Z.max Z.opp Z.compare Z.pow]. by rewrite !Z.mul_1_r.
Qed.

(** *** Lengths *)
Lemma digits_grow fuel n acc : length acc < length (digits (S fuel) 10 n acc).
Proof.
  revert n acc. induction fuel as [|f IH]; intros n acc.
  - cbn [digits]. destruct (n <? 10)%Z; cbn [length]; lia.
  - cbn [digits]. destruct (n <? 10)%Z; [cbn [length]; lia|].
    pose proof (IH (n / 10)%Z (digit_char (n `mod` 10) :: acc)) as H. cbn [digits length] in *. lia.
Qed.

Lemma digits_length fuel n acc k :
  (0 <= n < 2 ^ Z.of_nat fuel)%Z -> fuel <> 0 ->
  length (digits fuel 10 n acc) <= S k + length acc <-> (n < 10 ^ Z.of_nat (S k))%Z.
Proof.
  revert n acc k. induction fuel as [|f IH]; intros n acc k Hn Hf; [done|]. cbn [digits].
  rewrite (Nat2Z.inj_succ k), Z.pow_succ_r by lia. rewrite Nat2Z.inj_succ, Z.pow_succ_r in Hn by lia.
  pose proof (Z.pow_pos_nonneg 10 (Z.of_nat k) ltac:(lia) ltac:(lia)). destruct (Z.ltb_spec n 10) as [Hs|Hs].
  - cbn [length]. split; intros _; [nia|lia].
  - assert (0 <= n / 10 < 2 ^ Z.of_nat f)%Z as Hn' by dlia. assert (f <> 0) as Hf' by (intros ->; cbn in *; dlia).
    destruct k as [|k].
    + assert (length (digit_char (n `mod` 10) :: acc) < length (digits f 10 (n / 10) (digit_char (n `mod` 10) :: acc))) as Hlen.
      { destruct f as [|f]; [done|]. apply digits_grow. }
      cbn [length] in Hlen. split; [lia|]. cbn. lia.
    + specialize (IH (n / 10)%Z (digit_char (n `mod` 10) :: acc) k Hn' Hf'). cbn [length] in IH.
      replace (S (S k) + length acc) with (S k + S (length acc)) by lia. rewrite IH, Nat2Z.inj_succ, Z.pow_succ_r by lia.
      pose proof (Z.pow_pos_nonneg 10 (Z.of_nat k) ltac:(lia) ltac:(lia)). split; intros; dlia.
Qed.

Lemma print_length n k : (0 <= n)%Z -> length (print_nat_base 10 n) <= S k <-> (n < 10 ^ Z.of_nat (S k))%Z.
Proof.
  intros Hn. unfold print_nat_base. rewrite <- (digits_length _ n [] k (conj Hn (log2_fuel n Hn))) by done. cbn [length].
  by rewrite Nat.add_0_r.
Qed.

Lemma millionths_nonneg m e : (0 <= millionths m e)%Z.
Proof.
  unfold millionths. destruct (Z.leb_spec 0 e); [pose proof (Z.pow_pos_nonneg 2 e); nia|].
  assert (0 < 2 ^ (- e))%Z by (apply Z.pow_pos_nonneg; lia).
  assert (0 <= Zpos m * 10 ^ 6 / 2 ^ (- e))%Z by (apply Z.div_pos; lia). destruct (_ ?= _)%Z; [destruct (Z.even _)|..]; lia.
Qed.

(** ** Properties *)

(** A number with at most six decimals. *)
Definition six_decimals (d : double) : bool :=
  match d_abs d with
  | Finite m e => (0 <=? e)%Z || ((Zpos m * 10 ^ 6) `mod` 2 ^ (- e) =? 0)%Z
  | _ => true
  end.

(** C39: a double with at most six decimals, an infinity and a NaN too, is read back as the
    same double, sign included, if it can be stored at all. *)
Theorem double_roundtrip d t :
  is_double d = true -> six_decimals d = true -> assign_double d = Some t -> to_double t = d.
Proof.
  destruct d as [s [|m e| |]]; unfold is_double, six_decimals, assign_double, to_double; cbn [d_abs d_negative]; intros Hd Hx;
    (case_decide; [|done]); intros [= <-]; cbn [sDatum].
  - change (print_millionths 0) with (print_millionths 0). unfold sprintf_f. cbn [d_abs d_negative]. by rewrite atof_print.
  - unfold sprintf_f. cbn [d_abs d_negative]. rewrite atof_print by apply millionths_nonneg.
    unfold millionths. destruct (Z.leb_spec 0 e) as [He|He].
    + assert (0 < 2 ^ e)%Z by (apply Z.pow_pos_nonneg; lia).
      apply (round_ratio_exact s _ _ m e 0 e); try done; try lia.
    + cbn [orb] in Hx. apply Z.eqb_eq in Hx. rewrite Hx. assert (0 < 2 ^ (- e))%Z as Hp by (apply Z.pow_pos_nonneg; lia).
      rewrite (proj2 (Z.compare_lt_iff (2 * 0) (2 ^ (- e)))) by lia.
      pose proof (Z.div_mod (Zpos m * 10 ^ 6) (2 ^ (- e)) ltac:(lia)) as Hdm.
      apply (round_ratio_exact s _ _ m e (- e) 0); try done; lia.
  - by destruct s; vm_compute.
  - by destruct s; vm_compute.
Qed.

(** C38: storing a double overruns the buffer of 100 characters exactly from 10^92 on, 10^91
    for negative numbers; with fewer digits it always succeeds. *)
Theorem double_overflow s m e :
  is_double (MkDouble s (Finite m e)) = true ->
  assign_double (MkDouble s (Finite m e)) = None <-> (10 ^ (if s then 91 else 92) <= Zpos m * 2 ^ e)%Z.
Proof.
  unfold is_double. cbn [d_abs]. intros Hb. unfold assign_double, sprintf_f. cbn [d_abs d_negative].
  set (n := (millionths m e / 10 ^ 6)%Z).
  assert (0 <= n)%Z as Hn by (apply Z.div_pos; [apply millionths_nonneg|lia]).
  assert (length (sign_text s ++ print_millionths (millionths m e)) = (if s then 1 else 0) + length (print_nat_base 10 n) + 7) as Hlen.
  { unfold print_millionths. rewrite !length_app. fold n. cbn [length]. unfold six_digits. rewrite length_fmap. destruct s; cbn; lia. }
  assert ((10 ^ (if s then 91 else 92) <= n)%Z <-> (10 ^ (if s then 91 else 92) <= Zpos m * 2 ^ e)%Z) as <-.
  { unfold n, millionths. destruct (Z.leb_spec 0 e) as [He|He]; [by rewrite Z.div_mul by lia|].
    rewrite (Z.pow_neg_r 2 e) by done. split; [|destruct s; lia]. intros Hbig. exfalso.
    apply andb_true_iff in Hb as [Hc%Z.eqb_eq _]. rewrite digits2_log2 in Hc. unfold fexp in Hc.
    destruct (Z.log2_spec (Zpos m) ltac:(lia)) as [_ Hm].
    assert (2 ^ Z.succ (Z.log2 (Zpos m)) <= 2 ^ 53)%Z as Hp by (apply Z.pow_le_mono_r; lia).
    assert (0 < 2 ^ (- e))%Z by (apply Z.pow_pos_nonneg; lia).
    assert (Zpos m * 10 ^ 6 / 2 ^ (- e) <= Zpos m * 10 ^ 6)%Z by (apply Z.div_le_upper_bound; nia).
    assert ((Zpos m * 10 ^ 6 + 1) / 10 ^ 6 < 10 ^ 20)%Z by (apply Z.div_lt_upper_bound; lia).
    assert (10 ^ 20 < 10 ^ (if s then 91 else 92))%Z by (destruct s; lia).
    match type of Hbig with (_ <= ?x / _)%Z => assert (x <= Zpos m * 10 ^ 6 + 1)%Z as Hx end.
    { destruct (_ ?= _)%Z; [destruct (Z.even _)|..]; lia. }
    apply (Z.div_le_mono _ _ (10 ^ 6)) in Hx; lia. }
  rewrite Hlen. pose proof (print_length n 91 Hn) as H92. pose proof (print_length n 90 Hn) as H91.
  case_decide; split; try done; destruct s; lia.
Qed.

(** ** Witnesses *)
Lemma double_roundtrip_witness :
  exists t, assign_double (MkDouble true (Finite 4503599627370496 (-53))) = Some t /\
    to_double t = MkDouble true (Finite 4503599627370496 (-53)).
Proof.
  exists (MkDatum #"-0.500000"). assert (assign_double (MkDouble true (Finite 4503599627370496 (-53))) = Some (MkDatum #"-0.500000")) as Ha
    by (vm_compute; reflexivity).
  split; [exact Ha|]. apply double_roundtrip; [vm_compute; reflexivity..|exact Ha].
Defined.

(** 2^306 *)
Lemma double_overflow_witness :
  is_double (MkDouble false (Finite 4503599627370496 254)) = true /\
  assign_double (MkDouble false (Finite 4503599627370496 254)) = None.
Proof.
  assert (is_double (MkDouble false (Finite 4503599627370496 254)) = true) as Hd by (vm_compute; reflexivity).
  split; [exact Hd|]. apply (double_overflow false 4503599627370496 254 Hd). apply Z.leb_le. vm_compute. reflexivity.
Defined.
