(* ===== verification/EhsTypes.v ===== *)
(** * Shared data types (ehstypes.h, formvalue.h, contentdisposition.h) *)
From S2P Require Import Prelude StdMap.

(** [class ContentDisposition] *)
Record ContentDisposition : Type := MkContentDisposition {
  m_oContentDispositionHeaders : StringCaseMap;
  m_sContentDisposition : bytes
}.

Definition ContentDisposition_new : ContentDisposition := MkContentDisposition [] [].

(** [class FormValue] *)
Record FormValue : Type := MkFormValue {
  m_oFormHeaders : StringMap;
  m_oContentDisposition : ContentDisposition;
  fv_sBody : bytes
}.
#[export] Instance eta_FormValue : Eta FormValue :=
  fun v => MkFormValue (m_oFormHeaders v) (m_oContentDisposition v) (fv_sBody v).

(** [FormValue()], [FormValue(body, disposition)] and the copy constructor. *)
Definition FormValue_default : FormValue := MkFormValue [] ContentDisposition_new [].
Definition FormValue_new (irsBody : bytes) (ioContentDisposition : ContentDisposition) : FormValue :=
  MkFormValue [] ioContentDisposition irsBody.
Definition FormValue_copy (other : FormValue) : FormValue :=
  MkFormValue (m_oFormHeaders other) (m_oContentDisposition other) (fv_sBody other).

Abbreviation FormValueMap := (list (bytes * FormValue)).
Abbreviation CookieMap := (list (bytes * bytes)).

(** Connections, server objects and sockets are identified by a number, which
    stands for their address. *)
Abbreviation conn_id := nat (only parsing).
Abbreviation ehs_id := nat (only parsing).
