(* ===== verification/HttpRequest.v ===== *)
(** * [HttpRequest]: the incremental request parser (httprequest.cpp, httprequest.h)

    The state of a request under construction is the record [HttpRequest]; the
    cases of the [switch] of [ParseData] are the [step_*] functions, each of
    which maps the request and the input buffer [irsData] to the new request,
    the new buffer and the value of [bDone] (or the exception that leaves the
    function). *)
From S2P Require Import Prelude Boost StdMap EhsTypes.

(** ** Data *)
Inductive RequestMethod : Type :=
| REQUESTMETHOD_OPTIONS
| REQUESTMETHOD_GET
| REQUESTMETHOD_HEAD
| REQUESTMETHOD_POST
| REQUESTMETHOD_PUT
| REQUESTMETHOD_DELETE
| REQUESTMETHOD_TRACE
| REQUESTMETHOD_CONNECT
| REQUESTMETHOD_UNKNOWN.
#[export] Instance RequestMethod_eq_dec : EqDecision RequestMethod.
Proof. solve_decision. Defined.

Inductive HttpParseStates : Type :=
| HTTPPARSESTATE_INVALID
| HTTPPARSESTATE_REQUEST
| HTTPPARSESTATE_HEADERS
| HTTPPARSESTATE_BODY
| HTTPPARSESTATE_BODYCHUNK
| HTTPPARSESTATE_BODYTRAILER
| HTTPPARSESTATE_BODYTRAILER2
| HTTPPARSESTATE_COMPLETEREQUEST
| HTTPPARSESTATE_INVALIDREQUEST.
#[export] Instance HttpParseStates_eq_dec : EqDecision HttpParseStates.
Proof. solve_decision. Defined.

Inductive ParseMultipartFormDataResult : Type :=
| PARSEMULTIPARTFORMDATA_INVALID
| PARSEMULTIPARTFORMDATA_SUCCESS
| PARSEMULTIPARTFORMDATA_FAILED.

Inductive ParseSubbodyResult : Type :=
| PARSESUBBODY_INVALID
| PARSESUBBODY_SUCCESS
| PARSESUBBODY_INVALIDSUBBODY
| PARSESUBBODY_FAILED.

Record HttpRequest : Type := MkHttpRequest {
  m_nCurrentHttpParseState : HttpParseStates;
  m_nRequestMethod : RequestMethod;
  m_sUri : bytes;
  m_sOriginalUri : bytes;
  m_sHttpVersionNumber : bytes;
  m_sBody : bytes;
  m_sLastHeaderName : bytes;
  m_bSecure : bool;
  m_oRequestHeaders : StringCaseMap;
  m_oFormValueMap : FormValueMap;
  m_oCookieMap : CookieMap;
  m_nRequestId : Z;
  m_poSourceEHSConnection : conn_id;
  m_bChunked : bool;
  m_nChunkLen : Z;
  m_sParseContentType : bytes
}.
#[export] Instance eta_HttpRequest : Eta HttpRequest := fun r =>
  MkHttpRequest (m_nCurrentHttpParseState r) (m_nRequestMethod r) (m_sUri r)
    (m_sOriginalUri r) (m_sHttpVersionNumber r) (m_sBody r) (m_sLastHeaderName r)
    (m_bSecure r) (m_oRequestHeaders r) (m_oFormValueMap r) (m_oCookieMap r)
    (m_nRequestId r) (m_poSourceEHSConnection r) (m_bChunked r) (m_nChunkLen r)
    (m_sParseContentType r).

(** The constructor; a null connection is refused. *)
Definition HttpRequest_init (inRequestId : Z) (c : conn_id) (irsParseContentType : bytes) : HttpRequest :=
  MkHttpRequest HTTPPARSESTATE_REQUEST REQUESTMETHOD_UNKNOWN [] [] [] [] [] false
    [] [] [] inRequestId c false 0 irsParseContentType.
Definition HttpRequest_new (inRequestId : Z) (ipoSourceEHSConnection : option conn_id)
    (irsParseContentType : bytes) : res HttpRequest :=
  match ipoSourceEHSConnection with
  | None => Throw (Runtime_error #"Not allowed to have null source connection")
  | Some c => Ret (HttpRequest_init inRequestId c irsParseContentType)
  end.

(** [Headers(name)], [Cookies(name)], [SetHeader(name, value)]; [FormValues(name)]
    creates a missing entry. *)
Definition Headers (r : HttpRequest) (name : bytes) : bytes :=
  default [] (scm_find name (m_oRequestHeaders r)).
Definition Cookies (r : HttpRequest) (name : bytes) : bytes :=
  default [] (sm_find name (m_oCookieMap r)).
Definition SetHeader (name value : bytes) (r : HttpRequest) : HttpRequest :=
  r <| m_oRequestHeaders ::= scm_set name value |>.
Definition FormValues (r : HttpRequest) (name : bytes) : FormValue * HttpRequest :=
  let '(v, m) := sm_ref FormValue_default name (m_oFormValueMap r) in
  (v, r <| m_oFormValueMap := m |>).

(** ** Helper functions *)

(** [GetNextLine]: the next line with its CRLF (empty if there is none), and
    what is left in the buffer. *)
Definition GetNextLine (buffer : bytes) : bytes * bytes :=
  match find crlf buffer with
  | Some pos => (take (pos + 2) buffer, drop (pos + 2) buffer)
  | None => ([], buffer)
  end.

Definition request_methods : list (bytes * RequestMethod) :=
  [(#"OPTIONS", REQUESTMETHOD_OPTIONS); (#"GET", REQUESTMETHOD_GET);
   (#"HEAD", REQUESTMETHOD_HEAD); (#"POST", REQUESTMETHOD_POST);
   (#"PUT", REQUESTMETHOD_PUT); (#"DELETE", REQUESTMETHOD_DELETE);
   (#"TRACE", REQUESTMETHOD_TRACE); (#"CONNECT", REQUESTMETHOD_CONNECT)].

Definition GetRequestMethodFromString (method : bytes) : RequestMethod :=
  default REQUESTMETHOD_UNKNOWN (sm_find method request_methods).

Definition multival_headers : list bytes :=
  [ #"accept-charset"; #"accept-encoding"; #"accept-language"; #"cache-control";
   #"connection"; #"expect"; #"if-match"; #"if-none-match"; #"pragma";
   #"sec-websocket-extensions"; #"sec-websocket-protocol"; #"sec-websocket-version";
   #"trailer"; #"transfer-encoding"; #"upgrade"; #"via"].

(** ** The patterns

    Each is preceded by its concrete syntax; a blank is inserted where a star is
    followed by a closing parenthesis. *)

(** [^([A-Z]{3,8}) ([^ ]+) HTTP/(\d+\.\d+)\r\n$] *)
Definition re_request : regex :=
  RBol · RGrp 1 (RRep is_upper 3 (Some 8)) · RChr " " ·
  RGrp 2 (cls_plus (none_of #" ")) ·
  rlit #" HTTP/" (RGrp 3 (cls_plus is_digit · RChr "." · cls_plus is_digit) ·
    RChr CR · RChr LF · REol).

(** [^([^:\s]+):\s+(.* )\r\n$] *)
Definition header_name_char (a : ascii) : bool := none_of #":" a && negb (is_space a).
Definition re_header : regex :=
  RBol · RGrp 1 (cls_plus header_name_char) · RChr ":" · cls_plus is_space ·
  RGrp 2 (cls_star any) · RChr CR · RChr LF · REol.

(** [^\s+(.* )\r\n$] *)
Definition re_header_cont : regex :=
  RBol · cls_plus is_space · RGrp 1 (cls_star any) · RChr CR · RChr LF · REol.

(** [^([[:xdigit:]]+)[^\r]*\r\n$] *)
Definition re_chunk_header : regex :=
  RBol · RGrp 1 (cls_plus is_xdigit) · cls_star (none_of [CR]) · RChr CR · RChr LF · REol.

(** [[?]?([^?=]* )=([^&]* )&?] *)
Definition re_form : regex :=
  cls_opt (one_of #"?") · RGrp 1 (cls_star (none_of #"?=")) · RChr "=" ·
  RGrp 2 (cls_star (none_of #"&")) · cls_opt (one_of #"&").

(** [\s*([^=]+)=([^;]+)(;|$)*] *)
Definition re_cookie : regex :=
  cls_star is_space · RGrp 1 (cls_plus (none_of #"=")) · RChr "=" ·
  RGrp 2 (cls_plus (none_of #";")) · RStar (RGrp 3 (RAlt (RChr ";") REol)).

(** [Content-Disposition:[ ]?([^;]+);[ ]?(.* )] *)
Definition re_disposition : regex :=
  rlit #"Content-Disposition:" (cls_opt (one_of #" ") · RGrp 1 (cls_plus (none_of #";")) ·
    RChr ";" · cls_opt (one_of #" ") · RGrp 2 (cls_star any)).

(** [[ ]?([^= ]+)=DQ([^DQ]+)DQ[;]?] where DQ is the double quote *)
Definition re_name_value : regex :=
  cls_opt (one_of #" ") · RGrp 1 (cls_plus (none_of #"= ")) · RChr "=" · RChr DQ ·
  RGrp 2 (cls_plus (none_of [DQ])) · RChr DQ · cls_opt (one_of #";").

(** [multipart/[^;]+;[ ]*boundary=([^DQ]+)$] *)
Definition re_boundary : regex :=
  rlit #"multipart/" (cls_plus (none_of #";") · RChr ";" · cls_star (one_of #" ") ·
    rlit #"boundary=" (RGrp 1 (cls_plus (none_of [DQ])) · REol)).

(** [,\s*] *)
Definition re_comma : regex := RChr "," · cls_star is_space.

Section parser.
Context {B : Boost}.

Definition MultivalHeaderContains (header value : bytes) : bool :=
  bool_decide (to_lower_copy value ∈ split_regex re_comma (to_lower_copy header)).

Definition IsMultivalHeader (header : bytes) : bool :=
  bool_decide (to_lower_copy header ∈ multival_headers).

(** ** Form data, cookies, multipart bodies *)

(** The search loop of [GetFormDataFromString]; every match consumes its [=]. *)
Fixpoint form_loop (fuel : nat) (s : bytes) (m : FormValueMap) : FormValueMap :=
  match fuel with
  | O => m
  | S n =>
      match regex_search re_form s with
      | None => m
      | Some res =>
          let name := group 1 (sr_groups res) in
          let value := group 2 (sr_groups res) in
          form_loop n (sr_suffix res)
            (sm_set name (FormValue_new value ContentDisposition_new) m)
      end
  end.

Definition GetFormDataFromString (irsString : bytes) (r : HttpRequest) : HttpRequest :=
  r <| m_oFormValueMap ::= form_loop (length irsString) irsString |>.

(** The search loop of [ParseCookieData]: the new cookies and their number. *)
Fixpoint cookie_loop (fuel : nat) (s : bytes) (m : CookieMap) (ccount : Z) : CookieMap * Z :=
  match fuel with
  | O => (m, ccount)
  | S n =>
      match regex_search re_cookie s with
      | None => (m, ccount)
      | Some res =>
          let name := group 1 (sr_groups res) in
          let value := group 2 (sr_groups res) in
          cookie_loop n (sr_suffix res) (sm_set name value m) (ccount + 1)
      end
  end.

Definition ParseCookieData (irsData : bytes) (r : HttpRequest) : HttpRequest * Z :=
  let '(m, ccount) := cookie_loop (length irsData) irsData (m_oCookieMap r) 0 in
  (r <| m_oCookieMap := m |>, ccount).

(** The [sregex_iterator] loop of [ParseSubbody]. *)
Fixpoint name_value_loop (fuel : nat) (s : bytes) (m : StringCaseMap) : StringCaseMap :=
  match fuel with
  | O => m
  | S n =>
      match regex_search re_name_value s with
      | None => m
      | Some res =>
          name_value_loop n (sr_suffix res)
            (scm_set (group 1 (sr_groups res)) (group 2 (sr_groups res)) m)
      end
  end.

Definition ParseSubbody (isSubbody : bytes) (r : HttpRequest) : HttpRequest * ParseSubbodyResult :=
  match find (crlf ++ crlf) isSubbody with
  | None => (r, PARSESUBBODY_INVALIDSUBBODY)
  | Some nBlankLinePosition =>
      let sHeaders := take nBlankLinePosition isSubbody in
      match regex_match re_disposition sHeaders with
      | None => (r, PARSESUBBODY_INVALIDSUBBODY)
      | Some match_ =>
          let sPairs := group 2 match_ in
          let oStringCaseMap := name_value_loop (length sPairs) sPairs [] in
          let '(name, oStringCaseMap) := scm_ref [] #"name" oStringCaseMap in
          let '(roFormValue, forms) := sm_ref FormValue_default name (m_oFormValueMap r) in
          let v := roFormValue
            <| m_oContentDisposition :=
                 MkContentDisposition oStringCaseMap
                   (m_sContentDisposition (m_oContentDisposition roFormValue)) |>
            <| fv_sBody := drop (nBlankLinePosition + 4) isSubbody |> in
          (r <| m_oFormValueMap := sm_set name v forms |>, PARSESUBBODY_SUCCESS)
      end
  end.

(** The [while] loop of [ParseMultipartFormData]; [sBoundary] has its CRLF
    prepended, [blen] is its length without. *)
Fixpoint multipart_loop (fuel : nat) (sBoundary : bytes) (blen : nat)
    (sRemainingBody : bytes) (r : HttpRequest) : HttpRequest * res ParseMultipartFormDataResult :=
  match fuel with
  | O => (r, Ret PARSEMULTIPARTFORMDATA_SUCCESS)
  | S n =>
      match find sBoundary sRemainingBody with
      | None => (r, Ret PARSEMULTIPARTFORMDATA_SUCCESS)
      | Some nNextPartPosition =>
          if decide (length sRemainingBody < blen + nNextPartPosition) then
            (r, Ret PARSEMULTIPARTFORMDATA_FAILED)
          else
            let r := (ParseSubbody (take nNextPartPosition sRemainingBody) r).1 in
            match substr_from sRemainingBody (nNextPartPosition + blen) with
            | Throw e => (r, Throw e)
            | Ret rest => multipart_loop n sBoundary blen rest r
            end
      end
  end.

Definition ParseMultipartFormData (r : HttpRequest) :
    HttpRequest * res ParseMultipartFormDataResult :=
  let '(ct, hdrs) := scm_ref [] #"Content-Type" (m_oRequestHeaders r) in
  let r := r <| m_oRequestHeaders := hdrs |> in
  if decide (ct = []) then (r, Ret PARSEMULTIPARTFORMDATA_FAILED)
  else
    match regex_match re_boundary ct with
    | None => (r, Ret PARSEMULTIPARTFORMDATA_FAILED)
    | Some match_ =>
        let sBoundary := #"--" ++ group 1 match_ in
        let blen := length sBoundary in
        if decide (take blen (m_sBody r) <> sBoundary) then
          (r, Ret PARSEMULTIPARTFORMDATA_FAILED)
        else
          match substr_from (m_sBody r) (blen + 2) with
          | Throw e => (r, Throw e)
          | Ret sRemainingBody =>
              multipart_loop (S (length sRemainingBody)) (crlf ++ sBoundary) blen sRemainingBody r
          end
    end.

(** ** The cases of [ParseData] *)

Abbreviation step_result := (HttpRequest * bytes * res bool)%type.

Definition to_state (s : HttpParseStates) (r : HttpRequest) : HttpRequest :=
  r <| m_nCurrentHttpParseState := s |>.

(** [case HTTPPARSESTATE_REQUEST] *)
Definition step_request (r : HttpRequest) (irsData : bytes) : step_result :=
  let '(sLine, irsData) := GetNextLine irsData in
  if bool_decide (sLine = []) || bool_decide (sLine = crlf) then (r, irsData, Ret true)
  else
    match regex_match re_request sLine with
    | None => (to_state HTTPPARSESTATE_INVALIDREQUEST r, irsData, Ret false)
    | Some match_ =>
        let mreq := group 1 match_ in
        let muri := group 2 match_ in
        let mver := group 3 match_ in
        let method := GetRequestMethodFromString mreq in
        let r := r <| m_nRequestMethod := method |> in
        if decide (method = REQUESTMETHOD_UNKNOWN) then
          (to_state HTTPPARSESTATE_INVALIDREQUEST r, irsData, Ret false)
        else
          let r := r <| m_sUri := muri |> <| m_sOriginalUri := muri |>
                     <| m_sHttpVersionNumber := mver |> in
          let r := GetFormDataFromString (m_sUri r) r in
          (to_state HTTPPARSESTATE_HEADERS r <| m_bChunked := false |>, irsData, Ret false)
    end.

(** The end of the headers, in [case HTTPPARSESTATE_HEADERS]. *)
Definition headers_done (r : HttpRequest) : HttpRequest :=
  let has name := bool_decide (is_Some (scm_find name (m_oRequestHeaders r))) in
  let r1 :=
    if MultivalHeaderContains (Headers r #"connection") #"upgrade" &&
       MultivalHeaderContains (Headers r #"upgrade") #"websocket"
    then to_state HTTPPARSESTATE_COMPLETEREQUEST r
    else
      let chunked := MultivalHeaderContains (Headers r #"transfer-encoding") #"chunked" in
      let r := r <| m_bChunked := chunked |> in
      if has #"Content-Length" || chunked then to_state HTTPPARSESTATE_BODY r
      else to_state HTTPPARSESTATE_COMPLETEREQUEST r in
  let r2 :=
    if bool_decide (m_sHttpVersionNumber r = #"1.1") && negb (has #"Host")
    then to_state HTTPPARSESTATE_INVALIDREQUEST r1 else r1 in
  if has #"Cookie" then (ParseCookieData (default [] (scm_find #"Cookie" (m_oRequestHeaders r2))) r2).1
  else r2.

(** A header line and a header continuation line. *)
Definition header_line (sName sValue : bytes) (r : HttpRequest) : HttpRequest * bool :=
  let sValue := trim sValue in
  let '(r, bDone) :=
    match scm_find sName (m_oRequestHeaders r) with
    | None => (r <| m_oRequestHeaders ::= scm_set sName sValue |>, false)
    | Some old =>
        if negb (IsMultivalHeader sName) then
          (to_state HTTPPARSESTATE_INVALIDREQUEST r, true)
        else
          (r <| m_oRequestHeaders ::= scm_set sName (old ++ #", " ++ sValue) |>, false)
    end in
  (r <| m_sLastHeaderName := sName |>, bDone).

Definition header_continuation (sValue : bytes) (r : HttpRequest) : HttpRequest * bool :=
  if decide (m_sLastHeaderName r = []) then (to_state HTTPPARSESTATE_INVALIDREQUEST r, true)
  else
    let name := m_sLastHeaderName r in
    let '(old, hdrs) := scm_ref [] name (m_oRequestHeaders r) in
    (r <| m_oRequestHeaders := scm_set name (old ++ #" " ++ trim sValue) hdrs |>, false).

(** [case HTTPPARSESTATE_HEADERS] *)
Definition step_headers (r : HttpRequest) (irsData : bytes) : step_result :=
  let '(sLine, irsData) := GetNextLine irsData in
  if decide (sLine = []) then (r, irsData, Ret true)
  else if decide (sLine = crlf) then (headers_done r, irsData, Ret false)
  else
    match regex_match re_header sLine with
    | Some match_ =>
        let '(r, bDone) := header_line (group 1 match_) (group 2 match_) r in
        (r, irsData, Ret bDone)
    | None =>
        match regex_match re_header_cont sLine with
        | Some match_ =>
            let '(r, bDone) := header_continuation (group 1 match_) r in
            (r, irsData, Ret bDone)
        | None => (to_state HTTPPARSESTATE_INVALIDREQUEST r, irsData, Ret true)
        end
    end.

(** A complete body: multipart bodies are split, the others scanned for form data. *)
Definition body_done (r : HttpRequest) : HttpRequest * res unit :=
  let '(ct, hdrs) := scm_ref [] #"Content-Type" (m_oRequestHeaders r) in
  let r := r <| m_oRequestHeaders := hdrs |> in
  if decide (take 9 ct = #"multipart") then
    match ParseMultipartFormData r with
    | (r, Ret PARSEMULTIPARTFORMDATA_SUCCESS) => (to_state HTTPPARSESTATE_COMPLETEREQUEST r, Ret tt)
    | (r, Ret _) => (to_state HTTPPARSESTATE_INVALIDREQUEST r, Ret tt)
    | (r, Throw e) => (r, Throw e)
    end
  else
    let r :=
      if bool_decide (m_sParseContentType r = []) || bool_decide (ct = m_sParseContentType r)
      then GetFormDataFromString (m_sBody r) r else r in
    (to_state HTTPPARSESTATE_COMPLETEREQUEST r, Ret tt).

(** [case HTTPPARSESTATE_BODYTRAILER] *)
Definition step_trailer (r : HttpRequest) (irsData : bytes) : step_result :=
  let '(sLine, irsData) := GetNextLine irsData in
  if decide (sLine = []) then (r, irsData, Ret true)
  else
    let irsData := if decide (sLine = crlf) then crlf ++ irsData else irsData in
    (to_state HTTPPARSESTATE_BODYTRAILER2 r, irsData, Ret false).

(** [case HTTPPARSESTATE_BODYTRAILER2] *)
Definition step_trailer2 (r : HttpRequest) (irsData : bytes) : step_result :=
  let '(sLine, irsData) := GetNextLine irsData in
  if decide (sLine = []) then (r, irsData, Ret true)
  else if decide (sLine = crlf) then
    match body_done r with
    | (r, Ret _) => (r, irsData, Ret true)
    | (r, Throw e) => (r, irsData, Throw e)
    end
  else (to_state HTTPPARSESTATE_INVALIDREQUEST r, irsData, Ret true).

(** [case HTTPPARSESTATE_BODYCHUNK]; when the chunk is not complete the buffer
    is left as it is. *)
Definition step_chunk (r : HttpRequest) (irsData : bytes) : step_result :=
  if (m_nChunkLen r =? 0)%Z then
    let '(sLine, irsData) := GetNextLine irsData in
    if decide (sLine = []) then (r, irsData, Ret true)
    else if decide (sLine = crlf) then (to_state HTTPPARSESTATE_BODY r, irsData, Ret false)
    else (to_state HTTPPARSESTATE_INVALIDREQUEST r, irsData, Ret false)
  else
    let l := Z.of_nat (length irsData) in
    let n := Z.to_nat (Z.min (m_nChunkLen r) l) in
    let r := r <| m_sBody ::= fun b => b ++ take n irsData |> in
    if (m_nChunkLen r <? l)%Z then
      (r <| m_nChunkLen := 0%Z |>, drop n irsData, Ret false)
    else
      (r <| m_nChunkLen := (m_nChunkLen r - l)%Z |>, irsData, Ret true).

(** [strtoul(s, &eptr, 16)] on the hexadecimal digits of the match: the value,
    saturating at [ULONG_MAX], and the text at [eptr]. *)
Definition strtoul16 (s : bytes) : Z * bytes :=
  let '(ds, rest) := span is_xdigit s in
  (Z.min (digits_value 16 ds) (2 ^ 64 - 1), rest).

(** [case HTTPPARSESTATE_BODY], chunked. *)
Definition step_body_chunked (r : HttpRequest) (irsData : bytes) : step_result :=
  let '(sLine, irsData) := GetNextLine irsData in
  if decide (sLine = []) then (r, irsData, Ret true)
  else
    match regex_match re_chunk_header sLine with
    | None => (to_state HTTPPARSESTATE_INVALIDREQUEST r, irsData, Ret true)
    | Some match_ =>
        let '(len, eptr) := strtoul16 (group 1 match_) in
        if decide (eptr <> []) then (to_state HTTPPARSESTATE_INVALIDREQUEST r, irsData, Ret false)
        else if (len =? 0)%Z then (to_state HTTPPARSESTATE_BODYTRAILER r, irsData, Ret false)
        else (to_state HTTPPARSESTATE_BODYCHUNK (r <| m_nChunkLen := len |>), irsData, Ret false)
    end.

(** [case HTTPPARSESTATE_BODY], with a content length. *)
Definition step_body_length (r : HttpRequest) (irsData : bytes) : step_result :=
  match scm_find #"Content-Length" (m_oRequestHeaders r) with
  | None => (to_state HTTPPARSESTATE_INVALIDREQUEST r, irsData, Ret false)
  | Some text =>
      match lexical_cast_uint text with
      | None => (to_state HTTPPARSESTATE_INVALIDREQUEST r, irsData, Ret false)
      | Some nContentLength =>
          if (Z.of_nat (length irsData) <? nContentLength)%Z then (r, irsData, Ret true)
          else
            let n := Z.to_nat nContentLength in
            let r := r <| m_sBody := take n irsData |> in
            let irsData := drop n irsData in
            match body_done r with
            | (r, Ret _) => (r, irsData, Ret true)
            | (r, Throw e) => (r, irsData, Throw e)
            end
      end
  end.

Definition step_body (r : HttpRequest) (irsData : bytes) : step_result :=
  if m_bChunked r then step_body_chunked r irsData else step_body_length r irsData.

(** The [switch]; the loop does not enter it in the last three states. *)
Definition parse_step (r : HttpRequest) (irsData : bytes) : step_result :=
  match m_nCurrentHttpParseState r with
  | HTTPPARSESTATE_REQUEST => step_request r irsData
  | HTTPPARSESTATE_HEADERS => step_headers r irsData
  | HTTPPARSESTATE_BODYTRAILER => step_trailer r irsData
  | HTTPPARSESTATE_BODYTRAILER2 => step_trailer2 r irsData
  | HTTPPARSESTATE_BODYCHUNK => step_chunk r irsData
  | HTTPPARSESTATE_BODY => step_body r irsData
  | HTTPPARSESTATE_INVALID
  | HTTPPARSESTATE_COMPLETEREQUEST
  | HTTPPARSESTATE_INVALIDREQUEST => (r, irsData, Ret false)
  end.

(** The states in which the [while] loop stops. *)
Definition parse_stopped (s : HttpParseStates) : bool :=
  match s with
  | HTTPPARSESTATE_INVALIDREQUEST | HTTPPARSESTATE_COMPLETEREQUEST | HTTPPARSESTATE_INVALID => true
  | _ => false
  end.

(** The [while] loop; [None] when the fuel does not suffice. *)
Fixpoint parse_loop (fuel : nat) (r : HttpRequest) (irsData : bytes) :
    option (HttpRequest * bytes * res unit) :=
  if parse_stopped (m_nCurrentHttpParseState r) then Some (r, irsData, Ret tt)
  else
    match fuel with
    | O => None
    | S n =>
        match parse_step r irsData with
        | (r, irsData, Throw e) => Some (r, irsData, Throw e)
        | (r, irsData, Ret true) => Some (r, irsData, Ret tt)
        | (r, irsData, Ret false) => parse_loop n r irsData
        end
    end.

(** Every iteration either consumes input or is one of finitely many changes of
    state, so this fuel is enough ([ParseData_total]). *)
Definition parse_fuel (irsData : bytes) : nat := 2 * length irsData + 3.

(** [ParseData]: the request, the buffer and the exception if one escapes. *)
Definition ParseData (r : HttpRequest) (irsData : bytes) :
    option (HttpRequest * bytes * res unit) :=
  parse_loop (parse_fuel irsData) r irsData.

End parser.
