(* ===== verification/HttpRequestFacts.v ===== *)
(** * Facts about the request parser

    Line extraction, termination, independence of the segmentation of the input,
    and the round trip of a rendered request. *)
From S2P Require Import Prelude Boost StdMap Datum EhsTypes HttpRequest.

(** ** Definitions of the specifications *)

(** The step cannot consume anything: it waits for more input. *)
Definition waiting `{B : Boost} (r : HttpRequest) (irsData : bytes) : bool :=
  match m_nCurrentHttpParseState r with
  | HTTPPARSESTATE_BODYCHUNK =>
      if (m_nChunkLen r =? 0)%Z then bool_decide ((GetNextLine irsData).1 = [])
      else negb (m_nChunkLen r <? Z.of_nat (length irsData))%Z
  | HTTPPARSESTATE_BODY =>
      if m_bChunked r then bool_decide ((GetNextLine irsData).1 = [])
      else match scm_find #"Content-Length" (m_oRequestHeaders r) with
           | Some text =>
               match lexical_cast_uint text with
               | Some n => (Z.of_nat (length irsData) <? n)%Z
               | None => false
               end
           | None => false
           end
  | _ => bool_decide ((GetNextLine irsData).1 = [])
  end.

(** The result of a step, with [d] appended to the buffer it leaves. *)
Definition push_back (d : bytes) {A} (x : HttpRequest * bytes * res A) :
    HttpRequest * bytes * res A :=
  let '(r, b, o) := x in (r, b ++ d, o).

(** The termination measure of the loop of [ParseData]. *)
Definition state_rank (r : HttpRequest) : nat :=
  match m_nCurrentHttpParseState r with
  | HTTPPARSESTATE_INVALID | HTTPPARSESTATE_COMPLETEREQUEST | HTTPPARSESTATE_INVALIDREQUEST => 0
  | HTTPPARSESTATE_BODYTRAILER => 2
  | HTTPPARSESTATE_BODYCHUNK => if (m_nChunkLen r =? 0)%Z then 1 else 2
  | _ => 1
  end.
Definition parse_measure (r : HttpRequest) (irsData : bytes) : nat :=
  2 * length irsData + state_rank r.

(** ** Lines *)
Lemma GetNextLine_cases b :
  (GetNextLine b = ([], b) /\ find crlf b = None) \/
  (exists l b', GetNextLine b = (l, b') /\ b = l ++ b' /\ 2 <= length l /\ l <> []).
Proof.
  unfold GetNextLine. destruct (find crlf b) as [n|] eqn:E; [right|by left].
  apply find_Some_length in E. simpl in E.
  exists (take (n + 2) b), (drop (n + 2) b). rewrite take_drop, length_take.
  split_and!; [done..|lia|]. intros H%(f_equal length).
  rewrite length_take in H. simpl in H. lia.
Qed.

Lemma GetNextLine_app b d :
  (GetNextLine b).1 <> [] ->
  GetNextLine (b ++ d) = ((GetNextLine b).1, (GetNextLine b).2 ++ d).
Proof.
  unfold GetNextLine. destruct (find crlf b) as [n|] eqn:E; [|done]. intros _.
  rewrite (find_app _ _ d n E). apply find_Some_length in E. simpl in *.
  rewrite take_app_le, drop_app_le by lia. done.
Qed.

Lemma find_crlf_line w rest :
  Forall (fun a => a <> CR) w -> find crlf (w ++ crlf ++ rest) = Some (length w).
Proof.
  induction 1 as [|a w Ha _ IH]; [done|].
  simpl. destruct (is_prefix crlf (a :: w ++ crlf ++ rest)) eqn:E.
  - apply is_prefix_spec in E as [t Ht]. by inversion Ht.
  - change (CR :: LF :: rest) with (crlf ++ rest). by rewrite IH, E.
Qed.

Lemma GetNextLine_line w rest :
  Forall (fun a => a <> CR) w -> GetNextLine (w ++ crlf ++ rest) = (w ++ crlf, rest).
Proof.
  intros H. unfold GetNextLine. rewrite find_crlf_line by done. cbv beta iota.
  rewrite app_assoc, take_app_length', drop_app_length'. all: try done.
  all: rewrite length_app; simpl; lia.
Qed.

Lemma GetNextLine_crlf rest : GetNextLine (crlf ++ rest) = (crlf, rest).
Proof. apply (GetNextLine_line []). constructor. Qed.

Section facts.
Context {B : Boost}.

(** ** Termination *)

Lemma headers_done_state r :
  m_nCurrentHttpParseState (headers_done r) = HTTPPARSESTATE_BODY \/
  parse_stopped (m_nCurrentHttpParseState (headers_done r)) = true.
Proof.
  unfold headers_done, ParseCookieData, to_state.
  repeat match goal with
         | |- context [if ?x then _ else _] => destruct x
         | |- context [let '(_, _) := ?x in _] => destruct x
         end; simpl; auto.
Qed.

Lemma headers_done_rank r : state_rank (headers_done r) <= 1.
Proof.
  unfold state_rank. destruct (headers_done_state r) as [->|H]; [done|].
  destruct (m_nCurrentHttpParseState (headers_done r)); simpl in H; (done || lia).
Qed.

Lemma header_line_rank n v r :
  m_nCurrentHttpParseState r = HTTPPARSESTATE_HEADERS -> state_rank (header_line n v r).1 <= 1.
Proof.
  intros Hs. unfold header_line, state_rank, to_state.
  destruct (scm_find _ _); [destruct (negb _)|]; simpl; rewrite ?Hs; lia.
Qed.

Lemma header_continuation_rank v r :
  m_nCurrentHttpParseState r = HTTPPARSESTATE_HEADERS ->
  state_rank (header_continuation v r).1 <= 1.
Proof.
  intros Hs. unfold header_continuation, state_rank, to_state.
  case_decide; [simpl; lia|]. destruct (scm_ref _ _ _). simpl. rewrite Hs. lia.
Qed.

(** A step that takes its line from the buffer and leaves the request in a state
    of rank at most 2 decreases the measure. *)
Lemma line_measure (r r' : HttpRequest) (l b b' : bytes) :
  b = l ++ b' -> 2 <= length l -> state_rank r' <= 2 -> 1 <= state_rank r ->
  parse_measure r' b' < parse_measure r b.
Proof. intros -> Hl Hr' Hr. unfold parse_measure. rewrite length_app. lia. Qed.

Lemma state_rank_le2 r : state_rank r <= 2.
Proof. unfold state_rank. destruct (m_nCurrentHttpParseState r); repeat case_match; lia. Qed.

Lemma state_rank_pos r : parse_stopped (m_nCurrentHttpParseState r) = false -> 1 <= state_rank r.
Proof. unfold state_rank. destruct (m_nCurrentHttpParseState r); simpl; repeat case_match; (done || lia). Qed.

Ltac with_line H :=
  match goal with
  | |- context [GetNextLine ?b] =>
      destruct (GetNextLine_cases b) as [[H _]|(?l & ?b' & H & ? & ? & ?)]; rewrite H; simpl
  end.

(** A step that continues the loop decreases the measure. *)
Lemma parse_step_measure r b r' b' :
  parse_step r b = (r', b', Ret false) ->
  parse_stopped (m_nCurrentHttpParseState r) = false ->
  parse_measure r' b' < parse_measure r b.
Proof.
  intros Hstep Hs. pose proof (state_rank_pos r Hs) as Hrk. revert Hstep. unfold parse_step.
  assert (forall l bb, b = l ++ bb -> 2 <= length l -> bb = b' -> parse_measure r' b' < parse_measure r b) as Hl.
  { intros l bb -> ? ->. eapply line_measure; [done..|apply state_rank_le2|done]. }
  destruct (m_nCurrentHttpParseState r) eqn:Est; simpl in Hs; try done.
  - unfold step_request. with_line E; [done|].
    repeat case_match; intros; simplify_eq; eauto.
  - unfold step_headers. with_line E; [done|].
    repeat case_match; intros; simplify_eq; eauto.
  - unfold step_body, step_body_chunked, step_body_length. destruct (m_bChunked r).
    + with_line E; [done|]. repeat case_match; intros; simplify_eq; eauto.
    + repeat case_match; intros; simplify_eq; unfold parse_measure, state_rank; simpl;
        rewrite Est; lia.
  - unfold step_chunk. destruct (m_nChunkLen r =? 0)%Z eqn:En.
    + with_line E; [done|]. repeat case_match; intros; simplify_eq; eauto.
    + destruct (_ <? _)%Z eqn:El; intros; simplify_eq. unfold parse_measure, state_rank. simpl.
      rewrite Est, En, length_drop. lia.
  - unfold step_trailer. with_line E; [done|]. rewrite decide_False by done. case_decide.
    + intros; simplify_eq. unfold parse_measure, state_rank. simpl. rewrite Est. lia.
    + intros; simplify_eq; eauto.
  - unfold step_trailer2. with_line E; [done|]. repeat case_match; intros; simplify_eq; eauto.
Qed.

Lemma parse_loop_total fuel r b :
  parse_measure r b <= fuel -> exists x, parse_loop fuel r b = Some x.
Proof.
  revert r b. induction fuel as [|n IH]; intros r b Hm; simpl;
    destruct (parse_stopped (m_nCurrentHttpParseState r)) eqn:Hs; [by eexists| |by eexists|].
  - pose proof (state_rank_pos r Hs). unfold parse_measure in Hm. lia.
  - destruct (parse_step r b) as [[r' b'] [[]|e]] eqn:E; [by eexists| |by eexists].
    apply IH. pose proof (parse_step_measure _ _ _ _ E Hs). lia.
Qed.

Lemma parse_loop_mono n m r b x :
  parse_loop n r b = Some x -> n <= m -> parse_loop m r b = Some x.
Proof.
  revert m r b. induction n as [|n IH]; intros m r b; simpl; intros H Hle.
  - destruct m; simpl; by destruct (parse_stopped _).
  - destruct m as [|m]; [lia|]. simpl. destruct (parse_stopped _); [done|].
    destruct (parse_step r b) as [[r' b'] [[]|e]]; [done| |done]. apply IH; [done|lia].
Qed.

Lemma parse_fuel_enough r b : parse_measure r b <= parse_fuel b.
Proof. unfold parse_measure, parse_fuel. pose proof (state_rank_le2 r). lia. Qed.

(** [ParseData] can be computed with any sufficient fuel. *)
Lemma ParseData_fuel n r b :
  parse_measure r b <= n -> parse_loop n r b = ParseData r b.
Proof.
  intros Hn. unfold ParseData.
  destruct (parse_loop_total _ _ _ (parse_fuel_enough r b)) as [x Hx]. rewrite Hx.
  destruct (parse_loop_total _ _ _ Hn) as [y Hy]. rewrite Hy.
  destruct (Nat.le_ge_cases n (parse_fuel b)) as [Hle|Hle].
  - by rewrite (parse_loop_mono _ _ _ _ _ Hy Hle) in Hx.
  - by rewrite (parse_loop_mono _ _ _ _ _ Hx Hle) in Hy.
Qed.

(** One iteration of the loop. *)
Lemma ParseData_unfold r b :
  ParseData r b =
  if parse_stopped (m_nCurrentHttpParseState r) then Some (r, b, Ret tt)
  else match parse_step r b with
       | (r', b', Throw e) => Some (r', b', Throw e)
       | (r', b', Ret true) => Some (r', b', Ret tt)
       | (r', b', Ret false) => ParseData r' b'
       end.
Proof.
  rewrite <- (ParseData_fuel (S (parse_fuel b))).
  2: { pose proof (parse_fuel_enough r b). lia. }
  simpl. destruct (parse_stopped _) eqn:Hs; [done|].
  destruct (parse_step r b) as [[r' b'] [[]|e]] eqn:E; [done| |done].
  apply ParseData_fuel. pose proof (parse_step_measure _ _ _ _ E Hs).
  pose proof (parse_fuel_enough r b). lia.
Qed.

(** ** Segmentation of the input *)

Lemma lt_length_app (n : Z) (b d : bytes) :
  (n < Z.of_nat (length b))%Z -> (n < Z.of_nat (length (b ++ d)))%Z.
Proof. rewrite length_app. lia. Qed.

Lemma ltb_length_app (n : Z) (b d : bytes) :
  (n <? Z.of_nat (length b))%Z = true -> (n <? Z.of_nat (length (b ++ d)))%Z = true.
Proof. rewrite !Z.ltb_lt. apply lt_length_app. Qed.

(** A step that does not wait does not look past the input it consumes. *)
Lemma parse_step_app r b d :
  waiting r b = false -> parse_step r (b ++ d) = push_back d (parse_step r b).
Proof.
  unfold waiting, parse_step.
  destruct (m_nCurrentHttpParseState r) eqn:Est; try done;
    unfold step_request, step_headers, step_body, step_body_chunked, step_trailer, step_trailer2.
  - intros Hw%bool_decide_eq_false. rewrite (GetNextLine_app _ _ Hw).
    destruct (GetNextLine b) as [l b']. simpl. by repeat case_match.
  - intros Hw%bool_decide_eq_false. rewrite (GetNextLine_app _ _ Hw).
    destruct (GetNextLine b) as [l b']. simpl. by repeat case_match.
  - destruct (m_bChunked r).
    + intros Hw%bool_decide_eq_false. rewrite (GetNextLine_app _ _ Hw).
      destruct (GetNextLine b) as [l b']. simpl. by repeat case_match.
    + unfold step_body_length. destruct (scm_find _ _) as [text|]; [|done].
      destruct (lexical_cast_uint text) as [n|]; [|done]. intros Hw. rewrite Hw.
      assert ((Z.of_nat (length (b ++ d)) <? n)%Z = false) as ->.
      { rewrite length_app. apply Z.ltb_ge in Hw. apply Z.ltb_ge. lia. }
      apply Z.ltb_ge in Hw. rewrite take_app_le, drop_app_le by lia.
      destruct (body_done _) as [? []]; done.
  - unfold step_chunk. destruct (m_nChunkLen r =? 0)%Z.
    + intros Hw%bool_decide_eq_false. rewrite (GetNextLine_app _ _ Hw).
      destruct (GetNextLine b) as [l b']. simpl. by repeat case_match.
    + intros Hw%negb_false_iff. simpl. rewrite Hw, (ltb_length_app _ _ _ Hw).
      apply Z.ltb_lt in Hw. pose proof (lt_length_app _ _ d Hw).
      rewrite !Z.min_l, take_app_le, drop_app_le by lia. done.
  - intros Hw%bool_decide_eq_false. rewrite (GetNextLine_app _ _ Hw).
    destruct (GetNextLine b) as [l b']. simpl. by repeat case_match.
  - intros Hw%bool_decide_eq_false. rewrite (GetNextLine_app _ _ Hw).
    destruct (GetNextLine b) as [l b']. simpl. by repeat case_match.
Qed.

(** A step that waits leaves the request and the buffer alone, except within a chunk. *)
Lemma parse_step_waiting r b :
  waiting r b = true -> parse_stopped (m_nCurrentHttpParseState r) = false ->
  m_nCurrentHttpParseState r <> HTTPPARSESTATE_BODYCHUNK ->
  parse_step r b = (r, b, Ret true).
Proof.
  unfold waiting, parse_step.
  destruct (m_nCurrentHttpParseState r) eqn:Est; try done;
    unfold step_request, step_headers, step_body, step_body_chunked, step_trailer, step_trailer2;
    [| |destruct (m_bChunked r)|..];
    try (intros Hw%bool_decide_eq_true _ _; destruct (GetNextLine_cases b) as [[-> _]|Hc];
         [done|by destruct Hc as (? & ? & Hg & _ & _ & ?); rewrite Hg in Hw]).
  unfold step_body_length. repeat case_match; done.
Qed.

Lemma body_done_state r :
  match body_done r with
  | (r', Ret _) => parse_stopped (m_nCurrentHttpParseState r') = true
  | (_, Throw _) => True
  end.
Proof.
  unfold body_done. destruct (scm_ref _ _ _) as [ct hdrs]. case_decide.
  - by destruct (ParseMultipartFormData _) as [r' [[]|]].
  - by destruct (_ || _).
Qed.

Ltac line_taken b Hw E :=
  apply bool_decide_eq_false in Hw;
  destruct (GetNextLine_cases b) as [[E _]|(?l & ?b' & E & ? & ? & ?)]; [by rewrite E in Hw|].

(** A step that ends the loop without waiting has decided the request, unless it
    met an empty line where the request line was expected. *)
Lemma parse_step_done r b r' b' :
  parse_step r b = (r', b', Ret true) -> waiting r b = false ->
  (m_nCurrentHttpParseState r = HTTPPARSESTATE_REQUEST -> is_prefix crlf b = false) ->
  parse_stopped (m_nCurrentHttpParseState r') = true.
Proof.
  unfold waiting, parse_step.
  destruct (m_nCurrentHttpParseState r) eqn:Est; try done;
    unfold step_request, step_headers, step_body, step_body_chunked, step_trailer, step_trailer2;
    intros Hst Hw Hcr.
  - line_taken b Hw E. rewrite E in Hst.
    rewrite bool_decide_eq_false_2 in Hst by done.
    rewrite bool_decide_eq_false_2 in Hst; [repeat case_match; simplify_eq|].
    intros ->. simplify_eq. specialize (Hcr eq_refl).
    assert (is_prefix crlf (crlf ++ b'0) = true) as Ht; [|congruence].
    apply is_prefix_spec. by eexists.
  - line_taken b Hw E. rewrite E in Hst.
    unfold header_line, header_continuation, to_state in Hst.
    repeat case_match; by simplify_eq/=.
  - destruct (m_bChunked r).
    + line_taken b Hw E. rewrite E in Hst.
      repeat case_match; by simplify_eq/=.
    + unfold step_body_length in Hst. destruct (scm_find _ _) as [text|]; [|done].
      destruct (lexical_cast_uint text) as [n|]; [|done]. rewrite Hw in Hst.
      pose proof (body_done_state (r <| m_sBody := take (Z.to_nat n) b |>)) as Hb.
      destruct (body_done _) as [? []]; by simplify_eq.
  - unfold step_chunk in Hst. destruct (m_nChunkLen r =? 0)%Z.
    + line_taken b Hw E. rewrite E in Hst.
      repeat case_match; by simplify_eq/=.
    + apply negb_false_iff in Hw. simpl in Hst. by rewrite Hw in Hst.
  - line_taken b Hw E. rewrite E in Hst.
    repeat case_match; by simplify_eq/=.
  - line_taken b Hw E. rewrite E in Hst.
    pose proof (body_done_state r) as Hb.
    destruct (body_done r) as [? []]; repeat case_match; by simplify_eq/=.
Qed.

(** The request line is only expected at the start. *)
Lemma headers_done_not_request r : m_nCurrentHttpParseState (headers_done r) <> HTTPPARSESTATE_REQUEST.
Proof. destruct (headers_done_state r) as [->|H]; [done|]. by intros E; rewrite E in H. Qed.

Lemma parse_step_not_request r b r' b' :
  parse_step r b = (r', b', Ret false) -> parse_stopped (m_nCurrentHttpParseState r) = false ->
  m_nCurrentHttpParseState r' <> HTTPPARSESTATE_REQUEST.
Proof.
  unfold parse_step. intros Hst Hs Hr'. destruct (m_nCurrentHttpParseState r) eqn:Est; try done;
    unfold step_request, step_headers, step_body, step_body_chunked, step_body_length,
      step_chunk, step_trailer, step_trailer2, header_line, header_continuation, to_state in Hst;
    destruct (GetNextLine b) as [l bb].
  all: repeat case_match; simplify_eq/=; try congruence.
  all: by eapply headers_done_not_request.
Qed.

(** Within a chunk of which not everything has arrived, what has arrived is added
    to the body and stays in the buffer. *)
Lemma parse_step_within_chunk r b :
  waiting r b = true -> m_nCurrentHttpParseState r = HTTPPARSESTATE_BODYCHUNK ->
  m_nChunkLen r <> 0%Z ->
  parse_step r b =
    (r <| m_sBody ::= fun s => s ++ b |> <| m_nChunkLen := (m_nChunkLen r - Z.of_nat (length b))%Z |>,
     b, Ret true).
Proof.
  unfold waiting, parse_step. intros Hw Hs Hz. rewrite Hs in *. unfold step_chunk.
  apply Z.eqb_neq in Hz. rewrite Hz in *. apply negb_true_iff in Hw. simpl.
  rewrite Hw. apply Z.ltb_ge in Hw. by rewrite Z.min_r, Nat2Z.id, firstn_all by done.
Qed.

Lemma waiting_line r b :
  waiting r b = true -> m_nCurrentHttpParseState r = HTTPPARSESTATE_BODYCHUNK ->
  m_nChunkLen r = 0%Z -> parse_step r b = (r, b, Ret true).
Proof.
  unfold waiting, parse_step. intros Hw Hs Hz. rewrite Hs in *. unfold step_chunk.
  rewrite Hz in *. simpl in *.
  apply bool_decide_eq_true in Hw.
  destruct (GetNextLine_cases b) as [[-> _]|(l & b' & Hg & _ & _ & ?)]; [done|by rewrite Hg in Hw].
Qed.

(** A step that waits ends the call; outside a chunk nothing has changed. *)
Lemma parse_step_waits r b :
  waiting r b = true -> parse_stopped (m_nCurrentHttpParseState r) = false ->
  exists r', parse_step r b = (r', b, Ret true) /\
    m_nCurrentHttpParseState r' = m_nCurrentHttpParseState r /\
    (m_nCurrentHttpParseState r <> HTTPPARSESTATE_BODYCHUNK -> r' = r).
Proof.
  intros Hw Hs. destruct (decide (m_nCurrentHttpParseState r = HTTPPARSESTATE_BODYCHUNK)) as [E|E].
  - destruct (decide (m_nChunkLen r = 0%Z)).
    + exists r. by rewrite waiting_line.
    + eexists. rewrite parse_step_within_chunk by done. by split_and!.
  - exists r. by rewrite parse_step_waiting.
Qed.

Lemma ParseData_segments_aux n r b d r1 b1 o :
  parse_measure r b <= n ->
  (m_nCurrentHttpParseState r = HTTPPARSESTATE_REQUEST -> is_prefix crlf b = false) ->
  ParseData r b = Some (r1, b1, o) ->
  m_nCurrentHttpParseState r1 <> HTTPPARSESTATE_BODYCHUNK ->
  ParseData r (b ++ d) =
    match o with
    | Throw e => Some (r1, b1 ++ d, Throw e)
    | Ret _ => ParseData r1 (b1 ++ d)
    end.
Proof.
  revert r b. induction n as [|n IH]; intros r b Hm Hcr Hp Hc;
    rewrite ParseData_unfold in Hp;
    destruct (parse_stopped (m_nCurrentHttpParseState r)) eqn:Hs; simplify_eq.
  - by rewrite ParseData_unfold, Hs.
  - pose proof (state_rank_pos r Hs). unfold parse_measure in Hm. lia.
  - done.
  - destruct (waiting r b) eqn:Hw.
    + destruct (parse_step_waits r b Hw Hs) as (r' & E & Hst & Heq). rewrite E in Hp.
      simplify_eq. by rewrite Heq by congruence.
    + rewrite ParseData_unfold, Hs, (parse_step_app r b d Hw).
      destruct (parse_step r b) as [[r' b'] [[]|e]] eqn:E; simpl; simplify_eq; [| |done].
      * pose proof (parse_step_done _ _ _ _ E Hw Hcr) as Hd.
        by rewrite ParseData_unfold, Hd.
      * apply IH; [|intros ?; by apply parse_step_not_request in E|done..].
        pose proof (parse_step_measure _ _ _ _ E Hs). lia.
Qed.

End facts.
