(* ===== verification/HttpRender.v ===== *)
(** * Round trip: a rendered request is parsed back

    A well-formed request message, its rendering on the wire, and the theorem
    that [ParseData] recovers it, whatever follows it in the buffer. *)
From S2P Require Import Prelude Boost StdMap EhsTypes HttpRequest HttpRequestFacts.

(** ** Definitions *)

(** What a client wants to say. *)
Record message : Type := Message {
  msg_method : bytes;
  msg_uri : bytes;
  msg_major : bytes;
  msg_minor : bytes;
  msg_headers : StringMap;
  msg_body : bytes
}.

Definition msg_version (m : message) : bytes := msg_major m ++ "."%char :: msg_minor m.

Definition render_header (h : bytes * bytes) : bytes := h.1 ++ #": " ++ h.2 ++ crlf.
Fixpoint render_headers (hs : StringMap) : bytes :=
  match hs with
  | [] => []
  | h :: hs' => render_header h ++ render_headers hs'
  end.
Definition render_line (m : message) : bytes :=
  msg_method m ++ " "%char :: msg_uri m ++ #" HTTP/" ++ msg_version m ++ crlf.
Definition render (m : message) : bytes :=
  render_line m ++ render_headers (msg_headers m) ++ crlf ++ msg_body m.

Definition no_cr (s : bytes) : Prop := Forall (fun a => a <> CR) s.

(** A header the grammar of the parser accepts, whose value has no outer blanks. *)
Record wf_header (h : bytes * bytes) : Prop := WfHeader {
  wfh_name : h.1 <> [];
  wfh_name_chars : Forall (fun a => header_name_char a = true) h.1;
  wfh_value : h.2 <> [];
  wfh_value_chars : no_cr h.2;
  wfh_value_head : forall a, head h.2 = Some a -> is_space a = false;
  wfh_value_last : forall a, last h.2 = Some a -> is_space a = false
}.

Definition header_names (hs : StringMap) : list bytes := caseless <$> hs.*1.

(** A message with a [Content-Length] exactly when it has a body, a [Host] when the
    version needs one, and no header that selects another body format. *)
Record wf_message (m : message) : Prop := WfMessage {
  wfm_method : GetRequestMethodFromString (msg_method m) <> REQUESTMETHOD_UNKNOWN;
  wfm_uri : msg_uri m <> [];
  wfm_uri_chars : Forall (fun a => none_of #" " a = true) (msg_uri m);
  wfm_uri_no_cr : no_cr (msg_uri m);
  wfm_major : msg_major m <> [] /\ Forall (fun a => is_digit a = true) (msg_major m);
  wfm_minor : msg_minor m <> [] /\ Forall (fun a => is_digit a = true) (msg_minor m);
  wfm_headers : Forall wf_header (msg_headers m);
  wfm_distinct : NoDup (header_names (msg_headers m));
  wfm_host : msg_version m = #"1.1" -> is_Some (scm_find #"Host" (msg_headers m));
  wfm_no_upgrade : scm_find #"upgrade" (msg_headers m) = None;
  wfm_no_chunks : scm_find #"transfer-encoding" (msg_headers m) = None;
  wfm_length : match scm_find #"Content-Length" (msg_headers m) with
               | Some v => v = print_Z (Z.of_nat (length (msg_body m)))
               | None => msg_body m = []
               end;
  wfm_body : (Z.of_nat (length (msg_body m)) < 2 ^ 32)%Z;
  wfm_type : take 9 (default [] (scm_find #"Content-Type" (msg_headers m))) <> #"multipart"
}.

(** The request after some headers have been read. *)
Fixpoint add_headers (hs : StringMap) (r : HttpRequest) : HttpRequest :=
  match hs with
  | [] => r
  | (n, v) :: hs' =>
      add_headers hs' (r <| m_oRequestHeaders ::= scm_set n v |> <| m_sLastHeaderName := n |>)
  end.

(** The request after its request line. *)
Definition start_request `{B : Boost} (m : message) (r : HttpRequest) : HttpRequest :=
  to_state HTTPPARSESTATE_HEADERS
    (GetFormDataFromString (msg_uri m)
       (r <| m_nRequestMethod := GetRequestMethodFromString (msg_method m) |>
          <| m_sUri := msg_uri m |> <| m_sOriginalUri := msg_uri m |>
          <| m_sHttpVersionNumber := msg_version m |>)) <| m_bChunked := false |>.

(** A request that has not read anything. *)
Record fresh_request (r : HttpRequest) : Prop := FreshRequest {
  fr_state : m_nCurrentHttpParseState r = HTTPPARSESTATE_REQUEST;
  fr_headers : m_oRequestHeaders r = [];
  fr_forms : m_oFormValueMap r = [];
  fr_body : m_sBody r = []
}.

(** The form data of a text added to the values already known. *)
Definition form_of `{B : Boost} (s : bytes) (m : FormValueMap) : FormValueMap :=
  form_loop (length s) s m.

(** What the parser makes of a message, for a [parsecontenttype] setting. *)
Definition request_of `{B : Boost} (m : message) (pct : bytes) (r' : HttpRequest) : Prop :=
  m_nCurrentHttpParseState r' = HTTPPARSESTATE_COMPLETEREQUEST /\
  m_nRequestMethod r' = GetRequestMethodFromString (msg_method m) /\
  m_sUri r' = msg_uri m /\ m_sOriginalUri r' = msg_uri m /\
  m_sHttpVersionNumber r' = msg_version m /\ m_sBody r' = msg_body m /\
  (forall k, Headers r' k = default [] (scm_find k (msg_headers m))) /\
  m_oFormValueMap r' =
    if bool_decide (pct = []) || bool_decide (default [] (scm_find #"Content-Type" (msg_headers m)) = pct)
    then form_of (msg_body m) (form_of (msg_uri m) []) else form_of (msg_uri m) [].

(** A concrete message. *)
Definition example_message : message :=
  Message #"POST" #"/a?x=1" #"1" #"1"
    [(#"Host", #"example"); (#"Content-Length", #"3"); (#"Content-Type", #"text/plain")] #"y=2".

(** ** The patterns on well-formed lines *)
Import Perl.

Lemma match_request_line m u v1 v2 :
  Forall (fun a => is_upper a = true) m -> 3 <= length m <= 8 ->
  u <> [] -> Forall (fun a => none_of #" " a = true) u ->
  v1 <> [] -> Forall (fun a => is_digit a = true) v1 ->
  v2 <> [] -> Forall (fun a => is_digit a = true) v2 ->
  full_match re_request (m ++ " "%char :: u ++ #" HTTP/" ++ (v1 ++ "."%char :: v2) ++ crlf)
  = Some [(3, v1 ++ #"." ++ v2); (2, u); (1, m)].
Proof.
  intros Hm Hl Hu0%length_pos Hu H10%length_pos H1 H20%length_pos H2.
  unfold full_match, re_request. rx. rewrite run_bol. rx.
  rewrite run_grp_rep; [rx|done|done|lia|simpl; lia|chr_fails].
  rewrite run_chr; rx.
  rewrite run_grp_rep; [rx|done|done|lia|done|].
  2:{ intros w' b a s c Ha. apply run_rlit_fail.
      destruct (is_prefix _ _) eqn:E; [|done]. apply is_prefix_spec in E as [t E].
      injection E as -> _. done. }
  rewrite run_rlit; rx. rewrite run_grp; rx. rewrite <- app_assoc. cbn [app].
  rewrite run_rep; [rx|done|done|lia|done|chr_fails].
  rewrite run_chr; rx.
  rewrite run_rep; [rx|done|done|lia|done|].
  2: chr_fails.
  unfold crlf. rewrite run_chr; rx. rewrite run_chr; rx. cbn.
  replace (v1 ++ "."%char :: v2 ++ [CR; LF]) with ((v1 ++ "."%char :: v2) ++ [CR; LF]) by by rewrite <- app_assoc.
  by rewrite (take_consumed _ [CR; LF]).
Qed.

Lemma match_header_line n v :
  n <> [] -> Forall (fun a => header_name_char a = true) n ->
  v <> [] -> (forall a, head v = Some a -> is_space a = false) ->
  full_match re_header (n ++ #": " ++ v ++ crlf) = Some [(2, v); (1, n)].
Proof.
  intros Hn0%length_pos Hn Hv Hh.
  unfold full_match, re_header. rx. rewrite run_bol. rx.
  rewrite run_grp_rep; [rx|done|done|lia|done|chr_fails].
  change (#": " ++ v ++ crlf) with (":"%char :: " "%char :: v ++ crlf). rewrite run_chr; rx.
  change (" "%char :: v ++ crlf) with ([" "%char] ++ (v ++ crlf)).
  rewrite run_rep_exact; [rx|by constructor|destruct v; [done|by apply Hh]|done|done|].
  - rewrite run_grp; rx. apply run_rep_any.
    + apply Forall_forall. by intros.
    + rx. unfold crlf. rewrite run_chr; rx. rewrite run_chr; rx. pose proof (take_consumed v [CR; LF]) as T. cbn in *. by rewrite T.
    + intros u w b' E Hu. rx. unfold crlf in E. destruct u as [|x [|y [|z u]]]; [done|..]; simplify_eq/=; reflexivity.
  - intros u w b c E Hw Hl. destruct u as [|x [|y u]]; simplify_eq/=; lia || done.
Qed.
(** ** Well-formed lines *)
Lemma known_method mth :
  GetRequestMethodFromString mth <> REQUESTMETHOD_UNKNOWN ->
  Forall (fun a => is_upper a = true) mth /\ 3 <= length mth <= 8 /\ no_cr mth.
Proof.
  unfold GetRequestMethodFromString. destruct (sm_find mth _) as [x|] eqn:E; [|done]. intros _.
  apply m_find_elem in E as (k & Hin & Hk). unfold str_key in Hk. subst k.
  unfold request_methods in Hin. set_unfold.
  repeat destruct Hin as [[= -> _]|Hin]; try done.
  all: split_and!; [by repeat constructor|simpl; lia..|].
  all: repeat (constructor; [done|]); constructor.
Qed.

Lemma no_cr_app s t : no_cr (s ++ t) <-> no_cr s /\ no_cr t.
Proof. apply Forall_app. Qed.

Lemma no_cr_class f s :
  f CR = false -> Forall (fun a => f a = true) s -> no_cr s.
Proof. intros Hf H. eapply Forall_impl; [done|]. by intros a Ha ->; rewrite Hf in Ha. Qed.

Lemma no_cr_lit s : forallb (fun a => negb (bool_decide (a = CR))) s = true -> no_cr s.
Proof.
  intros H. apply Forall_forall. intros a Ha ->. rewrite forallb_forall in H.
  apply list_elem_of_In in Ha. by apply H in Ha.
Qed.

Lemma render_line_no_cr m : wf_message m ->
  no_cr (msg_method m ++ " "%char :: msg_uri m ++ #" HTTP/" ++ msg_version m).
Proof.
  intros [Hm _ _ Hu [_ H1] [_ H2] _ _ _ _ _ _ _ _].
  apply known_method in Hm as (_ & _ & Hm).
  apply no_cr_app; split; [done|]. constructor; [done|].
  repeat (apply no_cr_app; split); [done|by apply no_cr_lit|by apply (no_cr_class is_digit)|].
  constructor; [done|]. by apply (no_cr_class is_digit).
Qed.

Lemma render_header_no_cr h : wf_header h -> no_cr (h.1 ++ #": " ++ h.2).
Proof.
  intros [_ Hn _ Hv _ _]. repeat (apply no_cr_app; split); [|by apply no_cr_lit|done].
  by apply (no_cr_class header_name_char).
Qed.

(** Fields that reading headers does not touch. *)
Lemma add_headers_fields hs r :
  let r' := add_headers hs r in
  m_nCurrentHttpParseState r' = m_nCurrentHttpParseState r /\
  m_nRequestMethod r' = m_nRequestMethod r /\ m_sUri r' = m_sUri r /\
  m_sOriginalUri r' = m_sOriginalUri r /\
  m_sHttpVersionNumber r' = m_sHttpVersionNumber r /\ m_sBody r' = m_sBody r /\
  m_oFormValueMap r' = m_oFormValueMap r /\ m_oCookieMap r' = m_oCookieMap r /\
  m_sParseContentType r' = m_sParseContentType r.
Proof.
  revert r. induction hs as [|[n v] hs IH]; intros r; simpl; [by split_and!|].
  exact (IH _).
Qed.

Lemma add_headers_find hs r k :
  NoDup (header_names hs) ->
  scm_find k (m_oRequestHeaders (add_headers hs r)) =
  match scm_find k hs with
  | Some v => Some v
  | None => scm_find k (m_oRequestHeaders r)
  end.
Proof.
  revert r. induction hs as [|[n v] hs IH]; intros r; simpl; [done|].
  intros [Hn Hnd]%NoDup_cons. rewrite IH by done. simpl.
  destruct (kcmp caseless k n) eqn:E.
  - apply kcmp_eq in E. rewrite m_find_set_eq by done.
    destruct (scm_find k hs) as [v'|] eqn:F; [|done]. exfalso.
    apply m_find_elem in F as (k' & Hin & Hk'). apply Hn.
    change (caseless n ∈ header_names hs). rewrite <- E, Hk'. apply list_elem_of_fmap. exists k'. split; [done|].
    apply list_elem_of_fmap. by exists (k', v').
  - rewrite m_find_set_ne; [done|]. intros H. symmetry in H. by apply kcmp_eq in H; rewrite H in E.
  - rewrite m_find_set_ne; [done|]. intros H. symmetry in H. by apply kcmp_eq in H; rewrite H in E.
Qed.

Section roundtrip.
Context {B : Boost} {L : BoostLaws B}.

(** The request line. *)
Lemma parse_request_line m r tail :
  wf_message m -> m_nCurrentHttpParseState r = HTTPPARSESTATE_REQUEST ->
  parse_step r (render_line m ++ tail) = (start_request m r, tail, Ret false).
Proof.
  intros Hwf Hs. pose proof (render_line_no_cr m Hwf) as Hcr.
  pose proof (known_method _ (wfm_method m Hwf)) as (Hup & Hlen & _).
  destruct Hwf as [Hm Hu0 Hu _ [H10 H1] [H20 H2] _ _ _ _ _ _ _ _].
  assert (render_line m ++ tail =
    (msg_method m ++ " "%char :: msg_uri m ++ #" HTTP/" ++ msg_version m) ++ crlf ++ tail) as ->.
  { unfold render_line. rewrite <- !app_assoc. cbn [app]. by rewrite <- !app_assoc. }
  unfold parse_step. rewrite Hs. unfold step_request.
  rewrite (GetNextLine_line _ tail Hcr).
  rewrite bool_decide_eq_false_2 by (by destruct (msg_method m)).
  rewrite bool_decide_eq_false_2 by (by destruct (msg_method m) as [|? [|? [|]]]; intros; simplify_eq).
  simpl orb. cbv iota.
  assert (regex_match re_request
    ((msg_method m ++ " "%char :: msg_uri m ++ #" HTTP/" ++ msg_version m) ++ crlf) =
    Some [(3, msg_version m); (2, msg_uri m); (1, msg_method m)]) as ->.
  { rewrite regex_match_law. rewrite <- !app_assoc. cbn [app]. rewrite <- !app_assoc.
    by apply match_request_line. }
  simpl group. by rewrite decide_False.
Qed.

(** One header line. *)
Lemma parse_header_line h r tail :
  wf_header h -> m_nCurrentHttpParseState r = HTTPPARSESTATE_HEADERS ->
  scm_find h.1 (m_oRequestHeaders r) = None ->
  parse_step r (render_header h ++ tail) =
    (r <| m_oRequestHeaders ::= scm_set h.1 h.2 |> <| m_sLastHeaderName := h.1 |>, tail, Ret false).
Proof.
  intros Hwf Hs Hf. pose proof (render_header_no_cr h Hwf) as Hcr.
  destruct Hwf as [Hn0 Hn Hv0 Hv Hh Hl].
  assert (render_header h ++ tail = (h.1 ++ #": " ++ h.2) ++ crlf ++ tail) as ->.
  { unfold render_header. by rewrite <- !app_assoc. }
  unfold parse_step. rewrite Hs. unfold step_headers.
  rewrite (GetNextLine_line _ tail Hcr).
  rewrite !decide_False.
  2:{ intros E%(f_equal length). rewrite !length_app in E. simpl in E. lia. }
  2:{ by destruct h.1. }
  assert (regex_match re_header ((h.1 ++ #": " ++ h.2) ++ crlf) = Some [(2, h.2); (1, h.1)]) as ->.
  { rewrite regex_match_law, <- !app_assoc. by apply match_header_line. }
  simpl group. unfold header_line. rewrite Hf, trim_law, trim_both_id by done. done.
Qed.

(** All the header lines. *)
Lemma parse_header_lines hs r tail :
  Forall wf_header hs -> NoDup (header_names hs) ->
  m_nCurrentHttpParseState r = HTTPPARSESTATE_HEADERS ->
  (forall k, k ∈ hs.*1 -> scm_find k (m_oRequestHeaders r) = None) ->
  ParseData r (render_headers hs ++ tail) = ParseData (add_headers hs r) tail.
Proof.
  revert r. induction hs as [|[n v] hs IH]; intros r Hwf Hnd Hs Hfr; [done|].
  apply Forall_cons in Hwf as [Hh Hwf]. apply NoDup_cons in Hnd as [Hn Hnd].
  cbn [render_headers add_headers]. rewrite <- app_assoc, ParseData_unfold, Hs. simpl parse_stopped.
  cbv iota. rewrite (parse_header_line (n, v)) by (try done; apply Hfr; left).
  apply IH; [done..|]. intros k Hk. simpl. rewrite m_find_set_ne; [apply Hfr; by right|].
  intros E. apply Hn. change (caseless n ∈ header_names hs). rewrite E.
  by apply list_elem_of_fmap_2.
Qed.

Lemma MultivalHeaderContains_empty v : v <> [] -> MultivalHeaderContains [] v = false.
Proof.
  intros Hv. unfold MultivalHeaderContains. rewrite !to_lower_copy_law, split_regex_law.
  apply bool_decide_eq_false. change (Perl.split re_comma (lower [])) with [@nil ascii].
  intros H%list_elem_of_singleton. by destruct v.
Qed.

(** The blank line after well-formed headers. *)
Lemma headers_done_wf m r :
  wf_message m -> m_oRequestHeaders r = [] -> m_sHttpVersionNumber r = msg_version m ->
  let r1 := add_headers (msg_headers m) r in
  exists cookies, headers_done r1 =
    to_state (if decide (is_Some (scm_find #"Content-Length" (msg_headers m)))
              then HTTPPARSESTATE_BODY else HTTPPARSESTATE_COMPLETEREQUEST) r1
      <| m_bChunked := false |> <| m_oCookieMap := cookies |>.
Proof.
  intros Hwf Hh Hv r1.
  assert (forall k, scm_find k (m_oRequestHeaders r1) = scm_find k (msg_headers m)) as Hf.
  { intros k. unfold r1. rewrite add_headers_find by apply Hwf. rewrite Hh. by destruct (scm_find k _). }
  unfold headers_done, Headers. rewrite !Hf, (wfm_no_upgrade m Hwf), (wfm_no_chunks m Hwf).
  change (default [] (@None bytes)) with (@nil ascii).
  rewrite !MultivalHeaderContains_empty by done. rewrite !andb_false_r, !orb_false_r.
  assert (m_sHttpVersionNumber r1 = msg_version m) as Hv1.
  { unfold r1. by destruct (add_headers_fields (msg_headers m) r) as (_ & _ & _ & _ & -> & _). }
  rewrite Hv1.
  assert (bool_decide (msg_version m = #"1.1") &&
    negb (bool_decide (is_Some (scm_find #"Host" (msg_headers m)))) = false) as ->.
  { apply andb_false_iff. destruct (decide (msg_version m = #"1.1")) as [E|E].
    - right. by rewrite bool_decide_eq_true_2 by by apply Hwf.
    - left. by apply bool_decide_eq_false_2. }
  unfold ParseCookieData. cbv iota.
  destruct (decide (is_Some (scm_find #"Content-Length" (msg_headers m)))) as [E|E];
    [rewrite !(bool_decide_eq_true_2 _ E) | rewrite !(bool_decide_eq_false_2 _ E)];
    (destruct (bool_decide (is_Some (scm_find #"Cookie" _)));
     [destruct (cookie_loop _ _ _ _) as [cookies n]; by exists cookies
     |by exists (m_oCookieMap r1)]).
Qed.

(** A complete body of known length, not multipart. *)
Lemma parse_body m r text rest :
  wf_message m -> m_nCurrentHttpParseState r = HTTPPARSESTATE_BODY -> m_bChunked r = false ->
  (forall k, scm_find k (m_oRequestHeaders r) = scm_find k (msg_headers m)) ->
  scm_find #"Content-Length" (msg_headers m) = Some text ->
  let ct := default [] (scm_find #"Content-Type" (msg_headers m)) in
  exists r', parse_step r (msg_body m ++ rest) = (r', rest, Ret true) /\
    m_nCurrentHttpParseState r' = HTTPPARSESTATE_COMPLETEREQUEST /\
    m_nRequestMethod r' = m_nRequestMethod r /\ m_sUri r' = m_sUri r /\
    m_sOriginalUri r' = m_sOriginalUri r /\
    m_sHttpVersionNumber r' = m_sHttpVersionNumber r /\ m_sBody r' = msg_body m /\
    (forall k, Headers r' k = Headers r k) /\
    m_oFormValueMap r' =
      if bool_decide (m_sParseContentType r = []) || bool_decide (ct = m_sParseContentType r)
      then form_of (msg_body m) (m_oFormValueMap r) else m_oFormValueMap r.
Proof.
  intros Hwf Hs Hc Hf Ht ct. unfold parse_step. rewrite Hs. unfold step_body. rewrite Hc.
  unfold step_body_length. rewrite Hf, Ht. pose proof (wfm_length m Hwf) as Hl. rewrite Ht in Hl.
  subst text. pose proof (wfm_body m Hwf) as Hb.
  rewrite lexical_cast_law, cast_uint_print by lia. rewrite length_app.
  destruct (Z.ltb_spec (Z.of_nat (length (msg_body m) + length rest)) (Z.of_nat (length (msg_body m))));
    [lia|].
  rewrite Nat2Z.id, take_app_length, drop_app_length. unfold body_done.
  assert (m_oRequestHeaders (r <| m_sBody := msg_body m |>) = m_oRequestHeaders r) as -> by done.
  pose proof (wfm_type m Hwf) as Hty. fold ct in Hty. unfold m_ref at 1. rewrite Hf.
  destruct (scm_find #"Content-Type" (msg_headers m)) as [v|] eqn:E; unfold ct in *; simpl default in *.
  - rewrite decide_False by done. eexists. split; [done|]. split_and!; try done.
    all: unfold form_of, GetFormDataFromString; by destruct (_ || _).
  - rewrite decide_False by done. eexists. split; [done|].
    assert (forall k, default [] (scm_find k (scm_set #"Content-Type" [] (m_oRequestHeaders r))) =
      Headers r k) as Hk.
    { intros k. unfold Headers. destruct (decide (caseless k = caseless #"Content-Type")) as [Ek|Ek].
      - rewrite m_find_set_eq by done. rewrite (m_find_norm _ k #"Content-Type") by done.
        by rewrite Hf, E.
      - by rewrite m_find_set_ne by done. }
    split_and!; try done; try (by destruct (_ || _)).
Qed.

(** A fresh request reads a rendered message. *)
Lemma parse_message m r rest :
  wf_message m -> fresh_request r ->
  exists r', ParseData r (render m ++ rest) = Some (r', rest, Ret tt) /\
    request_of m (m_sParseContentType r) r'.
Proof.
  intros Hwf [Hfs Hfh Hff Hfb]. unfold request_of. unfold render. rewrite <- !app_assoc.
  rewrite ParseData_unfold, Hfs. simpl parse_stopped. cbv iota.
  rewrite parse_request_line by done. set (r1 := start_request m r).
  assert (m_oRequestHeaders r1 = []) as Hr1 by done.
  rewrite parse_header_lines; [|apply Hwf|apply Hwf|done|by intros k _; rewrite Hr1].
  destruct (add_headers_fields (msg_headers m) r1)
    as (E1 & E2 & E3 & E4 & E5 & E6 & E7 & E8 & E9).
  simpl in E6, E7, E9. rewrite Hfb in E6. rewrite Hff in E7.
  assert (forall k, scm_find k (m_oRequestHeaders (add_headers (msg_headers m) r1)) =
    scm_find k (msg_headers m)) as Hf.
  { intros k. rewrite add_headers_find, Hr1 by apply Hwf. by destruct (scm_find k _). }
  destruct (headers_done_wf m r1 Hwf Hr1 eq_refl) as [cookies Hd].
  rewrite ParseData_unfold. rewrite E1. simpl parse_stopped. cbv iota.
  unfold parse_step. rewrite E1. cbn [m_nCurrentHttpParseState r1 start_request to_state update].
  unfold step_headers. rewrite GetNextLine_crlf.
  rewrite decide_False, decide_True, Hd by done.
  set (r2 := add_headers _ _) in *.
  destruct (decide _) as [[text Ht]|Hn].
  - set (r3 := _ <| m_oCookieMap := cookies |>).
    destruct (parse_body m r3 text rest) as (r' & Hst & ?); [done..|].
    exists r'. rewrite ParseData_unfold. simpl parse_stopped. cbv iota. rewrite Hst.
    destruct_and!. unfold Headers in *. simplify_eq/=. split_and!; try congruence.
    match goal with H : m_oFormValueMap r' = _ |- _ => by rewrite H, E7, E9 end.
  - pose proof (wfm_length m Hwf) as Hb.
    destruct (scm_find #"Content-Length" (msg_headers m)); [by destruct Hn|].
    rewrite ParseData_unfold. simpl parse_stopped. cbv iota. rewrite Hb. eexists. split; [done|].
    split_and!; try done; [..|by intros k; unfold Headers; simpl; rewrite Hf|].
    + simpl. by rewrite E7; destruct (_ || _).
Qed.

(** C1: a well-formed request written by a client is parsed back: a fresh
    request given the rendering of a message, followed by anything, ends complete
    with the message's method, URI, version, headers and body, and leaves exactly
    what followed in the buffer. *)
Theorem parse_render (m : message) (id : Z) (c : conn_id) (pct : bytes) (r : HttpRequest) (rest : bytes)
    (Hnew : HttpRequest_new id (Some c) pct = Ret r) (Hwf : wf_message m) :
  exists r', ParseData r (render m ++ rest) = Some (r', rest, Ret tt) /\ request_of m pct r'.
Proof. simplify_eq/=. by apply (parse_message m (HttpRequest_init id c pct)). Qed.

End roundtrip.

(** ** A concrete instance *)
Lemma example_message_wf : wf_message example_message.
Proof.
  split; try discriminate.
  - repeat constructor.
  - repeat (constructor; [discriminate|]). constructor.
  - split; [discriminate|repeat constructor].
  - split; [discriminate|repeat constructor].
  - repeat (constructor; [split; try discriminate; try (by intros a [= <-]);
      first [by repeat constructor | by repeat (constructor; [discriminate|]); constructor]|]).
    constructor.
  - by apply (bool_decide_unpack _).
  - intros _. by eexists.
  - reflexivity.
  - reflexivity.
  - reflexivity.
  - reflexivity.
Qed.

Lemma parse_render_witness :
  wf_message example_message /\
  exists r r', HttpRequest_new 1 (Some 7) [] = Ret r /\
    ParseData (B := perl_boost) r (render example_message ++ #"GET") = Some (r', #"GET", Ret tt) /\
    m_nCurrentHttpParseState r' = HTTPPARSESTATE_COMPLETEREQUEST /\ m_sBody r' = #"y=2".
Proof.
  split; [exact example_message_wf|]. eexists.
  destruct (parse_render (B := perl_boost) (L := perl_boost_laws) example_message 1 7 [] _ #"GET"
    eq_refl example_message_wf) as (r' & Hp & Hs & _ & _ & _ & _ & Hb & _).
  exists r'. split; [reflexivity|]. split; [exact Hp|]. split; [exact Hs|exact Hb].
Defined.
