(* ===== verification/HttpRequestProps.v ===== *)
(** * Properties of the request parser

    Totality and progress of [ParseData], independence of the segmentation of
    the input, the accounting of chunks, and the invariant of the maps. *)
From S2P Require Import Prelude Boost StdMap EhsTypes HttpRequest HttpRequestFacts.

(** ** Definitions *)

(** The maps of a request are maps: strictly increasing keys. *)
Record maps_ok (r : HttpRequest) : Prop := MapsOk {
  mo_headers : scm_sorted (m_oRequestHeaders r);
  mo_forms : m_sorted str_key (m_oFormValueMap r);
  mo_cookies : m_sorted str_key (m_oCookieMap r)
}.

(** Parsing keeps the identity of a request. *)
Definition same_id (r r' : HttpRequest) : Prop :=
  m_nRequestId r' = m_nRequestId r /\
  m_poSourceEHSConnection r' = m_poSourceEHSConnection r /\
  m_sParseContentType r' = m_sParseContentType r /\ m_bSecure r' = m_bSecure r.

(** Concrete requests and inputs for the examples. *)
Definition example_request : HttpRequest :=
  MkHttpRequest HTTPPARSESTATE_REQUEST REQUESTMETHOD_UNKNOWN [] [] [] [] [] false
    [] [] [] 1 7 false 0 [].
Definition example_chunk : HttpRequest :=
  example_request <| m_nCurrentHttpParseState := HTTPPARSESTATE_BODYCHUNK |>
    <| m_bChunked := true |> <| m_nChunkLen := 5%Z |>.
Definition example_head : bytes := #"GET /a?x=1 HTTP/1.1" ++ crlf ++ #"Host: h" ++ crlf ++ #"Coo".
Definition example_tail : bytes := #"kie: c=d" ++ crlf ++ crlf ++ #"GET".

(** ** Lemmas *)
Lemma m_ref_sorted {V} norm (d : V) k m v m' :
  m_ref norm d k m = (v, m') -> m_sorted norm m -> m_sorted norm m'.
Proof.
  unfold m_ref. destruct (m_find norm k m); intros; simplify_eq; [done|]. by apply m_set_sorted.
Qed.
#[export] Hint Resolve m_set_sorted m_ref_sorted : ehs.

Section props.
Context {B : Boost}.

Lemma form_loop_sorted n s m : m_sorted str_key m -> m_sorted str_key (form_loop n s m).
Proof.
  revert s m. induction n as [|n IH]; intros s m Hm; simpl; [done|].
  destruct (regex_search _ _); [|done]. apply IH. by apply m_set_sorted.
Qed.

Lemma cookie_loop_sorted n s m c : m_sorted str_key m -> m_sorted str_key (cookie_loop n s m c).1.
Proof.
  revert s m c. induction n as [|n IH]; intros s m c Hm; simpl; [done|].
  destruct (regex_search _ _); [|done]. apply IH. by apply m_set_sorted.
Qed.

(** Updates of the other fields do not matter. *)
Lemma maps_ok_eq r r' :
  maps_ok r -> m_oRequestHeaders r' = m_oRequestHeaders r ->
  m_oFormValueMap r' = m_oFormValueMap r -> m_oCookieMap r' = m_oCookieMap r -> maps_ok r'.
Proof. intros [] E1 E2 E3. split; [by rewrite E1|by rewrite E2|by rewrite E3]. Qed.

Lemma maps_ok_set r hs fs cs :
  scm_sorted hs -> m_sorted str_key fs -> m_sorted str_key cs ->
  maps_ok (r <| m_oRequestHeaders := hs |> <| m_oFormValueMap := fs |> <| m_oCookieMap := cs |>).
Proof. by split. Qed.

Lemma GetFormDataFromString_ok s r : maps_ok r -> maps_ok (GetFormDataFromString s r).
Proof. intros []. split; simpl; [done|by apply form_loop_sorted|done]. Qed.

Lemma ParseCookieData_ok s r : maps_ok r -> maps_ok (ParseCookieData s r).1.
Proof.
  intros []. unfold ParseCookieData.
  pose proof (cookie_loop_sorted (length s) s (m_oCookieMap r) 0 mo_cookies0).
  destruct (cookie_loop _ _ _ _). by split.
Qed.

Lemma ParseSubbody_ok s r : maps_ok r -> maps_ok (ParseSubbody s r).1.
Proof.
  intros []. unfold ParseSubbody. destruct (find _ s); [|done].
  destruct (regex_match _ _); [|done]. destruct (scm_ref _ _ _) as [nm ?].
  destruct (sm_ref _ nm _) as [v fs] eqn:E. split; simpl; [done| |done].
  apply m_set_sorted. by eapply m_ref_sorted.
Qed.

Lemma multipart_loop_ok n bd l s r : maps_ok r -> maps_ok (multipart_loop n bd l s r).1.
Proof.
  revert s r. induction n as [|n IH]; intros s r Hr; simpl; [done|].
  destruct (find bd s); [|done]. case_decide; [done|].
  destruct (substr_from _ _); [|by apply ParseSubbody_ok]. by apply IH, ParseSubbody_ok.
Qed.

Lemma header_ref_ok d k r v hs :
  maps_ok r -> scm_ref d k (m_oRequestHeaders r) = (v, hs) ->
  maps_ok (r <| m_oRequestHeaders := hs |>).
Proof. intros [] E. split; simpl; [by eapply m_ref_sorted|done..]. Qed.

Lemma ParseMultipartFormData_ok r : maps_ok r -> maps_ok (ParseMultipartFormData r).1.
Proof.
  intros Hr. unfold ParseMultipartFormData.
  destruct (scm_ref _ _ _) as [ct hs] eqn:E. pose proof (header_ref_ok _ _ _ _ _ Hr E) as Hr'.
  case_decide; [done|]. destruct (regex_match _ _); [|done]. case_decide; [done|].
  destruct (substr_from _ _); [|done]. by apply multipart_loop_ok.
Qed.

Lemma body_done_ok r : maps_ok r -> maps_ok (body_done r).1.
Proof.
  intros Hr. unfold body_done.
  destruct (scm_ref _ _ _) as [ct hs] eqn:E. pose proof (header_ref_ok _ _ _ _ _ Hr E) as Hr'.
  case_decide.
  - pose proof (ParseMultipartFormData_ok _ Hr') as Hp.
    destruct (ParseMultipartFormData _) as [r' [[]|]]; simpl in *; by apply (maps_ok_eq r').
  - destruct (_ || _); simpl; [|by apply (maps_ok_eq _ _ Hr')].
    eapply maps_ok_eq; [by apply GetFormDataFromString_ok|done..].
Qed.

Lemma headers_done_ok r : maps_ok r -> maps_ok (headers_done r).
Proof.
  intros Hr. unfold headers_done.
  match goal with |- context [ParseCookieData _ ?x] => assert (maps_ok x) as Hx end.
  { repeat case_match; by apply (maps_ok_eq r). }
  destruct (bool_decide (is_Some (scm_find #"Cookie" _))); [|done]. by apply ParseCookieData_ok.
Qed.

Lemma set_header_ok k v r : maps_ok r -> maps_ok (r <| m_oRequestHeaders ::= scm_set k v |>).
Proof. intros []. split; simpl; [by apply m_set_sorted|done..]. Qed.

Lemma header_line_ok n v r : maps_ok r -> maps_ok (header_line n v r).1.
Proof.
  intros Hr. unfold header_line. destruct (scm_find _ _); [destruct (negb _)|]; simpl.
  - by apply (maps_ok_eq r).
  - eapply maps_ok_eq; [by apply (set_header_ok n)|done..].
  - eapply maps_ok_eq; [by apply (set_header_ok n)|done..].
Qed.

Lemma header_continuation_ok v r : maps_ok r -> maps_ok (header_continuation v r).1.
Proof.
  intros Hr. unfold header_continuation. case_decide; [by apply (maps_ok_eq r)|].
  destruct (scm_ref _ _ _) as [old hs] eqn:E. simpl. destruct Hr.
  split; simpl; [|done..]. apply m_set_sorted. by eapply m_ref_sorted.
Qed.

Lemma step_request_ok r b : maps_ok r -> maps_ok (step_request r b).1.1.
Proof.
  intros Hr. unfold step_request. destruct (GetNextLine b). destruct (_ || _); [done|].
  destruct (regex_match _ _) as [c|]; [|by apply (maps_ok_eq r)]. case_decide; [by eapply maps_ok_eq|].
  apply (maps_ok_eq (GetFormDataFromString (group 2 c) r)); [|done..].
  by apply GetFormDataFromString_ok.
Qed.

Lemma parse_step_ok r b : maps_ok r -> maps_ok (parse_step r b).1.1.
Proof.
  intros Hr. unfold parse_step, step_headers, step_trailer, step_trailer2, step_chunk, step_body,
    step_body_chunked, step_body_length.
  destruct (m_nCurrentHttpParseState r); [done|by apply step_request_ok|..|done|done];
    destruct (GetNextLine b) as [l b'].
  - pose proof (headers_done_ok r Hr). case_decide; [done|]. case_decide; [done|].
    destruct (regex_match _ _) as [c|].
    + pose proof (header_line_ok (group 1 c) (group 2 c) r Hr).
      by destruct (header_line _ _ _).
    + destruct (regex_match _ _) as [c|]; [|by apply (maps_ok_eq r)].
      pose proof (header_continuation_ok (group 1 c) r Hr). by destruct (header_continuation _ _).
  - destruct (m_bChunked r).
    + repeat case_match; simplify_eq/=; try done; by apply (maps_ok_eq r).
    + destruct (scm_find _ _); [|by apply (maps_ok_eq r)].
      destruct (lexical_cast_uint _) as [n|]; [|by apply (maps_ok_eq r)].
      destruct (_ <? _)%Z; [done|].
      match goal with |- context [body_done ?x] =>
        pose proof (body_done_ok x (maps_ok_eq r x Hr eq_refl eq_refl eq_refl));
        by destruct (body_done x) as [? []]
      end.
  - repeat case_match; simplify_eq/=; try done; by apply (maps_ok_eq r).
  - repeat case_match; simplify_eq/=; try done; by apply (maps_ok_eq r).
  - pose proof (body_done_ok r Hr). destruct (body_done r) as [? []];
      repeat case_match; simplify_eq/=; try done; by apply (maps_ok_eq r).
Qed.

(** What a step leaves in the buffer is a suffix of what it was given. *)
Lemma GetNextLine_suffix b : (GetNextLine b).2 `suffix_of` b.
Proof.
  destruct (GetNextLine_cases b) as [[-> _]|(l & b' & -> & -> & _)]; simpl.
  - done.
  - by apply suffix_app_r.
Qed.

Lemma parse_step_suffix r b : (parse_step r b).1.2 `suffix_of` b.
Proof.
  pose proof (GetNextLine_suffix b) as Hs.
  unfold parse_step, step_request, step_headers, step_trailer, step_trailer2, step_chunk, step_body,
    step_body_chunked, step_body_length.
  destruct (m_nCurrentHttpParseState r); try done;
    destruct (GetNextLine_cases b) as [[E _]|(l & b' & E & -> & _)]; rewrite E in *; simpl in Hs.
  all: repeat case_match; simplify_eq/=; try done; try (by apply suffix_drop).
  all: try (rewrite E; done).
Qed.

(** The state in which a call leaves the parser, when no exception escapes. *)
Lemma parse_step_ends r b r' b' :
  parse_step r b = (r', b', Ret true) -> parse_stopped (m_nCurrentHttpParseState r) = false ->
  parse_stopped (m_nCurrentHttpParseState r') = true \/ (r' = r /\ b' = b /\ waiting r b = true) \/
  (m_nCurrentHttpParseState r = HTTPPARSESTATE_BODYCHUNK /\
   m_nCurrentHttpParseState r' = HTTPPARSESTATE_BODYCHUNK) \/
  (m_nCurrentHttpParseState r = HTTPPARSESTATE_REQUEST /\ r' = r /\ b = crlf ++ b').
Proof.
  intros Hst Hs. destruct (waiting r b) eqn:Hw.
  - destruct (parse_step_waits r b Hw Hs) as (r1 & E & H1 & H2). rewrite E in Hst. simplify_eq.
    destruct (decide (m_nCurrentHttpParseState r = HTTPPARSESTATE_BODYCHUNK)) as [Ec|Ec].
    + right; right; left. by rewrite H1.
    + right; left. by rewrite H2.
  - destruct (decide (m_nCurrentHttpParseState r = HTTPPARSESTATE_REQUEST /\ is_prefix crlf b = true))
      as [[Er Hp]|Hn].
    + apply is_prefix_spec in Hp as [t ->]. do 3 right.
      unfold parse_step, step_request in Hst. rewrite Er in Hst.
      rewrite GetNextLine_crlf in Hst.
      rewrite bool_decide_eq_false_2, bool_decide_eq_true_2 in Hst by done. by simplify_eq/=.
    + left. eapply parse_step_done; [done..|]. intros Er. destruct (is_prefix crlf b) eqn:Ep; [|done].
      by destruct Hn.
Qed.

Lemma ParseData_ind (P : HttpRequest -> bytes -> HttpRequest * bytes * res unit -> Prop) :
  (forall r b, parse_stopped (m_nCurrentHttpParseState r) = true -> P r b (r, b, Ret tt)) ->
  (forall r b r' b' e, parse_stopped (m_nCurrentHttpParseState r) = false ->
     parse_step r b = (r', b', Throw e) -> P r b (r', b', Throw e)) ->
  (forall r b r' b', parse_stopped (m_nCurrentHttpParseState r) = false ->
     parse_step r b = (r', b', Ret true) -> P r b (r', b', Ret tt)) ->
  (forall r b r' b' x, parse_stopped (m_nCurrentHttpParseState r) = false ->
     parse_step r b = (r', b', Ret false) -> P r' b' x -> P r b x) ->
  forall r b, exists x, ParseData r b = Some x /\ P r b x.
Proof.
  intros Hstop Hthrow Hdone Hstep r b. remember (parse_measure r b) as n eqn:Hn.
  revert r b Hn. induction n as [n IH] using lt_wf_ind. intros r b ->. rewrite ParseData_unfold.
  destruct (parse_stopped _) eqn:Hs; [by eexists; split; [|apply Hstop]|].
  destruct (parse_step r b) as [[r' b'] [[]|e]] eqn:E.
  - eexists. split; [done|]. by apply Hdone.
  - destruct (IH _ (parse_step_measure _ _ _ _ E Hs) r' b' eq_refl) as (x & Hx & HP).
    exists x. split; [done|]. by eapply Hstep.
  - eexists. split; [done|]. by apply Hthrow.
Qed.

Lemma ParseData_suffix r b r' b' o : ParseData r b = Some (r', b', o) -> b' `suffix_of` b.
Proof.
  intros Hp. destruct (ParseData_ind (fun _ b x => x.1.2 `suffix_of` b)) with r b as (x & Hx & HP).
  - done.
  - intros r0 b0 r1 b1 e _ E. pose proof (parse_step_suffix r0 b0) as H. by rewrite E in H.
  - intros r0 b0 r1 b1 _ E. pose proof (parse_step_suffix r0 b0) as H. by rewrite E in H.
  - intros r0 b0 r1 b1 x _ E IH. pose proof (parse_step_suffix r0 b0) as H. rewrite E in H. by etrans.
  - by simplify_eq.
Qed.

(** A request completes only by consuming its request line. *)
Lemma ParseData_consumes r b r' b' o :
  ParseData r b = Some (r', b', o) -> m_nCurrentHttpParseState r = HTTPPARSESTATE_REQUEST ->
  m_nCurrentHttpParseState r' = HTTPPARSESTATE_COMPLETEREQUEST -> length b' < length b.
Proof.
  intros Hp Hs Hs'. rewrite ParseData_unfold, Hs in Hp. simpl parse_stopped in Hp. cbv iota in Hp.
  destruct (parse_step r b) as [[r1 b1] [[]|e]] eqn:E; simplify_eq.
  - unfold parse_step, step_request in E. rewrite Hs in E. destruct (GetNextLine b).
    repeat case_match; simplify_eq; congruence.
  - assert (length b1 < length b) as Hl.
    { unfold parse_step, step_request in E. rewrite Hs in E.
      destruct (GetNextLine_cases b) as [[Eg _]|(l & b2 & Eg & -> & Hl & _)]; rewrite Eg in E; [done|].
      rewrite length_app. repeat case_match; simplify_eq; lia. }
    apply ParseData_suffix in Hp as [t ->]. rewrite length_app in Hl. lia.
  - unfold parse_step, step_request in E. rewrite Hs in E. destruct (GetNextLine b).
    repeat case_match; simplify_eq.
Qed.

#[export] Instance same_id_preorder : PreOrder same_id.
Proof. split; [by intros r; split_and!|]. unfold same_id. intros r1 r2 r3. intuition congruence. Qed.

Lemma ParseSubbody_id s r : same_id r (ParseSubbody s r).1.
Proof.
  unfold ParseSubbody. destruct (find _ s); [|done]. destruct (regex_match _ _); [|done].
  destruct (scm_ref _ _ _) as [nm ?]. by destruct (sm_ref _ nm _).
Qed.

Lemma multipart_loop_id n bd l s r : same_id r (multipart_loop n bd l s r).1.
Proof.
  revert s r. induction n as [|n IH]; intros s r; simpl; [done|].
  destruct (find bd s); [|done]. case_decide; [done|].
  destruct (substr_from _ _); [|by apply ParseSubbody_id]. etrans; [by apply ParseSubbody_id|apply IH].
Qed.

Lemma ParseMultipartFormData_id r : same_id r (ParseMultipartFormData r).1.
Proof.
  unfold ParseMultipartFormData. destruct (scm_ref _ _ _) as [ct hs].
  case_decide; [done|]. destruct (regex_match _ _); [|done]. case_decide; [done|].
  destruct (substr_from _ _); [|done].
  etrans; [|apply multipart_loop_id]. done.
Qed.

Lemma body_done_id r : same_id r (body_done r).1.
Proof.
  unfold body_done. destruct (scm_ref _ _ _) as [ct hs]. case_decide.
  - match goal with |- context [ParseMultipartFormData ?x] =>
      pose proof (ParseMultipartFormData_id x) as Hx; change (same_id r (ParseMultipartFormData x).1) in Hx;
      by destruct (ParseMultipartFormData x) as [r' [[]|]]
    end.
  - by destruct (_ || _).
Qed.

Lemma headers_done_id r : same_id r (headers_done r).
Proof.
  unfold headers_done, ParseCookieData. repeat case_match; simplify_eq/=; done.
Qed.

Lemma parse_step_id r b : same_id r (parse_step r b).1.1.
Proof.
  unfold parse_step, step_request, step_headers, step_trailer, step_trailer2, step_chunk, step_body,
    step_body_chunked, step_body_length, header_line, header_continuation.
  pose proof (headers_done_id r). pose proof (body_done_id r).
  destruct (body_done r) as [rb ob].
  destruct (m_nCurrentHttpParseState r); [done|..|done|done]; destruct (GetNextLine b) as [l b'].
  3: { destruct (m_bChunked r); [by repeat case_match; simplify_eq/=|].
       destruct (scm_find _ _); [|done]. destruct (lexical_cast_uint _); [|done].
       destruct (_ <? _)%Z; [done|].
       match goal with |- context [body_done ?x] => pose proof (body_done_id x) as H1 end.
       by destruct (body_done _) as [? []]. }
  all: by repeat case_match; simplify_eq/=.
Qed.

Lemma ParseData_id r b r' b' o : ParseData r b = Some (r', b', o) -> same_id r r'.
Proof.
  intros Hp. destruct (ParseData_ind (fun r _ x => same_id r x.1.1)) with r b as (x & Hx & HP).
  - done.
  - intros r0 b0 r1 b1 e _ E. pose proof (parse_step_id r0 b0) as H. by rewrite E in H.
  - intros r0 b0 r1 b1 _ E. pose proof (parse_step_id r0 b0) as H. by rewrite E in H.
  - intros r0 b0 r1 b1 x _ E IH. pose proof (parse_step_id r0 b0) as H. rewrite E in H. by etrans.
  - by simplify_eq.
Qed.

(** C9: every call of [ParseData] returns or throws, what it leaves in the
    buffer is a suffix of what it was given, and when it returns, the request is
    complete or refused, or the parser needs more input: it waits for the rest of a
    line or of a body, or it is within the body chunks, or an empty line came where
    the request line was expected. *)
Theorem ParseData_terminates (r : HttpRequest) (b : bytes) :
  exists r' b' o, ParseData r b = Some (r', b', o) /\ b' `suffix_of` b /\
    (o = Ret tt ->
       parse_stopped (m_nCurrentHttpParseState r') = true \/ waiting r' b' = true \/
       m_nCurrentHttpParseState r' = HTTPPARSESTATE_BODYCHUNK \/
       (m_nCurrentHttpParseState r' = HTTPPARSESTATE_REQUEST /\ r' = r /\ b = crlf ++ b')).
Proof.
  destruct (ParseData_ind (fun r b x => let '(r', b', o) := x in b' `suffix_of` b /\
    (o = Ret tt ->
       parse_stopped (m_nCurrentHttpParseState r') = true \/ waiting r' b' = true \/
       m_nCurrentHttpParseState r' = HTTPPARSESTATE_BODYCHUNK \/
       (m_nCurrentHttpParseState r' = HTTPPARSESTATE_REQUEST /\ r' = r /\ b = crlf ++ b'))))
    with r b as ([[r' b'] o] & Hx & Hp); [| | | |by exists r', b', o].
  - intros r0 b0 Hs. split; [done|]. by left.
  - intros r0 b0 r' b' e Hs E. split; [|done]. pose proof (parse_step_suffix r0 b0) as Hsf. by rewrite E in Hsf.
  - intros r0 b0 r' b' Hs E. pose proof (parse_step_suffix r0 b0) as Hsf. rewrite E in Hsf.
    split; [done|]. intros _.
    destruct (parse_step_ends _ _ _ _ E Hs) as [?|[(-> & -> & ?)|[[? ?]|(? & -> & ->)]]]; auto.
    do 3 right. by split_and!.
  - intros r0 b0 r1 b1 [[r' b'] o] Hs E [Hsf Hend].
    pose proof (parse_step_suffix r0 b0) as Hsf1. rewrite E in Hsf1. split; [by etrans|].
    intros Ho. destruct (Hend Ho) as [?|[?|[?|(Hr & -> & ->)]]]; auto. exfalso.
    by apply (parse_step_not_request _ _ _ _ E Hs).
Qed.

(** C2: how the bytes of a request are cut into reads does not matter.  If a call
    has consumed a first piece without stopping inside a chunk, parsing the two
    pieces together gives what a second call gives on what is left of the first
    piece followed by the second.  (A chunk is excluded because the code leaves
    its bytes in the buffer, see [chunk_bytes_kept]; so is an empty line before
    the request line, after which the code returns at once.) *)
Theorem ParseData_segments (r r1 : HttpRequest) (b d b1 : bytes) (o : res unit)
    (Hcr : m_nCurrentHttpParseState r = HTTPPARSESTATE_REQUEST -> is_prefix crlf b = false)
    (Hp : ParseData r b = Some (r1, b1, o))
    (Hc : m_nCurrentHttpParseState r1 <> HTTPPARSESTATE_BODYCHUNK) :
  ParseData r (b ++ d) =
    match o with
    | Throw e => Some (r1, b1 ++ d, Throw e)
    | Ret _ => ParseData r1 (b1 ++ d)
    end.
Proof. by eapply ParseData_segments_aux. Qed.

(** A chunk of which [b] is all that has arrived: the bytes are appended to
    the body and subtracted from the chunk's length, but stay in the buffer, so the
    next call, with [d] appended, counts them a second time. *)
Theorem chunk_bytes_kept (r : HttpRequest) (b d : bytes)
    (Hs : m_nCurrentHttpParseState r = HTTPPARSESTATE_BODYCHUNK)
    (Hb : (0 < Z.of_nat (length b) < m_nChunkLen r)%Z)
    (Hd : (m_nChunkLen r - Z.of_nat (length b) <= Z.of_nat (length (b ++ d)))%Z) :
  exists r1, ParseData r b = Some (r1, b, Ret tt) /\
    m_sBody r1 = m_sBody r ++ b /\ m_nChunkLen r1 = (m_nChunkLen r - Z.of_nat (length b))%Z /\
    exists r2 b2, parse_step r1 (b ++ d) = (r2, b2, Ret (bool_decide
        (Z.of_nat (length (b ++ d)) = m_nChunkLen r1))) /\
      m_sBody r2 = m_sBody r ++ b ++ take (Z.to_nat (m_nChunkLen r1)) (b ++ d).
Proof.
  assert (waiting r b = true) as Hw.
  { unfold waiting. rewrite Hs. destruct (Z.eqb_spec (m_nChunkLen r) 0); [lia|].
    apply negb_true_iff, Z.ltb_ge. lia. }
  eexists. rewrite ParseData_unfold, Hs. simpl parse_stopped. cbv iota.
  rewrite parse_step_within_chunk by (done || lia). split_and!; [done..|].
  unfold parse_step, step_chunk. cbn -[Z.sub Z.ltb app length take drop Z.min]. rewrite Hs.
  destruct (Z.eqb_spec (m_nChunkLen r - Z.of_nat (length b)) 0); [lia|].
  destruct (Z.ltb_spec (m_nChunkLen r - Z.of_nat (length b)) (Z.of_nat (length (b ++ d)))).
  - rewrite bool_decide_eq_false_2 by lia. do 2 eexists. split; [done|]. cbn.
    by rewrite Z.min_l, <- app_assoc by lia.
  - rewrite bool_decide_eq_true_2 by lia. do 2 eexists. split; [done|]. cbn.
    by rewrite Z.min_l, <- app_assoc by lia.
Qed.

(** The maps of a request stay maps: whatever bytes are parsed, the headers,
    form values and cookies are strictly ordered by their keys, so no name occurs twice. *)
Lemma ParseData_maps_ok (r r' : HttpRequest) (b b' : bytes) (o : res unit)
    (Hr : maps_ok r) (Hp : ParseData r b = Some (r', b', o)) : maps_ok r'.
Proof.
  destruct (ParseData_ind (fun r b x => maps_ok r -> maps_ok x.1.1)) with r b as (x & Hx & HP).
  - done.
  - intros r0 b0 r1 b1 e _ E Hok. pose proof (parse_step_ok r0 b0 Hok) as H. by rewrite E in H.
  - intros r0 b0 r1 b1 _ E Hok. pose proof (parse_step_ok r0 b0 Hok) as H. by rewrite E in H.
  - intros r0 b0 r1 b1 x _ E IH Hok. pose proof (parse_step_ok r0 b0 Hok) as H. rewrite E in H. by apply IH.
  - simplify_eq. by apply HP.
Qed.

End props.

(** ** Concrete instances *)
Lemma ParseData_segments_witness :
  exists r1 b1, ParseData (B := perl_boost) example_request example_head = Some (r1, b1, Ret tt) /\
    ParseData (B := perl_boost) example_request (example_head ++ example_tail) =
    ParseData (B := perl_boost) r1 (b1 ++ example_tail).
Proof.
  destruct (ParseData (B := perl_boost) example_request example_head) as [[[r1 b1] o]|] eqn:E.
  2:{ vm_compute in E. discriminate. }
  exists r1, b1. assert (o = Ret tt) as -> by (vm_compute in E; congruence). split; [reflexivity|].
  apply (ParseData_segments (B := perl_boost) example_request r1 example_head example_tail b1 (Ret tt)).
  - intros _. reflexivity.
  - exact E.
  - vm_compute in E. injection E as <- <-. discriminate.
Defined.

Lemma chunk_bytes_kept_witness :
  exists r1, ParseData (B := perl_boost) example_chunk #"ab" = Some (r1, #"ab", Ret tt) /\
    m_sBody r1 = m_sBody example_chunk ++ #"ab" /\
    m_nChunkLen r1 = (m_nChunkLen example_chunk - Z.of_nat (length #"ab"))%Z /\
    exists r2 b2, parse_step (B := perl_boost) r1 (#"ab" ++ #"cde") = (r2, b2, Ret (bool_decide
        (Z.of_nat (length (#"ab" ++ #"cde")) = m_nChunkLen r1))) /\
      m_sBody r2 = m_sBody example_chunk ++ #"ab" ++
        take (Z.to_nat (m_nChunkLen r1)) (#"ab" ++ #"cde").
Proof.
  apply (chunk_bytes_kept (B := perl_boost) example_chunk #"ab" #"cde").
  - reflexivity.
  - vm_compute. split; reflexivity.
  - vm_compute. discriminate.
Defined.
