(* ===== verification/FormData.v ===== *)
(** * Form data: what [GetFormDataFromString] makes of a query

    A query as a browser writes it, [name=value&name=value...], alone (a request
    body) or after a path and a question mark (a URI), is decoded into the map
    from each name to its last value. *)
From S2P Require Import Prelude Boost StdMap EhsTypes HttpRequest HttpRender.
Import Perl.

(** ** Definitions *)
Fixpoint render_pairs (ps : StringMap) : bytes :=
  match ps with
  | [] => []
  | [(n, v)] => n ++ #"=" ++ v
  | (n, v) :: ps' => n ++ #"=" ++ v ++ #"&" ++ render_pairs ps'
  end.

(** A name without the delimiters of the pattern, a value without an ampersand. *)
Definition form_pair (p : bytes * bytes) : Prop :=
  Forall (fun a => none_of #"?=" a = true) p.1 /\ Forall (fun a => none_of #"&" a = true) p.2.

Fixpoint set_pairs (ps : StringMap) (m : FormValueMap) : FormValueMap :=
  match ps with
  | [] => m
  | (n, v) :: ps' => set_pairs ps' (sm_set n (FormValue_new v ContentDisposition_new) m)
  end.

(** What follows a value: the end, or an ampersand and more. *)
Definition after_value (t : bytes) : Prop := t = [] \/ exists t', t = "&"%char :: t'.
Definition skip_amp (t : bytes) : bytes := match t with [] => [] | _ :: t' => t' end.

(** ** Lemmas *)
Lemma none_of_false s a : a ∈ s -> none_of s a = false.
Proof. intros H. apply bool_decide_eq_false_2. by intros Hn. Qed.

(** The optional ampersand. *)
Lemma run_amp {R} t b c (k : state -> option R) x :
  after_value t -> (forall b', k (State b' (skip_amp t) c) = Some x) ->
  run (cls_opt (one_of #"&")) (State b t c) k = Some x.
Proof.
  intros [->|[t' ->]] Hk; unfold cls_opt.
  - rewrite run_opt_none by done. by apply Hk.
  - by apply run_opt_taken.
Qed.

(** The part of the pattern that follows the optional question mark. *)
Lemma run_form_tail {R} n v t b c (k : state -> option R) x :
  form_pair (n, v) -> after_value t ->
  (forall b', k (State b' (skip_amp t) ((2, v) :: (1, n) :: c)) = Some x) ->
  run (RGrp 1 (cls_star (none_of #"?="))) (State b (n ++ "="%char :: v ++ t) c)
    (fun st => run (RChr "=") st (fun st =>
      run (RGrp 2 (cls_star (none_of #"&"))) st (fun st => run (cls_opt (one_of #"&")) st k))) = Some x.
Proof.
  intros [Hn Hv] Ht Hk. rx. rewrite run_grp_rep; [rx|done|done|simpl; lia|done|chr_fails].
  rewrite run_chr; rx. apply run_grp_greedy; [done|simpl; lia|by destruct Ht as [->|[? ->]]|].
  by apply run_amp.
Qed.

(** The pattern on a pair, with or without a question mark before it. *)
Lemma form_pair_head n v t :
  form_pair (n, v) ->
  match n ++ "="%char :: v ++ t with a :: _ => one_of #"?" a = false | [] => True end.
Proof.
  intros [Hn _]. destruct n as [|a n]; simpl; [done|].
  apply Forall_inv, none_of_spec in Hn. apply bool_decide_eq_false_2. set_solver.
Qed.

Lemma match_form_pair n v t b :
  form_pair (n, v) -> after_value t ->
  match_here re_form b (n ++ "="%char :: v ++ t) = Some ([(2, v); (1, n)], skip_amp t).
Proof.
  intros Hp Ht. unfold match_here, re_form. rx.
  rewrite run_opt_none by by apply form_pair_head. by apply run_form_tail.
Qed.

Lemma match_form_question n v t b :
  form_pair (n, v) -> after_value t ->
  match_here re_form b ("?"%char :: n ++ "="%char :: v ++ t) = Some ([(2, v); (1, n)], skip_amp t).
Proof.
  intros Hp Ht. unfold match_here, re_form. rx.
  apply run_opt_taken; [done|]. by apply run_form_tail.
Qed.

(** The pattern does not match inside a path. *)
Lemma match_form_path a p t b :
  Forall (fun a => none_of #"?=" a = true) (a :: p) ->
  match_here re_form b (a :: p ++ "?"%char :: t) = None.
Proof.
  intros Hp. unfold match_here, re_form. rx.
  rewrite run_opt_none.
  2:{ apply Forall_inv, none_of_spec in Hp. apply bool_decide_eq_false_2. set_solver. }
  cbn [run bol rest caps]. apply (rep_fail_class _ _ _ _ (a :: p)); [done|].
  intros u v b' E. cbn [bol rest caps app]. destruct v as [|x v]; [done|].
  cbn [app]. rewrite decide_False; [done|]. intros ->.
  rewrite E in Hp. apply Forall_app_mid in Hp. done.
Qed.

Lemma search_here re b pre s c sfx :
  match_here re b s = Some (c, sfx) ->
  search_from re b pre s = Some (SearchResult (rev pre) (take (length s - length sfx) s) c sfx).
Proof. intros H. by destruct s; simpl; rewrite H. Qed.

Lemma search_form_path p n v t b pre :
  Forall (fun a => none_of #"?=" a = true) p -> form_pair (n, v) -> after_value t ->
  exists r, search_from re_form b pre (p ++ "?"%char :: n ++ "="%char :: v ++ t) = Some r /\
    sr_groups r = [(2, v); (1, n)] /\ sr_suffix r = skip_amp t.
Proof.
  intros Hp Hq Ht. revert b pre. induction Hp as [|a p Ha Hp IH]; intros b pre.
  - eexists. split; [|split].
    + by apply search_here, match_form_question.
    + done.
    + done.
  - cbn [app search_from]. rewrite match_form_path by by constructor. apply IH.
Qed.

Lemma search_form_pair n v t :
  form_pair (n, v) -> after_value t ->
  exists r, search re_form (n ++ "="%char :: v ++ t) = Some r /\
    sr_groups r = [(2, v); (1, n)] /\ sr_suffix r = skip_amp t.
Proof.
  intros Hp Ht. eexists. split; [|split].
  - by apply search_here, match_form_pair.
  - done.
  - done.
Qed.

Lemma render_pairs_cons n v ps :
  exists t, render_pairs ((n, v) :: ps) = n ++ "="%char :: v ++ t /\ after_value t /\
    skip_amp t = render_pairs ps.
Proof.
  destruct ps as [|p ps]; simpl.
  - exists []. rewrite app_nil_r. split_and!; [done|by left|done].
  - exists (#"&" ++ render_pairs (p :: ps)). split_and!; [done|right; by eexists|done].
Qed.

Lemma after_value_length t : length (skip_amp t) <= length t.
Proof. destruct t; simpl; lia. Qed.

Section forms.
Context {B : Boost} {L : BoostLaws B}.

Lemma form_loop_nil n m : form_loop n [] m = m.
Proof. destruct n; simpl; [done|]. by rewrite regex_search_law. Qed.

Lemma form_loop_pairs fuel ps m :
  Forall form_pair ps -> length (render_pairs ps) <= fuel ->
  form_loop fuel (render_pairs ps) m = set_pairs ps m.
Proof.
  intros Hps. revert fuel m. induction Hps as [|[n v] ps Hp Hps IH]; intros fuel m Hf.
  - apply form_loop_nil.
  - destruct (render_pairs_cons n v ps) as (t & Er & Ht & Es). rewrite Er in *.
    rewrite length_app in Hf. simpl in Hf. rewrite length_app in Hf.
    destruct fuel as [|fuel]; [lia|]. cbn [form_loop set_pairs].
    destruct (search_form_pair n v t Hp Ht) as (res & Hr & Hg & Hsfx).
    rewrite regex_search_law, Hr, Hg, Hsfx, Es. simpl group. apply IH.
    pose proof (after_value_length t). rewrite Es in *. lia.
Qed.

(** C36: form data is decoded: for pairs whose names hold no [?] or [=] and
    whose values hold no ampersand, the query alone, and a path that holds no [?] or [=] itself followed by a
    question mark and the query, give each name its last value.  (Other paths are read
    differently: [form_of_odd_path].) *)
Theorem form_of_pairs (p : bytes) (ps : StringMap) (m : FormValueMap)
    (Hp : Forall (fun a => none_of #"?=" a = true) p) (Hps : Forall form_pair ps) :
  form_of (render_pairs ps) m = set_pairs ps m /\
  (ps <> [] -> form_of (p ++ "?"%char :: render_pairs ps) m = set_pairs ps m).
Proof.
  split; [by apply form_loop_pairs|]. intros Hne. destruct ps as [|[n v] ps]; [done|].
  apply Forall_cons in Hps as [Hq Hps]. unfold form_of.
  destruct (render_pairs_cons n v ps) as (t & Er & Ht & Es). rewrite Er.
  rewrite length_app. cbn [length]. rewrite Nat.add_succ_r. cbn [form_loop set_pairs].
  destruct (search_form_path p n v t true [] Hp Hq Ht) as (res & Hr & Hg & Hsfx).
  rewrite regex_search_law. unfold search. rewrite Hr, Hg, Hsfx, Es. simpl group.
  apply form_loop_pairs; [done|]. rewrite <- Es. pose proof (after_value_length t).
  rewrite length_app. simpl. rewrite length_app. lia.
Qed.

End forms.

(** ** A concrete instance *)
Lemma form_of_pairs_witness :
  let ps := [(#"x", #"1"); (#"y", #"2 3"); (#"x", #"=4")] in
  form_of (B := perl_boost) (render_pairs ps) [] = set_pairs ps [] /\
  form_of (B := perl_boost) (#"/a/b" ++ "?"%char :: render_pairs ps) [] = set_pairs ps [].
Proof.
  intros ps.
  destruct (form_of_pairs (B := perl_boost) (L := perl_boost_laws) #"/a/b" ps []) as [H1 H2].
  - repeat constructor.
  - repeat constructor.
  - split; [exact H1|apply H2; discriminate].
Defined.

(** The first [=] of a path is taken for the one of a pair. *)
Lemma form_of_odd_path : form_of (B := perl_boost) #"/a=b?x=1" [] = set_pairs [(#"/a", #"b?x=1")] [].
Proof. reflexivity. Qed.
