(* ===== verification/Multipart.v ===== *)
(** * Multipart bodies: what [ParseMultipartFormData] makes of a form upload

    A [multipart/form-data] body as a browser writes it.  The loop of
    [ParseMultipartFormData] steps over the separator with the length of the
    boundary without its CRLF, so every part after the first starts two bytes too
    early and is refused by [ParseSubbody]. *)
From S2P Require Import Prelude Boost StdMap EhsTypes HttpRequest HttpRequestFacts HttpRender FormData.
Import Perl.

(** ** Definitions *)

(** The delimiter between parts for the boundary [bd]. *)
Definition delimiter (bd : bytes) : bytes := #"--" ++ bd.
Definition separator (bd : bytes) : bytes := crlf ++ delimiter bd.

(** A part that carries the value of a form field. *)
Definition field_headers (n : bytes) : bytes :=
  #"Content-Disposition: form-data; name=" ++ DQ :: n ++ [DQ].
Definition field_part (n v : bytes) : bytes := field_headers n ++ crlf ++ crlf ++ v.

Definition boundary_text (bd : bytes) : Prop := bd <> [] /\ Forall (fun a => a <> DQ) bd.
Definition multipart_type (bd : bytes) : bytes := #"multipart/form-data; boundary=" ++ bd.

(** The parts after the first, and the closing delimiter. *)
Fixpoint more_parts (bd : bytes) (ps : list bytes) : bytes :=
  match ps with
  | [] => #"--" ++ crlf
  | p :: ps' => crlf ++ p ++ separator bd ++ more_parts bd ps'
  end.
Definition multipart_body (bd p : bytes) (ps : list bytes) : bytes :=
  delimiter bd ++ crlf ++ p ++ separator bd ++ more_parts bd ps.

(** The form value a field part stands for. *)
Definition field_value (n v : bytes) (old : FormValue) : FormValue :=
  MkFormValue (m_oFormHeaders old)
    (MkContentDisposition [(#"name", n)] (m_sContentDisposition (m_oContentDisposition old))) v.

(** The last two bytes of the separator, which the loop leaves in front of the next part. *)
Definition left_over (bd : bytes) : bytes := drop (length (delimiter bd)) (separator bd).

Definition field_name (n : bytes) : Prop :=
  n <> [] /\ Forall (fun a => a <> DQ) n /\ no_cr n.

(** The separator ends a part and occurs nowhere before that. *)
Definition ends_part (bd u : bytes) : Prop := find (separator bd) (u ++ separator bd) = Some (length u).
Definition parts_ok (bd p : bytes) (ps : list bytes) : Prop :=
  ends_part bd p /\ Forall (fun q => ends_part bd (left_over bd ++ crlf ++ q)) ps /\
  find (separator bd) (left_over bd ++ #"--" ++ crlf) = None.

(** A concrete request with a body of two parts, and one whose body is cut short. *)
Definition example_upload (body : bytes) : HttpRequest :=
  MkHttpRequest HTTPPARSESTATE_BODY REQUESTMETHOD_POST [] [] [] body [] false
    [(#"Content-Length", print_Z (Z.of_nat (length body)));
     (#"Content-Type", multipart_type #"XyZ")] [] [] 1 7 false 0 [].

(** ** Lemmas *)
Lemma left_over_length bd : length (left_over bd) = 2.
Proof. unfold left_over, separator. rewrite length_drop, length_app. simpl. lia. Qed.

Lemma more_parts_length bd ps : length ps <= length (more_parts bd ps).
Proof. induction ps as [|p ps IH]; cbn [length more_parts]; [lia|]. rewrite !length_app. simpl. lia. Qed.

Section multipart.
Context {B : Boost} {L : BoostLaws B}.

(** A sub-body that does not start with the disposition header is ignored. *)
Lemma ParseSubbody_ignored a b q r :
  ParseSubbody (a :: b :: crlf ++ q) r = (r, PARSESUBBODY_INVALIDSUBBODY).
Proof.
  unfold ParseSubbody. destruct (find _ _) as [n|] eqn:E; [|done].
  assert (regex_match re_disposition (take n (a :: b :: crlf ++ q)) = None) as ->; [|done].
  rewrite regex_match_law. unfold full_match, re_disposition. apply run_rlit_fail.
  destruct (is_prefix _ _) eqn:Ep; [|done]. apply is_prefix_spec in Ep as [t Et].
  destruct n as [|[|[|n]]]; simplify_eq/=.
Qed.

Lemma drop_separator bd u rest :
  drop (length u + length (delimiter bd)) (u ++ separator bd ++ rest) = left_over bd ++ rest.
Proof.
  rewrite drop_app_add', drop_app_le by (done || (unfold separator; rewrite length_app; lia)). done.
Qed.

(** One turn of the loop. *)
Lemma multipart_turn n bd u rest r :
  ends_part bd u ->
  multipart_loop (S n) (separator bd) (length (delimiter bd)) (u ++ separator bd ++ rest) r =
  multipart_loop n (separator bd) (length (delimiter bd)) (left_over bd ++ rest) (ParseSubbody u r).1.
Proof.
  intros Hu. cbn [multipart_loop].
  assert (find (separator bd) (u ++ separator bd ++ rest) = Some (length u)) as ->.
  { rewrite app_assoc. by apply find_app. }
  assert (length (separator bd) = 2 + length (delimiter bd)) as Hl by done.
  rewrite decide_False by (rewrite !length_app; lia). unfold substr_from.
  rewrite decide_True by (rewrite !length_app; lia).
  by rewrite drop_separator, take_app_length.
Qed.

(** The parts after the first add nothing. *)
Lemma multipart_rest n bd ps r :
  Forall (fun q => ends_part bd (left_over bd ++ crlf ++ q)) ps ->
  find (separator bd) (left_over bd ++ #"--" ++ crlf) = None -> length ps <= n ->
  multipart_loop n (separator bd) (length (delimiter bd)) (left_over bd ++ more_parts bd ps) r =
  (r, Ret PARSEMULTIPARTFORMDATA_SUCCESS).
Proof.
  intros Hps He. revert n. induction Hps as [|q ps Hq Hps IH]; intros n Hn; cbn [more_parts].
  - destruct n; [done|]. cbn [multipart_loop]. by rewrite He.
  - destruct n as [|n]; [simpl in Hn; lia|].
    replace (left_over bd ++ crlf ++ q ++ separator bd ++ more_parts bd ps)
      with ((left_over bd ++ crlf ++ q) ++ separator bd ++ more_parts bd ps)
      by by rewrite <- !app_assoc.
    rewrite multipart_turn by done. simpl in Hn.
    pose proof (left_over_length bd) as Hl.
    assert (exists a b, left_over bd = [a; b]) as (a & b & E).
    { destruct (left_over bd) as [|a [|b [|]]]; simpl in Hl; try lia. by exists a, b. }
    rewrite E at 2. cbn [app]. rewrite ParseSubbody_ignored. apply IH. lia.
Qed.

(** *** The first part *)
Lemma find_blank_line w rest : no_cr w -> find (crlf ++ crlf) (w ++ crlf ++ crlf ++ rest) = Some (length w).
Proof.
  induction 1 as [|a w Ha Hw IH]; [done|]. cbn [app find].
  destruct (is_prefix _ _) eqn:E.
  - apply is_prefix_spec in E as [t Et]. by inversion Et.
  - change ((a :: w) ++ crlf ++ crlf ++ rest) with (a :: w ++ crlf ++ crlf ++ rest).
    by rewrite IH.
Qed.

Lemma field_headers_no_cr n : field_name n -> no_cr (field_headers n).
Proof.
  intros (_ & _ & Hn). unfold field_headers. apply no_cr_app; split; [by apply no_cr_lit|].
  constructor; [done|]. apply no_cr_app; split; [done|]. by repeat constructor.
Qed.

Lemma match_disposition n :
  full_match re_disposition (field_headers n) =
  Some [(2, #"name=" ++ DQ :: n ++ [DQ]); (1, #"form-data")].
Proof.
  unfold full_match, re_disposition, field_headers.
  change (#"Content-Disposition: form-data; name=" ++ DQ :: n ++ [DQ])
    with (#"Content-Disposition:" ++ #" form-data; name=" ++ DQ :: n ++ [DQ]).
  rewrite run_rlit. rx.
  apply run_opt_taken; [done|].
  apply (run_grp_greedy 1 _ 1 _ #"form-data" (#"; name=" ++ DQ :: n ++ [DQ]));
    [by repeat constructor|simpl; lia|done|].
  change (#"; name=" ++ DQ :: n ++ [DQ]) with (";"%char :: " "%char :: #"name=" ++ DQ :: n ++ [DQ]).
  rewrite run_chr; rx. apply run_opt_taken; [done|].
  rewrite <- (app_nil_r (#"name=" ++ _)).
  apply run_grp_greedy; [by apply Forall_forall|simpl; lia|done|].
  cbn. by rewrite app_nil_r.
Qed.

Lemma search_name_value n :
  field_name n ->
  exists res, search re_name_value (#"name=" ++ DQ :: n ++ [DQ]) = Some res /\
    sr_groups res = [(2, n); (1, #"name")] /\ sr_suffix res = [].
Proof.
  intros (Hn0%length_pos & Hn & _). eexists. split; [|split].
  - apply search_here. unfold match_here, re_name_value. rx.
    rewrite run_opt_none by done.
    change (#"name=" ++ DQ :: n ++ [DQ]) with (#"name" ++ "="%char :: DQ :: n ++ [DQ]).
    apply run_grp_greedy; [by repeat constructor|simpl; lia|done|].
    rewrite run_chr; rx. rewrite run_chr; rx.
    apply run_grp_greedy; [|lia|done|].
    + eapply Forall_impl; [done|]. intros a Ha. apply none_of_spec. set_solver.
    + rewrite run_chr; rx. by rewrite run_opt_none.
  - done.
  - done.
Qed.

Lemma ParseSubbody_field n v r :
  field_name n ->
  exists old, m_oFormValueMap (ParseSubbody (field_part n v) r).1 =
      sm_set n (field_value n v old) (sm_ref FormValue_default n (m_oFormValueMap r)).2 /\
    (ParseSubbody (field_part n v) r).2 = PARSESUBBODY_SUCCESS.
Proof.
  intros Hn. unfold ParseSubbody, field_part.
  rewrite find_blank_line by by apply field_headers_no_cr.
  rewrite take_app_length, regex_match_law, match_disposition.
  change (group 2 [(2, #"name=" ++ DQ :: n ++ [DQ]); (1, #"form-data")])
    with (#"name=" ++ DQ :: n ++ [DQ]).
  destruct (search_name_value n Hn) as (res & Hr & Hg & Hs).
  assert (forall k, 0 < k -> name_value_loop k (#"name=" ++ DQ :: n ++ [DQ]) [] = [(#"name", n)]) as Hl.
  { intros [|k] ?; [lia|]. cbn [name_value_loop]. rewrite regex_search_law, Hr, Hg, Hs.
    destruct k; simpl; [done|]. by rewrite regex_search_law. }
  rewrite Hl by (rewrite length_app; simpl; lia). change (scm_ref [] #"name" [(#"name", n)]) with (n, [(#"name", n)]).
  cbv iota. destruct (sm_ref FormValue_default n (m_oFormValueMap r)) as [old forms] eqn:E.
  exists old. split; [|done]. simpl. unfold field_value. do 3 f_equal.
  by rewrite drop_app_add'.
Qed.

(** *** The whole body *)
Lemma match_boundary bd :
  boundary_text bd -> full_match re_boundary (multipart_type bd) = Some [(1, bd)].
Proof.
  intros [Hb0%length_pos Hb]. unfold full_match, re_boundary, multipart_type.
  change (#"multipart/form-data; boundary=" ++ bd)
    with (#"multipart/" ++ #"form-data" ++ ";"%char :: #" " ++ #"boundary=" ++ bd).
  rewrite run_rlit. rx. rewrite run_rep; [rx|by repeat constructor|done|simpl; lia|done|chr_fails].
  rewrite run_chr; rx.
  rewrite run_rep; [rx|by repeat constructor|done|simpl; lia|done|].
  2:{ intros b a s c Ha. apply run_rlit_fail. destruct (is_prefix _ _) eqn:E; [|done].
      apply is_prefix_spec in E as [t E]. injection E as -> _. done. }
  rewrite run_rlit. rx. rewrite <- (app_nil_r bd) at 1.
  apply run_grp_greedy; [|done|done|done].
  eapply Forall_impl; [done|]. intros a Ha. apply none_of_spec. set_solver.
Qed.

Lemma ParseMultipartFormData_open r bd rem :
  boundary_text bd -> scm_find #"Content-Type" (m_oRequestHeaders r) = Some (multipart_type bd) ->
  m_sBody r = delimiter bd ++ rem ->
  ParseMultipartFormData r =
    match substr_from rem 2 with
    | Ret s => multipart_loop (S (length s)) (separator bd) (length (delimiter bd)) s r
    | Throw e => (r, Throw e)
    end.
Proof.
  intros Hb Ht Hbody. unfold ParseMultipartFormData, m_ref. rewrite Ht.
  rewrite decide_False by done. rewrite regex_match_law, match_boundary by done.
  change (group 1 [(1, bd)]) with bd. fold (delimiter bd). fold (separator bd).
  assert (m_sBody (r <| m_oRequestHeaders := m_oRequestHeaders r |>) = delimiter bd ++ rem) as E by done.
  assert (r <| m_oRequestHeaders := m_oRequestHeaders r |> = r) as -> by by destruct r.
  rewrite Hbody, take_app_length, decide_False by auto. unfold substr_from.
  rewrite length_app. destruct (decide (2 <= length rem)).
  - rewrite decide_True by lia. by rewrite drop_app_add'.
  - rewrite decide_False by lia. done.
Qed.

(** The first part of a multipart form body is stored under its field name,
    with its value; the parts after it are all ignored, although the body is
    accepted. *)
Theorem multipart_first_part (r : HttpRequest) (bd n v : bytes) (ps : list bytes)
    (Hb : boundary_text bd) (Hn : field_name n) (Hps : parts_ok bd (field_part n v) ps)
    (Ht : scm_find #"Content-Type" (m_oRequestHeaders r) = Some (multipart_type bd))
    (Hbody : m_sBody r = multipart_body bd (field_part n v) ps) :
  exists r' old, ParseMultipartFormData r = (r', Ret PARSEMULTIPARTFORMDATA_SUCCESS) /\
    m_oFormValueMap r' =
      sm_set n (field_value n v old) (sm_ref FormValue_default n (m_oFormValueMap r)).2.
Proof.
  destruct Hps as (H1 & H2 & H3).
  rewrite (ParseMultipartFormData_open r bd _ Hb Ht Hbody). unfold substr_from.
  rewrite decide_True by (rewrite length_app; simpl; lia).
  rewrite (drop_app_length' crlf _ 2) by done. rewrite multipart_turn by done.
  destruct (ParseSubbody_field n v r Hn) as (old & Hf & _).
  exists (ParseSubbody (field_part n v) r).1, old. split; [|done].
  apply multipart_rest; [done..|]. pose proof (more_parts_length bd ps). rewrite !length_app. lia.
Qed.

(** A multipart body that ends within two bytes after its opening delimiter
    makes [ParseMultipartFormData] throw [std::out_of_range], which
    [ParseData] does not catch: the body is client input. *)
Theorem multipart_truncated_throws (r : HttpRequest) (bd x rest : bytes)
    (Hb : boundary_text bd) (Hx : length x < 2)
    (Hs : m_nCurrentHttpParseState r = HTTPPARSESTATE_BODY) (Hc : m_bChunked r = false)
    (Ht : scm_find #"Content-Type" (m_oRequestHeaders r) = Some (multipart_type bd))
    (Hl : scm_find #"Content-Length" (m_oRequestHeaders r) =
            Some (print_Z (Z.of_nat (length (delimiter bd ++ x)))))
    (Hsz : (Z.of_nat (length (delimiter bd ++ x)) < 2 ^ 32)%Z) :
  exists r', ParseData r ((delimiter bd ++ x) ++ rest) = Some (r', rest, Throw Out_of_range).
Proof.
  rewrite ParseData_unfold, Hs. simpl parse_stopped. cbv iota.
  unfold parse_step. rewrite Hs. unfold step_body. rewrite Hc. unfold step_body_length. rewrite Hl.
  rewrite lexical_cast_law, cast_uint_print by lia.
  set (body := delimiter bd ++ x) in *. rewrite length_app.
  destruct (Z.ltb_spec (Z.of_nat (length body + length rest)) (Z.of_nat (length body))); [lia|].
  rewrite Nat2Z.id, take_app_length, drop_app_length. unfold body_done, m_ref.
  cbn [m_oRequestHeaders update]. rewrite Ht.
  change (take 9 (multipart_type bd)) with #"multipart". rewrite decide_True by done.
  match goal with |- context [ParseMultipartFormData ?y] => set (r1 := y) end.
  rewrite (ParseMultipartFormData_open r1 bd x Hb Ht eq_refl). unfold substr_from.
  rewrite decide_False by lia. by eexists.
Qed.

End multipart.

(** ** Concrete instances *)
Lemma multipart_first_part_witness :
  let p := field_part #"a" #"1" in let q := field_part #"b" #"2" in
  exists r' old,
    ParseMultipartFormData (B := perl_boost) (example_upload (multipart_body #"XyZ" p [q])) =
      (r', Ret PARSEMULTIPARTFORMDATA_SUCCESS) /\
    m_oFormValueMap r' = sm_set #"a" (field_value #"a" #"1" old) (sm_ref FormValue_default #"a" []).2.
Proof.
  intros p q.
  apply (multipart_first_part (B := perl_boost) (L := perl_boost_laws)
    (example_upload (multipart_body #"XyZ" p [q])) #"XyZ" #"a" #"1" [q]).
  - split; [discriminate|]. repeat (constructor; [discriminate|]). constructor.
  - split; [discriminate|]. split; repeat (constructor; [discriminate|]); constructor.
  - split; [reflexivity|]. split; [|reflexivity]. constructor; [reflexivity|constructor].
  - reflexivity.
  - reflexivity.
Defined.

Lemma multipart_truncated_throws_witness :
  exists r', ParseData (B := perl_boost) (example_upload (delimiter #"XyZ" ++ [])) ((delimiter #"XyZ" ++ []) ++ #"GET") =
    Some (r', #"GET", Throw Out_of_range).
Proof.
  apply (multipart_truncated_throws (B := perl_boost) (L := perl_boost_laws)
    (example_upload (delimiter #"XyZ" ++ [])) #"XyZ" [] #"GET").
  - split; [discriminate|]. repeat (constructor; [discriminate|]). constructor.
  - simpl. lia.
  - reflexivity.
  - reflexivity.
  - reflexivity.
  - reflexivity.
  - reflexivity.
Defined.
