(* ===== verification/HttpResponse.v ===== *)
(** * [HttpResponse]: responses (httpresponse.cpp, httpresponse.h, GenericResponse)

    The constructor reads the clock ([time(NULL)]): its value is an argument.
    The C library's [strftime] leaves its buffer undefined when the text does not
    fit; what the buffer then holds is an argument too. *)
From S2P Require Import Prelude Boost StdMap Datum EhsTypes HttpRequest.

(** ** Data *)
Inductive ResponseCode : Type :=
| HTTPRESPONSECODE_INVALID
| HTTPRESPONSECODE_101_SWITCHING_PROTOCOLS
| HTTPRESPONSECODE_200_OK
| HTTPRESPONSECODE_301_MOVEDPERMANENTLY
| HTTPRESPONSECODE_302_FOUND
| HTTPRESPONSECODE_304_NOT_MODIFIED
| HTTPRESPONSECODE_400_BADREQUEST
| HTTPRESPONSECODE_401_UNAUTHORIZED
| HTTPRESPONSECODE_403_FORBIDDEN
| HTTPRESPONSECODE_404_NOTFOUND
| HTTPRESPONSECODE_413_TOOLARGE
| HTTPRESPONSECODE_426_UPGRADE_REQUIRED
| HTTPRESPONSECODE_500_INTERNALSERVERERROR
| HTTPRESPONSECODE_503_SERVICEUNAVAILABLE
| HTTPRESPONSECODE_other (n : Z)   (* a number without a constant, from a cast *).
#[export] Instance ResponseCode_eq_dec : EqDecision ResponseCode.
Proof. solve_decision. Defined.

Definition code_value (c : ResponseCode) : Z :=
  match c with
  | HTTPRESPONSECODE_INVALID => 0
  | HTTPRESPONSECODE_101_SWITCHING_PROTOCOLS => 101
  | HTTPRESPONSECODE_200_OK => 200
  | HTTPRESPONSECODE_301_MOVEDPERMANENTLY => 301
  | HTTPRESPONSECODE_302_FOUND => 302
  | HTTPRESPONSECODE_304_NOT_MODIFIED => 304
  | HTTPRESPONSECODE_400_BADREQUEST => 400
  | HTTPRESPONSECODE_401_UNAUTHORIZED => 401
  | HTTPRESPONSECODE_403_FORBIDDEN => 403
  | HTTPRESPONSECODE_404_NOTFOUND => 404
  | HTTPRESPONSECODE_413_TOOLARGE => 413
  | HTTPRESPONSECODE_426_UPGRADE_REQUIRED => 426
  | HTTPRESPONSECODE_500_INTERNALSERVERERROR => 500
  | HTTPRESPONSECODE_503_SERVICEUNAVAILABLE => 503
  | HTTPRESPONSECODE_other n => n
  end.

(** The cast [(ResponseCode)n]. *)
Definition named_codes : list ResponseCode :=
  [HTTPRESPONSECODE_INVALID; HTTPRESPONSECODE_101_SWITCHING_PROTOCOLS; HTTPRESPONSECODE_200_OK;
   HTTPRESPONSECODE_301_MOVEDPERMANENTLY; HTTPRESPONSECODE_302_FOUND;
   HTTPRESPONSECODE_304_NOT_MODIFIED; HTTPRESPONSECODE_400_BADREQUEST;
   HTTPRESPONSECODE_401_UNAUTHORIZED; HTTPRESPONSECODE_403_FORBIDDEN;
   HTTPRESPONSECODE_404_NOTFOUND; HTTPRESPONSECODE_413_TOOLARGE;
   HTTPRESPONSECODE_426_UPGRADE_REQUIRED; HTTPRESPONSECODE_500_INTERNALSERVERERROR;
   HTTPRESPONSECODE_503_SERVICEUNAVAILABLE].
Definition code_of_Z (n : Z) : ResponseCode :=
  default (HTTPRESPONSECODE_other n) (List.find (fun c => code_value c =? n)%Z named_codes).

(** [class GenericResponse]; the connection may be null. *)
Record GenericResponse : Type := MkGenericResponse {
  m_nResponseId : Z;
  gr_sBody : bytes;
  m_poEHSConnection : option conn_id
}.
#[export] Instance eta_GenericResponse : Eta GenericResponse := fun r =>
  MkGenericResponse (m_nResponseId r) (gr_sBody r) (m_poEHSConnection r).

Definition GenericResponse_new (inResponseId : Z) (ipoEHSConnection : option conn_id) : GenericResponse :=
  MkGenericResponse inResponseId [] ipoEHSConnection.

(** [SetBody(ipsBody, inBodyLength)]: the first [inBodyLength] bytes at [ipsBody]. *)
Definition GenericResponse_SetBody (ipsBody : bytes) (inBodyLength : nat) (r : GenericResponse) : GenericResponse :=
  r <| gr_sBody := take inBodyLength ipsBody |>.

(** [class HttpResponse] *)
Record HttpResponse : Type := MkHttpResponse {
  hr_base : GenericResponse;
  m_nResponseCode : ResponseCode;
  m_oResponseHeaders : StringCaseMap;
  m_oCookieList : list bytes
}.
#[export] Instance eta_HttpResponse : Eta HttpResponse := fun r =>
  MkHttpResponse (hr_base r) (m_nResponseCode r) (m_oResponseHeaders r) (m_oCookieList r).

(** ** Times *)

(** [gmtime]: the fields of [struct tm] the format uses. *)
Record tm : Type := Tm {
  tm_wday : Z; tm_mday : Z; tm_mon : Z; tm_year : Z; tm_hour : Z; tm_min : Z; tm_sec : Z
}.

(** Civil date of a day count since 1970-01-01 (proleptic Gregorian calendar, years
    starting in March): year, month 1-12, day 1-31. *)
Definition civil (days : Z) : Z * Z * Z :=
  let z := (days + 719468)%Z in
  let era := (z / 146097)%Z in
  let doe := (z mod 146097)%Z in
  let yoe := ((doe - doe / 1460 + doe / 36524 - doe / 146096) / 365)%Z in
  let doy := (doe - (365 * yoe + yoe / 4 - yoe / 100))%Z in
  let mp := ((5 * doy + 2) / 153)%Z in
  let d := (doy - (153 * mp + 2) / 5 + 1)%Z in
  let m := (if mp <? 10 then mp + 3 else mp - 9)%Z in
  ((yoe + era * 400 + if m <=? 2 then 1 else 0)%Z, m, d).

Definition gmtime (stamp : Z) : tm :=
  let days := (stamp / 86400)%Z in
  let sec := (stamp mod 86400)%Z in
  let '(y, m, d) := civil days in
  Tm ((days + 4) mod 7) d m y (sec / 3600) (sec / 60 mod 60) (sec mod 60).

Definition day_names : list bytes :=
  [ #"Sun"; #"Mon"; #"Tue"; #"Wed"; #"Thu"; #"Fri"; #"Sat"].
Definition month_names : list bytes :=
  [ #"Jan"; #"Feb"; #"Mar"; #"Apr"; #"May"; #"Jun"; #"Jul"; #"Aug"; #"Sep"; #"Oct"; #"Nov"; #"Dec"].

Definition two_digits (n : Z) : bytes := [digit_char (n / 10); digit_char (n mod 10)].

(** [strftime] with ["%a, %d %b %Y %H:%M:%S GMT"] in the C locale. *)
Definition strftime_http (t : tm) : bytes :=
  nth (Z.to_nat (tm_wday t)) day_names [] ++ #", " ++ two_digits (tm_mday t) ++ #" " ++
  nth (Z.to_nat (tm_mon t - 1)) month_names [] ++ #" " ++ print_Z (tm_year t) ++ #" " ++
  two_digits (tm_hour t) ++ #":" ++ two_digits (tm_min t) ++ #":" ++ two_digits (tm_sec t) ++ #" GMT".

(** [HttpTime]: the buffer has 30 bytes, one of them for the final NUL; when the
    text does not fit, the buffer holds the unknown text [stale]. *)
Definition HttpTime (stale : bytes) (stamp : Z) : bytes :=
  let text := strftime_http (gmtime stamp) in
  if decide (length text < 30) then text else stale.

(** ** Operations *)
Definition phrases : list (Z * bytes) :=
  [(200, #"OK"); (101, #"Switching Protocols"); (301, #"Moved Permanently"); (302, #"FOUND");
   (304, #"Not modified"); (400, #"Bad request"); (401, #"Unauthorized"); (403, #"Forbidden");
   (404, #"Not Found"); (413, #"Request entity too large"); (426, #"Upgrade required");
   (500, #"Internal Server Error"); (503, #"Service Unavailable")]%Z.

Fixpoint assoc_Z (k : Z) (m : list (Z * bytes)) : option bytes :=
  match m with
  | [] => None
  | (k', v) :: m' => if (k =? k')%Z then Some v else assoc_Z k m'
  end.

Definition GetPhrase (code : ResponseCode) : bytes :=
  default #"INVALID" (assoc_Z (code_value code) phrases).

Definition SetResponseCode (code : ResponseCode) (r : HttpResponse) : HttpResponse :=
  r <| m_nResponseCode := code |>.
Definition resp_SetHeader (name value : bytes) (r : HttpResponse) : HttpResponse :=
  r <| m_oResponseHeaders ::= scm_set name value |>.
Definition RemoveHeader (name : bytes) (r : HttpResponse) : HttpResponse :=
  r <| m_oResponseHeaders ::= scm_erase name |>.
Definition Header (r : HttpResponse) (name : bytes) : bytes :=
  match scm_find name (m_oResponseHeaders r) with
  | Some _ => (scm_ref [] name (m_oResponseHeaders r)).1
  | None => []
  end.
Definition GetStatusString (r : HttpResponse) : bytes :=
  print_Z (code_value (m_nResponseCode r)) ++ #" " ++ GetPhrase (m_nResponseCode r).

Section clock.
Variable stale : bytes.

Definition SetDate (stamp : Z) (r : HttpResponse) : HttpResponse :=
  resp_SetHeader #"Date" (HttpTime stale stamp) r.
Definition SetLastModified (stamp : Z) (r : HttpResponse) : HttpResponse :=
  resp_SetHeader #"Last-Modified" (HttpTime stale stamp) r.

(** The constructor, at time [t]. *)
Definition HttpResponse_new (t : Z) (inResponseId : Z) (ipoEHSConnection : option conn_id) : HttpResponse :=
  let r := MkHttpResponse (GenericResponse_new inResponseId ipoEHSConnection)
             HTTPRESPONSECODE_INVALID [] [] in
  let r := SetDate t r in
  let r := SetLastModified t r in
  let r := resp_SetHeader #"Cache-Control" #"no-cache" r in
  let r := resp_SetHeader #"Content-Type" #"text/html" r in
  resp_SetHeader #"Content-Length" #"0" r.

Definition SetBody (ipsBody : bytes) (inBodyLength : nat) (r : HttpResponse) : HttpResponse :=
  let r := r <| hr_base ::= GenericResponse_SetBody ipsBody inBodyLength |> in
  resp_SetHeader #"Content-Length" (print_Z (Z.of_nat (length (gr_sBody (hr_base r))))) r.

(** [Error(code, id, connection)] and [Error(code, request)]. *)
Definition error_page (code : ResponseCode) : bytes :=
  let s := print_Z (code_value code) ++ #" " ++ GetPhrase code in
  #"<html><head><title>" ++ s ++ #"</title><body>" ++ s ++ #"</body></html>".
Definition Error (t : Z) (code : ResponseCode) (inResponseId : Z) (ipoEHSConnection : option conn_id) : HttpResponse :=
  let ret := HttpResponse_new t inResponseId ipoEHSConnection in
  let ret := SetResponseCode code ret in
  SetBody (error_page code) (length (error_page code)) ret.
Definition Error_request (t : Z) (code : ResponseCode) (request : HttpRequest) : HttpResponse :=
  Error t code (m_nRequestId request) (Some (m_poSourceEHSConnection request)).

End clock.

(** [SetCookie]: the cookie parameters are a map owned by the caller, to which
    missing entries are added. *)
Abbreviation CookieParameters := (list (bytes * Datum)).

Fixpoint cookie_attributes (m : CookieParameters) : bytes :=
  match m with
  | [] => []
  | (k, v) :: m' =>
      (if bool_decide (k <> #"name") && bool_decide (k <> #"value")
       then #"; " ++ k ++ #"=" ++ GetCharString v else []) ++ cookie_attributes m'
  end.

Definition SetCookie (iro : CookieParameters) (r : HttpResponse) : HttpResponse * CookieParameters :=
  let '(name, iro) := sm_ref datum_empty #"name" iro in
  if datum_ne name [] then
    let '(value, iro) := sm_ref datum_empty #"value" iro in
    if datum_ne value [] then
      let ssBuffer := GetCharString name ++ #"=" ++ GetCharString value in
      let '(version, iro) := sm_ref datum_empty #"Version" iro in
      let iro := if datum_eq version [] then sm_set #"Version" (assign_cstr #"1") iro else iro in
      (r <| m_oCookieList ::= fun l => l ++ [ssBuffer ++ cookie_attributes iro] |>, iro)
    else (r, iro)
  else (r, iro).
