(* ===== verification/HttpResponseFacts.v ===== *)
(** * Properties of responses: dates, error pages, cookies *)
From S2P Require Import Prelude Boost StdMap Datum EhsTypes HttpRequest HttpResponse HttpRequestProps.
From S2P Require Import HttpRender FormData.
Import Perl.

(** ** Definitions *)

(** The number of days from 1970-01-01 to a civil date: whole 400-year cycles, whole
    years from March on, and days of the months from March on. *)
Definition days_from_civil (y m d : Z) : Z :=
  let y := (if m <=? 2 then y - 1 else y)%Z in
  let mp := (if m <=? 2 then m + 9 else m - 3)%Z in
  let yoe := (y mod 400)%Z in
  (y / 400 * 146097 + (yoe * 365 + yoe / 4 - yoe / 100) + ((153 * mp + 2) / 5 + d - 1) - 719468)%Z.

(** [civil] within a 400-year cycle, as a check that can be run on each of its days. *)
Definition cycle_ok (doe : Z) : bool :=
  let yoe := ((doe - doe / 1460 + doe / 36524 - doe / 146096) / 365)%Z in
  let doy := (doe - (365 * yoe + yoe / 4 - yoe / 100))%Z in
  let mp := ((5 * doy + 2) / 153)%Z in
  let d := (doy - (153 * mp + 2) / 5 + 1)%Z in
  ((0 <=? yoe) && (yoe <=? 399) && (0 <=? mp) && (mp <=? 11) && (1 <=? d) && (d <=? 31) &&
   (negb ((yoe =? 399) && (10 <=? mp)) || (146037 <=? doe)))%Z.

(** A check of [n] consecutive integers from [z] on. *)
Fixpoint check_from (P : Z -> bool) (n : nat) (z : Z) : bool :=
  match n with
  | O => true
  | S n' => P z && check_from P n' (z + 1)
  end.

(** Cookies as a client sends them back: [name=value; name=value]. *)
Fixpoint render_cookies (cs : StringMap) : bytes :=
  match cs with
  | [] => []
  | [(n, v)] => n ++ #"=" ++ v
  | (n, v) :: cs' => n ++ #"=" ++ v ++ #"; " ++ render_cookies cs'
  end.

Record cookie_pair (p : bytes * bytes) : Prop := CookiePair {
  cp_name : p.1 <> [];
  cp_name_chars : Forall (fun a => none_of #"=" a = true /\ is_space a = false) p.1;
  cp_value : p.2 <> [];
  cp_value_chars : Forall (fun a => none_of #";" a = true) p.2
}.

Fixpoint set_cookies (cs : StringMap) (m : CookieMap) : CookieMap :=
  match cs with
  | [] => m
  | (n, v) :: cs' => set_cookies cs' (sm_set n v m)
  end.

(** A cookie that needs no escaping, on either way. *)
Record plain_cookie (p : bytes * bytes) : Prop := PlainCookie {
  pc_pair : cookie_pair p;
  pc_name : Forall (fun a => none_of #";" a = true) p.1;
  pc_nul : c_str p.1 = p.1 /\ c_str p.2 = p.2
}.

(** The application sets one cookie, of which it gives the name and the value. *)
Definition set_cookie (resp : HttpResponse) (p : bytes * bytes) : HttpResponse :=
  (SetCookie [(#"name", MkDatum p.1); (#"value", MkDatum p.2)] resp).1.

(** The line of the response. *)
Definition cookie_line (p : bytes * bytes) : bytes := (p.1 ++ #"=" ++ p.2) ++ #"; Version=1".

(** The client keeps of a line what comes before the first semicolon, and sends back what it
    has kept of all of them. *)
Fixpoint before_semicolon (line : bytes) : bytes :=
  match line with
  | [] => []
  | a :: line => if none_of #";" a then a :: before_semicolon line else []
  end.
Fixpoint sent_back (lines : list bytes) : bytes :=
  match lines with
  | [] => []
  | [l] => before_semicolon l
  | l :: ls => before_semicolon l ++ #"; " ++ sent_back ls
  end.

(** ** Dates *)
Lemma check_from_spec P n z : check_from P n z = true -> forall x, (z <= x < z + Z.of_nat n)%Z -> P x = true.
Proof.
  revert z. induction n as [|n IH]; intros z; simpl; intros H x Hx; [lia|].
  apply andb_true_iff in H as [Hz H]. destruct (Z.eq_dec x z) as [->|]; [done|].
  apply (IH (z + 1)%Z); [done|lia].
Qed.

Lemma cycle_ok_all doe : (0 <= doe < 146097)%Z -> cycle_ok doe = true.
Proof.
  intros H. apply (check_from_spec cycle_ok (Z.to_nat 146097) 0); [by vm_compute|lia].
Qed.

Lemma civil_spec days :
  let '(y, m, d) := civil days in
  days_from_civil y m d = days /\ (1 <= m <= 12)%Z /\ (1 <= d <= 31)%Z /\
  (0 <= days < 2932897 -> 1600 <= y <= 9999)%Z.
Proof.
  unfold civil. set (z := (days + 719468)%Z).
  pose proof (Z.mod_pos_bound z 146097 ltac:(lia)) as Hdoe.
  pose proof (Z.div_mod z 146097 ltac:(lia)) as Hz.
  pose proof (cycle_ok_all _ Hdoe) as Hc. unfold cycle_ok in Hc.
  set (doe := (z mod 146097)%Z) in *. set (era := (z / 146097)%Z) in *.
  set (yoe := ((doe - doe / 1460 + doe / 36524 - doe / 146096) / 365)%Z) in *.
  set (doy := (doe - (365 * yoe + yoe / 4 - yoe / 100))%Z) in *.
  set (mp := ((5 * doy + 2) / 153)%Z) in *.
  bool_facts. clearbody yoe doe era. unfold days_from_civil.
  assert (forall e, (yoe + era * 400 + e - e) / 400 = era /\ (yoe + era * 400 + e - e) mod 400 = yoe)%Z as Hy.
  { intros e. replace (yoe + era * 400 + e - e)%Z with (yoe + era * 400)%Z by lia.
    rewrite Z.div_add, Z.mod_add, Z.div_small, Z.mod_small by lia. lia. }
  destruct (Z.ltb_spec mp 10).
  - destruct (Z.leb_spec (mp + 3) 2); [lia|].
    replace (yoe + era * 400 + 0)%Z with (yoe + era * 400 + 0 - 0)%Z by lia.
    replace (mp + 3 - 3)%Z with mp by lia.
    destruct (Hy 0%Z) as [-> ->].
    split_and!; lia.
  - destruct (Z.leb_spec (mp - 9) 2); [|lia].
    replace (mp - 9 + 9)%Z with mp by lia.
    destruct (Hy 1%Z) as [-> ->].
    split_and!; lia.
Qed.

Lemma two_digits_length n : length (two_digits n) = 2.
Proof. done. Qed.

Lemma names_length n (l : list bytes) k : Forall (fun s => length s = k) l -> n < length l -> length (nth n l []) = k.
Proof.
  intros H Hn. rewrite Forall_forall in H. apply H.
  apply list_elem_of_In, nth_In. exact Hn.
Qed.

Lemma print_year_length y : (1600 <= y <= 9999)%Z -> length (print_Z y) = 4.
Proof.
  intros H. apply Nat.eqb_eq.
  apply (check_from_spec (fun y => length (print_Z y) =? 4) (Z.to_nat 8400) 1600); [by vm_compute|lia].
Qed.

Lemma tm_wday_range t : (0 <= tm_wday (gmtime t) <= 6)%Z.
Proof.
  unfold gmtime. destruct (civil (t / 86400)) as [[y m] d]. simpl.
  pose proof (Z.mod_pos_bound (t / 86400 + 4) 7). lia.
Qed.

Lemma strftime_http_length t :
  (0 <= t < 253402300800)%Z -> length (strftime_http (gmtime t)) = 29.
Proof.
  intros Ht. pose proof (tm_wday_range t) as Hw. revert Hw. unfold strftime_http, gmtime.
  pose proof (civil_spec (t / 86400)) as Hc.
  destruct (civil (t / 86400)) as [[y m] d]. destruct Hc as (_ & Hm & Hd & Hy). simpl tm_wday. intros Hw.
  assert (0 <= t / 86400 < 2932897)%Z as Hdays by (clear -Ht; dlia). specialize (Hy Hdays).
  cbn [tm_wday tm_mday tm_mon tm_year tm_hour tm_min tm_sec].
  rewrite !length_app, !two_digits_length, print_year_length by done.
  rewrite (names_length _ day_names 3), (names_length _ month_names 3);
    [done|by repeat constructor|unfold month_names; cbn [length]; lia
    |by repeat constructor|unfold day_names; cbn [length]; lia].
Qed.

(** The date header of every moment from 1970 to the end of the year 9999 is
    a complete text of 29 bytes, which fits the 30-byte buffer, so nothing
    undefined is read, and its day, month and year denote the day of the moment. *)
Theorem HttpTime_date (stale : bytes) (t : Z) (Ht : (0 <= t < 253402300800)%Z) :
  HttpTime stale t = strftime_http (gmtime t) /\ length (HttpTime stale t) = 29 /\
  days_from_civil (tm_year (gmtime t)) (tm_mon (gmtime t)) (tm_mday (gmtime t)) = (t / 86400)%Z /\
  (t = t / 86400 * 86400 + tm_hour (gmtime t) * 3600 + tm_min (gmtime t) * 60 + tm_sec (gmtime t))%Z.
Proof.
  pose proof (strftime_http_length t Ht) as Hl. unfold HttpTime.
  rewrite Hl, decide_True by lia. split_and!; [done|done|..]; unfold gmtime;
    pose proof (civil_spec (t / 86400)) as Hc; destruct (civil (t / 86400)) as [[y m] d]; simpl.
  - apply Hc.
  - clear. dlia.
Qed.

Lemma HttpTime_date_witness :
  (0 <= 784111777 < 253402300800)%Z /\ HttpTime [] 784111777 = #"Sun, 06 Nov 1994 08:49:37 GMT".
Proof.
  assert (0 <= 784111777 < 253402300800)%Z as H by (split; [discriminate|reflexivity]).
  split; [exact H|]. destruct (HttpTime_date [] 784111777 H) as [E _]. rewrite E. reflexivity.
Defined.

(** ** Error pages *)

Lemma Header_find r k : Header r k = default [] (scm_find k (m_oResponseHeaders r)).
Proof. unfold Header, m_ref. by destruct (scm_find k _). Qed.

Lemma SetBody_length n body r :
  Header (SetBody body n r) #"content-length" = print_Z (Z.of_nat (length (take n body))) /\
  gr_sBody (hr_base (SetBody body n r)) = take n body.
Proof.
  split; [|done]. rewrite Header_find. unfold SetBody, resp_SetHeader.
  cbn -[length take print_Z m_find m_set]. by rewrite m_find_set_eq.
Qed.

Lemma Error_sorted stale t code id c : scm_sorted (m_oResponseHeaders (Error stale t code id c)).
Proof. cbn -[m_set]. by repeat apply m_set_sorted. Qed.

(** An error response carries the code and the connection it was made for,
    its body is the page for the code, its headers are a map, and its
    [Content-Length] header is the number of bytes of the body.  Giving it another
    body of [n] bytes keeps the header in step: it reads back as [n]. *)
Theorem Error_response (stale : bytes) (t : Z) (code : ResponseCode) (id : Z) (c : option conn_id)
    (body : bytes) (n : nat) (Hn : n <= length body) (Hb : (Z.of_nat (length body) < 2 ^ 64)%Z) :
  let r := Error stale t code id c in
  m_nResponseCode r = code /\ m_nResponseId (hr_base r) = id /\ m_poEHSConnection (hr_base r) = c /\
  gr_sBody (hr_base r) = error_page code /\
  scm_sorted (m_oResponseHeaders r) /\ m_oCookieList r = [] /\
  Header r #"content-length" = print_Z (Z.of_nat (length (error_page code))) /\
  let r2 := SetBody body n r in
  gr_sBody (hr_base r2) = take n body /\
  strtoul (Header r2 #"content-length") = Z.of_nat n.
Proof.
  intros r. pose proof (SetBody_length (length (error_page code)) (error_page code)
    (SetResponseCode code (HttpResponse_new stale t id c))) as [Hl Hp].
  rewrite firstn_all in Hl, Hp. fold (Error stale t code id c) in Hl, Hp.
  do 3 (split; [done|]). split; [exact Hp|]. split; [apply Error_sorted|]. split; [done|].
  split; [exact Hl|]. destruct (SetBody_length n body r) as [Hl2 Hp2].
  split; [exact Hp2|]. rewrite Hl2, length_take, Nat.min_l by done. apply strtoul_print. lia.
Qed.

Lemma Error_response_witness :
  let r := Error [] 0 HTTPRESPONSECODE_404_NOTFOUND 3 (Some 7) in
  m_nResponseCode r = HTTPRESPONSECODE_404_NOTFOUND /\
  strtoul (Header (SetBody #"abc" 2 r) #"content-length") = 2%Z.
Proof.
  destruct (Error_response [] 0 HTTPRESPONSECODE_404_NOTFOUND 3 (Some 7) #"abc" 2)
    as (H1 & _ & _ & _ & _ & _ & _ & _ & H2).
  - simpl. lia.
  - reflexivity.
  - split; [exact H1|exact H2].
Defined.

(** ** Cookies *)

(** What follows a cookie, and what the search for the next one starts with. *)
Lemma cookie_end {R} t b c (k : state -> option R) x :
  (t = [] /\ (forall b', k (State b' [] c) = Some x)) \/
  (exists u, t = ";"%char :: " "%char :: u /\ (forall b', k (State b' (" "%char :: u) ((3, #";") :: c)) = Some x)) ->
  run (RStar (RGrp 3 (RAlt (RChr ";") REol))) (State b t c) k = Some x.
Proof.
  intros [[-> Hk]|(u & -> & Hk)]; [apply Hk|].
  cbn [run rest bol caps length]. rewrite !decide_True by (done || (simpl; lia)).
  cbn [run rest bol caps length]. rewrite decide_False by done.
  change (is_sep " ") with false. cbv iota.
  assert (take (S (S (length u)) - S (length u)) (";"%char :: " "%char :: u) = #";") as ->.
  { replace (S (S (length u)) - S (length u)) with 1 by lia. done. }
  by rewrite Hk.
Qed.

(** The pattern on a cookie, with the blanks [w] before it. *)
Lemma match_cookie w n v t b x c :
  Forall (fun a => is_space a = true) w -> cookie_pair (n, v) ->
  (t = [] /\ x = [] /\ c = [(2, v); (1, n)]) \/
  (exists u, t = ";"%char :: " "%char :: u /\ x = " "%char :: u /\ c = [(3, #";"); (2, v); (1, n)]) ->
  match_here re_cookie b (w ++ n ++ "="%char :: v ++ t) = Some (c, x).
Proof.
  intros Hw [Hn0%length_pos Hn Hv0%length_pos Hv] Ht. simpl in *. unfold match_here, re_cookie. rx.
  apply run_greedy; [done|lia| |].
  { destruct Hn as [|a n [_ Ha]]; [simpl in Hn0; lia|done]. }
  apply run_grp_greedy; [|done|done|].
  { eapply Forall_impl; [done|]. by intros a [? _]. }
  rewrite run_chr; rx. apply run_grp_greedy; [done|done|by destruct Ht as [[-> _]|(? & -> & _)]|].
  apply cookie_end. destruct Ht as [(-> & -> & ->)|(u & -> & -> & ->)]; [by left|right].
  by exists u.
Qed.

Section cookies.
Context {B : Boost} {L : BoostLaws B}.

Lemma cookie_loop_nil n m k : cookie_loop n [] m k = (m, k).
Proof. destruct n; simpl; [done|]. by rewrite regex_search_law. Qed.

Lemma cookie_loop_pairs fuel w cs m k :
  Forall cookie_pair cs -> Forall (fun a => is_space a = true) w ->
  length (render_cookies cs) <= fuel -> (cs = [] -> w = []) ->
  cookie_loop fuel (w ++ render_cookies cs) m k = (set_cookies cs m, k + Z.of_nat (length cs))%Z.
Proof.
  intros Hcs. revert fuel w m k. induction Hcs as [|[n v] cs Hp Hcs IH]; intros fuel w m k Hw Hf Hnil.
  - rewrite Hnil by done. cbn [app render_cookies]. rewrite cookie_loop_nil. simpl. f_equal. lia.
  - assert (fuel <> 0).
    { pose proof (length_pos _ (cp_name _ Hp)). intros ->. destruct cs; simpl in Hf;
        rewrite length_app in Hf; simpl in *; lia. }
    destruct fuel as [|fuel]; [done|]. cbn [cookie_loop set_cookies].
    destruct cs as [|p cs].
    + cbn [render_cookies]. rewrite regex_search_law. unfold search.
      rewrite (search_here _ _ _ _ [(2, v); (1, n)] []).
      2:{ replace (n ++ #"=" ++ v) with (n ++ "="%char :: v ++ []) by by rewrite app_nil_r.
          apply match_cookie; [done..|by left]. }
      simpl sr_groups. simpl sr_suffix. simpl group. by rewrite cookie_loop_nil.
    + assert (render_cookies ((n, v) :: p :: cs) =
        n ++ "="%char :: v ++ ";"%char :: " "%char :: render_cookies (p :: cs)) as E by done.
      rewrite E in *. rewrite regex_search_law. unfold search.
      rewrite (search_here _ _ _ _ [(3, #";"); (2, v); (1, n)] (" "%char :: render_cookies (p :: cs))).
      2:{ apply match_cookie; [done..|]. right. by eexists. }
      cbn [sr_groups sr_suffix]. simpl group.
      assert (length (render_cookies (p :: cs)) <= fuel) as Hf'.
      { revert Hf. generalize (render_cookies (p :: cs)) as tl. intros tl.
        rewrite length_app. cbn [length]. rewrite length_app. cbn [length]. lia. }
      change (" "%char :: render_cookies (p :: cs)) with ([ " "%char ] ++ render_cookies (p :: cs)).
      rewrite IH; [f_equal; simpl; lia|by constructor|done|done].
Qed.

Lemma before_semicolon_app s t :
  Forall (fun a => none_of #";" a = true) s -> before_semicolon (s ++ t) = s ++ before_semicolon t.
Proof. induction 1 as [|a s Ha Hs IH]; [done|]. cbn [app before_semicolon]. by rewrite Ha, IH. Qed.

Lemma before_semicolon_line p : plain_cookie p -> before_semicolon (cookie_line p) = p.1 ++ #"=" ++ p.2.
Proof.
  intros [[_ _ _ Hv] Hn _]. unfold cookie_line. rewrite before_semicolon_app; [by rewrite app_nil_r|].
  apply Forall_app. split; [done|]. by constructor.
Qed.

Lemma sent_back_lines cs : Forall plain_cookie cs -> sent_back (map cookie_line cs) = render_cookies cs.
Proof.
  induction 1 as [|[n v] cs Hp Hcs IH]; [done|]. pose proof (before_semicolon_line _ Hp) as E. simpl in E.
  destruct cs as [|p cs]; cbn [map sent_back render_cookies]; [done|]. rewrite E. cbn [map sent_back] in IH.
  rewrite IH. by rewrite <- !app_assoc.
Qed.

(** A datum with a text in it is not the empty string. *)
Lemma datum_ne_text s : s <> [] -> c_str s = s -> datum_ne (MkDatum s) [] = true.
Proof.
  destruct s as [|a s]; intros Hs Hc; [done|]. unfold datum_ne, strcasecmp, GetCharString.
  simpl sDatum. by rewrite !Hc.
Qed.

Lemma set_cookie_line resp p :
  plain_cookie p -> m_oCookieList (set_cookie resp p) = m_oCookieList resp ++ [cookie_line p].
Proof.
  destruct p as [n v]. intros [[Hn _ Hv _] _ [Hn0 Hv0]]. cbn [fst snd] in *. unfold set_cookie, SetCookie. cbn [fst snd].
  change (sm_ref datum_empty #"name" _) with (MkDatum n, [(#"name", MkDatum n); (#"value", MkDatum v)]).
  cbv iota. rewrite datum_ne_text by done.
  change (sm_ref datum_empty #"value" _) with (MkDatum v, [(#"name", MkDatum n); (#"value", MkDatum v)]).
  cbv iota. rewrite datum_ne_text by done. unfold GetCharString. simpl sDatum. rewrite Hn0, Hv0. reflexivity.
Qed.

Lemma set_cookies_lines cs resp :
  Forall plain_cookie cs ->
  m_oCookieList (foldl set_cookie resp cs) = m_oCookieList resp ++ map cookie_line cs.
Proof.
  intros Hcs. revert resp. induction Hcs as [|p cs Hp Hcs IH]; intros resp; cbn [foldl map]; [by rewrite app_nil_r|].
  by rewrite IH, set_cookie_line, <- app_assoc by done.
Qed.

(** C37: cookies survive the round trip.  An application sets cookies one after the other with
    [SetCookie], giving a name and a value for each: every one becomes a line [name=value; Version=1] of
    the response, in this order.  A client sends back what comes before the first semicolon of each
    line, in one [Cookie] header: [ParseCookieData] gives every name its (last) value, keeps the other cookies
    of the request and counts what it has read.  Nothing is escaped on either way, so this is about plain cookies only:
    names and values that are not empty and hold no semicolon and no NUL, and names without [=] and blanks. *)
Theorem cookies_roundtrip (cs : StringMap) (resp : HttpResponse) (r : HttpRequest)
    (Hcs : Forall plain_cookie cs) (Hresp : m_oCookieList resp = []) :
  let lines := m_oCookieList (foldl set_cookie resp cs) in
  lines = map cookie_line cs /\
  ParseCookieData (sent_back lines) r =
    (r <| m_oCookieMap := set_cookies cs (m_oCookieMap r) |>, Z.of_nat (length cs)).
Proof.
  cbv zeta. rewrite set_cookies_lines, Hresp by done. split; [done|]. cbn [app].
  rewrite sent_back_lines by done. unfold ParseCookieData.
  pose proof (cookie_loop_pairs (length (render_cookies cs)) [] cs (m_oCookieMap r) 0) as H.
  cbn [app] in H. rewrite H; [done| |done..]. eapply Forall_impl; [exact Hcs|apply pc_pair].
Qed.

End cookies.

Lemma cookies_roundtrip_witness :
  let resp := Error [] 0 HTTPRESPONSECODE_200_OK 1 None in
  let lines := m_oCookieList (foldl set_cookie resp [(#"a", #"1"); (#"b", #"2 3=4"); (#"a", #"5")]) in
  lines = [ #"a=1; Version=1"; #"b=2 3=4; Version=1"; #"a=5; Version=1"] /\
  sent_back lines = #"a=1; b=2 3=4; a=5" /\
  ParseCookieData (B := perl_boost) (sent_back lines) example_request =
    (example_request <| m_oCookieMap := [(#"a", #"5"); (#"b", #"2 3=4")] |>, 3%Z).
Proof.
  intros resp. assert (Forall plain_cookie [(#"a", #"1"); (#"b", #"2 3=4"); (#"a", #"5")]) as Hcs.
  { repeat (constructor; [split; [split; [discriminate|by repeat constructor|discriminate|by repeat constructor]|
      by repeat constructor|by split]|]). constructor. }
  destruct (cookies_roundtrip (B := perl_boost) (L := perl_boost_laws) _ resp example_request Hcs eq_refl) as [H1 H2].
  cbv zeta in *. split; [exact H1|]. split; [by vm_compute|]. rewrite H2. by vm_compute.
Defined.
