(* ===== verification/Network.v ===== *)
(** * The environment of a connection (networkabstraction.h, ehs.h)

    [NetworkAbstraction], [RawSocketHandler] and the application's handlers are
    abstract classes of the code: the class [Env] collects their virtual
    functions as operations on the state [W] of the world outside the server,
    with the clock and the thread library.  Objects behind pointers are named by
    numbers. *)
From S2P Require Import Prelude EhsTypes.

Abbreviation na_id := nat (only parsing).
Abbreviation thread_id := Z (only parsing).

(** The outcome of [select]: the descriptors that are ready (none after a timeout), or
    an error, which may be [EINTR]. *)
Inductive select_result : Type :=
| Sel_ready (fds : list Z)
| Sel_error (eintr : bool).

Class Env (W : Type) : Type := {
  (** [NetworkAbstraction] *)
  na_GetFd : na_id -> W -> Z;
  na_IsSecure : na_id -> W -> bool;
  na_GetRemoteAddress : na_id -> W -> bytes;
  na_GetLocalAddress : na_id -> W -> bytes;
  na_GetRemotePort : na_id -> W -> Z;
  na_GetLocalPort : na_id -> W -> Z;
  na_GetPeer : na_id -> W -> bytes;
  na_Read : na_id -> nat -> W -> Z * bytes * W;   (* result and the bytes put into the buffer *)
  na_Send : na_id -> bytes -> W -> Z * W;
  na_Close : na_id -> W -> W;
  na_Accept : na_id -> W -> res na_id * W;
  na_delete : na_id -> W -> W;
  na_create : option bytes -> W -> res na_id * W; (* new SecureSocket(certificate, ...) or new Socket() *)
  na_RegisterBindHelper : na_id -> W -> W;
  na_ThreadCleanup : na_id -> W -> W;
  na_SetBindAddress : na_id -> bytes -> W -> W;
  na_Init : na_id -> Z -> W -> res unit * W;
  (** [RawSocketHandler] *)
  rsh_OnConnect : conn_id -> W -> W;
  rsh_OnDisconnect : conn_id -> W -> W;
  rsh_OnData : conn_id -> bytes -> W -> res bool * W;
  (** the C library *)
  time : W -> Z;
  setsockopt_keepalive : Z -> bool -> W -> W;
  pthread_create : W -> option thread_id * W;     (* the new thread, if there is one *)
  pthread_cond_broadcast : W -> W;
  select : list Z -> Z -> W -> select_result * W  (* read set, timeout in milliseconds *)
}.

(** The two deprecated functions, which are not pure. *)
Definition na_GetAddress {W} {E : Env W} : na_id -> W -> bytes := na_GetRemoteAddress.
Definition na_GetPort {W} {E : Env W} : na_id -> W -> Z := na_GetRemotePort.

(** A concrete world for examples: scripted input, a clock, and the log of what
    was done, most recent first. *)
Inductive event : Type :=
| EvSend (n : na_id) (data : bytes)
| EvClose (n : na_id)
| EvDelete (n : na_id)
| EvOnConnect (c : conn_id)
| EvOnDisconnect (c : conn_id)
| EvOnData (c : conn_id) (data : bytes)
| EvKeepAlive (fd : Z) (enable : bool)
| EvThread
| EvBroadcast
| EvBind (n : na_id) (addr : bytes)
| EvInit (n : na_id) (port : Z).

Record script : Type := MkScript {
  sc_clock : Z;
  sc_incoming : list (na_id * bytes);   (* what [Read] returns, per socket, in order *)
  sc_accepts : list (res na_id);
  sc_send_ok : bool;
  sc_threads : bool;
  sc_selects : list select_result;
  sc_log : list event
}.
#[export] Instance eta_script : Eta script := fun s =>
  MkScript (sc_clock s) (sc_incoming s) (sc_accepts s) (sc_send_ok s) (sc_threads s) (sc_selects s)
    (sc_log s).

Definition log_event (e : event) (s : script) : script := s <| sc_log ::= cons e |>.

Fixpoint take_incoming (n : na_id) (l : list (na_id * bytes)) : bytes * list (na_id * bytes) :=
  match l with
  | [] => ([], [])
  | (m, d) :: l' =>
      if decide (m = n) then (d, l') else let '(x, r) := take_incoming n l' in (x, (m, d) :: r)
  end.

#[export] Instance script_env : Env script := {|
  na_GetFd n _ := Z.of_nat n;
  na_IsSecure _ _ := false;
  na_GetRemoteAddress _ _ := #"127.0.0.1";
  na_GetLocalAddress _ _ := #"127.0.0.1";
  na_GetRemotePort _ _ := 40000%Z;
  na_GetLocalPort _ _ := 80%Z;
  na_GetPeer _ _ := #"127.0.0.1:40000";
  na_Read n size s :=
    let '(d, r) := take_incoming n (sc_incoming s) in
    (Z.of_nat (length (take size d)), take size d, s <| sc_incoming := r |>);
  na_Send n d s := (if sc_send_ok s then Z.of_nat (length d) else (-1)%Z, log_event (EvSend n d) s);
  na_Close n s := log_event (EvClose n) s;
  na_Accept _ s :=
    match sc_accepts s with
    | a :: l => (a, s <| sc_accepts := l |>)
    | [] => (Throw (Runtime_error #"accept"), s)
    end;
  na_delete n s := log_event (EvDelete n) s;
  na_create _ s := (Ret 0, s);
  na_RegisterBindHelper _ s := s;
  na_ThreadCleanup _ s := s;
  na_SetBindAddress n a s := log_event (EvBind n a) s;
  na_Init n p s := (Ret tt, log_event (EvInit n p) s);
  rsh_OnConnect c s := log_event (EvOnConnect c) s;
  rsh_OnDisconnect c s := log_event (EvOnDisconnect c) s;
  rsh_OnData c d s := (Ret true, log_event (EvOnData c d) s);
  time s := sc_clock s;
  setsockopt_keepalive fd b s := log_event (EvKeepAlive fd b) s;
  pthread_create s := (if sc_threads s then Some (Z.of_nat (length (sc_log s))) else None, log_event EvThread s);
  pthread_cond_broadcast s := log_event EvBroadcast s;
  select fds _ s :=
    match sc_selects s with
    | x :: l => (x, s <| sc_selects := l |>)
    | [] => (Sel_ready [], s)
    end
|}.
