(* ===== verification/Locking.v ===== *)
(** * Mutexes for OpenSSL and for the library (mutexhelper.h, staticssllocking.cpp,
    dynamicssllocking.cpp)

    A mutex is a value: not yet initialized, free, or held by a thread.  Locking one that is
    held makes the caller wait ([None]).  The thread library and the functions that install
    the callbacks are the class [Locks]. *)
From S2P Require Import Prelude.

Inductive mutex : Type :=
| Raw
| Free
| Held (thread : Z).
#[export] Instance mutex_eq_dec : EqDecision mutex.
Proof. solve_decision. Defined.

(** [pthread_mutex_lock] and [pthread_mutex_unlock]; unlocking one that is not held is
    undefined. *)
Definition mutex_lock (self : Z) (m : mutex) : option mutex :=
  match m with
  | Free => Some (Held self)
  | _ => None
  end.
Definition mutex_unlock (m : mutex) : option mutex :=
  match m with
  | Held _ => Some Free
  | _ => None
  end.

Class Locks (W : Type) : Type := {
  pthread_mutex_init : W -> bool * W;       (* whether it succeeds *)
  pthread_mutex_destroy : W -> bool * W;
  CRYPTO_num_locks : nat;
  CRYPTO_set_id_callback : bool -> W -> W;  (* a function of the class, or NULL *)
  CRYPTO_set_locking_callback : bool -> W -> W;
  CRYPTO_set_dynlock_create_callback : bool -> W -> W;
  CRYPTO_set_dynlock_lock_callback : bool -> W -> W;
  CRYPTO_set_dynlock_destroy_callback : bool -> W -> W
}.

Definition CRYPTO_LOCK : Z := 1.

(** ** [MutexHelper]

    The mutex is the caller's; the helper remembers whether it holds it. *)
Record MutexHelper : Type := MkMutexHelper { m_bLocked : bool }.

Definition mh_Lock (self : Z) (h : MutexHelper) (m : mutex) : option (MutexHelper * mutex) :=
  m ← mutex_lock self m; Some (MkMutexHelper true, m).
Definition mh_Unlock (h : MutexHelper) (m : mutex) : option (MutexHelper * mutex) :=
  m ← mutex_unlock m; Some (MkMutexHelper false, m).
Definition MutexHelper_new (locknow : bool) (self : Z) (m : mutex) : option (MutexHelper * mutex) :=
  let h := MkMutexHelper false in
  if locknow then mh_Lock self h m else Some (h, m).
Definition MutexHelper_delete (h : MutexHelper) (m : mutex) : option mutex :=
  if m_bLocked h then mutex_unlock m else Some m.

(** What a function does with a helper between its construction and its end. *)
Inductive mh_call : Type :=
| CallLock
| CallUnlock.
Fixpoint mh_calls (self : Z) (l : list mh_call) (h : MutexHelper) (m : mutex) : option (MutexHelper * mutex) :=
  match l with
  | [] => Some (h, m)
  | c :: l =>
      '(h, m) ← match c with CallLock => mh_Lock self h m | CallUnlock => mh_Unlock h m end;
      mh_calls self l h m
  end.

(** The whole life of a helper. *)
Definition mh_scope (locknow : bool) (self : Z) (l : list mh_call) (m : mutex) : option mutex :=
  '(h, m) ← MutexHelper_new locknow self m;
  '(h, m) ← mh_calls self l h m;
  MutexHelper_delete h m.

Section locking.
Context {W : Type} {K : Locks W}.

(** ** [StaticSslLocking]

    [poMutexes] is the table, a static member. *)

(** Initialization, in order; the mutexes after one that fails stay as they are. *)
Fixpoint init_mutexes (tbl : list mutex) (w : W) : res unit * list mutex * W :=
  match tbl with
  | [] => (Ret tt, [], w)
  | m :: tbl =>
      let '(ok, w) := pthread_mutex_init w in
      if ok : bool then let '(r, tbl, w) := init_mutexes tbl w in (r, Free :: tbl, w)
      else
        (Throw (Runtime_error #"StaticSslLocking::StaticSslLocking: Could not initialize CRYPTO mutex"), m :: tbl, w)
  end.

Definition StaticSslLocking_new (w : W) : res unit * list mutex * W :=
  let '(r, poMutexes, w) := init_mutexes (replicate CRYPTO_num_locks Raw) w in
  match r with
  | Throw e => (Throw e, poMutexes, w)
  | Ret _ => (Ret tt, poMutexes, CRYPTO_set_locking_callback true (CRYPTO_set_id_callback true w))
  end.

Fixpoint destroy_mutexes (n : nat) (w : W) : W :=
  match n with
  | O => w
  | S n => destroy_mutexes n (pthread_mutex_destroy w).2
  end.
Definition StaticSslLocking_delete (w : W) : option (list mutex) * W :=
  (None, destroy_mutexes CRYPTO_num_locks (CRYPTO_set_locking_callback false (CRYPTO_set_id_callback false w))).

(** The callback OpenSSL calls: lock or unlock a mutex of the table. *)
Definition SslStaticLockCallback (inMode : Z) (inMutex : nat) (self : Z) (tbl : list mutex) : option (list mutex) :=
  m ← tbl !! inMutex;
  m ← if negb (Z.land inMode CRYPTO_LOCK =? 0)%Z then mutex_lock self m else mutex_unlock m;
  Some (<[inMutex := m]> tbl).

(** ** [DynamicSslLocking] *)
Definition DynamicLockCreateCallback (w : W) : res mutex * W :=
  let '(ok, w) := pthread_mutex_init w in
  if ok : bool then (Ret Free, w)
  else (Throw (Runtime_error #"DynamicSslLocking::DynamicLockCreateCallback: Could not initialize dynamic CRYPTO mutex"), w).

Definition DynamicLockCallback (inMode : Z) (self : Z) (m : mutex) : option mutex :=
  if negb (Z.land inMode CRYPTO_LOCK =? 0)%Z then mutex_lock self m else mutex_unlock m.

Definition DynamicLockCleanupCallback (w : W) : res unit * W :=
  let '(ok, w) := pthread_mutex_destroy w in
  if ok : bool then (Ret tt, w)
  else (Throw (Runtime_error #"DynamicSslLocking::DynamicLockCleanupCallback: Could not destroy dynamic CRYPTO mutex"), w).

Definition set_dynlock_callbacks (on : bool) (w : W) : W :=
  CRYPTO_set_dynlock_destroy_callback on
    (CRYPTO_set_dynlock_lock_callback on (CRYPTO_set_dynlock_create_callback on w)).
Definition DynamicSslLocking_new (w : W) : W := set_dynlock_callbacks true w.
Definition DynamicSslLocking_delete (w : W) : W := set_dynlock_callbacks false w.

(** ** Properties *)

(** A helper knows whether it holds its mutex, so a function that gets its mutex free
    leaves it free, whatever it does in between; a helper that is a temporary object
    protects nothing after its statement. *)
Lemma mh_calls_ok self l h m h' m' :
  (m = if m_bLocked h then Held self else Free) -> mh_calls self l h m = Some (h', m') ->
  m' = if m_bLocked h' then Held self else Free.
Proof using.
  revert h m. induction l as [|[] l IH]; intros h m Hm; cbn [mh_calls].
  - by intros [= <- <-].
  - unfold mh_Lock. rewrite Hm. destruct (m_bLocked h); [done|]. cbn. by apply IH.
  - unfold mh_Unlock. rewrite Hm. destruct (m_bLocked h); [|done]. cbn. by apply IH.
Qed.

Theorem mutex_helper_releases locknow self l m m' :
  m = Free -> mh_scope locknow self l m = Some m' -> m' = Free.
Proof using.
  intros ->. unfold mh_scope. destruct (MutexHelper_new locknow self Free) as [[h m]|] eqn:E; [|done]. cbn.
  assert (m = if m_bLocked h then Held self else Free) as Hm.
  { unfold MutexHelper_new in E. destruct locknow; cbn in E; by injection E as <- <-. }
  destruct (mh_calls self l h m) as [[h2 m2]|] eqn:Ec; [|done]. cbn.
  pose proof (mh_calls_ok _ _ _ _ _ _ Hm Ec) as ->. unfold MutexHelper_delete.
  destruct (m_bLocked h2); cbn; by intros [= <-].
Qed.

Lemma init_mutexes_spec tbl w :
  let '(r, tbl', _) := init_mutexes tbl w in
  length tbl' = length tbl /\
  match r with
  | Ret _ => tbl' = replicate (length tbl) Free
  | Throw e => exists what, e = Runtime_error what
  end.
Proof using.
  revert w. induction tbl as [|m tbl IH]; intros w; cbn [init_mutexes]; [done|].
  destruct (pthread_mutex_init w) as [[] w1]; [|split; [done|by eexists]].
  specialize (IH w1). destruct (init_mutexes tbl w1) as [[r tbl'] w2]. destruct IH as [H1 H2].
  cbn [length]. split; [by rewrite H1|]. destruct r; [cbn; by rewrite H2|done].
Qed.

(** The table OpenSSL gets has a free mutex for each of its locks; locking one makes every
    other thread that wants it wait, leaves the others alone, and unlocking undoes it. *)
Theorem static_locks_exclude w tbl w' i self other :
  StaticSslLocking_new w = (Ret tt, tbl, w') -> (i < CRYPTO_num_locks)%nat ->
  exists locked, SslStaticLockCallback CRYPTO_LOCK i self tbl = Some locked /\
    SslStaticLockCallback CRYPTO_LOCK i other locked = None /\
    (forall j, j <> i -> locked !! j = tbl !! j) /\
    SslStaticLockCallback 0 i self locked = Some tbl.
Proof using.
  intros Hn Hi. unfold StaticSslLocking_new in Hn. pose proof (init_mutexes_spec (replicate CRYPTO_num_locks Raw) w) as Hs.
  destruct (init_mutexes _ w) as [[[[]|e] t] w1]; [|done]. injection Hn as <- _. rewrite length_replicate in Hs.
  destruct Hs as [_ ->]. exists (<[i := Held self]> (replicate CRYPTO_num_locks Free)).
  unfold SslStaticLockCallback. rewrite lookup_replicate_2 by done. cbn.
  rewrite list_lookup_insert_eq by (by rewrite length_replicate). cbn. split_and!; [done|done| |].
  - intros j Hj. by apply list_lookup_insert_ne.
  - change (negb (Z.land 0 CRYPTO_LOCK =? 0)%Z) with false. cbn.
    by rewrite list_insert_insert_eq, list_insert_id by by apply lookup_replicate_2.
Qed.
End locking.
