(* ===== verification/Socket.v ===== *)
(** * Plain sockets (socket.cpp, socket.h)

    [Socket] implements [NetworkAbstraction] on the socket calls of the operating
    system, which are the operations of the class [Os] on the state [W] of the system.
    A call that fails with [EAGAIN] or [EINTR] is repeated at once, without end if the
    failures do not end, so the operations that loop take fuel.  The Windows variants
    are not modelled. *)
From S2P Require Import Prelude.

Local Open Scope Z_scope.

(** [struct sockaddr_in]: the port in network byte order and the address. *)
Record sockaddr_in : Type := MkSockaddr { sin_port : Z; sin_addr : Z }.
#[export] Instance eta_sockaddr_in : Eta sockaddr_in := fun a => MkSockaddr (sin_port a) (sin_addr a).
#[export] Instance sockaddr_in_eq_dec : EqDecision sockaddr_in.
Proof. solve_decision. Defined.

(** [memset(&a, 0, sizeof(a))]. *)
Definition sockaddr_zero : sockaddr_in := MkSockaddr 0 0.

(** [htons] and [ntohs] of a little-endian machine: the argument is converted to 16
    bits, whose bytes are swapped. *)
Definition htons (port : Z) : Z := (u16 port `mod` 256) * 256 + u16 port / 256.
Definition ntohs (port : Z) : Z := htons port.

Definition INVALID_SOCKET : Z := -1.
Definition INADDR_ANY : Z := 0.
Definition MSG_NOSIGNAL : Z := 0x4000.

(** [errno]: the two values the code looks at, and the others. *)
Inductive errno : Type :=
| EAGAIN
| EINTR
| Eother (n : Z).

(** The operating system and the C library.  The descriptor comes first; buffers that
    a call fills are results ([accept] and [getsockname] are given the old contents of
    the address they fill). *)
Class Os (W : Type) : Type := {
  os_errno : W -> errno;
  os_strerror : errno -> bytes;
  os_socket : W -> Z * W;                          (* socket(AF_INET, SOCK_STREAM, 0) *)
  os_nonblocking : Z -> W -> W;                    (* ioctl(fd, FIONBIO, &one) *)
  os_reuseaddr : Z -> W -> W;                      (* setsockopt(fd, SOL_SOCKET, SO_REUSEADDR, ...) *)
  os_bind : Z -> sockaddr_in -> W -> Z * W;
  os_listen : Z -> Z -> W -> Z * W;
  os_accept : Z -> sockaddr_in -> W -> Z * sockaddr_in * W;
  os_getsockname : Z -> sockaddr_in -> W -> sockaddr_in * W;
  os_recv : Z -> Z -> W -> Z * bytes * W;
  os_send : Z -> bytes -> Z -> W -> Z * W;
  os_close : Z -> W -> W;
  inet_addr : bytes -> Z;
  inet_ntoa : Z -> bytes;
  (** [PrivilegedBindHelper], which the application implements *)
  BindPrivilegedPort : nat -> Z -> bytes -> Z -> W -> bool * W
}.

Definition net_strerror `{Os W} (w : W) : bytes := os_strerror (os_errno w).

(** Whether a failed call is repeated. *)
Definition transient (e : errno) : bool :=
  match e with
  | EAGAIN | EINTR => true
  | Eother _ => false
  end.

(** [again: r = call(); if (failed(r)) goto again;] *)
Fixpoint retry {W A} (fuel : nat) (failed : A -> W -> bool) (call : W -> A * W) (w : W) : option (A * W) :=
  match fuel with
  | O => None
  | S n =>
      let '(a, w) := call w in
      if failed a w then retry n failed call w else Some (a, w)
  end.

(** ** The object *)
Record Socket : Type := MkSocket {
  m_fd : Z;
  m_peer : sockaddr_in;
  m_bindaddr : sockaddr_in;
  m_pBindHelper : option nat
}.
#[export] Instance eta_Socket : Eta Socket := fun s =>
  MkSocket (m_fd s) (m_peer s) (m_bindaddr s) (m_pBindHelper s).

Section socket.
Context {W : Type} {OS : Os W}.

(** The two constructors. *)
Definition Socket_new : Socket := MkSocket INVALID_SOCKET sockaddr_zero sockaddr_zero None.
Definition Socket_connected (fd : Z) (peer : sockaddr_in) (w : W) : Socket * W :=
  let '(here, w) := os_getsockname fd sockaddr_zero w in (MkSocket fd peer here None, w).

(** [Close] leaves [m_fd] as it is, and the destructor closes again. *)
Definition Close (s : Socket) (w : W) : W :=
  if m_fd s =? INVALID_SOCKET then w else os_close (m_fd s) w.
Definition Socket_delete (s : Socket) (w : W) : W := Close s w.

Definition RegisterBindHelper (helper : option nat) (s : Socket) : Socket := s <| m_pBindHelper := helper |>.

(** [None] is the null pointer. *)
Definition SetBindAddress (bindAddress : option bytes) (s : Socket) : Socket :=
  let baddr :=
    match bindAddress with
    | Some a => if bool_decide (c_str a = []) then INADDR_ANY else inet_addr (c_str a)
    | None => INADDR_ANY
    end in
  s <| m_bindaddr ::= fun sa => sa <| sin_addr := baddr |> |>.

(** The address that is bound, and the binding: ports below 1024 are left to the
    helper, if there is one. *)
Definition bind_address (port : Z) (s : Socket) : sockaddr_in :=
  MkSockaddr (htons port) (sin_addr (m_bindaddr s)).
Definition bind_socket (port : Z) (s : Socket) (w : W) : Z * W :=
  match m_pBindHelper s with
  | Some helper =>
      if port <? 1024 then
        let '(ok, w) := BindPrivilegedPort helper (m_fd s) (inet_ntoa (sin_addr (m_bindaddr s))) port w in
        (if ok : bool then 0 else -1, w)
      else os_bind (m_fd s) (bind_address port s) w
  | None => os_bind (m_fd s) (bind_address port s) w
  end.

Definition Init (port : Z) (s : Socket) (w : W) : res unit * Socket * W :=
  if negb (m_fd s =? INVALID_SOCKET) then
    (Throw (Runtime_error #"Socket::Init: Socket already initialized"), s, w)
  else
    let '(fd, w) := os_socket w in
    let s := s <| m_fd := fd |> in
    if fd =? INVALID_SOCKET then (Throw (Runtime_error (#"socket: " ++ net_strerror w)), s, w)
    else
      let w := os_reuseaddr fd (os_nonblocking fd w) in
      let '(nResult, w) := bind_socket port s w in
      if nResult =? -1 then (Throw (Runtime_error (#"bind: " ++ net_strerror w)), s, w)
      else
        let '(nResult, w) := os_listen fd 20 w in
        if negb (nResult =? 0) then (Throw (Runtime_error (#"listen: " ++ net_strerror w)), s, w)
        else (Ret tt, s, w).

(** The result of [recv] and the bytes it put into the buffer. *)
Definition sock_Read (fuel : nat) (bufsize : Z) (s : Socket) (w : W) : option (Z * bytes * W) :=
  if 0 <? bufsize then
    retry fuel (fun a w => (a.1 <? 0) && transient (os_errno w)) (os_recv (m_fd s) bufsize) w
  else Some (0, [], w).

Definition sock_Send (fuel : nat) (buf : bytes) (flags : Z) (s : Socket) (w : W) : option (Z * W) :=
  if bool_decide (buf = []) then Some (0, w)
  else
    retry fuel (fun a w => (a <? 0) && transient (os_errno w))
      (os_send (m_fd s) buf (Z.lor flags MSG_NOSIGNAL)) w.

(** The loop around [accept], which [SecureSocket] has too.  Every call may change the
    address [m_peer] of the listening socket. *)
Fixpoint accept_loop (fuel : nat) (s : Socket) (w : W) : option (Z * Socket * W) :=
  match fuel with
  | O => None
  | S n =>
      let '(fd, peer, w) := os_accept (m_fd s) (m_peer s) w in
      let s := s <| m_peer := peer |> in
      if (fd =? INVALID_SOCKET) && transient (os_errno w) then accept_loop n s w else Some (fd, s, w)
  end.

(** The new socket, if there is one, the listening socket and the system. *)
Definition Accept (fuel : nat) (s : Socket) (w : W) : option (res Socket * Socket * W) :=
  match accept_loop fuel s w with
  | None => None
  | Some (fd, s, w) =>
      if fd =? INVALID_SOCKET then Some (Throw (Runtime_error (#"accept: " ++ net_strerror w)), s, w)
      else let '(c, w) := Socket_connected fd (m_peer s) w in Some (Ret c, s, w)
  end.

Definition GetRemoteAddress (s : Socket) : bytes := inet_ntoa (sin_addr (m_peer s)).
Definition GetRemotePort (s : Socket) : Z := ntohs (sin_port (m_peer s)).
Definition GetLocalAddress (s : Socket) : bytes := inet_ntoa (sin_addr (m_bindaddr s)).
Definition GetLocalPort (s : Socket) : Z := ntohs (sin_port (m_bindaddr s)).

(** [snprintf(buf, 20, ":%d", ...)] always fits. *)
Definition GetPeer (s : Socket) : bytes := GetRemoteAddress s ++ ":"%char :: print_Z (GetRemotePort s).
End socket.

(** ** A concrete system for examples

    The open descriptors, the connections that wait ([None]: none at the time of a call),
    the input that waits, and the value of [errno].  The lowest free number from 3 up to
    1023 is used for a new descriptor. *)
Record posix : Type := MkPosix {
  px_open : gset Z;
  px_backlog : list (option sockaddr_in);
  px_input : list (option bytes);
  px_errno : errno
}.
#[export] Instance eta_posix : Eta posix := fun p => MkPosix (px_open p) (px_backlog p) (px_input p) (px_errno p).

Fixpoint lowest (n : nat) (k : Z) (used : gset Z) : option Z :=
  match n with
  | O => None
  | S n => if decide (k ∈ used) then lowest n (k + 1) used else Some k
  end.

Definition px_new (p : posix) : Z * posix :=
  match lowest 1021 3 (px_open p) with
  | Some k => (k, p <| px_open ::= union {[k]} |>)
  | None => (INVALID_SOCKET, p <| px_errno := Eother 24 |>)
  end.

#[export] Instance posix_os : Os posix := {|
  os_errno := px_errno;
  os_strerror e := match e with EAGAIN => #"again" | EINTR => #"interrupted" | Eother _ => #"error" end;
  os_socket := px_new;
  os_nonblocking _ p := p;
  os_reuseaddr _ p := p;
  os_bind _ a p := if sin_port a =? 0 then (-1, p <| px_errno := Eother 98 |>) else (0, p);
  os_listen _ _ p := (0, p);
  os_accept fd a p :=
    if fd <? 0 then (INVALID_SOCKET, a, p <| px_errno := Eother 9 |>)
    else match px_backlog p with
    | Some peer :: l => let '(k, p) := px_new (p <| px_backlog := l |>) in (k, peer, p)
    | None :: l => (INVALID_SOCKET, a, p <| px_backlog := l |> <| px_errno := EAGAIN |>)
    | [] => (INVALID_SOCKET, a, p <| px_errno := Eother 22 |>)
    end;
  os_getsockname _ _ p := (MkSockaddr (htons 80) 0x0100007F, p);
  os_recv _ n p :=
    match px_input p with
    | Some d :: l => let d := take (Z.to_nat n) d in (Z.of_nat (length d), d, p <| px_input := l |>)
    | None :: l => (-1, [], p <| px_input := l |> <| px_errno := EAGAIN |>)
    | [] => (-1, [], p <| px_errno := Eother 104 |>)
    end;
  os_send _ d _ p := (Z.of_nat (length d), p);
  os_close k p := p <| px_open ::= fun s => s ∖ {[k]} |>;
  inet_addr _ := 0x0100007F;
  inet_ntoa _ := #"127.0.0.1";
  BindPrivilegedPort _ _ _ _ p := (true, p)
|}.
