(* ===== verification/SocketFacts.v ===== *)
(** * Sockets and their descriptors

    The laws of the socket calls that the object relies on, as far as they concern the
    table of open descriptors; the outcome of [Init]; the port that is bound; the loops
    that repeat calls. *)
From S2P Require Import Prelude Socket.

Local Open Scope Z_scope.

(** ** Repeated calls *)
Section retry.
Context {W A : Type} (failed : A -> W -> bool) (call : W -> A * W).

(** The system after [n] calls, and whether the next one fails transiently. *)
Definition after (n : nat) (w : W) : W := Nat.iter n (fun w => (call w).2) w.
Definition busy (w : W) : bool := failed (call w).1 (call w).2.

Lemma after_S n w : after (S n) w = after n (call w).2.
Proof using. apply Nat.iter_succ_r. Qed.

Lemma retry_ready n fuel w :
  (forall k, (k < n)%nat -> busy (after k w) = true) -> busy (after n w) = false -> (n < fuel)%nat ->
  retry fuel failed call w = Some (call (after n w)).
Proof using.
  revert fuel w. induction n as [|n IH]; intros [|fuel] w Hb Hr Hf; try lia.
  - change (after 0 w) with w in *. unfold busy in Hr. cbn [retry]. destruct (call w) as [a w'].
    cbn [fst snd] in Hr. by rewrite Hr.
  - pose proof (Hb 0%nat ltac:(lia)) as H0. change (after 0 w) with w in H0. unfold busy in H0.
    cbn [retry]. rewrite after_S in Hr |- *.
    assert (forall k, (k < n)%nat -> busy (after k (call w).2) = true) as Hb'.
    { intros k Hk. rewrite <- after_S. apply Hb. lia. }
    destruct (call w) as [a w']. cbn [fst snd] in *. rewrite H0. apply IH; [done|done|lia].
Qed.

Lemma retry_spins fuel w : (forall k, busy (after k w) = true) -> retry fuel failed call w = None.
Proof using.
  revert w. induction fuel as [|fuel IH]; intros w Hb; [done|].
  pose proof (Hb 0%nat) as H0. change (after 0 w) with w in H0. unfold busy in H0. cbn [retry].
  assert (forall k, busy (after k (call w).2) = true) as Hb' by (intros k; rewrite <- after_S; apply Hb).
  destruct (call w) as [a w']. cbn [fst snd] in *. rewrite H0. by apply IH.
Qed.
End retry.

(** ** The laws of descriptors *)

(** What a call that makes a descriptor does to the set of open ones: -1 is returned
    and nothing is opened, or a number that was not in use is opened. *)
Definition opens (before after : gset Z) (fd : Z) : Prop :=
  (fd = INVALID_SOCKET /\ after = before) \/ (0 <= fd /\ fd ∉ before /\ after = {[fd]} ∪ before).

Class OsLaws {W} (OS : Os W) : Type := {
  open_fds : W -> gset Z;
  socket_opens w : opens (open_fds w) (open_fds (os_socket w).2) (os_socket w).1;
  accept_opens fd a w :
    opens (open_fds w) (open_fds (os_accept fd a w).2) (os_accept fd a w).1.1;
  close_closes fd w : open_fds (os_close fd w) = open_fds w ∖ {[fd]};
  nonblocking_keeps fd w : open_fds (os_nonblocking fd w) = open_fds w;
  reuseaddr_keeps fd w : open_fds (os_reuseaddr fd w) = open_fds w;
  bind_keeps fd a w : open_fds (os_bind fd a w).2 = open_fds w;
  listen_keeps fd n w : open_fds (os_listen fd n w).2 = open_fds w;
  getsockname_keeps fd a w : open_fds (os_getsockname fd a w).2 = open_fds w;
  recv_keeps fd n w : open_fds (os_recv fd n w).2 = open_fds w;
  send_keeps fd b f w : open_fds (os_send fd b f w).2 = open_fds w;
  bind_helper_keeps h fd a p w : open_fds (BindPrivilegedPort h fd a p w).2 = open_fds w
}.
#[export] Hint Rewrite @close_closes @nonblocking_keeps @reuseaddr_keeps @bind_keeps @listen_keeps
  @getsockname_keeps @recv_keeps @send_keeps @bind_helper_keeps : open_fds.

(** The descriptor an object holds, if any. *)
Definition held (s : Socket) : gset Z := if decide (m_fd s = INVALID_SOCKET) then ∅ else {[m_fd s]}.

Section facts.
Context {W : Type} {OS : Os W} {L : OsLaws OS}.

Lemma retry_keeps {A} fuel (failed : A -> W -> bool) (call : W -> A * W) w a w' :
  (forall w, open_fds (call w).2 = open_fds w) ->
  retry fuel failed call w = Some (a, w') -> open_fds w' = open_fds w.
Proof using.
  intros Hk. revert w. induction fuel as [|fuel IH]; intros w; [done|]. cbn [retry].
  pose proof (Hk w). destruct (call w) as [b w1]. cbn [snd] in *. destruct (failed b w1); [|by intros [= <- <-]].
  intros Hr. rewrite (IH _ Hr). done.
Qed.

Lemma Read_keeps fuel n s w k d w' : sock_Read fuel n s w = Some (k, d, w') -> open_fds w' = open_fds w.
Proof using.
  unfold sock_Read. destruct (0 <? n); [|by intros [= <- <- <-]].
  apply retry_keeps. intros w0. apply recv_keeps.
Qed.

Lemma Send_keeps fuel b f s w k w' : sock_Send fuel b f s w = Some (k, w') -> open_fds w' = open_fds w.
Proof using.
  unfold sock_Send. case_bool_decide; [by intros [= <- <-]|].
  apply retry_keeps. intros w0. apply send_keeps.
Qed.

Lemma bind_socket_keeps port s w : open_fds (bind_socket port s w).2 = open_fds w.
Proof using.
  unfold bind_socket. destruct (m_pBindHelper s) as [h|]; [|apply bind_keeps].
  destruct (port <? 1024); [|apply bind_keeps].
  pose proof (bind_helper_keeps h (m_fd s) (inet_ntoa (sin_addr (m_bindaddr s))) port w).
  by destruct (BindPrivilegedPort _ _ _ _ _).
Qed.

Lemma accept_loop_opens fuel s w fd s' w' :
  accept_loop fuel s w = Some (fd, s', w') ->
  opens (open_fds w) (open_fds w') fd /\ m_fd s' = m_fd s.
Proof using.
  revert s w. induction fuel as [|fuel IH]; intros s w; [done|]. cbn [accept_loop].
  pose proof (accept_opens (m_fd s) (m_peer s) w) as Ho. destruct (os_accept _ _ _) as [[k peer] w1].
  cbn [fst snd] in Ho. destruct ((k =? INVALID_SOCKET) && transient (os_errno w1)) eqn:E.
  - apply andb_true_iff in E as [->%Z.eqb_eq _]. destruct Ho as [[_ <-]|[? _]]; [|by unfold INVALID_SOCKET in *].
    intros Hl. by destruct (IH _ _ Hl).
  - intros [= <- <- <-]. done.
Qed.

Lemma Close_closes s w : open_fds (Close s w) = open_fds w ∖ held s.
Proof using.
  unfold Close, held. destruct (Z.eqb_spec (m_fd s) INVALID_SOCKET).
  - rewrite decide_True by done. set_solver.
  - rewrite decide_False by done. apply close_closes.
Qed.

Lemma Init_opens port s w r s' w' :
  m_fd s = INVALID_SOCKET -> Init port s w = (r, s', w') ->
  opens (open_fds w) (open_fds w') (m_fd s') /\ (r = Ret tt -> m_fd s' <> INVALID_SOCKET) /\
  m_bindaddr s' = m_bindaddr s.
Proof using.
  intros Hs. unfold Init. rewrite Hs. cbn [negb]. pose proof (socket_opens w) as Ho.
  destruct (os_socket w) as [fd w1]. cbn [fst snd] in Ho. destruct (Z.eqb_spec fd INVALID_SOCKET) as [->|Hfd].
  { rewrite Z.eqb_refl. cbn [negb]. intros [= <- <- <-]. split_and!; [exact Ho|done|by destruct s]. }
  rewrite Z.eqb_refl. cbn [negb]. set (s1 := s <| m_fd := fd |>).
  pose proof (bind_socket_keeps port s1 (os_reuseaddr fd (os_nonblocking fd w1))) as Hb.
  destruct (bind_socket _ _ _) as [k w2]. cbn [snd] in Hb. rewrite reuseaddr_keeps, nonblocking_keeps in Hb.
  rewrite <- Hb in Ho. destruct (k =? -1); [intros [= <- <- <-]; by destruct s|].
  pose proof (listen_keeps fd 20 w2) as Hl. destruct (os_listen _ _ _) as [j w3]. cbn [snd] in Hl.
  rewrite <- Hl in Ho. destruct (negb (j =? 0)); intros [= <- <- <-]; by destruct s.
Qed.

Lemma opened_then_closed before after s :
  opens before after (m_fd s) -> after ∖ held s = before.
Proof using.
  unfold held. intros [[-> ->]|(Hp & Hn & ->)].
  - rewrite decide_True by done. set_solver.
  - rewrite decide_False by (unfold INVALID_SOCKET; lia). set_solver.
Qed.

Lemma Init_twice port s w :
  m_fd s <> INVALID_SOCKET ->
  Init port s w = (Throw (Runtime_error #"Socket::Init: Socket already initialized"), s, w).
Proof using. intros Hs. unfold Init. by rewrite (proj2 (Z.eqb_neq _ _) Hs). Qed.

(** What [Init] leaves behind.  If it returns, the socket has a new descriptor of its
    own; if it throws after the descriptor was made, the object keeps the descriptor, and
    every later [Init] fails.  In every case the destructor gives back exactly what was
    opened.  The local address is not updated: the port of a listening socket stays what
    it was, 0 for a new one, whatever port was asked for. *)
Theorem Init_outcome port s w :
  m_fd s = INVALID_SOCKET ->
  let '(r, s', w') := Init port s w in
  opens (open_fds w) (open_fds w') (m_fd s') /\
  (r = Ret tt -> m_fd s' <> INVALID_SOCKET) /\
  (m_fd s' <> INVALID_SOCKET -> forall port' w2,
     Init port' s' w2 = (Throw (Runtime_error #"Socket::Init: Socket already initialized"), s', w2)) /\
  open_fds (Socket_delete s' w') = open_fds w /\
  GetLocalPort s' = GetLocalPort s.
Proof using.
  intros Hs. destruct (Init port s w) as [[r s'] w'] eqn:E. destruct (Init_opens _ _ _ _ _ _ Hs E) as (Ho & Hr & Hb).
  split_and!; [done..|intros; by apply Init_twice| |unfold GetLocalPort; by rewrite Hb].
  unfold Socket_delete. rewrite Close_closes. by apply opened_then_closed.
Qed.

Lemma swap_swap x : 0 <= x < 65536 -> ntohs (htons x) = x.
Proof using.
  intros Hx. unfold ntohs, htons, u16. change (2 ^ 16) with 65536. rewrite (Z.mod_small x) by done.
  pose proof (Z.div_mod x 256 ltac:(lia)). pose proof (Z.mod_pos_bound x 256 ltac:(lia)).
  assert (0 <= x / 256 < 256) by (split; [apply Z.div_pos|apply Z.div_lt_upper_bound]; lia).
  rewrite (Z.mod_small (_ + _)) by lia. set (a := x / 256) in *. set (b := x `mod` 256) in *.
  rewrite Z.div_add_l, (Z.div_small a) by lia. replace ((b * 256 + a) `mod` 256) with a; [lia|].
  by rewrite Z.add_comm, Z_mod_plus_full, Z.mod_small.
Qed.

(** The port is an [int] that is cut to 16 bits when it is bound, after it has been
    compared with 1024: a port from 65536 on is bound, by the socket itself and without the
    helper for privileged ports, as its remainder. *)
Theorem bound_port port s w :
  1024 <= port ->
  bind_socket port s w = os_bind (m_fd s) (bind_address port s) w /\
  ntohs (sin_port (bind_address port s)) = port `mod` 2 ^ 16 /\
  (port < 2 ^ 16 -> ntohs (sin_port (bind_address port s)) = port).
Proof using.
  intros Hp. assert (ntohs (sin_port (bind_address port s)) = port `mod` 2 ^ 16) as Hn.
  { pose proof (Z.mod_pos_bound port (2 ^ 16) ltac:(lia)) as Hb. unfold bind_address. cbn [sin_port].
    rewrite <- (swap_swap (port `mod` 2 ^ 16)) by exact Hb. unfold htons, u16. by rewrite Zmod_mod. }
  split_and!; [|done|intros; rewrite Hn; apply Z.mod_small; lia].
  unfold bind_socket. destruct (m_pBindHelper s); [|done]. by rewrite (proj2 (Z.ltb_ge port 1024)).
Qed.

(** [Read] repeats a [recv] that fails with [EAGAIN] or [EINTR] and returns what the
    first other call returns; while the failures go on it does not return.  Since nothing
    but the calls happens in between, it is a busy wait. *)
Theorem Read_waits n fuel bufsize s w :
  let call := os_recv (m_fd s) bufsize in
  let waits := busy (fun a w => (a.1 <? 0) && transient (os_errno w)) call in
  0 < bufsize ->
  ((forall k, (k < n)%nat -> waits (after call k w) = true) -> waits (after call n w) = false ->
     (n < fuel)%nat -> sock_Read fuel bufsize s w = Some (call (after call n w))) /\
  ((forall k, waits (after call k w) = true) -> sock_Read fuel bufsize s w = None).
Proof using.
  intros call waits Hb. unfold sock_Read. rewrite (proj2 (Z.ltb_lt 0 bufsize) Hb).
  split; [apply retry_ready|apply retry_spins].
Qed.
End facts.
