(* ===== verification/SocketOwners.v ===== *)
(** * Who owns which descriptor

    The life of the socket objects of a program as a step relation: objects are made,
    initialized, accept connections and are deleted, while the rest of the program
    opens and closes descriptors of its own.  In every reachable state each
    descriptor belongs to one object.  The explicit [Close] is not among the steps: the
    theorem after the invariant shows why.  The file ends with a small concrete system
    on which the theorems are run. *)
From S2P Require Import Prelude Socket SocketFacts.

Local Open Scope Z_scope.

Section owners.
Context {W : Type} {OS : Os W} {L : OsLaws OS}.

(** The descriptors the rest of the program has open, the socket objects, the system. *)
Record world : Type := MkWorld { others : gset Z; sockets : list Socket; system : W }.

(** The descriptors of the objects, with repetitions if there were any. *)
Definition held_list (s : Socket) : list Z := if decide (m_fd s = INVALID_SOCKET) then [] else [m_fd s].
Definition descriptors (l : list Socket) : list Z := l ≫= held_list.

Inductive step : world -> world -> Prop :=
| step_new b l w : step (MkWorld b l w) (MkWorld b (Socket_new :: l) w)
| step_bind_helper b l1 s l2 w h :
    step (MkWorld b (l1 ++ s :: l2) w) (MkWorld b (l1 ++ RegisterBindHelper h s :: l2) w)
| step_bind_address b l1 s l2 w a :
    step (MkWorld b (l1 ++ s :: l2) w) (MkWorld b (l1 ++ SetBindAddress a s :: l2) w)
| step_init b l1 s l2 w port r s' w' :
    Init port s w = (r, s', w') -> step (MkWorld b (l1 ++ s :: l2) w) (MkWorld b (l1 ++ s' :: l2) w')
| step_accept b l1 s l2 w fuel c s' w' :
    Accept fuel s w = Some (Ret c, s', w') ->
    step (MkWorld b (l1 ++ s :: l2) w) (MkWorld b (c :: l1 ++ s' :: l2) w')
| step_accept_throws b l1 s l2 w fuel e s' w' :
    Accept fuel s w = Some (Throw e, s', w') ->
    step (MkWorld b (l1 ++ s :: l2) w) (MkWorld b (l1 ++ s' :: l2) w')
| step_read b l1 s l2 w fuel n k d w' :
    sock_Read fuel n s w = Some (k, d, w') -> step (MkWorld b (l1 ++ s :: l2) w) (MkWorld b (l1 ++ s :: l2) w')
| step_send b l1 s l2 w fuel d f k w' :
    sock_Send fuel d f s w = Some (k, w') -> step (MkWorld b (l1 ++ s :: l2) w) (MkWorld b (l1 ++ s :: l2) w')
| step_delete b l1 s l2 w :
    step (MkWorld b (l1 ++ s :: l2) w) (MkWorld b (l1 ++ l2) (Socket_delete s w))
| step_others b b' l w w' :
    b' ## list_to_set (descriptors l) -> open_fds w' = b' ∪ list_to_set (descriptors l) -> step (MkWorld b l w) (MkWorld b' l w').

(** Every descriptor is the rest's or exactly one object's. *)
Definition owned (x : world) : Prop :=
  NoDup (descriptors (sockets x)) /\ others x ## list_to_set (descriptors (sockets x)) /\
  open_fds (system x) = others x ∪ list_to_set (descriptors (sockets x)).

Lemma held_set s : list_to_set (held_list s) = held s.
Proof using. unfold held_list, held. case_decide; set_solver. Qed.

Lemma descriptors_mid l1 s l2 : descriptors (l1 ++ s :: l2) ≡ₚ held_list s ++ descriptors (l1 ++ l2).
Proof using. unfold descriptors. by rewrite <- Permutation_middle, bind_cons. Qed.

(** The invariant depends on the set of descriptors only through the list of them. *)
Definition own (b : gset Z) (d : list Z) (o : gset Z) : Prop :=
  NoDup d /\ b ## list_to_set d /\ o = b ∪ list_to_set d.
#[local] Instance own_proper b : Proper (Permutation ==> eq ==> iff) (own b).
Proof using.
  intros d d' Hd o o' <-. unfold own. assert (list_to_set d =@{gset Z} list_to_set d') as -> by by apply list_to_set_perm_L.
  by rewrite Hd.
Qed.

Lemma own_opens b d o o' s :
  own b d o -> opens o o' (m_fd s) -> own b (held_list s ++ d) o'.
Proof using.
  unfold own, held_list. intros (Hn & Hd & ->) [[-> ->]|(Hp & Hf & ->)].
  - by rewrite decide_True.
  - rewrite decide_False by (unfold INVALID_SOCKET; lia). cbn [app list_to_set].
    split_and!; [constructor; set_solver|set_solver|set_solver].
Qed.

Lemma own_closed b d o s : own b (held_list s ++ d) o -> own b d (o ∖ held s).
Proof using.
  unfold own. rewrite NoDup_app, list_to_set_app_L, held_set. intros (( _ & Hs & Hn) & Hd & ->).
  split_and!; [done|set_solver|]. assert (held s ## list_to_set d); [|set_solver].
  rewrite <- held_set. intros x. rewrite !elem_of_list_to_set. apply Hs.
Qed.

(** Replacing an object by another that holds the same descriptor. *)
Lemma descriptors_same l1 s s' l2 : m_fd s' = m_fd s -> descriptors (l1 ++ s' :: l2) = descriptors (l1 ++ s :: l2).
Proof using.
  intros Hs. unfold descriptors. rewrite !bind_app, !bind_cons. unfold held_list. by rewrite Hs.
Qed.

Lemma Init_own b d port s w r s' w' :
  own b (held_list s ++ d) (open_fds w) -> Init port s w = (r, s', w') ->
  own b (held_list s' ++ d) (open_fds w').
Proof using.
  intros Ho E. destruct (decide (m_fd s = INVALID_SOCKET)) as [Hs|Hs].
  - destruct (Init_opens _ _ _ _ _ _ Hs E) as (Hop & _ & _). revert Ho. unfold held_list at 1. rewrite decide_True by done.
    intros Ho. by eapply own_opens.
  - rewrite Init_twice in E by done. by injection E as <- <- <-.
Qed.

Lemma Accept_own b d fuel s w r s' w' :
  own b d (open_fds w) -> Accept fuel s w = Some (r, s', w') ->
  m_fd s' = m_fd s /\ own b (match r with Ret c => held_list c | Throw _ => [] end ++ d) (open_fds w').
Proof using.
  intros Ho. unfold Accept. destruct (accept_loop fuel s w) as [[[fd s1] w1]|] eqn:E; [|done].
  destruct (accept_loop_opens _ _ _ _ _ _ E) as [Hop Hs]. destruct (Z.eqb_spec fd INVALID_SOCKET) as [->|Hfd].
  - intros [= <- <- <-]. split; [done|]. destruct Hop as [[_ ->]|[Hp _]]; [done|by unfold INVALID_SOCKET in Hp].
  - unfold Socket_connected. pose proof (getsockname_keeps fd sockaddr_zero w1) as Hg.
    destruct (os_getsockname fd sockaddr_zero w1) as [here w2]. cbn [snd] in Hg. intros [= <- <- <-].
    split; [done|]. eapply own_opens; [exact Ho|]. cbn [m_fd]. by rewrite Hg.
Qed.

Lemma step_owned x y : owned x -> step x y -> owned y.
Proof using.
  change (owned x) with (own (others x) (descriptors (sockets x)) (open_fds (system x))).
  change (owned y) with (own (others y) (descriptors (sockets y)) (open_fds (system y))).
  intros Ho Hstep. destruct Hstep; cbn [others sockets system] in *.
  - exact Ho.
  - by rewrite (descriptors_same l1 s).
  - by rewrite (descriptors_same l1 s).
  - rewrite descriptors_mid in Ho |- *. by eapply Init_own.
  - destruct (Accept_own _ _ _ _ _ _ _ _ Ho H) as [Hs Hn]. by rewrite <- (descriptors_same l1 s s') in Hn.
  - destruct (Accept_own _ _ _ _ _ _ _ _ Ho H) as [Hs Hn]. by rewrite (descriptors_same l1 s).
  - by rewrite (Read_keeps _ _ _ _ _ _ _ H).
  - by rewrite (Send_keeps _ _ _ _ _ _ _ H).
  - rewrite descriptors_mid in Ho. unfold Socket_delete. rewrite Close_closes. by apply own_closed.
  - destruct Ho as (Hn & _ & _). by split_and!.
Qed.

(** Starting without sockets, whatever the program does with socket objects and
    whatever the rest of it does with its own descriptors: no two objects hold the same
    descriptor, none holds one of the rest, all that are held are open, and when all the
    objects are deleted nothing is left open. *)
Theorem sockets_own_descriptors x y :
  sockets x = [] -> open_fds (system x) = others x -> rtc step x y ->
  NoDup (descriptors (sockets y)) /\ others y ## list_to_set (descriptors (sockets y)) /\
  open_fds (system y) = others y ∪ list_to_set (descriptors (sockets y)) /\
  (sockets y = [] -> open_fds (system y) = others y).
Proof using.
  intros Hs Ho Hr.
  assert (owned x) as Hx.
  { unfold owned. rewrite Hs, Ho. cbn. split_and!; [constructor|set_solver|set_solver]. }
  assert (owned y) as (H1 & H2 & H3) by (clear Hs Ho; induction Hr; eauto using step_owned).
  split_and!; [done..|]. intros Hy. rewrite H3, Hy. cbn. set_solver.
Qed.

(** [Close] does not clear the descriptor, and the destructor closes it again: what
    has been opened under the same number in the meantime, here a connection accepted by
    another socket object, is closed although its object still holds it. *)
Theorem closed_twice b l1 s l2 w fuel c s' w' listener :
  owned (MkWorld b (l1 ++ s :: l2) w) -> m_fd s <> INVALID_SOCKET ->
  Accept fuel listener (Close s w) = Some (Ret c, s', w') ->
  m_fd c = m_fd s ->
  m_fd c ∈ open_fds w' /\ m_fd c ∉ open_fds (Socket_delete s w').
Proof using.
  intros Ho Hs Ha Hc. change (own b (descriptors (l1 ++ s :: l2)) (open_fds w)) in Ho.
  rewrite descriptors_mid in Ho. apply own_closed in Ho. rewrite <- Close_closes in Ho.
  destruct (Accept_own _ _ _ _ _ _ _ _ Ho Ha) as [_ (_ & _ & Ho')].
  assert (held c = {[m_fd c]}) as Hh by (unfold held; by rewrite decide_False by congruence).
  split.
  - rewrite Ho', list_to_set_app_L, held_set, Hh. set_solver.
  - unfold Socket_delete. rewrite Close_closes. unfold held. rewrite decide_False by done. rewrite Hc. set_solver.
Qed.
End owners.

(** ** Concrete runs *)
Lemma lowest_free n k used j : 0 <= k -> lowest n k used = Some j -> 0 <= j /\ j ∉ used.
Proof.
  revert k. induction n as [|n IH]; intros k Hk; [done|]. cbn [lowest].
  case_decide; [apply IH; lia|]. by intros [= <-].
Qed.

Lemma px_new_opens p : opens (px_open p) (px_open (px_new p).2) (px_new p).1.
Proof.
  unfold px_new, opens. destruct (lowest _ _ _) as [k|] eqn:E; [|by left].
  apply lowest_free in E as [H1 H2]; [|done]. by right.
Qed.

#[export] Instance posix_laws : OsLaws posix_os.
Proof.
  refine {| open_fds := px_open |}; try done.
  - exact px_new_opens.
  - intros fd a [o b i e]. cbn [os_accept posix_os]. destruct (fd <? 0); [by left|].
    destruct b as [|[peer|] l]; cbn [px_backlog]; [by left| |by left].
    pose proof (px_new_opens (MkPosix o l i e)) as H. cbn. by destruct (px_new _).
  - intros fd a p. cbn. by destruct (sin_port a =? 0).
  - intros fd n [o b [|[d|] l] e]; done.
Defined.

Definition idle_system : posix := MkPosix {[0; 1; 2]} [None; Some (MkSockaddr 40000 7); Some (MkSockaddr 40001 7)]
  [None; None; Some #"GET"] (Eother 0).
Definition listening : Socket := (Init 8080 Socket_new idle_system).1.2.
Definition listening_system : posix := (Init 8080 Socket_new idle_system).2.

Lemma listening_starts : Init 8080 Socket_new idle_system = (Ret tt, listening, listening_system).
Proof. by vm_compute. Qed.

Lemma Init_outcome_witness :
  m_fd Socket_new = INVALID_SOCKET /\ m_fd listening = 3 /\ GetLocalPort listening = 0 /\
  open_fds (Socket_delete listening listening_system) = open_fds idle_system.
Proof.
  pose proof (Init_outcome 8080 Socket_new idle_system eq_refl) as H. rewrite listening_starts in H.
  split_and!; [done|by vm_compute|apply H|apply H].
Defined.

Lemma bound_port_witness :
  1024 <= 65616 /\ bind_socket 65616 (RegisterBindHelper (Some 0%nat) listening) listening_system =
    os_bind 3 (MkSockaddr (htons 80) 0) listening_system.
Proof.
  split; [lia|]. exact (proj1 (bound_port 65616 (RegisterBindHelper (Some 0%nat) listening) listening_system ltac:(lia))).
Defined.

Lemma Read_waits_witness :
  0 < 4096 /\ sock_Read 5 4096 listening listening_system = Some (3, #"GET", listening_system <| px_input := [] |> <| px_errno := EAGAIN |>).
Proof.
  split; [lia|]. rewrite (proj1 (Read_waits 2 5 4096 listening listening_system ltac:(lia))); [by vm_compute| |by vm_compute|lia].
  intros [|[|k]] Hk; [by vm_compute..|lia].
Defined.

(** Two objects: a listening socket that has accepted one connection. *)
Definition peer_socket (k : Z) (port : Z) : Socket := MkSocket k (MkSockaddr port 7) (MkSockaddr (htons 80) 0x0100007F) None.
Definition accepted_system : posix := MkPosix {[0; 1; 2; 3; 4]} [Some (MkSockaddr 40001 7)]
  [None; None; Some #"GET"] EAGAIN.
Definition accepting : Socket := listening <| m_peer := MkSockaddr 40000 7 |>.

Lemma accepts_one : Accept 2 listening listening_system = Some (Ret (peer_socket 4 40000), accepting, accepted_system).
Proof. by vm_compute. Qed.

Lemma sockets_own_descriptors_witness :
  rtc step (MkWorld {[0; 1; 2]} [] idle_system) (MkWorld {[0; 1; 2]} [] (MkPosix {[0; 1; 2]} [Some (MkSockaddr 40001 7)]
    [None; None; Some #"GET"] EAGAIN)) /\
  px_open (MkPosix {[0; 1; 2]} [Some (MkSockaddr 40001 7)] [None; None; Some #"GET"] EAGAIN) = {[0; 1; 2]}.
Proof.
  assert (rtc step (MkWorld {[0; 1; 2]} [] idle_system) (MkWorld {[0; 1; 2]} []
    (MkPosix {[0; 1; 2]} [Some (MkSockaddr 40001 7)] [None; None; Some #"GET"] EAGAIN))) as Hr.
  { eapply rtc_l; [apply step_new|].
    eapply rtc_l; [apply (step_init _ [] _ [] _ 8080 _ _ _ listening_starts)|].
    eapply rtc_l; [apply (step_accept _ [] _ [] _ 2 _ _ _ accepts_one)|].
    eapply rtc_l; [apply (step_delete _ [] _ [accepting])|].
    eapply rtc_l; [apply (step_delete _ [] accepting [])|].
    assert (Socket_delete accepting (Socket_delete (peer_socket 4 40000) accepted_system) =
      MkPosix {[0; 1; 2]} [Some (MkSockaddr 40001 7)] [None; None; Some #"GET"] EAGAIN) as -> by by vm_compute.
    apply rtc_refl. }
  split; [exact Hr|].
  apply (sockets_own_descriptors (MkWorld {[0; 1; 2]} [] idle_system) _ eq_refl eq_refl Hr). done.
Defined.

Lemma closed_twice_witness :
  owned (MkWorld {[0; 1; 2]} [peer_socket 4 40000; accepting] accepted_system) /\
  Accept 1 accepting (Close (peer_socket 4 40000) accepted_system) =
    Some (Ret (peer_socket 4 40001), accepting <| m_peer := MkSockaddr 40001 7 |>, accepted_system <| px_backlog := [] |>) /\
  4 ∉ px_open (Socket_delete (peer_socket 4 40000) (accepted_system <| px_backlog := [] |>)).
Proof.
  assert (owned (MkWorld {[0; 1; 2]} [peer_socket 4 40000; accepting] accepted_system)) as Ho.
  { unfold owned. split_and!; [apply (bool_decide_unpack _); by vm_compute| |by vm_compute].
    apply (bool_decide_unpack _); by vm_compute. }
  assert (Accept 1 accepting (Close (peer_socket 4 40000) accepted_system) =
    Some (Ret (peer_socket 4 40001), accepting <| m_peer := MkSockaddr 40001 7 |>, accepted_system <| px_backlog := [] |>))
    as Ha by by vm_compute.
  split; [exact Ho|]. split; [exact Ha|].
  apply (closed_twice {[0; 1; 2]} [] (peer_socket 4 40000) [accepting] accepted_system 1 _ _ _ accepting Ho ltac:(done) Ha).
  done.
Defined.
