(* ===== verification/BindHelper.v ===== *)
(** * Binding privileged ports (samples/ehs_privport.cpp, ehs_https.cpp, ehs_wsgate.cpp, bindhelper.c)

    The helper of the samples starts a program that is installed setuid root and hands it the
    socket, the address and the port as hexadecimal text.  The calls of the two processes are
    the class [Processes]; the child runs while the parent waits for it.  The mutex of the
    helper and the error output are left out. *)
From S2P Require Import Prelude Datum Socket.

Local Open Scope Z_scope.

Class Processes (W : Type) : Type := {
  fork : W -> bool * W;                              (* false: no child *)
  execl_bindhelper : W -> option Z * W;              (* Some e: not executed, with errno e *)
  root_bind : Z -> sockaddr_in -> W -> option Z * W; (* bind in the program; Some e: errno *)
  waitpid : W -> bool * W                            (* false: -1 *)
}.

Definition EINVAL : Z := 22.

(** ** The text between the two programs *)

(** ["%0<width>x"] of an [unsigned int]. *)
Definition hex_padded (width : nat) (n : Z) : bytes :=
  let ds := print_nat_base 16 n in replicate (width - length ds) "0"%char ++ ds.

Definition encode_bind (socket ia port : Z) : bytes :=
  hex_padded 8 (u32 socket) ++ hex_padded 8 (u32 ia) ++ hex_padded 4 (u16 port).

(** ["%<width>x"] of [sscanf]: the value, and what follows. *)
Definition scan_x (width : nat) (s : bytes) : option (Z * bytes) :=
  let '(_, s) := span is_space s in
  let field := take width s in
  let '(negative, field1) :=
    match field with
    | a :: f => if decide (a = "-"%char) then (true, f) else if decide (a = "+"%char) then (false, f) else (false, field)
    | [] => (false, [])
    end in
  let field2 := if is_prefix #"0x" (tolower <$> field1) then drop 2 field1 else field1 in
  match span is_xdigit field2 with
  | ([], _) => None
  | (ds, rest) =>
      let v := digits_value 16 ds in
      Some (if negative then - v else v, rest ++ drop width s)
  end.

(** [sscanf(s, "%8x%8x%4hx", &sock, &ia, &port)], when all three are assigned. *)
Definition decode_bind (s : bytes) : option (Z * Z * Z) :=
  '(sock, s) ← scan_x 8 s;
  '(ia, s) ← scan_x 8 s;
  '(port, _) ← scan_x 4 s;
  Some (u32 sock, u32 ia, u16 port).

Lemma xdigit_not_space a : is_xdigit a = true -> negb (is_space a) = true.
Proof. apply (all_bytes_impl is_xdigit (fun a => negb (is_space a))). by vm_compute. Qed.
Lemma xdigit_not_x a : is_xdigit a = true -> negb (bool_decide (tolower a = "x"%char)) = true.
Proof. intros Ha. by apply (all_bytes_impl is_xdigit (fun a => negb (bool_decide (tolower a = "x"%char)))) in Ha. Qed.

Section helper.
Context {W : Type} {OS : Os W} {P : Processes W}.

(** [main] of bindhelper.c: its exit code. *)
Definition bindhelper_main (argv : list bytes) (w : W) : Z * W :=
  match argv with
  | [arg0] =>
      match decode_bind (c_str arg0) with
      | Some (sock, ia, port) =>
          if 16384 <=? sock then (EINVAL, w)
          else if 1024 <=? port then (EINVAL, w)
          else
            match root_bind sock (MkSockaddr (ntohs port) ia) w with
            | (Some e, w) => (e, w)
            | (None, w) => (0, w)
            end
      | None => (EINVAL, w)
      end
  | _ => (EINVAL, w)
  end.

(** [BindPrivilegedPort]; the parent sees the low 8 bits of the exit code. *)
Definition MyHelper_BindPrivilegedPort (socket : Z) (addr : bytes) (port : Z) (w : W) : bool * W :=
  match fork w with
  | (false, w) => (false, w)
  | (true, w) =>
      let buf := encode_bind socket (inet_addr addr) port in
      let '(code, w) :=
        match execl_bindhelper w with
        | (None, w) => bindhelper_main [buf] w
        | (Some e, w) => (e, w)
        end in
      match waitpid w with
      | (false, w) => (false, w)
      | (true, w) => (u8 code =? 0, w)
      end
  end.

(** The gateway and the HTTPS sample have copies of it. *)
Definition MyBindHelper_BindPrivilegedPort := MyHelper_BindPrivilegedPort.
Definition https_BindPrivilegedPort := MyHelper_BindPrivilegedPort.

(** The system of an application that has registered the helper. *)
Definition sample_os : Os W := {|
  os_errno := os_errno; os_strerror := os_strerror; os_socket := os_socket; os_nonblocking := os_nonblocking;
  os_reuseaddr := os_reuseaddr; os_bind := os_bind; os_listen := os_listen; os_accept := os_accept;
  os_getsockname := os_getsockname; os_recv := os_recv; os_send := os_send; os_close := os_close;
  inet_addr := inet_addr; inet_ntoa := inet_ntoa;
  BindPrivilegedPort _ := MyHelper_BindPrivilegedPort
|}.

(** ** Lemmas *)
Lemma digits_length16 fuel n acc k :
  0 <= n < 16 ^ Z.of_nat (S k) -> (length (digits fuel 16 n acc) <= S k + length acc)%nat.
Proof using.
  clear. revert n acc k. induction fuel as [|f IH]; intros n acc k Hn; cbn [digits]; [lia|].
  destruct (Z.ltb_spec n 16) as [Hs|Hs]; [cbn [length]; lia|]. rewrite Nat2Z.inj_succ, Z.pow_succ_r in Hn by lia.
  destruct k as [|k]; [cbn in Hn; lia|].
  specialize (IH (n / 16) (digit_char (n `mod` 16) :: acc) k). cbn [length] in IH. assert (0 <= n / 16 < 16 ^ Z.of_nat (S k)) by dlia. lia.
Qed.

Lemma hex_padded_xdigits width n : Forall (fun a => is_xdigit a = true) (hex_padded width n).
Proof using. clear. apply Forall_app. split; [by apply Forall_replicate|apply print_nat_base_xdigits]. Qed.

Lemma hex_padded_length k n : 0 <= n < 16 ^ Z.of_nat (S k) -> length (hex_padded (S k) n) = S k.
Proof using.
  clear. intros Hn. unfold hex_padded. rewrite length_app, length_replicate.
  pose proof (digits_length16 (S (Z.to_nat (Z.log2 n))) n [] k Hn) as H. unfold print_nat_base in *. cbn [length] in H. lia.
Qed.

Lemma hex_padded_value width n : 0 <= n -> digits_value 16 (hex_padded width n) = n.
Proof using.
  clear. intros Hn. unfold hex_padded. rewrite digits_value_app.
  assert (digits_value 16 (replicate (width - length (print_nat_base 16 n)) "0"%char) = 0) as ->.
  { unfold digits_value. generalize (width - length (print_nat_base 16 n))%nat. intros k. by induction k. }
  by apply print_nat_base_value.
Qed.

(** Hexadecimal digits only: no white space, sign, or prefix. *)
Lemma scan_x_padded k n rest :
  0 <= n < 16 ^ Z.of_nat (S k) -> scan_x (S k) (hex_padded (S k) n ++ rest) = Some (n, rest).
Proof using.
  clear. intros Hn. pose proof (hex_padded_length k n Hn) as Hlen. pose proof (hex_padded_xdigits (S k) n) as Hd.
  pose proof (hex_padded_value (S k) n ltac:(lia)) as Hv. destruct (hex_padded (S k) n) as [|a l] eqn:E; [done|].
  pose proof Hd as [Ha _]%Forall_cons. unfold scan_x. cbn [app span].
  assert (is_space a = false) as -> by by apply negb_true_iff, xdigit_not_space.
  assert (take (S k) (a :: l ++ rest) = a :: l) as -> by (rewrite app_comm_cons, <- Hlen; apply take_app_length).
  assert (drop (S k) (a :: l ++ rest) = rest) as -> by (rewrite app_comm_cons, <- Hlen; apply drop_app_length).
  rewrite !decide_False by (intros ->; done).
  assert (is_prefix #"0x" (tolower <$> a :: l) = false) as ->.
  { apply not_true_iff_false. intros [t Ht]%is_prefix_spec. destruct l as [|b l]; [done|]. injection Ht as _ Hb _.
    apply Forall_cons in Hd as [_ [Hxb _]%Forall_cons].
    pose proof (xdigit_not_x b Hxb) as Hn2. by rewrite Hb in Hn2. }
  rewrite <- (app_nil_r (a :: l)), span_all by done. by rewrite Hv.
Qed.

Lemma u32_hex z : 0 <= u32 z < 16 ^ Z.of_nat 8.
Proof using. clear. by apply Z.mod_pos_bound. Qed.
Lemma u16_hex z : 0 <= u16 z < 16 ^ Z.of_nat 4.
Proof using. clear. by apply Z.mod_pos_bound. Qed.

Lemma decode_encode socket ia port :
  decode_bind (c_str (encode_bind socket ia port)) = Some (u32 socket, u32 ia, u16 port).
Proof using.
  clear. pose proof (u32_hex socket) as H1. pose proof (u32_hex ia) as H2. pose proof (u16_hex port) as H3.
  unfold encode_bind. rewrite c_str_id.
  - unfold decode_bind. rewrite scan_x_padded by done. cbn [mbind option_bind]. rewrite scan_x_padded by done. cbn [mbind option_bind].
    rewrite <- (app_nil_r (hex_padded 4 _)), scan_x_padded by done. cbn [mbind option_bind].
    unfold u32, u16. by rewrite !Z.mod_mod by lia.
  - eapply (Forall_impl (fun a => is_xdigit a = true)); [rewrite !Forall_app; split_and!; apply hex_padded_xdigits|].
    by intros a Ha ->.
Qed.

(** ** Properties *)

(** The text fits into its buffer of 32 characters, and the program reads back the
    socket, the address and the port that were written. *)
Theorem bind_text_roundtrip socket ia port :
  (length (encode_bind socket ia port) + 1 <= 32)%nat /\
  decode_bind (c_str (encode_bind socket ia port)) = Some (u32 socket, u32 ia, u16 port).
Proof using.
  split; [|apply decode_encode]. unfold encode_bind.
  rewrite !length_app, !hex_padded_length by (apply u32_hex || apply u16_hex). lia.
Qed.

(** C40: with the helper registered, and as long as the child can be made, executed and waited
    for, binding a socket to a privileged port has the effect and the result of the program's
    [bind] of the same descriptor to the address the server would have bound it to. *)
Theorem privileged_bind h port (s : Socket) (w w1 w2 w3 w4 : W) r :
  0 <= m_fd s < 16384 -> 0 <= port < 1024 -> 0 <= sin_addr (m_bindaddr s) < 2 ^ 32 ->
  inet_addr (inet_ntoa (sin_addr (m_bindaddr s))) = sin_addr (m_bindaddr s) ->
  fork w = (true, w1) -> execl_bindhelper w1 = (None, w2) ->
  root_bind (m_fd s) (bind_address port s) w2 = (r, w3) -> (forall e, r = Some e -> 0 < e < 256) ->
  waitpid w3 = (true, w4) ->
  bind_socket (OS := sample_os) port (RegisterBindHelper (Some h) s) w = (if r then -1 else 0, w4).
Proof using.
  intros Hfd Hport Haddr Hinet Hf Hx Hb He Hw. unfold bind_socket. rewrite (proj2 (Z.ltb_lt port 1024)) by lia.
  assert (m_pBindHelper (RegisterBindHelper (Some h) s) = Some h /\ m_fd (RegisterBindHelper (Some h) s) = m_fd s /\
    m_bindaddr (RegisterBindHelper (Some h) s) = m_bindaddr s) as (-> & -> & ->) by done.
  cbn [BindPrivilegedPort sample_os inet_ntoa]. unfold MyHelper_BindPrivilegedPort.
  rewrite Hf, Hx, Hinet. cbn [bindhelper_main]. rewrite decode_encode.
  unfold u32, u16. rewrite !Z.mod_small by lia.
  rewrite (proj2 (Z.leb_gt 16384 (m_fd s))), (proj2 (Z.leb_gt 1024 port)) by lia.
  change (MkSockaddr (ntohs port) (sin_addr (m_bindaddr s))) with (bind_address port s). rewrite Hb. destruct r as [e|].
  - rewrite Hw. unfold u8. specialize (He e eq_refl). rewrite Z.mod_small by lia. by rewrite (proj2 (Z.eqb_neq e 0)) by lia.
  - by rewrite Hw.
Qed.
End helper.

(** ** Witnesses *)

(** Nothing fails, but that port 0 cannot be bound. *)
#[export] Instance posix_processes : Processes posix := {|
  fork p := (true, p);
  execl_bindhelper p := (None, p);
  root_bind _ a p := if sin_port a =? 0 then (Some 98, p) else (None, p);
  waitpid p := (true, p)
|}.
Definition helper_system : posix := MkPosix {[3]} [] [] EINTR.
Definition helper_socket : Socket := MkSocket 3 sockaddr_zero (MkSockaddr 0 0x0100007F) None.

Lemma privileged_bind_witness :
  bind_socket (OS := sample_os) 80 (RegisterBindHelper (Some 0%nat) helper_socket) helper_system = (0, helper_system).
Proof.
  apply (privileged_bind 0 80 helper_socket helper_system helper_system helper_system helper_system helper_system None);
    try done; cbn; lia.
Defined.
