(* ===== verification/SslError.v ===== *)
(** * The OpenSSL error queue (sslerror.cpp) and the interface to OpenSSL

    OpenSSL is a parameter: the class [Ssl] lists the functions the code calls, on the
    state [W] of the system.  [SslError] turns the entries of the error queue into
    text; that the queue is finite is a law of OpenSSL, under which the loop of
    [GetError] ends. *)
From S2P Require Import Prelude Locking Socket.

Local Open Scope Z_scope.

Class Ssl (W : Type) : Type := {
  (** the error queue *)
  ERR_get_error : W -> Z * W;
  ERR_peek_error : W -> Z;
  ERR_error_string : Z -> W -> bytes;        (* what ERR_error_string_n writes into 256 bytes *)
  SSL_load_error_strings : W -> W;
  ERR_free_strings : W -> W;
  ERR_remove_state : W -> W;
  (** the library; the functions that give it mutexes are the class [Locks] *)
  SSL_library_init : W -> W;
  CRYPTO_EVP_cleanup : W -> W;
  ssl_locks :: Locks W;
  (** contexts; the callback for passphrases belongs to a socket *)
  SSL_CTX_new : W -> bool * W;               (* whether a context was made *)
  SSL_CTX_free : W -> W;
  SSL_CTX_use_certificate_chain_file : bytes -> W -> Z * W;
  SSL_CTX_use_PrivateKey_file : bytes -> W -> Z * W;
  SSL_CTX_set_verify_and_options : W -> W;
  SSL_CTX_set_cipher_list : bytes -> W -> Z * W;
  (** connections *)
  SSL_new : bool -> W -> option nat * W;     (* whether there is a context; a null context gives null *)
  SSL_set_fd : nat -> Z -> W -> W;
  SSL_accept : nat -> W -> Z * W;
  SSL_get_error : nat -> Z -> W -> Z;
  SSL_free : nat -> W -> W;
  SSL_read : nat -> Z -> W -> Z * bytes * W;
  SSL_write : nat -> bytes -> W -> Z * W;
  (** [PassphraseHandler], which the application implements *)
  GetPassphrase : nat -> bool -> W -> bytes * W
}.

(** What is known about the error queue: a call takes its first entry, 0 when there is
    none; entries are not 0 and fit an [int]; texts do not touch it. *)
Class SslLaws {W} (S : Ssl W) : Type := {
  err_queue : W -> list Z;
  get_error_queue w :
    (ERR_get_error w).1 = hd 0 (err_queue w) /\ err_queue (ERR_get_error w).2 = tl (err_queue w);
  peek_error_queue w : ERR_peek_error w = hd 0 (err_queue w);
  err_queue_entries w : Forall (fun e => 0 < e < 2 ^ 31) (err_queue w);
  load_strings_queue w : err_queue (SSL_load_error_strings w) = err_queue w
}.

Section ssl_error.
Context {W : Type} {S : Ssl W}.

(** [s_bMessagesLoaded], a static member, goes with the state. *)
Definition GetErrorString (irsReport : bytes) (nError : Z) (loaded : bool) (w : W) : bytes * bool * W :=
  let w := if loaded then w else SSL_load_error_strings w in
  (irsReport ++ c_str (ERR_error_string (u64 (i32 nError)) w), true, w).

(** [while (0 != (e = ERR_get_error())) GetErrorString(irsReport, e);] *)
Fixpoint drain (fuel : nat) (irsReport : bytes) (loaded : bool) (w : W) : option (bytes * bool * W) :=
  match fuel with
  | Datatypes.O => None
  | Datatypes.S n =>
      let '(e, w) := ERR_get_error w in
      if e =? 0 then Some (irsReport, loaded, w)
      else let '(irsReport, loaded, w) := GetErrorString irsReport e loaded w in drain n irsReport loaded w
  end.

(** The code of the error, the report, the flag and the system. *)
Definition GetError (fuel : nat) (irsReport : bytes) (inPeek : bool) (loaded : bool) (w : W) :
    option (Z * bytes * bool * W) :=
  let '(nError, w) := if inPeek then (ERR_peek_error w, w) else ERR_get_error w in
  if (nError =? 0) || bool_decide (irsReport = #"noreport") then Some (i32 nError, [], loaded, w)
  else
    let '(irsReport, loaded, w) := GetErrorString irsReport nError loaded w in
    if inPeek then Some (i32 nError, irsReport, loaded, w)
    else
      match drain fuel irsReport loaded w with
      | None => None
      | Some (irsReport, loaded, w) => Some (i32 nError, irsReport, loaded, w)
      end.

Definition PeekError (fuel : nat) (irsReport : bytes) (loaded : bool) (w : W) : option (Z * bytes * bool * W) :=
  GetError fuel irsReport true loaded w.

(** The destructor; [ThreadCleanup] is its second half. *)
Definition SslError_delete (loaded : bool) (w : W) : W :=
  ERR_remove_state (if loaded then ERR_free_strings w else w).
Definition ThreadCleanup (w : W) : W := ERR_remove_state w.
End ssl_error.

Section facts.
Context {W : Type} {S : Ssl W} {L : SslLaws S}.

(** The texts of a list of errors, as they are after the strings have been loaded;
    hypothesis of the section: they depend on the code only. *)
Context (text : Z -> bytes).
Hypothesis Htext : forall e w, c_str (ERR_error_string e w) = text e.

Lemma GetErrorString_spec r e loaded w :
  0 < e < 2 ^ 31 ->
  exists w', GetErrorString r e loaded w = (r ++ text e, true, w') /\ err_queue w' = err_queue w.
Proof using Htext.
  intros He. unfold GetErrorString, u64, i32, signed. rewrite (Z.mod_small e (2 ^ 32)) by lia.
  rewrite (proj2 (Z.ltb_lt e (2 ^ (32 - 1)))) by (change (2 ^ (32 - 1)) with (2 ^ 31); lia).
  rewrite Z.mod_small by lia. rewrite Htext. eexists. split; [done|]. destruct loaded; [done|apply load_strings_queue].
Qed.

Lemma drain_spec q fuel r loaded w :
  err_queue w = q -> (length q < fuel)%nat ->
  exists w' l, drain fuel r loaded w = Some (r ++ concat (text <$> q), l, w') /\ err_queue w' = [].
Proof using Htext.
  revert fuel r loaded w. induction q as [|e q IH]; intros [|fuel] r loaded w Hq Hf; cbn [length] in Hf; try lia.
  - destruct (get_error_queue w) as [H1 H2]. rewrite Hq in H1, H2. cbn [drain]. destruct (ERR_get_error w) as [x w1].
    cbn [fst snd hd tl] in *. subst x. rewrite Z.eqb_refl. cbn. rewrite app_nil_r. by do 2 eexists.
  - destruct (get_error_queue w) as [H1 H2]. pose proof (err_queue_entries w) as He. rewrite Hq in H1, H2, He.
    apply Forall_cons in He as [He _]. cbn [drain]. destruct (ERR_get_error w) as [x w1]. cbn [fst snd hd tl] in *. subst x.
    rewrite (proj2 (Z.eqb_neq e 0)) by lia. destruct (GetErrorString_spec r e loaded w1 He) as (w2 & -> & H3).
    destruct (IH fuel (r ++ text e) true w2) as (w' & l & Hd & Hw); [congruence|lia|].
    rewrite Hd. exists w', l. split; [|done]. cbn. by rewrite <- app_assoc.
Qed.

(** Reading an error always ends, takes every entry off the queue, returns the code of
    the first one and adds the texts of all of them, in order, to the report; with an
    empty queue it returns 0 and clears the report.  Peeking reports the first entry
    only and leaves the queue as it is. *)
Theorem GetError_drains fuel r loaded w :
  (length (err_queue w) < fuel)%nat -> r <> #"noreport" ->
  (exists l w', GetError fuel r false loaded w =
     Some (hd 0 (err_queue w), if decide (err_queue w = []) then [] else r ++ concat (text <$> err_queue w), l, w') /\
     err_queue w' = []) /\
  (exists l w', PeekError fuel r loaded w =
     Some (hd 0 (err_queue w), if decide (err_queue w = []) then [] else r ++ concat (text <$> take 1 (err_queue w)), l, w') /\
     err_queue w' = err_queue w).
Proof using Htext.
  intros Hf Hr. unfold PeekError, GetError. destruct (get_error_queue w) as [H1 H2]. rewrite peek_error_queue.
  destruct (ERR_get_error w) as [x w1]. cbn [fst snd] in *. subst x. pose proof (err_queue_entries w) as He.
  destruct (err_queue w) as [|e q] eqn:Hq; cbn [hd tl length] in *.
  - rewrite Z.eqb_refl. split; do 2 eexists; done.
  - apply Forall_cons in He as [He _]. rewrite (proj2 (Z.eqb_neq e 0)), bool_decide_eq_false_2 by (done || lia).
    cbn [orb]. rewrite decide_False by done.
    assert (i32 e = e) as ->.
    { unfold i32, signed. rewrite (Z.mod_small e) by lia.
      by rewrite (proj2 (Z.ltb_lt e (2 ^ (32 - 1)))) by (change (2 ^ (32 - 1)) with (2 ^ 31); lia). }
    split.
    + destruct (GetErrorString_spec r e loaded w1 He) as (w2 & -> & Hw2).
      destruct (drain_spec q fuel (r ++ text e) true w2) as (w3 & l & -> & Hw3); [congruence|lia|].
      do 2 eexists. split; [|exact Hw3]. cbn. by rewrite <- app_assoc.
    + destruct (GetErrorString_spec r e loaded w He) as (w2 & -> & Hw2). do 2 eexists.
      split; [cbn; by rewrite app_nil_r|congruence].
Qed.
End facts.

(** ** A concrete OpenSSL for examples

    On top of the system of descriptors: the error queue, the number of contexts in use,
    whether certificates can be loaded, and the results of [SSL_accept]. *)
Record tls : Type := MkTls {
  tl_os : posix;
  tl_errors : list positive;
  tl_contexts : Z;
  tl_certificates : bool;
  tl_handshakes : list Z
}.
#[export] Instance eta_tls : Eta tls := fun t =>
  MkTls (tl_os t) (tl_errors t) (tl_contexts t) (tl_certificates t) (tl_handshakes t).

(** A call of the system below. *)
Definition on_os {A} (f : posix -> A * posix) (t : tls) : A * tls :=
  let '(a, p) := f (tl_os t) in (a, t <| tl_os := p |>).

#[export] Instance tls_os : Os tls := {|
  os_errno t := os_errno (tl_os t);
  os_strerror := os_strerror;
  os_socket := on_os os_socket;
  os_nonblocking fd t := t <| tl_os ::= os_nonblocking fd |>;
  os_reuseaddr fd t := t <| tl_os ::= os_reuseaddr fd |>;
  os_bind fd a := on_os (os_bind fd a);
  os_listen fd n := on_os (os_listen fd n);
  os_accept fd a := on_os (os_accept fd a);
  os_getsockname fd a := on_os (os_getsockname fd a);
  os_recv fd n := on_os (os_recv fd n);
  os_send fd d f := on_os (os_send fd d f);
  os_close fd t := t <| tl_os ::= os_close fd |>;
  inet_addr := inet_addr;
  inet_ntoa := inet_ntoa;
  BindPrivilegedPort h fd a p := on_os (BindPrivilegedPort h fd a p)
|}.

Definition tls_code (e : positive) : Z := 1 + Zpos e `mod` 1000.
Definition tls_error (e : Z) : bytes := #"e" ++ print_Z e ++ #";".

#[export] Instance tls_locks : Locks tls := {|
  pthread_mutex_init t := (true, t);
  pthread_mutex_destroy t := (true, t);
  CRYPTO_num_locks := 2%nat;
  CRYPTO_set_id_callback _ t := t;
  CRYPTO_set_locking_callback _ t := t;
  CRYPTO_set_dynlock_create_callback _ t := t;
  CRYPTO_set_dynlock_lock_callback _ t := t;
  CRYPTO_set_dynlock_destroy_callback _ t := t
|}.

#[export] Instance tls_ssl : Ssl tls := {|
  ERR_get_error t := (hd 0 (tls_code <$> tl_errors t), t <| tl_errors ::= tl |>);
  ERR_peek_error t := hd 0 (tls_code <$> tl_errors t);
  ERR_error_string e _ := tls_error e;
  SSL_load_error_strings t := t;
  ERR_free_strings t := t;
  ERR_remove_state t := t;
  SSL_library_init t := t;
  CRYPTO_EVP_cleanup t := t;
  ssl_locks := tls_locks;
  SSL_CTX_new t := (true, t <| tl_contexts ::= Z.succ |>);
  SSL_CTX_free t := t <| tl_contexts ::= Z.pred |>;
  SSL_CTX_use_certificate_chain_file _ t := (if tl_certificates t then 1 else 0, t);
  SSL_CTX_use_PrivateKey_file _ t := (1, t);
  SSL_CTX_set_verify_and_options t := t;
  SSL_CTX_set_cipher_list _ t := (1, t);
  SSL_new ctx t := (if ctx then Some 0%nat else None, t);
  SSL_set_fd _ _ t := t;
  SSL_accept _ t := (hd 1 (tl_handshakes t), t <| tl_handshakes ::= tl |>);
  SSL_get_error _ r _ := r;
  SSL_free _ t := t;
  SSL_read _ n := on_os (os_recv 0 n);
  SSL_write _ d := on_os (os_send 0 d 0);
  GetPassphrase _ _ t := (#"secret", t)
|}.

#[export] Instance tls_laws : SslLaws tls_ssl.
Proof.
  refine {| err_queue t := tls_code <$> tl_errors t |}; try done.
  - intros [o [|e l] c b h]; done.
  - intros t. apply Forall_fmap, Forall_true. intros e. unfold tls_code. cbn.
    pose proof (Z.mod_pos_bound (Zpos e) 1000 ltac:(lia)). lia.
Defined.

Lemma GetError_drains_witness :
  let t := MkTls (MkPosix ∅ [] [] EINTR) [4%positive; 7%positive] 0 true [] in
  (length (err_queue t) < 5)%nat /\ #"" <> #"noreport" /\
  (exists l w', GetError 5 #"" false false t = Some (5, #"e5;e8;", l, w') /\ err_queue w' = []).
Proof.
  intros t. split; [vm_compute; lia|]. split; [done|].
  exact (proj1 (GetError_drains (fun e => c_str (tls_error e)) (fun _ _ => eq_refl) 5 #"" false t
    ltac:(vm_compute; lia) ltac:(done))).
Defined.
