(* ===== verification/SecureSocket.v ===== *)
(** * TLS sockets (securesocket.cpp, securesocket.h)

    [SecureSocket] adds OpenSSL to [Socket].  All the objects of the class share static
    members: a count of the objects, and pointers to the context, the error object and the
    mutex tables that the first [Init] makes and the last destructor deletes.  A pointer
    is null, points to a live object, or dangles: the destructor does not clear it.  Using
    a dangling pointer is [Undefined].  The class mutex is not modelled. *)
From S2P Require Import Prelude Locking Socket SslError.

Local Open Scope Z_scope.

Inductive static_ptr : Type :=
| Null
| Live
| Dangling.
#[export] Instance static_ptr_eq_dec : EqDecision static_ptr.
Proof. solve_decision. Defined.

Record statics : Type := MkStatics {
  s_refcount : Z;
  s_pDynamicSslLocking : static_ptr;
  s_pStaticSslLocking : static_ptr;
  s_pSslError : static_ptr;
  s_pSslCtx : static_ptr;
  s_bMessagesLoaded : bool;            (* of [SslError] *)
  poMutexes : option (list mutex)      (* of [StaticSslLocking] *)
}.
#[export] Instance eta_statics : Eta statics := fun s =>
  MkStatics (s_refcount s) (s_pDynamicSslLocking s) (s_pStaticSslLocking s) (s_pSslError s) (s_pSslCtx s)
    (s_bMessagesLoaded s) (poMutexes s).

Definition statics_initial : statics := MkStatics 0 Null Null Null Null false None.

Record SecureSocket : Type := MkSecureSocket {
  ss_base : Socket;
  m_pSsl : option nat;
  m_sCertFile : bytes;
  m_poPassphraseHandler : option nat
}.
#[export] Instance eta_SecureSocket : Eta SecureSocket := fun s =>
  MkSecureSocket (ss_base s) (m_pSsl s) (m_sCertFile s) (m_poPassphraseHandler s).

Definition SSL_ERROR_WANT_READ : Z := 2.
Definition SSL_ERROR_WANT_WRITE : Z := 3.
Definition SSL_ERROR_SYSCALL : Z := 5.
Definition SSL_ERROR_WANT_ACCEPT : Z := 8.

Section secure_socket.
Context {W : Type} {OS : Os W} {S : Ssl W}.

(** ** Construction and destruction *)
Definition SecureSocket_new (certfile : bytes) (handler : option nat) (st : statics) : SecureSocket * statics :=
  (MkSecureSocket Socket_new None certfile handler, st <| s_refcount ::= Z.succ |>).
Definition SecureSocket_connected (ssl : nat) (fd : Z) (peer : sockaddr_in) (st : statics) (w : W) :
    SecureSocket * statics * W :=
  let '(base, w) := Socket_connected fd peer w in
  (MkSecureSocket base (Some ssl) [] None, st <| s_refcount ::= Z.succ |>, w).

Definition ss_Close (s : SecureSocket) (w : W) : W := Close (ss_base s) w.

(** Deleting what a static pointer points to. *)
Definition release (p : static_ptr) (delete : W -> W) (w : W) : res static_ptr * W :=
  match p with
  | Null => (Ret Null, w)
  | Live => (Ret Dangling, delete w)
  | Dangling => (Throw (Undefined #"double free"), w)
  end.

Definition release_statics (st : statics) (w : W) : res statics * W :=
  match release (s_pSslCtx st) SSL_CTX_free w with
  | (Throw e, w) => (Throw e, w)
  | (Ret ctx, w) =>
      match release (s_pSslError st) (SslError_delete (s_bMessagesLoaded st)) w with
      | (Throw e, w) => (Throw e, w)
      | (Ret err, w) =>
          let w := CRYPTO_EVP_cleanup w in
          match release (s_pStaticSslLocking st) (fun w => (StaticSslLocking_delete w).2) w with
          | (Throw e, w) => (Throw e, w)
          | (Ret sl, w) =>
              let mutexes := if decide (s_pStaticSslLocking st = Live) then None else poMutexes st in
              match release (s_pDynamicSslLocking st) DynamicSslLocking_delete w with
              | (Throw e, w) => (Throw e, w)
              | (Ret dl, w) =>
                  (Ret (MkStatics (s_refcount st) dl sl err ctx (s_bMessagesLoaded st) mutexes), w)
              end
          end
      end
  end.

(** The destructor, with the destructor of the base class, which closes again. *)
Definition SecureSocket_delete (s : SecureSocket) (st : statics) (w : W) : res statics * W :=
  let w := ss_Close s w in
  let w := match m_pSsl s with Some ssl => SSL_free ssl w | None => w end in
  let st := st <| s_refcount ::= Z.pred |> in
  match (if s_refcount st =? 0 then release_statics st w else (Ret st, w)) with
  | (Ret st, w) => (Ret st, Socket_delete (ss_base s) w)
  | (Throw e, w) => (Throw e, w)
  end.

Definition ss_ThreadCleanup (st : statics) (w : W) : res unit * W :=
  match s_pSslError st with
  | Null => (Ret tt, w)
  | Live => (Ret tt, ThreadCleanup w)
  | Dangling => (Throw (Undefined #"s_pSslError"), w)
  end.

(** ** Errors *)

(** [s_pSslError->GetError(sError)], the cleaning up, and
    [throw runtime_error(sError.insert(0, prefix))] (the text around [sError] is given by
    [message]). *)
Definition throw_ssl_error {A} (fuel : nat) (message : bytes -> bytes) (cleanup : W -> W) (st : statics) (w : W) :
    option (res A * statics * W) :=
  match s_pSslError st with
  | Live =>
      match GetError fuel [] false (s_bMessagesLoaded st) w with
      | None => None
      | Some (_, sError, loaded, w) =>
          Some (Throw (Runtime_error (message sError)), st <| s_bMessagesLoaded := loaded |>, cleanup w)
      end
  | _ => Some (Throw (Undefined #"s_pSslError"), st, w)
  end.

(** ** Initialization *)
Definition CIPHER_LIST : bytes := #"ALL:!ADH:!LOW:!EXP:!MD5:@STRENGTH".

(** The result tells whether the context that is returned exists; without a certificate the
    context that has been made is lost. *)
Definition InitializeCertificates (fuel : nat) (s : SecureSocket) (st : statics) (w : W) :
    option (res unit * statics * W) :=
  let '(made, w) := SSL_CTX_new w in
  if negb made then throw_ssl_error fuel (app #"Could not initialize SSL: ") id st w
  else if bool_decide (m_sCertFile s = []) then Some (Throw (Runtime_error #"No certificate specified."), st, w)
  else
    let '(r, w) := SSL_CTX_use_certificate_chain_file (c_str (m_sCertFile s)) w in
    if negb (r =? 1) then throw_ssl_error fuel (app #"Error while loading certificate: ") SSL_CTX_free st w
    else
      let '(r, w) := SSL_CTX_use_PrivateKey_file (c_str (m_sCertFile s)) w in
      if negb (r =? 1) then throw_ssl_error fuel (app #"Error while loading private key: ") SSL_CTX_free st w
      else
        let w := SSL_CTX_set_verify_and_options w in
        let '(r, w) := SSL_CTX_set_cipher_list CIPHER_LIST w in
        if negb (r =? 1) then throw_ssl_error fuel (app #"Error while setting cipher list: ") SSL_CTX_free st w
        else Some (Ret tt, st, w).

(** The mutex tables, made when there are none. *)
Definition init_locking (st : statics) (w : W) : res unit * statics * W :=
  let '(st, w) :=
    if decide (s_pDynamicSslLocking st = Null) then (st <| s_pDynamicSslLocking := Live |>, DynamicSslLocking_new w)
    else (st, w) in
  if decide (s_pStaticSslLocking st = Null) then
    match StaticSslLocking_new w with
    | (Ret _, tbl, w) => (Ret tt, st <| poMutexes := Some tbl |> <| s_pStaticSslLocking := Live |>, w)
    | (Throw e, tbl, w) => (Throw e, st <| poMutexes := Some tbl |>, w)
    end
  else (Ret tt, st, w).

(** The context, made when there is none. *)
Definition init_context (fuel : nat) (s : SecureSocket) (st : statics) (w : W) : option (res unit * statics * W) :=
  match s_pSslCtx st with
  | Null =>
      match InitializeCertificates fuel s st w with
      | None => None
      | Some (Throw e, st, w) => Some (Throw e, st, w)
      | Some (Ret _, st, w) => Some (Ret tt, st <| s_pSslCtx := Live |>, w)
      end
  | _ => Some (Ret tt, st, w)
  end.

Definition init_statics (fuel : nat) (s : SecureSocket) (st : statics) (w : W) : option (res unit * statics * W) :=
  match init_locking st (SSL_library_init w) with
  | (Throw e, st, w) => Some (Throw e, st, w)
  | (Ret _, st, w) =>
      let st := if decide (s_pSslError st = Null) then st <| s_pSslError := Live |> else st in
      init_context fuel s st w
  end.

Definition ss_Init (fuel : nat) (port : Z) (s : SecureSocket) (st : statics) (w : W) :
    option (res unit * SecureSocket * statics * W) :=
  match init_statics fuel s st w with
  | None => None
  | Some (Throw e, st, w) => Some (Throw e, s, st, w)
  | Some (Ret _, st, w) =>
      let '(r, base, w) := Init port (ss_base s) w in Some (r, s <| ss_base := base |>, st, w)
  end.

(** ** Connections *)

(** Whether a failed call of OpenSSL is repeated. *)
Definition ssl_transient (accepting : bool) (ssl : nat) (ret : Z) (w : W) : bool :=
  let sslerr := SSL_get_error ssl ret w in
  (sslerr =? SSL_ERROR_WANT_READ) || (sslerr =? SSL_ERROR_WANT_WRITE) ||
  accepting && (sslerr =? SSL_ERROR_WANT_ACCEPT) ||
  (sslerr =? SSL_ERROR_SYSCALL) && transient (os_errno w).

(** The loop of the handshake; [None] is a handshake that does not end. *)
Definition handshake (fuel : nat) (ssl : nat) (w : W) : option (Z * W) :=
  retry fuel (fun ret w => negb (ret =? 1) && ssl_transient true ssl ret w) (SSL_accept ssl) w.

Definition handshake_message (ssl : nat) (ret : Z) (peer : bytes) (w : W) (sError : bytes) : bytes :=
  let sslerr := SSL_get_error ssl ret w in
  #"Error during SSL handshake: " ++ sError ++
  (if sslerr =? SSL_ERROR_SYSCALL then #" (syscall:" ++ os_strerror (os_errno w)
   else #" (SSL_err:" ++ print_Z sslerr) ++ #") from " ++ peer.

Definition ss_Accept (fuel : nat) (s : SecureSocket) (st : statics) (w : W) :
    option (res SecureSocket * SecureSocket * statics * W) :=
  let with_socket base x :=
    let '(r, st, w) := (x : res SecureSocket * statics * W) in (r, s <| ss_base := base |>, st, w) in
  match accept_loop fuel (ss_base s) w with
  | None => None
  | Some (fd, base, w) =>
      if fd =? INVALID_SOCKET then
        Some (Throw (Runtime_error (#"accept: " ++ net_strerror w)), s <| ss_base := base |>, st, w)
      else if decide (s_pSslCtx st = Dangling) then
        Some (Throw (Undefined #"s_pSslCtx"), s <| ss_base := base |>, st, w)
      else
        match SSL_new (bool_decide (s_pSslCtx st = Live)) w with
        | (None, w) =>
            with_socket base <$>
              throw_ssl_error fuel (app #"Error while creating SSL session context: ") (os_close fd) st w
        | (Some ssl, w) =>
            match handshake fuel ssl (SSL_set_fd ssl fd w) with
            | None => None
            | Some (ret, w) =>
                if ret =? 1 then
                  let '(c, st, w) := SecureSocket_connected ssl fd (m_peer base) st w in
                  Some (Ret c, s <| ss_base := base |>, st, w)
                else
                  with_socket base <$>
                    throw_ssl_error fuel (handshake_message ssl ret (GetPeer base) w)
                      (fun w => os_close fd (SSL_free ssl w)) st w
            end
        end
  end.

(** Reading and sending; [ssl] is the connection of an accepted socket. *)
Definition ss_Read (fuel : nat) (ssl : nat) (bufsize : Z) (w : W) : option (Z * bytes * W) :=
  if 0 <? bufsize then
    retry fuel (fun a w => (a.1 <=? 0) && ssl_transient false ssl a.1 w) (SSL_read ssl bufsize) w
  else Some (0, [], w).

Definition ss_Send (fuel : nat) (ssl : nat) (buf : bytes) (w : W) : option (Z * W) :=
  if bool_decide (buf = []) then Some (0, w)
  else retry fuel (fun a w => (a <=? 0) && ssl_transient false ssl a w) (SSL_write ssl buf) w.

(** ** The passphrase *)

(** [strncpy(buf, s, n)]: at most [n] characters, filled up with zeros. *)
Definition strncpy (n : nat) (s mem : bytes) : bytes :=
  let copied := take n (c_str s) in
  copied ++ replicate (n - length copied) NUL ++ drop n mem.

(** [mem] is the memory from [buf] on, of which the first [bufsize] bytes are the buffer.
    The result is the length reported to OpenSSL and the memory. *)
Definition PassphraseCallback (bufsize rwflag : Z) (s : SecureSocket) (mem : bytes) (w : W) : Z * bytes * W :=
  match m_poPassphraseHandler s with
  | None => (0, mem, w)
  | Some handler =>
      let '(passphrase, w) := GetPassphrase handler (rwflag =? 1) w in
      let ret := i32 (Z.of_nat (length passphrase)) in
      if 0 <? ret then
        let ret := if bufsize - 1 <? ret then bufsize - 1 else ret in
        (ret, <[Z.to_nat (ret + 1) := NUL]> (strncpy (Z.to_nat ret) passphrase mem), w)
      else (ret, mem, w)
  end.
End secure_socket.
