(* ===== verification/SecureSocketFacts.v ===== *)
(** * TLS sockets: descriptors, the life of the static members, the passphrase

    A handshake that fails gives its descriptor back.  While at least one object of the
    class exists, the static members are never used after they have been deleted; once the
    last one is gone, a new one uses the deleted context.  The passphrase callback
    writes one byte behind the buffer for a passphrase that fills it. *)
From S2P Require Import Prelude Datum Locking Socket SocketFacts SocketOwners SslError SecureSocket.

Local Open Scope Z_scope.

(** What the class relies on: the functions of OpenSSL open and close no descriptors, there
    is no connection without a context, and nothing can be accepted on the descriptor -1. *)
Class TlsLaws {W} {OS : Os W} (L : OsLaws OS) (S : Ssl W) : Prop := {
  get_error_keeps w : open_fds (ERR_get_error w).2 = open_fds w;
  load_strings_keeps w : open_fds (SSL_load_error_strings w) = open_fds w;
  ssl_new_keeps b w : open_fds (SSL_new b w).2 = open_fds w;
  set_fd_keeps s fd w : open_fds (SSL_set_fd s fd w) = open_fds w;
  ssl_accept_keeps s w : open_fds (SSL_accept s w).2 = open_fds w;
  ssl_free_keeps s w : open_fds (SSL_free s w) = open_fds w;
  ssl_new_null w : (SSL_new false w).1 = None;
  accept_invalid a w : (os_accept INVALID_SOCKET a w).1.1 = INVALID_SOCKET
}.

Section facts.
Context {W : Type} {OS : Os W} {L : OsLaws OS} {S : Ssl W} {T : TlsLaws L S}.

(** ** Descriptors *)
Lemma GetErrorString_keeps r e l w : open_fds (GetErrorString r e l w).2 = open_fds w.
Proof using T. unfold GetErrorString. destruct l; [done|apply load_strings_keeps]. Qed.

Lemma drain_keeps fuel r l w x : drain fuel r l w = Some x -> open_fds x.2 = open_fds w.
Proof using T.
  revert r l w. induction fuel as [|fuel IH]; intros r l w; [done|]. cbn [drain].
  pose proof (get_error_keeps w) as Hg. destruct (ERR_get_error w) as [e w1]. cbn [snd] in Hg. rewrite <- Hg.
  destruct (e =? 0); [by intros [= <-]|]. pose proof (GetErrorString_keeps r e l w1) as Hs.
  destruct (GetErrorString r e l w1) as [[r1 l1] w2]. cbn [snd] in Hs. rewrite <- Hs. apply IH.
Qed.

Lemma GetError_keeps fuel r l w x : GetError fuel r false l w = Some x -> open_fds x.2 = open_fds w.
Proof using T.
  unfold GetError. pose proof (get_error_keeps w) as Hg. destruct (ERR_get_error w) as [e w1]. cbn [snd] in Hg.
  rewrite <- Hg. destruct (_ || _); [by intros [= <-]|]. pose proof (GetErrorString_keeps r e l w1) as Hs.
  destruct (GetErrorString r e l w1) as [[r1 l1] w2]. cbn [snd] in Hs. rewrite <- Hs.
  destruct (drain fuel r1 l1 w2) as [[[r2 l2] w3]|] eqn:E; [|done]. intros [= <-]. by apply drain_keeps in E.
Qed.

(** An error that OpenSSL reports becomes an exception of the library, after the cleaning up. *)
Lemma throw_ssl_error_spec {A} fuel message cleanup st w (r : res A) st' w' :
  s_pSslError st = Live -> throw_ssl_error fuel message cleanup st w = Some (r, st', w') ->
  exists what w1 l, r = Throw (Runtime_error what) /\ st' = st <| s_bMessagesLoaded := l |> /\
    w' = cleanup w1 /\ open_fds w1 = open_fds w.
Proof using T.
  intros Hl. unfold throw_ssl_error. rewrite Hl.
  destruct (GetError _ _ _ _ _) as [[[[n e] l] w1]|] eqn:E; [|done]. intros [= <- <- <-].
  apply GetError_keeps in E. by do 3 eexists.
Qed.

Lemma Socket_connected_keeps fd peer w :
  m_fd (Socket_connected fd peer w).1 = fd /\ open_fds (Socket_connected fd peer w).2 = open_fds w.
Proof using.
  unfold Socket_connected. pose proof (getsockname_keeps fd sockaddr_zero w) as Hg. by destruct (os_getsockname _ _ _).
Qed.

(** The outcome of [Accept]. *)
Definition accepted (before : statics) (w : W) (s : SecureSocket) (x : res SecureSocket * SecureSocket * statics * W) : Prop :=
  let '(r, s', st', w') := x in
  m_fd (ss_base s') = m_fd (ss_base s) /\ (exists l, st' <| s_bMessagesLoaded := l |> =
    (before <| s_refcount ::= fun n => n + if r is Ret _ then 1 else 0 |>) <| s_bMessagesLoaded := l |>) /\
  match r with
  | Ret c => m_fd (ss_base s) <> INVALID_SOCKET /\ m_fd (ss_base c) <> INVALID_SOCKET /\
             opens (open_fds w) (open_fds w') (m_fd (ss_base c))
  | Throw e => (forall what, e <> Undefined what) /\ open_fds w' = open_fds w
  end.

Lemma accept_loop_invalid fuel s w fd s' w' :
  m_fd s = INVALID_SOCKET -> accept_loop fuel s w = Some (fd, s', w') -> fd = INVALID_SOCKET.
Proof using T.
  revert s w. induction fuel as [|fuel IH]; intros s w Hs; [done|]. cbn [accept_loop]. rewrite Hs.
  pose proof (accept_invalid (m_peer s) w) as Ha. destruct (os_accept _ _ _) as [[k peer] w1]. cbn [fst] in Ha. subst k.
  destruct (_ && _); [|by intros [= <- <- <-]]. apply IH. by destruct s.
Qed.

Lemma handshake_keeps fuel ssl w ret w' : handshake fuel ssl w = Some (ret, w') -> open_fds w' = open_fds w.
Proof using T. apply retry_keeps. intros w0. apply ssl_accept_keeps. Qed.

(** What a failed [SSL_new] or handshake leaves: the descriptor is closed. *)
Lemma gives_back fd o w1 w2 : opens o (open_fds w1) fd -> fd <> INVALID_SOCKET -> open_fds w2 = open_fds w1 ->
  open_fds (os_close fd w2) = o.
Proof using T. intros [[-> _]|(_ & Hn & Ho)] Hfd Hw; [done|]. rewrite close_closes, Hw, Ho. set_solver. Qed.

Definition needs_context (st : statics) (s : SecureSocket) : Prop :=
  m_fd (ss_base s) <> INVALID_SOCKET -> s_pSslCtx st = Live /\ s_pSslError st = Live.

Lemma ss_Accept_spec fuel s st w x : needs_context st s -> ss_Accept fuel s st w = Some x -> accepted st w s x.
Proof using T.
  intros Hn. unfold ss_Accept. destruct (accept_loop fuel (ss_base s) w) as [[[fd base] w1]|] eqn:E; [|done].
  destruct (accept_loop_opens _ _ _ _ _ _ E) as [Ho Hb]. destruct (Z.eqb_spec fd INVALID_SOCKET) as [->|Hfd].
  { intros [= <-]. split_and!; [done| |done|]; [exists (s_bMessagesLoaded st); destruct st; cbn; by rewrite Z.add_0_r|].
    destruct Ho as [[_ ->]|[Hp _]]; [done|by unfold INVALID_SOCKET in Hp]. }
  assert (m_fd (ss_base s) <> INVALID_SOCKET) as Hs by (intros Hs; by rewrite (accept_loop_invalid _ _ _ _ _ _ Hs E) in Hfd).
  destruct (Hn Hs) as [Hc He]. rewrite decide_False by congruence. rewrite bool_decide_eq_true_2 by done.
  pose proof (ssl_new_keeps true w1) as Hnew. destruct (SSL_new true w1) as [[ssl|] w2]; cbn [snd] in Hnew.
  - destruct (handshake fuel ssl (SSL_set_fd ssl fd w2)) as [[ret w3]|] eqn:Eh; [|done].
    apply handshake_keeps in Eh. rewrite set_fd_keeps, Hnew in Eh. destruct (ret =? 1).
    + unfold SecureSocket_connected. destruct (Socket_connected_keeps fd (m_peer base) w3) as [H1 H2].
      destruct (Socket_connected fd (m_peer base) w3) as [c w4]. cbn [fst snd] in H1, H2. intros [= <-].
      split_and!; [done|by exists (s_bMessagesLoaded st)|done|cbn; congruence|].
      cbn [ss_base]. by rewrite H1, H2, Eh.
    + destruct (throw_ssl_error _ _ _ st w3) as [[[r st'] w4]|] eqn:Et; [|done]. intros [= <-].
      destruct (throw_ssl_error_spec _ _ _ _ _ _ _ _ He Et) as (what & w5 & l & -> & -> & -> & Ho').
      split_and!; [done|exists l; destruct st; cbn; by rewrite Z.add_0_r|done|].
      eapply gives_back; [exact Ho|done|]. by rewrite ssl_free_keeps, Ho', Eh.
  - destruct (throw_ssl_error _ _ _ st w2) as [[[r st'] w4]|] eqn:Et; [|done]. intros [= <-].
    destruct (throw_ssl_error_spec _ _ _ _ _ _ _ _ He Et) as (what & w5 & l & -> & -> & -> & Ho').
    split_and!; [done|exists l; destruct st; cbn; by rewrite Z.add_0_r|done|].
    eapply gives_back; [exact Ho|done|]. by rewrite Ho', Hnew.
Qed.

(** A connection that is accepted gets a descriptor of its own and is counted; if
    [accept], [SSL_new] or the handshake fails, an exception is thrown, and the
    descriptor of the connection has been closed.  The context is needed only if the
    socket has been initialized. *)
Theorem ss_Accept_descriptors fuel s st w r s' st' w' :
  needs_context st s -> ss_Accept fuel s st w = Some (r, s', st', w') ->
  match r with
  | Ret c => opens (open_fds w) (open_fds w') (m_fd (ss_base c)) /\ m_fd (ss_base c) <> INVALID_SOCKET /\
             s_refcount st' = s_refcount st + 1
  | Throw e => open_fds w' = open_fds w /\ s_refcount st' = s_refcount st /\ (forall what, e <> Undefined what)
  end.
Proof using T.
  intros Hn Ha. destruct (ss_Accept_spec _ _ _ _ _ Hn Ha) as (_ & (l & Hst) & Hr).
  assert (s_refcount st' = s_refcount st + if r is Ret _ then 1 else 0) as Hc
    by (apply (f_equal s_refcount) in Hst; by destruct st, st').
  destruct r; [tauto|]. rewrite Z.add_0_r in Hc. tauto.
Qed.

(** ** The life of the static members *)

(** The objects of the class, the static members and the system.  The last object is not
    deleted by these steps. *)
Abbreviation tls_world := (list SecureSocket * statics * W)%type.

Inductive tls_step : tls_world -> tls_world -> Prop :=
| ts_new l st w cert h :
    tls_step (l, st, w) ((SecureSocket_new cert h st).1 :: l, (SecureSocket_new cert h st).2, w)
| ts_init l1 s l2 st w fuel port r s' st' w' :
    ss_Init fuel port s st w = Some (r, s', st', w') ->
    tls_step (l1 ++ s :: l2, st, w) (l1 ++ s' :: l2, st', w')
| ts_accept l1 s l2 st w fuel c s' st' w' :
    ss_Accept fuel s st w = Some (Ret c, s', st', w') ->
    tls_step (l1 ++ s :: l2, st, w) (c :: l1 ++ s' :: l2, st', w')
| ts_accept_throws l1 s l2 st w fuel e s' st' w' :
    ss_Accept fuel s st w = Some (Throw e, s', st', w') ->
    tls_step (l1 ++ s :: l2, st, w) (l1 ++ s' :: l2, st', w')
| ts_delete l1 s l2 st w st' w' :
    l1 ++ l2 <> [] -> SecureSocket_delete s st w = (Ret st', w') ->
    tls_step (l1 ++ s :: l2, st, w) (l1 ++ l2, st', w')
| ts_system l st w w' : tls_step (l, st, w) (l, st, w').

(** No pointer dangles, the context exists only with the error object, and whoever has a
    descriptor has a context. *)
Record statics_ok (st : statics) : Prop := {
  ok_dynamic : s_pDynamicSslLocking st <> Dangling;
  ok_static : s_pStaticSslLocking st <> Dangling;
  ok_error : s_pSslError st <> Dangling;
  ok_context : s_pSslCtx st = Null \/ s_pSslCtx st = Live /\ s_pSslError st = Live
}.

Definition tls_ok (x : tls_world) : Prop :=
  let '(l, st, _) := x in
  statics_ok st /\ s_refcount st = Z.of_nat (length l) /\ Forall (needs_context st) l.

(** Static members that have only come into being. *)
Definition grown (st st' : statics) : Prop :=
  s_refcount st' = s_refcount st /\ (s_pSslCtx st = Live -> s_pSslCtx st' = Live) /\
  (s_pSslError st = Live -> s_pSslError st' = Live).

Lemma needs_grown st st' s : grown st st' -> needs_context st s -> needs_context st' s.
Proof using. intros (_ & Hc & He) Hn Hs. destruct (Hn Hs). auto. Qed.

Lemma init_locking_spec st (w : W) :
  statics_ok st ->
  let '(r, st', _) := init_locking st w in
  statics_ok st' /\ s_refcount st' = s_refcount st /\ s_pSslCtx st' = s_pSslCtx st /\ s_pSslError st' = s_pSslError st /\
  (forall what, r <> Throw (Undefined what)).
Proof using.
  intros Hok. unfold init_locking.
  set (x := if decide (s_pDynamicSslLocking st = Null) then _ else _).
  assert (statics_ok x.1 /\ s_refcount x.1 = s_refcount st /\ s_pSslCtx x.1 = s_pSslCtx st /\ s_pSslError x.1 = s_pSslError st)
    as (Hok1 & H1 & H2 & H3) by (unfold x; case_decide; [by destruct Hok|done]).
  destruct x as [st1 w1]. cbn [fst] in *. case_decide; [|done].
  unfold StaticSslLocking_new. pose proof (init_mutexes_spec (replicate (CRYPTO_num_locks (W := W)) Raw) w1) as Hm.
  destruct (init_mutexes _ w1) as [[[[]|e] tbl] w2]; (split; [by destruct Hok1|]); split_and!; try done.
  destruct Hm as [_ [what ->]]. done.
Qed.

Lemma InitializeCertificates_spec fuel s st w r st' w' :
  s_pSslError st = Live -> InitializeCertificates fuel s st w = Some (r, st', w') ->
  (forall what, r <> Throw (Undefined what)) /\ exists l, st' = st <| s_bMessagesLoaded := l |>.
Proof using T.
  intros Hl. unfold InitializeCertificates.
  assert (forall message cleanup w1, throw_ssl_error (A := unit) fuel message cleanup st w1 = Some (r, st', w') ->
    (forall what, r <> Throw (Undefined what)) /\ exists l, st' = st <| s_bMessagesLoaded := l |>) as Ht.
  { intros message cleanup w1 E. destruct (throw_ssl_error_spec _ _ _ _ _ _ _ _ Hl E) as (? & ? & l & -> & -> & _).
    split; [done|by exists l]. }
  assert (st = st <| s_bMessagesLoaded := s_bMessagesLoaded st |>) as Hst by by destruct st.
  destruct (SSL_CTX_new w) as [[] w1]; cbn [negb]; [|apply Ht].
  case_bool_decide; [intros [= <- <- <-]; split; [done|by eexists]|].
  destruct (SSL_CTX_use_certificate_chain_file _ _) as [r1 w2]. destruct (negb (r1 =? 1)); [apply Ht|].
  destruct (SSL_CTX_use_PrivateKey_file _ _) as [r2 w3]. destruct (negb (r2 =? 1)); [apply Ht|].
  destruct (SSL_CTX_set_cipher_list _ _) as [r3 w4]. destruct (negb (r3 =? 1)); [apply Ht|].
  intros [= <- <- <-]. split; [done|by eexists].
Qed.

Lemma init_context_spec fuel s st w r st' w' :
  statics_ok st -> s_pSslError st = Live -> init_context fuel s st w = Some (r, st', w') ->
  statics_ok st' /\ grown st st' /\ (forall what, r <> Throw (Undefined what)) /\ (r = Ret tt -> s_pSslCtx st' = Live /\ s_pSslError st' = Live).
Proof using T.
  intros Hok Hl. unfold init_context. destruct (s_pSslCtx st) eqn:Ec; cycle 1.
  - intros [= <- <- <-]. split_and!; done.
  - by destruct (ok_context _ Hok) as [|[? _]]; rewrite Ec in *.
  - destruct (InitializeCertificates fuel s st w) as [[[r1 st1] w1]|] eqn:E; [|done].
    destruct (InitializeCertificates_spec _ _ _ _ _ _ _ Hl E) as [Hr [l ->]]. destruct Hok as [H1 H2 H3 H4].
    destruct r1 as [[]|e]; intros [= <- <- <-]; (split; [constructor; cbn; auto|]); split_and!; done.
Qed.

Lemma init_statics_spec fuel s st w r st' w' :
  statics_ok st -> init_statics fuel s st w = Some (r, st', w') ->
  statics_ok st' /\ grown st st' /\ (forall what, r <> Throw (Undefined what)) /\
  (r = Ret tt -> s_pSslCtx st' = Live /\ s_pSslError st' = Live).
Proof using T.
  intros Hok. unfold init_statics. pose proof (init_locking_spec st (SSL_library_init w) Hok) as Hlock.
  destruct (init_locking st _) as [[[[]|e] st2] w2]; destruct Hlock as (Hok2 & G1 & G2 & G3 & Hu);
    [|intros [= <- <- <-]; split_and!; [done|unfold grown; rewrite G1, G2, G3; done|done|done]].
  set (st3 := if decide (s_pSslError st2 = Null) then st2 <| s_pSslError := Live |> else st2).
  assert (statics_ok st3 /\ grown st st3 /\ s_pSslError st3 = Live) as (Hok3 & Hg3 & He3).
  { unfold st3, grown. rewrite <- G1, <- G2, <- G3. destruct Hok2 as [K1 K2 K3 K4]. case_decide as He.
    - split; [constructor; cbn; [congruence..|]|done]. destruct K4 as [|[? ?]]; [by left|congruence].
    - split; [by constructor|]. by destruct (s_pSslError st2). }
  intros Hi. destruct (init_context_spec _ _ _ _ _ _ _ Hok3 He3 Hi) as (K1 & K2 & K3 & K4). split_and!; [done| |done|done].
  unfold grown in *. destruct Hg3 as (? & ? & ?), K2 as (? & ? & ?). split_and!; [congruence|auto|auto].
Qed.

(** What [Init] leaves, and that it never touches a deleted object. *)
Lemma ss_Init_spec fuel port s st w r s' st' w' :
  statics_ok st -> needs_context st s -> ss_Init fuel port s st w = Some (r, s', st', w') ->
  statics_ok st' /\ grown st st' /\ needs_context st' s' /\ (forall what, r <> Throw (Undefined what)).
Proof using T.
  intros Hok Hn. unfold ss_Init. destruct (init_statics fuel s st w) as [[[[[]|e] st1] w1]|] eqn:E; [| |done].
  - destruct (init_statics_spec _ _ _ _ _ _ _ Hok E) as (H1 & H2 & _ & H4).
    destruct (Init port (ss_base s) w1) as [[r2 base] w2] eqn:Ei. intros [= <- <- <- <-]. split_and!; [done..| |].
    + intros _. by apply H4.
    + intros what. unfold Init in Ei. repeat (case_match; simplify_eq; try done).
  - destruct (init_statics_spec _ _ _ _ _ _ _ Hok E) as (H1 & H2 & H3 & _). intros [= <- <- <- <-].
    split_and!; [done..|by eapply needs_grown|congruence].
Qed.

Lemma release_ok p f (w : W) : p <> Dangling -> (release p f w).1 = Ret (if decide (p = Live) then Dangling else p).
Proof using. by destruct p. Qed.

Lemma release_statics_ok st (w : W) : statics_ok st -> exists st' w', release_statics st w = (Ret st', w') /\
  s_refcount st' = s_refcount st /\ (s_pSslCtx st = Live -> s_pSslCtx st' = Dangling) /\
  (s_pDynamicSslLocking st = Live -> s_pDynamicSslLocking st' = Dangling).
Proof using.
  intros [K1 K2 K3 K4]. assert (s_pSslCtx st <> Dangling) as K5 by (destruct K4 as [|[]]; congruence).
  unfold release_statics.
  pose proof (release_ok (s_pSslCtx st) SSL_CTX_free w K5) as E1. destruct (release (s_pSslCtx st) _ w) as [r1 w1].
  cbn [fst] in E1. subst r1.
  pose proof (release_ok (s_pSslError st) (SslError_delete (s_bMessagesLoaded st)) w1 K3) as E2.
  destruct (release (s_pSslError st) _ w1) as [r2 w2]. cbn [fst] in E2. subst r2.
  pose proof (release_ok (s_pStaticSslLocking st) (fun w => (StaticSslLocking_delete w).2) (CRYPTO_EVP_cleanup w2) K2) as E3.
  destruct (release (s_pStaticSslLocking st) _ _) as [r3 w3]. cbn [fst] in E3. subst r3.
  pose proof (release_ok (s_pDynamicSslLocking st) DynamicSslLocking_delete w3 K1) as E4.
  destruct (release (s_pDynamicSslLocking st) _ w3) as [r4 w4]. cbn [fst] in E4. subst r4.
  do 2 eexists. split; [done|]. cbn. split; [done|]. by split; intros ->.
Qed.

Lemma SecureSocket_delete_ok l1 s l2 st (w : W) :
  tls_ok (l1 ++ s :: l2, st, w) -> exists st' w', SecureSocket_delete s st w = (Ret st', w') /\
    (l1 ++ l2 <> [] -> tls_ok (l1 ++ l2, st', w')) /\
    (l1 ++ l2 = [] -> s_refcount st' = 0 /\ (s_pSslCtx st = Live -> s_pSslCtx st' = Dangling) /\
       (s_pDynamicSslLocking st = Live -> s_pDynamicSslLocking st' = Dangling)).
Proof using.
  intros (Hok & Hc & Hf). unfold SecureSocket_delete. rewrite length_app in Hc. cbn [length] in Hc.
  set (w1 := match m_pSsl s with Some _ => _ | None => _ end). set (st1 := st <| s_refcount ::= Z.pred |>).
  assert (s_refcount st1 = Z.of_nat (length (l1 ++ l2))) as Hc1 by (rewrite length_app; cbn; lia).
  assert (statics_ok st1) as Hok1 by (by destruct Hok). destruct (Z.eqb_spec (s_refcount st1) 0) as [Hz|Hz].
  - destruct (release_statics_ok st1 w1 Hok1) as (st2 & w2 & -> & H1 & H2 & H3). do 2 eexists. split; [done|].
    assert (l1 ++ l2 = []) as Hnil by (apply nil_length_inv; lia). split; [done|]. intros _. by rewrite H1.
  - do 2 eexists. split; [done|]. split; [|intros Hnil; by rewrite Hnil in Hc1]. intros _.
    rewrite Forall_app, Forall_cons in Hf. split_and!; [done..|]. apply Forall_app. tauto.
Qed.

Lemma Forall_mid_replace {A} (P Q : A -> Prop) l1 s s' l2 :
  (forall a, P a -> Q a) -> Q s' -> Forall P (l1 ++ s :: l2) -> Forall Q (l1 ++ s' :: l2).
Proof using.
  intros Hpq Hs. rewrite !Forall_app, !Forall_cons. intros (H1 & _ & H2).
  split_and!; [|done|]; by eapply Forall_impl.
Qed.

(** [Accept] in a good state: the listening socket and the new one are as they should be. *)
Lemma accept_tls_ok l1 s l2 st w fuel r s' st' w' :
  tls_ok (l1 ++ s :: l2, st, w) -> ss_Accept fuel s st w = Some (r, s', st', w') ->
  (statics_ok st' /\ s_refcount st' = Z.of_nat (length (l1 ++ s' :: l2)) + (if r is Ret _ then 1 else 0) /\
   Forall (needs_context st') (l1 ++ s' :: l2)) /\
  match r with
  | Ret c => needs_context st' c
  | Throw e => forall what, e <> Undefined what
  end.
Proof using T.
  intros (Hok & Hc & Hf) E.
  assert (needs_context st s) as Hs by (rewrite Forall_forall in Hf; apply Hf; set_solver).
  destruct (ss_Accept_spec _ _ _ _ _ Hs E) as (Hb & (l & Hst) & Hr).
  assert (statics_ok st' /\ (s_pSslCtx st' = s_pSslCtx st /\ s_pSslError st' = s_pSslError st) /\
    s_refcount st' = s_refcount st + (if r is Ret _ then 1 else 0)) as (H1 & [H2 H3] & H4).
  { destruct st, st'. cbn in Hst. injection Hst as -> -> -> -> -> ->. by destruct Hok. }
  assert (forall a, needs_context st a -> needs_context st' a) as Hn by (unfold needs_context; by rewrite H2, H3).
  split; [split_and!; [done|rewrite H4, Hc, !length_app; done|]|].
  - eapply Forall_mid_replace; [exact Hn| |exact Hf]. unfold needs_context. rewrite Hb. by apply Hn.
  - destruct r; [|tauto]. intros _. rewrite H2, H3. apply Hs. tauto.
Qed.

Lemma tls_step_ok x y : tls_ok x -> tls_step x y -> tls_ok y.
Proof using T.
  intros Hx Hstep. destruct Hstep as [l st w cert h|l1 s l2 st w fuel port r s' st' w' E|l1 s l2 st w fuel c s' st' w' E
    |l1 s l2 st w fuel e s' st' w' E|l1 s l2 st w st' w' Hl E|l st w w'].
  - hnf in Hx; destruct Hx as (Hok & Hc & Hf). split_and!; [by destruct Hok|cbn; lia|]. by constructor.
  - hnf in Hx; destruct Hx as (Hok & Hc & Hf). assert (needs_context st s) as Hs by (rewrite Forall_forall in Hf; apply Hf; set_solver).
    destruct (ss_Init_spec _ _ _ _ _ _ _ _ _ Hok Hs E) as (H1 & H2 & H3 & _).
    split_and!; [done| |eapply Forall_mid_replace; [intros a; by apply needs_grown|done|done]].
    rewrite (proj1 H2), Hc, !length_app. done.
  - destruct (accept_tls_ok l1 s l2 st w fuel _ _ _ _ Hx E) as ((H1 & H2 & H3) & Hn).
    split_and!; [done|cbn [length] in *; lia|]. constructor; [exact Hn|done].
  - destruct (accept_tls_ok l1 s l2 st w fuel _ _ _ _ Hx E) as ((H1 & H2 & H3) & _). split_and!; [done|lia|done].
  - destruct (SecureSocket_delete_ok l1 s l2 st w Hx) as (st2 & w2 & E2 & H1 & _). rewrite E in E2.
    injection E2 as <- <-. by apply H1.
  - done.
Qed.

(** C30: starting before the first object of the class is made, and as long as the last one
    is not deleted: the count is the number of objects, no static pointer dangles, and
    nothing that is done to any of the objects, deleting the last one included, uses a
    deleted static member. *)
Theorem tls_statics_safe w y :
  rtc tls_step ([], statics_initial, w) y ->
  let '(l, st, w') := y in
  s_refcount st = Z.of_nat (length l) /\ s_pSslCtx st <> Dangling /\ s_pSslError st <> Dangling /\
  forall l1 s l2, l = l1 ++ s :: l2 ->
    (forall fuel port r s' st' w'' what, ss_Init fuel port s st w' = Some (r, s', st', w'') -> r <> Throw (Undefined what)) /\
    (forall fuel r s' st' w'' what, ss_Accept fuel s st w' = Some (r, s', st', w'') -> r <> Throw (Undefined what)) /\
    (exists st' w'', SecureSocket_delete s st w' = (Ret st', w'')).
Proof using T.
  intros Hr. assert (tls_ok ([], statics_initial, w)) as H0.
  { split_and!; [constructor; cbn; auto|done|constructor]. }
  assert (tls_ok y) as Hy by (clear -Hr H0 T; induction Hr; eauto using tls_step_ok).
  destruct y as [[l st] w']. pose proof Hy as Hy0; hnf in Hy0; destruct Hy0 as (Hok & Hc & Hf).
  split_and!; [done|by destruct (ok_context _ Hok) as [->|[-> _]]|by apply ok_error|].
  intros l1 s l2 ->. split_and!.
  - intros fuel port r s' st' w'' what E. rewrite Forall_app, Forall_cons in Hf.
    by apply (ss_Init_spec _ _ _ _ _ _ _ _ _ Hok (proj1 (proj2 Hf)) E).
  - intros fuel r s' st' w'' what E ->. destruct (accept_tls_ok _ _ _ _ _ _ _ _ _ _ Hy E) as [_ Hu]. by apply (Hu what).
  - destruct (SecureSocket_delete_ok _ _ _ _ _ Hy) as (st' & w'' & E & _). eauto.
Qed.

(** When the last object of the class is deleted (the server stops), the static pointers
    are not cleared.  A server that is started afterwards takes the deleted context for
    its own: [Init] makes no new one, whatever certificate it is given, and no new table of
    mutexes for OpenSSL, the first
    connection that arrives uses the deleted one, and stopping the server deletes it again. *)
Theorem tls_restart s st w cert h :
  tls_ok ([s], st, w) -> s_pSslCtx st = Live -> s_pDynamicSslLocking st = Live -> s_pStaticSslLocking st = Live ->
  exists st' w', SecureSocket_delete s st w = (Ret st', w') /\
    let '(t, st1) := SecureSocket_new cert h st' in
    poMutexes st1 = None /\
    (forall fuel w1, init_statics fuel t st1 w1 = Some (Ret tt, st1, SSL_library_init w1)) /\
    (forall fuel t' w1 fd base w2,
       accept_loop fuel (ss_base t') w1 = Some (fd, base, w2) -> fd <> INVALID_SOCKET ->
       ss_Accept fuel t' st1 w1 = Some (Throw (Undefined #"s_pSslCtx"), t' <| ss_base := base |>, st1, w2)) /\
    (forall t' w1, (SecureSocket_delete t' st1 w1).1 = Throw (Undefined #"double free")).
Proof using T.
  intros Hx Hctx Hd Hs. pose proof Hx as Hx0; hnf in Hx0; destruct Hx0 as (Hok & Hc & _).
  destruct (ok_context _ Hok) as [|[_ He]]; [congruence|]. cbn in Hc.
  unfold SecureSocket_delete at 1. set (w1 := match m_pSsl s with Some _ => _ | None => _ end).
  unfold release_statics. cbn [s_refcount s_pSslCtx s_pSslError s_pStaticSslLocking s_pDynamicSslLocking update].
  destruct st as [n dl sl err ctx lo mu]. cbn in *. subst. cbn.
  do 2 eexists. split; [reflexivity|]. split_and!.
  - reflexivity.
  - intros fuel w2. reflexivity.
  - intros fuel t' w2 fd base w3 E Hfd. unfold ss_Accept. rewrite E, (proj2 (Z.eqb_neq _ _) Hfd). reflexivity.
  - intros t' w2. reflexivity.
Qed.

(** ** The passphrase *)
Lemma strncpy_fits n p mem :
  Forall (fun a => a <> NUL) p -> (n <= length p)%nat -> strncpy n p mem = take n p ++ drop n mem.
Proof using.
  intros Hp Hn. unfold strncpy. rewrite c_str_id by done. by rewrite length_take, Nat.min_l, Nat.sub_diag.
Qed.

(** The passphrase callback copies the passphrase, cut to the size of the buffer less
    one, and reports its length.  The zero it adds is one place too far: the byte after the
    text keeps its old value, and a passphrase of at least [bufsize - 1] bytes makes it
    overwrite the byte behind the buffer; a shorter one leaves what is behind untouched. *)
Theorem passphrase_bounds bufsize rwflag s mem (w w' : W) h p :
  m_poPassphraseHandler s = Some h -> GetPassphrase h (rwflag =? 1) w = (p, w') ->
  p <> [] -> Forall (fun a => a <> NUL) p -> Z.of_nat (length p) < 2 ^ 31 -> 1 <= bufsize -> bufsize < Z.of_nat (length mem) ->
  let ret := Z.min (Z.of_nat (length p)) (bufsize - 1) in
  let '(r, mem', w2) := PassphraseCallback bufsize rwflag s mem w in
  r = ret /\ w2 = w' /\ length mem' = length mem /\ take (Z.to_nat ret) mem' = take (Z.to_nat ret) p /\
  mem' !! Z.to_nat ret = mem !! Z.to_nat ret /\
  (bufsize - 1 <= Z.of_nat (length p) -> mem' !! Z.to_nat bufsize = Some NUL) /\
  (Z.of_nat (length p) < bufsize - 1 -> drop (Z.to_nat bufsize) mem' = drop (Z.to_nat bufsize) mem).
Proof using.
  intros Hh Hg Hne Hz Hlen Hb Hm. cbn zeta. unfold PassphraseCallback. rewrite Hh, Hg. pose proof (length_pos p Hne) as Hp.
  assert (i32 (Z.of_nat (length p)) = Z.of_nat (length p)) as -> by (apply i32_id; lia).
  rewrite (proj2 (Z.ltb_lt 0 _)) by lia.
  assert ((if bufsize - 1 <? Z.of_nat (length p) then bufsize - 1 else Z.of_nat (length p)) =
    Z.min (Z.of_nat (length p)) (bufsize - 1)) as -> by (destruct (Z.ltb_spec (bufsize - 1) (Z.of_nat (length p))); lia).
  set (ret := Z.min (Z.of_nat (length p)) (bufsize - 1)). remember (Z.to_nat ret) as n eqn:En.
  assert (Z.to_nat (ret + 1) = Datatypes.S n) as -> by lia. rewrite strncpy_fits by (done || lia).
  assert (length (take n p) = n) as Ht by (rewrite length_take; lia).
  assert (length (take n p ++ drop n mem) = length mem) as Hl by (rewrite length_app, Ht, length_drop; lia).
  split_and!; [done|done|by rewrite length_insert| | | |].
  - rewrite take_insert_ge by lia. rewrite take_app_le by lia. apply take_ge. lia.
  - rewrite list_lookup_insert_ne by lia. rewrite lookup_app_r, Ht, Nat.sub_diag, lookup_drop by lia. by rewrite Nat.add_0_r.
  - intros Hc. assert (Z.to_nat bufsize = Datatypes.S n) as -> by lia. apply list_lookup_insert_eq. lia.
  - intros Hc. rewrite drop_insert_lt by lia. rewrite drop_app_ge, drop_drop, Ht by lia. f_equal. lia.
Qed.
End facts.

(** ** Concrete runs *)
Lemma on_os_snd {A} (f : posix -> A * posix) t : tl_os (on_os f t).2 = (f (tl_os t)).2.
Proof. unfold on_os. by destruct (f (tl_os t)). Qed.
Lemma on_os_fst {A} (f : posix -> A * posix) t : (on_os f t).1 = (f (tl_os t)).1.
Proof. unfold on_os. by destruct (f (tl_os t)). Qed.

#[export] Instance tls_fd_laws : OsLaws tls_os.
Proof.
  refine {| open_fds t := open_fds (tl_os t) |}.
  - intros w. change (os_socket w) with (on_os os_socket w). rewrite on_os_snd, on_os_fst. apply socket_opens.
  - intros fd a w. change (os_accept fd a w) with (on_os (os_accept fd a) w). rewrite on_os_snd, on_os_fst.
    apply accept_opens.
  - intros fd w. apply (close_closes fd (tl_os w)).
  - intros fd w. apply (nonblocking_keeps fd (tl_os w)).
  - intros fd w. apply (reuseaddr_keeps fd (tl_os w)).
  - intros fd a w. change (os_bind fd a w) with (on_os (os_bind fd a) w). rewrite on_os_snd. apply bind_keeps.
  - intros fd n w. change (os_listen fd n w) with (on_os (os_listen fd n) w). rewrite on_os_snd. apply listen_keeps.
  - intros fd a w. change (os_getsockname fd a w) with (on_os (os_getsockname fd a) w). rewrite on_os_snd.
    apply getsockname_keeps.
  - intros fd n w. change (os_recv fd n w) with (on_os (os_recv fd n) w). rewrite on_os_snd. apply recv_keeps.
  - intros fd b f w. change (os_send fd b f w) with (on_os (os_send fd b f) w). rewrite on_os_snd. apply send_keeps.
  - intros h fd a p w. change (BindPrivilegedPort h fd a p w) with (on_os (BindPrivilegedPort h fd a p) w).
    rewrite on_os_snd. apply bind_helper_keeps.
Defined.

#[export] Instance tls_tls_laws : TlsLaws tls_fd_laws tls_ssl.
Proof.
  by constructor.
Qed.

(** Two waiting connections, the first of which fails its handshake after a retry. *)
Definition tls_system : tls :=
  MkTls (idle_system <| px_backlog := [None; Some (MkSockaddr 40000 7); Some (MkSockaddr 40001 7)] |>)
    [5%positive] 0 true [2; 1; 6].
Definition new_server (st : statics) : SecureSocket * statics := SecureSocket_new #"server.pem" None st.
Definition started := ss_Init 3 443 (new_server statics_initial).1 (new_server statics_initial).2 tls_system.
Definition server : SecureSocket := MkSecureSocket (MkSocket 3 sockaddr_zero sockaddr_zero None) None #"server.pem" None.
Definition server_statics : statics := MkStatics 1 Live Live Live Live false (Some [Free; Free]).
Definition server_system : tls := tls_system <| tl_os ::= fun p => p <| px_open := {[0; 1; 2; 3]} |> |> <| tl_contexts := 1 |>.

Lemma server_starts : started = Some (Ret tt, server, server_statics, server_system).
Proof. by vm_compute. Qed.

(** The first connection is served, the second one is turned away. *)
Definition first_accept := ss_Accept 3 server server_statics server_system.
Definition client : SecureSocket :=
  MkSecureSocket (MkSocket 4 (MkSockaddr 40000 7) (MkSockaddr (htons 80) 0x0100007F) None) (Some 0%nat) [] None.
Definition busy_server : SecureSocket := server <| ss_base ::= fun b => b <| m_peer := MkSockaddr 40000 7 |> |>.
Definition busy_statics : statics := server_statics <| s_refcount := 2 |>.
Definition busy_system : tls :=
  MkTls (MkPosix {[0; 1; 2; 3; 4]} [Some (MkSockaddr 40001 7)] [None; None; Some #"GET"] EAGAIN) [5%positive] 1 true [6].

Lemma client_arrives : first_accept = Some (Ret client, busy_server, busy_statics, busy_system).
Proof. by vm_compute. Qed.

Definition second_accept := ss_Accept 3 busy_server busy_statics busy_system.

Lemma ss_Accept_descriptors_witness :
  needs_context server_statics server /\ needs_context busy_statics busy_server /\
  opens (open_fds server_system) (open_fds busy_system) 4 /\
  exists e s' st' w', second_accept = Some (Throw (Runtime_error e), s', st', w') /\ open_fds w' = open_fds busy_system.
Proof.
  assert (needs_context server_statics server) as H1 by done.
  assert (needs_context busy_statics busy_server) as H2 by done.
  split_and!; [exact H1|exact H2|exact (proj1 (ss_Accept_descriptors _ _ _ _ _ _ _ _ H1 client_arrives))|].
  destruct second_accept as [[[[r s'] st'] w']|] eqn:E; [|by vm_compute in E].
  pose proof (ss_Accept_descriptors 3 busy_server busy_statics busy_system r s' st' w' H2 E) as Hr.
  assert (exists e, r = Throw (Runtime_error e)) as [e ->].
  { vm_compute in E. injection E as <- _ _ _. by eexists. }
  exists e, s', st', w'. split; [done|]. apply Hr.
Defined.

Lemma tls_statics_safe_witness :
  rtc tls_step ([], statics_initial, tls_system) ([client; busy_server], busy_statics, busy_system) /\
  exists st' w', SecureSocket_delete client busy_statics busy_system = (Ret st', w').
Proof.
  assert (rtc tls_step ([], statics_initial, tls_system) ([client; busy_server], busy_statics, busy_system)) as Hr.
  { eapply rtc_l; [apply (ts_new [] statics_initial tls_system #"server.pem" None)|].
    eapply rtc_l; [apply (ts_init [] _ [] _ _ 3 443 _ _ _ _ server_starts)|].
    eapply rtc_l; [apply (ts_accept [] _ [] _ _ 3 _ _ _ _ client_arrives)|]. apply rtc_refl. }
  split; [exact Hr|].
  pose proof (tls_statics_safe tls_system ([client; busy_server], busy_statics, busy_system) Hr) as (_ & _ & _ & H).
  exact (proj2 (proj2 (H [] client [busy_server] eq_refl))).
Defined.

Lemma server_ok : tls_ok ([server], server_statics, server_system).
Proof.
  split_and!; [constructor; cbn; auto|done|]. repeat constructor.
Qed.

Lemma tls_restart_witness :
  tls_ok ([server], server_statics, server_system) /\
  exists st' w', SecureSocket_delete server server_statics server_system = (Ret st', w') /\
    let '(t, st1) := SecureSocket_new #"other.pem" None st' in
    init_statics 3 t st1 w' = Some (Ret tt, st1, w').
Proof.
  split; [exact server_ok|].
  destruct (tls_restart server server_statics server_system #"other.pem" None server_ok eq_refl eq_refl eq_refl)
    as (st' & w' & H1 & H2). exists st', w'. split; [exact H1|]. exact (proj1 (proj2 H2) 3%nat w').
Defined.

Definition keyed : SecureSocket := MkSecureSocket Socket_new None #"server.pem" (Some 1%nat).

(** The passphrase is ["secret"]; the buffer has 7 bytes. *)
Lemma passphrase_bounds_witness :
  m_poPassphraseHandler keyed = Some 1%nat /\
  (PassphraseCallback 7 0 keyed #"abcdefgXY" tls_system).1.2 !! 7%nat = Some NUL.
Proof.
  split; [done|].
  pose proof (passphrase_bounds 7 0 keyed #"abcdefgXY" tls_system tls_system 1%nat #"secret" eq_refl eq_refl
    ltac:(done) ltac:(by repeat constructor) ltac:(vm_compute; reflexivity) ltac:(lia) ltac:(vm_compute; reflexivity)) as H.
  destruct (PassphraseCallback 7 0 keyed #"abcdefgXY" tls_system) as [[r m] w2].
  destruct H as (_ & _ & _ & _ & _ & H & _). apply H. vm_compute. discriminate.
Defined.
