(* ===== verification/Connection.v ===== *)
(** * [EHSConnection] (ehs.cpp, ehsconnection.h)

    One client connection: the input buffer and the request being parsed, the
    queue of complete requests, and the counters of requests and responses. *)
From S2P Require Import Prelude Boost StdMap Datum EhsTypes HttpRequest HttpResponse Network.

(** ** Data *)

(** A response object: the [dynamic_cast] to [HttpResponse] tells which. *)
Inductive response : Type :=
| Generic (g : GenericResponse)
| Http (h : HttpResponse).
Definition response_base (r : response) : GenericResponse :=
  match r with Generic g => g | Http h => hr_base h end.

Definition MAX_REQUEST_SIZE_DEFAULT : Z := 256 * 1024.

Record EHSConnection : Type := MkEHSConnection {
  conn_this : conn_id;
  m_bRawMode : bool;
  m_bDoneReading : bool;
  m_bDisconnected : bool;
  m_bIdleHandling : bool;
  m_poCurrentHttpRequest : option HttpRequest;
  m_nLastActivity : Z;
  m_nRequests : Z;
  m_nResponses : Z;
  m_nActiveRequests : Z;
  m_poNetworkAbstraction : na_id;
  m_sBuffer : bytes;
  m_oResponseQueue : list response;
  m_oHttpRequestList : list HttpRequest;
  m_sRemoteAddress : bytes;
  m_sLocalAddress : bytes;
  m_nRemotePort : Z;
  m_nLocalPort : Z;
  m_nMaxRequestSize : Z;
  conn_sParseContentType : bytes
}.
#[export] Instance eta_EHSConnection : Eta EHSConnection := fun c =>
  MkEHSConnection (conn_this c) (m_bRawMode c) (m_bDoneReading c) (m_bDisconnected c)
    (m_bIdleHandling c) (m_poCurrentHttpRequest c) (m_nLastActivity c) (m_nRequests c)
    (m_nResponses c) (m_nActiveRequests c) (m_poNetworkAbstraction c) (m_sBuffer c)
    (m_oResponseQueue c) (m_oHttpRequestList c) (m_sRemoteAddress c) (m_sLocalAddress c)
    (m_nRemotePort c) (m_nLocalPort c) (m_nMaxRequestSize c) (conn_sParseContentType c).

Inductive AddBufferResult : Type :=
| ADDBUFFER_INVALID
| ADDBUFFER_OK
| ADDBUFFER_INVALIDREQUEST
| ADDBUFFER_TOOBIG
| ADDBUFFER_NORESOURCE.
#[export] Instance AddBufferResult_eq_dec : EqDecision AddBufferResult.
Proof. solve_decision. Defined.

Inductive ServerRunningStatus : Type :=
| SERVERRUNNING_INVALID
| SERVERRUNNING_NOTRUNNING
| SERVERRUNNING_SINGLETHREADED
| SERVERRUNNING_THREADPOOL
| SERVERRUNNING_ONETHREADPERREQUEST
| SERVERRUNNING_SHOULDTERMINATE.
#[export] Instance ServerRunningStatus_eq_dec : EqDecision ServerRunningStatus.
Proof. solve_decision. Defined.

(** ** Operations without effects *)
Definition Disconnected (c : EHSConnection) : bool := m_bDisconnected c.
Definition IsRaw (c : EHSConnection) : bool := m_bRawMode c.
Definition StillReading (c : EHSConnection) : bool := negb (m_bDoneReading c).
Definition RequestsPending (c : EHSConnection) : bool :=
  negb (m_nActiveRequests c =? 0)%Z || negb (bool_decide (m_oHttpRequestList c = [])).
Definition EnableIdleTimeout (enable : bool) (c : EHSConnection) : EHSConnection :=
  c <| m_bIdleHandling := enable |>.
Definition SetMaxRequestSize (n : Z) (c : EHSConnection) : EHSConnection :=
  c <| m_nMaxRequestSize := n |>.
Definition SetParseContentType (s : bytes) (c : EHSConnection) : EHSConnection :=
  c <| conn_sParseContentType := s |>.
Definition DoneReading (ibDisconnected : bool) (c : EHSConnection) : EHSConnection :=
  c <| m_bDoneReading := true |> <| m_bDisconnected := ibDisconnected |>.

(** [GetNextRequest]: the request is counted as active before it leaves the queue. *)
Definition conn_GetNextRequest (c : EHSConnection) : option HttpRequest * EHSConnection :=
  match m_oHttpRequestList c with
  | [] => (None, c)
  | r :: l => (Some r, c <| m_nActiveRequests ::= Z.succ |> <| m_oHttpRequestList := l |>)
  end.

Section env.
Context {W : Type} {E : Env W} {B : Boost}.

(** ** Life cycle *)
Definition UpdateLastActivity (w : W) (c : EHSConnection) : EHSConnection :=
  c <| m_nLastActivity := time w |>.
Definition LastActivity (w : W) (c : EHSConnection) : Z :=
  if m_bIdleHandling c then m_nLastActivity c else time w.

Definition EHSConnection_new (this : conn_id) (na : na_id) (w : W) : EHSConnection :=
  UpdateLastActivity w
    (MkEHSConnection this false false false true None 0 0 0 0 na [] [] []
       (na_GetRemoteAddress na w) (na_GetLocalAddress na w)
       (na_GetRemotePort na w) (na_GetLocalPort na w) MAX_REQUEST_SIZE_DEFAULT []).

(** The destructor; [rsh] tells whether a [RawSocketHandler] is installed. *)
Definition EHSConnection_delete (rsh : bool) (c : EHSConnection) (w : W) : W :=
  let w := if m_bRawMode c && rsh then rsh_OnDisconnect (conn_this c) w else w in
  na_delete (m_poNetworkAbstraction c) w.

Definition EnableKeepAlive (enable : bool) (c : EHSConnection) (w : W) : W :=
  setsockopt_keepalive (na_GetFd (m_poNetworkAbstraction c) w) enable w.

(** [CheckDone]: whether the connection can be deleted; it is closed first if the
    client has not done so. *)
Definition CheckDone (c : EHSConnection) (w : W) : bool * W :=
  if negb (StillReading c) then
    if (m_nRequests c - 1 <=? m_nResponses c)%Z then
      (true, if negb (m_bDisconnected c) then na_Close (m_poNetworkAbstraction c) w else w)
    else (false, w)
  else (false, w).

(** ** Input *)

(** The beginning of an iteration of [AddBuffer]: a complete request goes to the
    queue and a new one is begun.  [None] is the early return when no thread can be
    created; the complete request then stays current although it is queued. *)
Definition next_request (mode : ServerRunningStatus) (c : EHSConnection) (pending : Z) (w : W) :
    bool * EHSConnection * Z * W :=
  let begin c pending w :=
    let c := c <| m_nRequests ::= Z.succ |> in
    let req := HttpRequest_init (m_nRequests c) (conn_this c) (conn_sParseContentType c)
                 <| m_bSecure := na_IsSecure (m_poNetworkAbstraction c) w |> in
    (true, c <| m_poCurrentHttpRequest := Some req |>, pending, w) in
  match m_poCurrentHttpRequest c with
  | None => begin c pending w
  | Some req =>
      if decide (m_nCurrentHttpParseState req = HTTPPARSESTATE_COMPLETEREQUEST) then
        let c := c <| m_oHttpRequestList ::= fun l => l ++ [req] |> in
        let pending := (pending + 1)%Z in
        let w := pthread_cond_broadcast w in
        if decide (mode = SERVERRUNNING_ONETHREADPERREQUEST) then
          match pthread_create w with
          | (Some _, w) => begin c pending w
          | (None, w) => (false, c, pending, w)
          end
        else begin c pending w
      else (true, c, pending, w)
  end.

(** The [do ... while] loop; the outer [None] is an exhausted fuel, the second
    component the value returned or the exception that escapes. *)
Fixpoint add_buffer_loop (fuel : nat) (mode : ServerRunningStatus) (c : EHSConnection) (pending : Z) (w : W) :
    option (res AddBufferResult * EHSConnection * Z * W) :=
  match fuel with
  | O => None
  | S n =>
      let '(ok, c, pending, w) := next_request mode c pending w in
      if negb ok then Some (Ret ADDBUFFER_NORESOURCE, c, pending, w)
      else
        match m_poCurrentHttpRequest c with
        | None => None
        | Some req =>
            match ParseData req (m_sBuffer c) with
            | None => None
            | Some (req, buf, o) =>
                let c := c <| m_poCurrentHttpRequest := Some req |> <| m_sBuffer := buf |> in
                match o with
                | Throw e => Some (Throw e, c, pending, w)
                | Ret _ =>
                    match m_nCurrentHttpParseState req with
                    | HTTPPARSESTATE_COMPLETEREQUEST => add_buffer_loop n mode c pending w
                    | HTTPPARSESTATE_INVALIDREQUEST => Some (Ret ADDBUFFER_INVALIDREQUEST, c, pending, w)
                    | _ => Some (Ret ADDBUFFER_OK, c, pending, w)
                    end
                end
            end
        end
  end.

(** A request completes only by consuming its request line, so every iteration but
    the first two shortens the buffer. *)
Definition add_buffer_fuel (c : EHSConnection) : nat := length (m_sBuffer c) + 3.

(** [AddBuffer(ipsData, inSize)]: [pending] is the server's [m_nRequestsPending]. *)
Definition AddBuffer (mode : ServerRunningStatus) (ipsData : bytes) (inSize : Z)
    (c : EHSConnection) (pending : Z) (w : W) :
    option (res AddBufferResult * EHSConnection * Z * W) :=
  if (inSize <=? 0)%Z then Some (Ret ADDBUFFER_INVALID, c, pending, w)
  else if (m_nMaxRequestSize c <? u64 (Z.of_nat (length (m_sBuffer c)) + inSize))%Z then
    Some (Ret ADDBUFFER_TOOBIG, c, pending, w)
  else
    let c := c <| m_sBuffer ::= fun b => b ++ take (Z.to_nat inSize) ipsData |> in
    add_buffer_loop (add_buffer_fuel c) mode c pending w.

(** ** Output *)

(** The status line and headers [SendResponse] writes. *)
Fixpoint header_lines (m : StringCaseMap) : bytes :=
  match m with
  | [] => []
  | (k, v) :: m' => k ++ #": " ++ v ++ crlf ++ header_lines m'
  end.
Fixpoint cookie_lines (l : list bytes) : bytes :=
  match l with
  | [] => []
  | s :: l' => #"Set-Cookie: " ++ s ++ crlf ++ cookie_lines l'
  end.
Definition response_head (h : HttpResponse) : bytes :=
  #"HTTP/1.1 " ++ print_Z (code_value (m_nResponseCode h)) ++ #" " ++ GetPhrase (m_nResponseCode h) ++ crlf ++
  header_lines (m_oResponseHeaders h) ++ cookie_lines (m_oCookieList h) ++ crlf.

Definition count_response (c : EHSConnection) : EHSConnection :=
  c <| m_nActiveRequests ::= Z.pred |> <| m_nResponses ::= Z.succ |>.

(** [SendResponse].  [rsh] tells whether a [RawSocketHandler] is installed;
    [beyond] is what memory holds after the body, which is read when the
    [Content-Length] header exceeds the body. *)
Definition SendResponse (rsh : bool) (beyond : bytes) (gresp : response) (c : EHSConnection) (w : W) :
    EHSConnection * W :=
  match gresp with
  | Generic g =>
      if Disconnected c then (c, w)
      else
        let '(r, c, w) :=
          if bool_decide (0 < length (gr_sBody g)) then
            let '(r, w) := na_Send (m_poNetworkAbstraction c) (gr_sBody g) w in (r, c, w)
          else (0%Z, DoneReading false c, w) in
        (if (r =? -1)%Z then DoneReading false c else c, w)
  | Http h =>
      if Disconnected c then (count_response c, w)
      else
        let forceClose := bool_decide (Header h #"connection" = #"close") &&
          bool_decide (m_nResponseCode h <> HTTPRESPONSECODE_101_SWITCHING_PROTOCOLS) in
        let '(r, w) := na_Send (m_poNetworkAbstraction c) (response_head h) w in
        if negb (r =? -1)%Z && bool_decide (m_nResponseCode h = HTTPRESPONSECODE_101_SWITCHING_PROTOCOLS) then
          let c := c <| m_bRawMode := true |> in
          let w := if rsh then rsh_OnConnect (conn_this c) w else w in
          (count_response c, w)
        else
          let w :=
            if negb (r =? -1)%Z then
              let blen := atoi (Header h #"content-length") in
              if (0 <? blen)%Z then
                (na_Send (m_poNetworkAbstraction c)
                   (take (Z.to_nat blen) (gr_sBody (hr_base h) ++ NUL :: beyond)) w).2
              else w
            else w in
          let c := if forceClose || (r =? -1)%Z then DoneReading false c else c in
          (count_response c, w)
  end.

(** The loop of [AddResponse] over the queue. *)
Fixpoint send_queue (rsh : bool) (beyond : bytes) (q : list response) (c : EHSConnection) (w : W) :
    EHSConnection * W :=
  match q with
  | [] => (c, w)
  | r :: q' =>
      let c := c <| m_oResponseQueue := q' |> in
      let '(c, w) := SendResponse rsh beyond r c w in
      send_queue rsh beyond q' (UpdateLastActivity w c) w
  end.

Definition conn_AddResponse (rsh : bool) (beyond : bytes) (r : response) (c : EHSConnection) (w : W) :
    EHSConnection * W :=
  let c := c <| m_oResponseQueue ::= fun q => q ++ [r] |> in
  send_queue rsh beyond (m_oResponseQueue c) c w.

End env.
