(* ===== verification/ConnectionFacts.v ===== *)
(** * Properties of connections: input, queue, output *)
From S2P Require Import Prelude Boost StdMap Datum EhsTypes HttpRequest HttpResponse Network Connection.
From S2P Require Import HttpRequestFacts HttpRequestProps HttpRender.

(** ** Definitions *)

(** The queue holds complete requests of this connection with consecutive ids, the
    last of them just before the request being parsed. *)
Definition request_ids (c : EHSConnection) : list Z := m_nRequestId <$> m_oHttpRequestList c.

Record conn_ok (c : EHSConnection) : Prop := ConnOk {
  co_current : match m_poCurrentHttpRequest c with
               | Some r => m_nRequestId r = m_nRequests c /\ m_poSourceEHSConnection r = conn_this c
               | None => m_nRequests c = 0%Z /\ m_oHttpRequestList c = []
               end;
  co_ids : request_ids c =
    seqZ (m_nRequests c - Z.of_nat (length (m_oHttpRequestList c))) (Z.of_nat (length (m_oHttpRequestList c)));
  co_queue : Forall (fun r => m_nCurrentHttpParseState r = HTTPPARSESTATE_COMPLETEREQUEST /\
                              m_poSourceEHSConnection r = conn_this c) (m_oHttpRequestList c)
}.

(** The buffer is within the configured limit. *)
Definition buffer_ok (c : EHSConnection) : Prop :=
  (Z.of_nat (length (m_sBuffer c)) <= m_nMaxRequestSize c)%Z.

Fixpoint render_all (ms : list message) : bytes :=
  match ms with
  | [] => []
  | m :: ms' => render m ++ render_all ms'
  end.

(** The connection is between two requests: its current request, if any, is
    complete or has not read anything. *)
Definition between_requests (c : EHSConnection) : Prop :=
  match m_poCurrentHttpRequest c with
  | None => True
  | Some r => (m_nCurrentHttpParseState r = HTTPPARSESTATE_COMPLETEREQUEST \/ fresh_request r) /\
              m_sParseContentType r = conn_sParseContentType c
  end.

(** The complete request that the next iteration will queue. *)
Definition finished (c : EHSConnection) : list HttpRequest :=
  match m_poCurrentHttpRequest c with
  | Some r => if decide (m_nCurrentHttpParseState r = HTTPPARSESTATE_COMPLETEREQUEST) then [r] else []
  | None => []
  end.

(** The request being parsed when a call of [AddBuffer] ends, if it has passed its
    request line and is not within a chunk. *)
Definition mid_request (c : EHSConnection) : Prop :=
  match m_poCurrentHttpRequest c with
  | Some r => m_nCurrentHttpParseState r <> HTTPPARSESTATE_REQUEST /\
              m_nCurrentHttpParseState r <> HTTPPARSESTATE_BODYCHUNK
  | None => False
  end.

(** Every request but the one being parsed is answered, being handled, or queued. *)
Definition balanced (c : EHSConnection) : Prop :=
  (match m_poCurrentHttpRequest c with Some _ => m_nRequests c - 1 | None => m_nRequests c end =
   m_nResponses c + m_nActiveRequests c + Z.of_nat (length (m_oHttpRequestList c)))%Z.

(** The part of a connection that only sending and closing change. *)
Definition io_view (c : EHSConnection) :=
  (conn_this c, m_poNetworkAbstraction c, m_bRawMode c, m_bDisconnected c, m_bDoneReading c, m_oResponseQueue c,
   (m_nResponses c, m_nActiveRequests c)).

(** A response whose [Content-Length] header is the length of its body. *)
Definition length_ok (h : HttpResponse) : Prop :=
  Header h #"content-length" = print_Z (Z.of_nat (length (gr_sBody (hr_base h)))) /\
  (Z.of_nat (length (gr_sBody (hr_base h))) < 2 ^ 31)%Z.

(** The queued requests are what the parser makes of the messages, in order. *)
Definition requests_of `{B : Boost} (pct : bytes) (ms : list message) (l : list HttpRequest) : Prop :=
  Forall2 (fun m r => request_of m pct r) ms l.

Section facts.
Context {W : Type} {E : Env W} {B : Boost}.

Implicit Types (c : EHSConnection) (w : W).

(** ** One iteration of [AddBuffer] *)
Lemma next_request_current mode c p w ok c' p' w' :
  next_request mode c p w = (ok, c', p', w') -> ok = true ->
  exists r, m_poCurrentHttpRequest c' = Some r /\
    m_nCurrentHttpParseState r <> HTTPPARSESTATE_COMPLETEREQUEST /\
    (m_poCurrentHttpRequest c = Some r /\ c' = c \/
     m_nCurrentHttpParseState r = HTTPPARSESTATE_REQUEST /\ fresh_request r /\
     m_nRequestId r = m_nRequests c' /\ m_poSourceEHSConnection r = conn_this c' /\
     m_sParseContentType r = conn_sParseContentType c').
Proof.
  unfold next_request. intros H ->. destruct (m_poCurrentHttpRequest c) as [r|] eqn:Ec.
  - case_decide; [|simplify_eq; exists r; by split_and!; [| |left]].
    case_decide; [destruct (pthread_create _) as [[] ?]|]; simplify_eq/=;
      (eexists; split_and!; [done|done|right; by split_and!]).
  - simplify_eq/=. eexists; split_and!; [done|done|right; by split_and!].
Qed.

(** The fields an iteration leaves alone. *)
Lemma next_request_frame mode c p w :
  let '(_, c', _, _) := next_request mode c p w in
  m_sBuffer c' = m_sBuffer c /\ m_nMaxRequestSize c' = m_nMaxRequestSize c /\
  conn_this c' = conn_this c /\ conn_sParseContentType c' = conn_sParseContentType c.
Proof.
  unfold next_request. destruct (m_poCurrentHttpRequest c); [|done].
  case_decide; [|done]. case_decide; [|done]. by destruct (pthread_create _) as [[] ?].
Qed.

(** ** The loop terminates *)

(** Fuel for the loop: the first iteration may complete a request begun earlier
    without consuming anything; each later one consumes a request line. *)
Definition loop_measure c : nat :=
  length (m_sBuffer c) + 1 +
  match m_poCurrentHttpRequest c with
  | Some r => match m_nCurrentHttpParseState r with
              | HTTPPARSESTATE_COMPLETEREQUEST | HTTPPARSESTATE_REQUEST => 0
              | _ => 1
              end
  | None => 0
  end.

Lemma add_buffer_loop_total n mode c p w :
  loop_measure c <= n -> exists x, add_buffer_loop n mode c p w = Some x.
Proof.
  revert c p w. induction n as [|n IH]; intros c p w Hm; [unfold loop_measure in Hm; lia|].
  cbn [add_buffer_loop].
  pose proof (next_request_frame mode c p w) as Hf.
  destruct (next_request mode c p w) as [[[ok c1] p1] w1] eqn:En.
  destruct Hf as (Hb & _). destruct ok; cbn [negb]; [|by eexists].
  destruct (next_request_current _ _ _ _ _ _ _ _ En eq_refl) as (r & Hr & Hs & Hor). rewrite Hr.
  destruct (ParseData_ind (fun _ _ _ => True)) with r (m_sBuffer c1) as ([[r' b'] o] & Hp & _); [done..|].
  rewrite Hp. destruct o; [|by eexists].
  destruct (m_nCurrentHttpParseState r') eqn:Es'; try by eexists.
  apply IH. unfold loop_measure in *. cbn. rewrite Es'.
  assert (length b' <= length (m_sBuffer c1)) as Hle.
  { apply ParseData_suffix in Hp as [t ->]. rewrite length_app. lia. }
  destruct (decide (m_nCurrentHttpParseState r = HTTPPARSESTATE_REQUEST)) as [Er|Er].
  - pose proof (ParseData_consumes _ _ _ _ _ Hp Er Es'). rewrite Hb in *. lia.
  - destruct Hor as [[Hc ->]|(? & _)]; [|done]. rewrite Hc in Hm.
    destruct (m_nCurrentHttpParseState r); try done; lia.
Qed.

Lemma add_buffer_fuel_enough c : loop_measure c <= add_buffer_fuel c.
Proof. unfold loop_measure, add_buffer_fuel. repeat case_match; lia. Qed.

(** What the loop leaves in the buffer was there, and the maximum does not change. *)
Lemma add_buffer_loop_frame n mode c p w o c' p' w' :
  add_buffer_loop n mode c p w = Some (o, c', p', w') ->
  m_sBuffer c' `suffix_of` m_sBuffer c /\ m_nMaxRequestSize c' = m_nMaxRequestSize c.
Proof.
  revert c p w. induction n as [|n IH]; intros c p w; [done|]. cbn [add_buffer_loop].
  pose proof (next_request_frame mode c p w) as Hf.
  destruct (next_request mode c p w) as [[[ok c2] p2] w2]. destruct Hf as (Hb & Hm & _).
  destruct ok; cbn [negb]; [|by intros; simplify_eq; rewrite Hb].
  destruct (m_poCurrentHttpRequest c2) as [r|]; [|done].
  destruct (ParseData r (m_sBuffer c2)) as [[[r' b'] o']|] eqn:Hp; [|done].
  apply ParseData_suffix in Hp. rewrite Hb in Hp. intros Hl.
  assert (m_sBuffer c' `suffix_of` b' /\ m_nMaxRequestSize c' = m_nMaxRequestSize c2) as [? ?].
  { destruct o'; [destruct (m_nCurrentHttpParseState r')|]; simplify_eq; try done. by apply IH in Hl. }
  split; [by etrans|congruence].
Qed.

(** ** The queue *)
Lemma conn_ok_push c r :
  conn_ok c -> m_poCurrentHttpRequest c = Some r ->
  m_nCurrentHttpParseState r = HTTPPARSESTATE_COMPLETEREQUEST ->
  forall r', m_nRequestId r' = (m_nRequests c + 1)%Z -> m_poSourceEHSConnection r' = conn_this c ->
  conn_ok (c <| m_oHttpRequestList ::= fun l => l ++ [r] |> <| m_nRequests ::= Z.succ |>
             <| m_poCurrentHttpRequest := Some r' |>).
Proof.
  intros [Hc Hi Hq] Er Hs r' Hid Hsrc. rewrite Er in Hc. destruct Hc as [Hc1 Hc2]. split.
  - split; [exact Hid|done].
  - unfold request_ids in *. cbn -[seqZ Z.succ Z.sub Z.of_nat].
    rewrite fmap_app, Hi, length_app, Nat2Z.inj_add, seqZ_app by lia.
    change (length [r]) with 1. f_equal; [f_equal; lia|].
    assert (forall x, seqZ x (Z.of_nat 1) = [(Z.of_nat 0 + x)%Z]) as -> by done.
    cbn -[Z.sub Z.of_nat Z.add]. rewrite Hc1. f_equal. lia.
  - cbn. apply Forall_app. split; [done|]. by repeat constructor.
Qed.

Lemma conn_ok_first c r' :
  conn_ok c -> m_poCurrentHttpRequest c = None ->
  m_nRequestId r' = (m_nRequests c + 1)%Z -> m_poSourceEHSConnection r' = conn_this c ->
  conn_ok (c <| m_nRequests ::= Z.succ |> <| m_poCurrentHttpRequest := Some r' |>).
Proof.
  intros [Hc Hi Hq] Er Hid Hsrc. rewrite Er in Hc. destruct Hc as [Hc1 Hc2]. split; cbn.
  - done.
  - unfold request_ids. cbn. by rewrite Hc2.
  - by rewrite Hc2.
Qed.

Lemma conn_ok_parsed c r b :
  conn_ok c -> m_poCurrentHttpRequest c <> None -> m_nRequestId r = m_nRequests c ->
  m_poSourceEHSConnection r = conn_this c ->
  conn_ok (c <| m_poCurrentHttpRequest := Some r |> <| m_sBuffer := b |>).
Proof. intros [Hc Hi Hq] Hn Hid Hsrc. split; [done|exact Hi|exact Hq]. Qed.

(** What an iteration queues and counts. *)
Lemma next_request_ok mode c p w ok c' p' w' :
  next_request mode c p w = (ok, c', p', w') -> conn_ok c ->
  (ok = true -> conn_ok c') /\
  (exists l, m_oHttpRequestList c' = m_oHttpRequestList c ++ l /\ p' = (p + Z.of_nat (length l))%Z).
Proof.
  unfold next_request. intros H Hok. destruct (m_poCurrentHttpRequest c) as [r|] eqn:Ec.
  - case_decide as Hs.
    + assert (exists l, m_oHttpRequestList c ++ [r] = m_oHttpRequestList c ++ l /\
        (p + 1)%Z = (p + Z.of_nat (length l))%Z) as Hl by by exists [r].
      case_decide; [destruct (pthread_create _) as [[] ?]|]; simplify_eq/=; (split; [|exact Hl]); [| |];
        try done; intros _; by apply (conn_ok_push c r).
    + simplify_eq. split; [done|]. exists []. rewrite app_nil_r. simpl. split; [done|lia].
  - simplify_eq/=. split; [intros _; by apply conn_ok_first|]. exists []. rewrite app_nil_r. simpl. split; [done|lia].
Qed.

Lemma add_buffer_loop_ok n mode c p w o c' p' w' :
  add_buffer_loop n mode c p w = Some (o, c', p', w') -> conn_ok c ->
  (o <> Ret ADDBUFFER_NORESOURCE -> conn_ok c') /\
  (exists l, m_oHttpRequestList c' = m_oHttpRequestList c ++ l /\ p' = (p + Z.of_nat (length l))%Z) /\
  conn_this c' = conn_this c.
Proof.
  revert c p w. induction n as [|n IH]; intros c p w; [done|]. cbn [add_buffer_loop].
  pose proof (next_request_frame mode c p w) as Hf.
  destruct (next_request mode c p w) as [[[ok c1] p1] w1] eqn:En.
  destruct Hf as (Hb & Hm & Ht & _). intros Hl Hok.
  destruct (next_request_ok _ _ _ _ _ _ _ _ En Hok) as (Hok1 & l1 & Hl1 & Hp1).
  destruct ok; cbn [negb] in Hl.
  2:{ simplify_eq. split_and!; [done|by exists l1|done]. }
  specialize (Hok1 eq_refl).
  destruct (next_request_current _ _ _ _ _ _ _ _ En eq_refl) as (r & Hr & _ & _). rewrite Hr in Hl.
  destruct (ParseData r (m_sBuffer c1)) as [[[r' b'] o']|] eqn:Hp; [|done].
  destruct (ParseData_id _ _ _ _ _ Hp) as (Hid & Hsrc & _).
  set (c2 := c1 <| m_poCurrentHttpRequest := Some r' |> <| m_sBuffer := b' |>) in *.
  assert (conn_ok c2) as Hok2.
  { destruct Hok1 as [Hc1 Hi1 Hq1]. rewrite Hr in Hc1. destruct Hc1.
    apply conn_ok_parsed; [split; [by rewrite Hr|done..]|by rewrite Hr|congruence|congruence]. }
  assert ((o, c', p', w') = (o, c2, p1, w1) \/ add_buffer_loop n mode c2 p1 w1 = Some (o, c', p', w'))
    as [Heq|Hrec].
  { destruct o'; [|left; by simplify_eq]. destruct (m_nCurrentHttpParseState r'); (by left; simplify_eq) || by right. }
  - simplify_eq. split_and!; [done|by exists l1|done].
  - destruct (IH _ _ _ Hrec Hok2) as (H1 & (l2 & Hl2 & Hp2) & H5).
    split_and!; [done| |by rewrite H5].
    exists (l1 ++ l2). cbn in Hl2. rewrite Hl2, Hl1, <- app_assoc, length_app. split; [done|lia].
Qed.

(** Adding received bytes to a connection always returns or throws.  Whatever
    the bytes, the buffer stays within the configured maximum; unless no thread can
    be created, the queue still holds this connection's complete requests with
    consecutive ids; requests are only appended to the queue, and the server's
    count of pending requests grows by exactly the number appended; a read that
    is empty or would exceed the maximum changes nothing. *)
Theorem AddBuffer_ok mode (data : bytes) (size : Z) c p w
    (Hok : conn_ok c) (Hb : buffer_ok c)
    (Hsz : (size <= Z.of_nat (length data))%Z)
    (Hw : (Z.of_nat (length (m_sBuffer c)) + size < 2 ^ 64)%Z) :
  exists o c' p' w', AddBuffer mode data size c p w = Some (o, c', p', w') /\
    buffer_ok c' /\ (o <> Ret ADDBUFFER_NORESOURCE -> conn_ok c') /\
    (exists l, m_oHttpRequestList c' = m_oHttpRequestList c ++ l /\ p' = (p + Z.of_nat (length l))%Z) /\
    ((size <= 0)%Z -> o = Ret ADDBUFFER_INVALID /\ c' = c /\ w' = w) /\
    ((0 < size)%Z -> (m_nMaxRequestSize c < Z.of_nat (length (m_sBuffer c)) + size)%Z ->
       o = Ret ADDBUFFER_TOOBIG /\ c' = c /\ w' = w).
Proof.
  unfold AddBuffer. destruct (Z.leb_spec size 0).
  { do 4 eexists. split_and!; [done|done|done|exists []; rewrite app_nil_r; simpl; split; [done|lia]|done|lia]. }
  assert (u64 (Z.of_nat (length (m_sBuffer c)) + size) = Z.of_nat (length (m_sBuffer c)) + size)%Z as ->.
  { apply Z.mod_small. lia. }
  destruct (Z.ltb_spec (m_nMaxRequestSize c) (Z.of_nat (length (m_sBuffer c)) + size)).
  { do 4 eexists. split_and!; [done|done|done|exists []; rewrite app_nil_r; simpl; split; [done|lia]|lia|done]. }
  set (c0 := c <| m_sBuffer ::= _ |>).
  destruct (add_buffer_loop_total (add_buffer_fuel c0) mode c0 p w (add_buffer_fuel_enough c0))
    as ([[[o c'] p'] w'] & Hl). rewrite Hl. do 4 eexists. split; [done|].
  assert (conn_ok c0) as Hok0 by by destruct Hok; split.
  destruct (add_buffer_loop_ok _ _ _ _ _ _ _ _ _ Hl Hok0) as (H1 & H2 & _).
  destruct (add_buffer_loop_frame _ _ _ _ _ _ _ _ _ Hl) as [[t Ht] H4].
  split_and!; [|done|exact H2|lia|lia]. unfold buffer_ok. rewrite H4. cbn.
  apply (f_equal length) in Ht. cbn in Ht. rewrite !length_app, length_take in Ht. lia.
Qed.


(** ** Pipelined requests *)

(** A complete request is announced by waking the waiting threads and, in one-thread-per-request
    mode, making a thread for it: the world after [n] requests, or [None] if a thread
    cannot be made. *)
Definition announce (mode : ServerRunningStatus) (w : W) : option W :=
  let w := pthread_cond_broadcast w in
  if decide (mode = SERVERRUNNING_ONETHREADPERREQUEST) then
    match pthread_create w with (Some _, w) => Some w | (None, _) => None end
  else Some w.
Fixpoint announced (mode : ServerRunningStatus) (n : nat) (w : W) : option W :=
  match n with
  | O => Some w
  | S n => announce mode w ≫= announced mode n
  end.

Lemma announced_add mode n m w : announced mode (n + m) w = announced mode n w ≫= announced mode m.
Proof. revert w. induction n as [|n IH]; intros w; [done|]. cbn. destruct (announce mode w) as [w1|]; [apply IH|done]. Qed.

Lemma next_request_between mode c p w :
  between_requests c ->
  match announced mode (length (finished c)) w with
  | Some w' => exists c' r, next_request mode c p w = (true, c', (p + Z.of_nat (length (finished c)))%Z, w') /\
      m_poCurrentHttpRequest c' = Some r /\ fresh_request r /\
      m_sParseContentType r = conn_sParseContentType c /\
      m_oHttpRequestList c' = m_oHttpRequestList c ++ finished c /\
      m_sBuffer c' = m_sBuffer c /\ conn_sParseContentType c' = conn_sParseContentType c
  | None => exists c' p' w', next_request mode c p w = (false, c', p', w')
  end.
Proof.
  intros Hb. unfold next_request, between_requests, finished, announce in *.
  destruct (m_poCurrentHttpRequest c) as [r|] eqn:Ec.
  - destruct Hb as [Hs Hp]. case_decide as Hc.
    + cbn [length announced]. unfold announce. case_decide; [destruct (pthread_create _) as [[t|] w1]; cbn|cbn].
      * do 2 eexists. split_and!; done.
      * by do 3 eexists.
      * do 2 eexists. split_and!; done.
    + destruct Hs as [Hs|Hs]; [done|]. cbn [length announced]. exists c, r. rewrite app_nil_r, Z.add_0_r. by split_and!.
  - cbn [length announced]. do 2 eexists. rewrite app_nil_r, Z.add_0_r. by split_and!.
Qed.

Context {L : BoostLaws B}.

Lemma ParseData_nil r : fresh_request r -> ParseData r [] = Some (r, [], Ret tt).
Proof.
  intros [Hs _ _ _]. rewrite ParseData_unfold, Hs. simpl parse_stopped. cbv iota.
  unfold parse_step. rewrite Hs. reflexivity.
Qed.

(** What becomes of messages, with [w'] the world after they have been announced. *)
Definition pipelined mode (ms : list message) c (p : Z) (w : W) (x : option (res AddBufferResult * EHSConnection * Z * W)) : Prop :=
  match announced mode (length (finished c) + length ms) w with
  | Some w' => exists c' l,
      x = Some (Ret ADDBUFFER_OK, c', (p + Z.of_nat (length (finished c)) + Z.of_nat (length ms))%Z, w') /\
      m_oHttpRequestList c' = m_oHttpRequestList c ++ finished c ++ l /\
      requests_of (conn_sParseContentType c) ms l /\ m_sBuffer c' = [] /\ between_requests c'
  | None => exists c' p' w', x = Some (Ret ADDBUFFER_NORESOURCE, c', p', w')
  end.

Lemma add_buffer_loop_pipeline n mode ms c p w :
  Forall wf_message ms -> between_requests c -> m_sBuffer c = render_all ms -> length ms < n ->
  pipelined mode ms c p w (add_buffer_loop n mode c p w).
Proof.
  intros Hms. unfold pipelined. revert n c p w. induction Hms as [|m ms Hm Hms IH]; intros n c p w Hb Hbuf Hn;
    (destruct n as [|n]; [simpl in Hn; lia|]); cbn [add_buffer_loop]; rewrite announced_add;
    pose proof (next_request_between mode c p w Hb) as Hnr;
    destruct (announced mode (length (finished c)) w) as [w1|]; cbn [mbind option_bind];
    try (destruct Hnr as (c1 & p1 & w1 & ->); by do 3 eexists);
    destruct Hnr as (c1 & r & -> & Hr & Hfr & Hpct & Hl & Hb1 & Hpct1); cbn [negb]; rewrite Hr, Hb1, Hbuf.
  - cbn [render_all length announced]. rewrite ParseData_nil by done. rewrite (fr_state r Hfr).
    eexists. exists []. rewrite Z.add_0_r, app_nil_r. split_and!; [done|done|constructor|done|].
    unfold between_requests. cbn. split; [by right|congruence].
  - cbn [render_all]. destruct (parse_message m r (render_all ms) Hm Hfr) as (r' & Hp & Hreq).
    destruct (ParseData_id _ _ _ _ _ Hp) as (_ & _ & Hpct' & _). rewrite Hp.
    pose proof Hreq as [Hst _]. rewrite Hst.
    set (c2 := c1 <| m_poCurrentHttpRequest := Some r' |> <| m_sBuffer := render_all ms |>).
    assert (finished c2 = [r']) as Hfin by (unfold finished; cbn; by rewrite decide_True).
    assert (between_requests c2) as Hb2 by (split; [by left|cbn; congruence]).
    specialize (IH n c2 (p + Z.of_nat (length (finished c)))%Z w1 Hb2 eq_refl ltac:(simpl in Hn; lia)).
    rewrite Hfin in IH. change (length [r'] + length ms) with (length (m :: ms)) in IH.
    destruct (announced mode (length (m :: ms)) w1) as [w2|]; [|exact IH].
    destruct IH as (c' & l & Hloop & Hlist & Hof & Hb' & Hbet). exists c', (r' :: l). split_and!; [| | |done|done].
    + rewrite Hloop. do 3 f_equal. cbn [length]. lia.
    + rewrite Hlist. cbn. rewrite Hl. by rewrite <- !app_assoc.
    + constructor; [by rewrite <- Hpct|]. cbn in Hof. by rewrite Hpct1 in Hof.
Qed.

Lemma render_length m : 1 <= length (render m).
Proof.
  unfold render, render_line. rewrite !length_app. cbn [length]. lia.
Qed.

Lemma render_all_length ms : length ms <= length (render_all ms).
Proof.
  induction ms as [|m ms IH]; cbn [length render_all]; [lia|].
  rewrite length_app. pose proof (render_length m). lia.
Qed.

Lemma AddBuffer_messages mode (ms : list message) c p w
    (Hms : Forall wf_message ms) (Hne : ms <> []) (Hb : between_requests c) (Hbuf : m_sBuffer c = [])
    (Hsz : (Z.of_nat (length (render_all ms)) < 2 ^ 64)%Z) :
  let x := AddBuffer mode (render_all ms) (Z.of_nat (length (render_all ms))) c p w in
  if (m_nMaxRequestSize c <? Z.of_nat (length (render_all ms)))%Z then x = Some (Ret ADDBUFFER_TOOBIG, c, p, w)
  else pipelined mode ms c p w x.
Proof.
  pose proof (render_all_length ms) as Hlen. pose proof (length_pos ms Hne).
  unfold AddBuffer. destruct (Z.leb_spec (Z.of_nat (length (render_all ms))) 0); [lia|].
  rewrite Hbuf. cbn [length]. unfold u64. rewrite Z.mod_small, Z.add_0_l by lia.
  destruct (m_nMaxRequestSize c <? _)%Z; [done|].
  set (c0 := c <| m_sBuffer ::= _ |>).
  assert (m_sBuffer c0 = render_all ms) as Hb0.
  { unfold c0. cbn. by rewrite Hbuf, Nat2Z.id, firstn_all. }
  apply (add_buffer_loop_pipeline (add_buffer_fuel c0) mode ms c0 p w Hms Hb Hb0).
  unfold add_buffer_fuel. rewrite Hb0. lia.
Qed.

(** C4: a read into an empty buffer that holds any number of well-formed requests, one after
    the other, in every mode of the server.  If they are together longer than the maximal
    request size, nothing is read and the result is [TOOBIG], even though each of them may be
    short enough.  Otherwise it queues exactly the requests the client sent, in the order
    they were sent (after a complete request that was still to be queued), counts each of them
    as pending, and announces each once (the waiting threads are woken; in one-thread-per-
    request mode a thread is made), and it leaves an empty buffer, ready for the next
    request; unless a thread cannot be made, when the result is [NORESOURCE]. *)
Theorem AddBuffer_pipeline mode (ms : list message) c p w
    (Hms : Forall wf_message ms) (Hne : ms <> []) (Hb : between_requests c) (Hbuf : m_sBuffer c = [])
    (Hsz : (Z.of_nat (length (render_all ms)) < 2 ^ 64)%Z) :
  let x := AddBuffer mode (render_all ms) (Z.of_nat (length (render_all ms))) c p w in
  if (m_nMaxRequestSize c <? Z.of_nat (length (render_all ms)))%Z then x = Some (Ret ADDBUFFER_TOOBIG, c, p, w)
  else
    match announced mode (length (finished c) + length ms) w with
    | Some w' => exists c' l,
        x = Some (Ret ADDBUFFER_OK, c', (p + Z.of_nat (length (finished c)) + Z.of_nat (length ms))%Z, w') /\
        m_oHttpRequestList c' = m_oHttpRequestList c ++ finished c ++ l /\
        requests_of (conn_sParseContentType c) ms l /\ m_sBuffer c' = [] /\ between_requests c'
    | None => exists c' p' w', x = Some (Ret ADDBUFFER_NORESOURCE, c', p', w')
    end.
Proof. exact (AddBuffer_messages mode ms c p w Hms Hne Hb Hbuf Hsz). Qed.


(** What the loop queues is counted, whatever the connection's state. *)
Lemma next_request_list mode c p w :
  let '(_, c', p', _) := next_request mode c p w in
  (p' - Z.of_nat (length (m_oHttpRequestList c')) = p - Z.of_nat (length (m_oHttpRequestList c)))%Z.
Proof.
  unfold next_request. destruct (m_poCurrentHttpRequest c); [|done].
  case_decide; [|done]. case_decide; [destruct (pthread_create _) as [[] ?]|];
    cbn -[Z.sub]; rewrite length_app; simpl length; lia.
Qed.

Lemma add_buffer_loop_list n mode c p w o c' p' w' :
  add_buffer_loop n mode c p w = Some (o, c', p', w') ->
  (p' - Z.of_nat (length (m_oHttpRequestList c')) = p - Z.of_nat (length (m_oHttpRequestList c)))%Z /\
  conn_this c' = conn_this c.
Proof.
  revert c p w. induction n as [|n IH]; intros c p w; [done|]. cbn [add_buffer_loop].
  pose proof (next_request_frame mode c p w) as Hf. pose proof (next_request_list mode c p w) as Hn.
  destruct (next_request mode c p w) as [[[ok c2] p2] w2]. destruct Hf as (_ & _ & Ht & _).
  destruct ok; cbn [negb]; [|by intros; simplify_eq].
  destruct (m_poCurrentHttpRequest c2) as [r|]; [|done].
  destruct (ParseData r (m_sBuffer c2)) as [[[r' b'] o']|]; [|done].
  set (c3 := c2 <| m_poCurrentHttpRequest := Some r' |> <| m_sBuffer := b' |>).
  assert (m_oHttpRequestList c3 = m_oHttpRequestList c2 /\ conn_this c3 = conn_this c2) as [Hl3 Ht3] by done.
  intros Hl. destruct o'; [destruct (m_nCurrentHttpParseState r')|]; simplify_eq; try (split; congruence || lia).
  apply IH in Hl as [Hl1 Hl2]. rewrite Hl3, Ht3 in *. split; [lia|congruence].
Qed.

Lemma AddBuffer_total mode data size c p w :
  exists o c' p' w', AddBuffer mode data size c p w = Some (o, c', p', w') /\
    (p' - Z.of_nat (length (m_oHttpRequestList c')) = p - Z.of_nat (length (m_oHttpRequestList c)))%Z /\
    conn_this c' = conn_this c.
Proof.
  unfold AddBuffer. destruct (_ <=? _)%Z; [by do 4 eexists|]. destruct (_ <? _)%Z; [by do 4 eexists|].
  set (c0 := c <| m_sBuffer ::= _ |>).
  destruct (add_buffer_loop_total (add_buffer_fuel c0) mode c0 p w (add_buffer_fuel_enough c0))
    as ([[[o c'] p'] w'] & Hl). rewrite Hl. do 4 eexists. split; [done|].
  by apply add_buffer_loop_list in Hl.
Qed.

(** ** What input leaves alone *)
Lemma next_request_io mode c p (w : W) :
  let '(_, c', _, _) := next_request mode c p w in io_view c' = io_view c.
Proof.
  unfold next_request. destruct (m_poCurrentHttpRequest c); [|done].
  case_decide; [|done]. case_decide; [|done]. by destruct (pthread_create _) as [[] ?].
Qed.

Lemma add_buffer_loop_io n mode c p (w : W) o c' p' w' :
  add_buffer_loop n mode c p w = Some (o, c', p', w') -> io_view c' = io_view c.
Proof.
  revert c p w. induction n as [|n IH]; intros c p w; [done|]. cbn [add_buffer_loop].
  pose proof (next_request_io mode c p w) as Hn. destruct (next_request mode c p w) as [[[ok c1] p1] w1].
  rewrite <- Hn. destruct ok; cbn [negb]; [|by intros; simplify_eq].
  destruct (m_poCurrentHttpRequest c1) as [r|]; [|done].
  destruct (ParseData r (m_sBuffer c1)) as [[[r' b'] o']|]; [|done].
  destruct o'; [|by intros; simplify_eq].
  destruct (m_nCurrentHttpParseState r'); try (by intros; simplify_eq). intros Hl. by rewrite (IH _ _ _ Hl).
Qed.

(** ** Reads and requests are independent *)
Lemma next_request_buffer mode c p w b :
  next_request mode (c <| m_sBuffer := b |>) p w =
  let '(ok, c', p', w') := next_request mode c p w in (ok, c' <| m_sBuffer := b |>, p', w').
Proof.
  unfold next_request.
  change (m_poCurrentHttpRequest (c <| m_sBuffer := b |>)) with (m_poCurrentHttpRequest c).
  destruct (m_poCurrentHttpRequest c) as [r|]; [|done].
  destruct (decide (m_nCurrentHttpParseState r = HTTPPARSESTATE_COMPLETEREQUEST)); [|done].
  destruct (decide (mode = SERVERRUNNING_ONETHREADPERREQUEST)); [|done].
  by destruct (pthread_create _) as [[] ?].
Qed.

Lemma add_buffer_loop_mono n m mode c p w x :
  add_buffer_loop n mode c p w = Some x -> n <= m -> add_buffer_loop m mode c p w = Some x.
Proof.
  revert m c p w. induction n as [|n IH]; intros m c p w; [done|]. intros H Hle.
  destruct m as [|m]; [lia|]. cbn [add_buffer_loop] in *.
  destruct (next_request mode c p w) as [[[ok c1] p1] w1]. destruct ok; cbn [negb] in *; [|done].
  destruct (m_poCurrentHttpRequest c1); [|done].
  destruct (ParseData _ _) as [[[r' b'] o']|]; [|done]. destruct o'; [|done].
  destruct (m_nCurrentHttpParseState r'); try done. apply IH; [done|lia].
Qed.

Lemma add_buffer_loop_segments n mode c p w c1 p1 w1 b d :
  m_sBuffer c = b -> add_buffer_loop n mode c p w = Some (Ret ADDBUFFER_OK, c1, p1, w1) ->
  mid_request c1 ->
  exists n', forall m x,
    add_buffer_loop m mode (c1 <| m_sBuffer ::= fun b => b ++ d |>) p1 w1 = Some x ->
    add_buffer_loop (n' + m) mode (c <| m_sBuffer := b ++ d |>) p w = Some x.
Proof.
  revert c p w b. induction n as [|n IH]; intros c p w b Hb Hl Hmid; [done|].
  cbn [add_buffer_loop] in Hl. pose proof (next_request_frame mode c p w) as Hf.
  destruct (next_request mode c p w) as [[[ok c2] p2] w2] eqn:En. destruct Hf as (Hb2 & _).
  destruct ok; cbn [negb] in Hl; [|done].
  destruct (next_request_current _ _ _ _ _ _ _ _ En eq_refl) as (r & Hr & Hs & _). rewrite Hr in Hl.
  destruct (ParseData r (m_sBuffer c2)) as [[[r' b'] o']|] eqn:Hp; [|done]. destruct o' as [[]|]; [|done].
  set (c3 := c2 <| m_poCurrentHttpRequest := Some r' |> <| m_sBuffer := b' |>) in *.
  assert (m_nCurrentHttpParseState r' = HTTPPARSESTATE_COMPLETEREQUEST /\
      add_buffer_loop n mode c3 p2 w2 = Some (Ret ADDBUFFER_OK, c1, p1, w1) \/
    m_nCurrentHttpParseState r' <> HTTPPARSESTATE_COMPLETEREQUEST /\ (c1, p1, w1) = (c3, p2, w2))
    as [[Hs' Hrec]|[Hs' Heq]].
  { destruct (m_nCurrentHttpParseState r'); simplify_eq; auto. }
  - assert (m_nCurrentHttpParseState r = HTTPPARSESTATE_REQUEST -> is_prefix crlf (m_sBuffer c2) = false) as Hcr.
    { intros Er. destruct (is_prefix crlf _) eqn:Ec; [|done].
      apply is_prefix_spec in Ec as [t Et]. rewrite ParseData_unfold, Er in Hp. simpl parse_stopped in Hp.
      cbv iota in Hp. unfold parse_step, step_request in Hp. rewrite Er, Et, GetNextLine_crlf in Hp.
      rewrite bool_decide_eq_false_2, bool_decide_eq_true_2 in Hp by done. by simplify_eq/=. }
    destruct (IH c3 p2 w2 b' eq_refl Hrec Hmid) as [n' Hn']. exists (S n'). intros m x Hm.
    specialize (Hn' m x Hm). cbn [add_buffer_loop Nat.add]. rewrite next_request_buffer, En. cbn [negb].
    change (m_poCurrentHttpRequest (c2 <| m_sBuffer := b ++ d |>)) with (m_poCurrentHttpRequest c2).
    rewrite Hr. change (m_sBuffer (c2 <| m_sBuffer := b ++ d |>)) with (b ++ d).
    rewrite <- Hb, <- Hb2.
    rewrite (ParseData_segments_aux _ r (m_sBuffer c2) d r' b' (Ret tt) (Nat.le_refl _) Hcr Hp) by (by rewrite Hs').
    rewrite ParseData_unfold, Hs'. cbn [parse_stopped]. cbv iota beta. rewrite Hs'. exact Hn'.
  - simplify_eq. destruct Hmid as [Hm1 Hm2]. cbn in Hm1, Hm2.
    assert (m_nCurrentHttpParseState r = HTTPPARSESTATE_REQUEST -> is_prefix crlf (m_sBuffer c2) = false) as Hcr.
    { intros Er. destruct (is_prefix crlf _) eqn:Ec; [|done].
      apply is_prefix_spec in Ec as [t Et]. rewrite ParseData_unfold, Er in Hp. simpl parse_stopped in Hp.
      cbv iota in Hp. unfold parse_step, step_request in Hp. rewrite Er, Et, GetNextLine_crlf in Hp.
      rewrite bool_decide_eq_false_2, bool_decide_eq_true_2 in Hp by done. by simplify_eq/=. }
    exists 0. intros [|m] x Hm; [done|]. cbn [Nat.add]. cbn [add_buffer_loop] in *.
    rewrite next_request_buffer, En. cbn [negb].
    change (m_poCurrentHttpRequest (c2 <| m_sBuffer := m_sBuffer c ++ d |>)) with (m_poCurrentHttpRequest c2).
    rewrite Hr. change (m_sBuffer (c2 <| m_sBuffer := m_sBuffer c ++ d |>)) with (m_sBuffer c ++ d).
    rewrite <- Hb2.
    rewrite (ParseData_segments_aux _ r (m_sBuffer c2) d r' b' (Ret tt) (Nat.le_refl _) Hcr Hp) by done.
    unfold next_request at 1 in Hm. cbn in Hm. rewrite decide_False in Hm by done. cbn in Hm. exact Hm.
Qed.


(** It does not matter whether two pieces of input arrive in one read or in
    two, when the first ends after the request line of a request and not within
    a chunk: the result, the queue, the counters and the effects are the same. *)
Theorem AddBuffer_segments mode (d1 d2 : bytes) c p w c1 p1 w1
    (H1 : AddBuffer mode d1 (Z.of_nat (length d1)) c p w = Some (Ret ADDBUFFER_OK, c1, p1, w1))
    (Hmid : mid_request c1) (Hd2 : d2 <> [])
    (Hmax : (Z.of_nat (length (m_sBuffer c)) + Z.of_nat (length (d1 ++ d2)) <= m_nMaxRequestSize c)%Z)
    (Hw : (m_nMaxRequestSize c < 2 ^ 64)%Z) :
  AddBuffer mode (d1 ++ d2) (Z.of_nat (length (d1 ++ d2))) c p w =
  AddBuffer mode d2 (Z.of_nat (length d2)) c1 p1 w1.
Proof.
  pose proof (length_pos d2 Hd2) as Hl2. unfold AddBuffer in H1.
  rewrite length_app in Hmax.
  destruct (Z.leb_spec (Z.of_nat (length d1)) 0) as [|Hl1]; [done|].
  destruct (Z.ltb_spec (m_nMaxRequestSize c) (u64 (Z.of_nat (length (m_sBuffer c)) + Z.of_nat (length d1))));
    [done|].
  rewrite Nat2Z.id, firstn_all in H1. set (c0 := c <| m_sBuffer ::= _ |>) in H1.
  assert (m_sBuffer c0 = m_sBuffer c ++ d1) as Hb0 by done.
  destruct (add_buffer_loop_segments _ _ _ _ _ _ _ _ _ d2 Hb0 H1 Hmid) as [n' Hn'].
  destruct (add_buffer_loop_frame _ _ _ _ _ _ _ _ _ H1) as [[t Ht] Hm1].
  change (m_nMaxRequestSize c0) with (m_nMaxRequestSize c) in Hm1.
  assert (length (m_sBuffer c1) <= length (m_sBuffer c) + length d1) as Hlen.
  { rewrite Hb0 in Ht. apply (f_equal length) in Ht. rewrite !length_app in Ht. lia. }
  unfold AddBuffer. rewrite length_app.
  destruct (Z.leb_spec (Z.of_nat (length d1 + length d2)) 0); [lia|].
  destruct (Z.leb_spec (Z.of_nat (length d2)) 0); [lia|].
  rewrite Hm1. unfold u64. rewrite !Z.mod_small by lia.
  destruct (Z.ltb_spec (m_nMaxRequestSize c)
    (Z.of_nat (length (m_sBuffer c)) + Z.of_nat (length d1 + length d2))); [lia|].
  destruct (Z.ltb_spec (m_nMaxRequestSize c) (Z.of_nat (length (m_sBuffer c1)) + Z.of_nat (length d2))); [lia|].
  rewrite !Nat2Z.id, <- length_app, !firstn_all.
  set (ca := c <| m_sBuffer ::= _ |>). set (cb := c1 <| m_sBuffer ::= _ |>).
  destruct (add_buffer_loop_total (add_buffer_fuel cb) mode cb p1 w1 (add_buffer_fuel_enough cb)) as [x Hx].
  rewrite Hx. specialize (Hn' _ _ Hx).
  assert (c0 <| m_sBuffer := (m_sBuffer c ++ d1) ++ d2 |> = ca) as Hca.
  { unfold c0, ca. cbn. by rewrite app_assoc. }
  rewrite Hca in Hn'.
  destruct (add_buffer_loop_total (add_buffer_fuel ca) mode ca p w (add_buffer_fuel_enough ca)) as [y Hy].
  rewrite Hy. destruct (Nat.le_ge_cases (n' + add_buffer_fuel cb) (add_buffer_fuel ca)) as [Hle|Hle].
  - by rewrite (add_buffer_loop_mono _ _ _ _ _ _ _ Hn' Hle) in Hy.
  - by rewrite (add_buffer_loop_mono _ _ _ _ _ _ _ Hy Hle) in Hn'.
Qed.


(** ** Output *)

(** An HTTP response to a connected client, when the head can be sent and the
    protocol is not switched. *)
Lemma SendResponse_sent rsh beyond h c w :
  m_bDisconnected c = false -> m_nResponseCode h <> HTTPRESPONSECODE_101_SWITCHING_PROTOCOLS ->
  (na_Send (m_poNetworkAbstraction c) (response_head h) w).1 <> (-1)%Z -> length_ok h ->
  SendResponse rsh beyond (Http h) c w =
    (count_response (if bool_decide (Header h #"connection" = #"close") then DoneReading false c else c),
     let w1 := (na_Send (m_poNetworkAbstraction c) (response_head h) w).2 in
     if bool_decide (gr_sBody (hr_base h) = []) then w1
     else (na_Send (m_poNetworkAbstraction c) (gr_sBody (hr_base h)) w1).2).
Proof.
  intros Hd Hc Hr [Hl Hl2]. unfold SendResponse, Disconnected. rewrite Hd.
  destruct (na_Send _ _ w) as [r w1]. cbn [fst snd] in *. apply Z.eqb_neq in Hr. rewrite Hr.
  cbn [negb andb]. rewrite (bool_decide_eq_false_2 _ Hc), (bool_decide_eq_true_2 _ Hc).
  rewrite andb_true_r, orb_false_r, Hl, atoi_print by lia.
  f_equal. destruct (gr_sBody (hr_base h)) as [|a s]; [done|].
  rewrite (bool_decide_eq_false_2 (a :: s = [])) by done.
  destruct (Z.ltb_spec 0 (Z.of_nat (length (a :: s)))); [|simpl length in *; lia].
  by rewrite Nat2Z.id, take_app_length.
Qed.

Lemma SendResponse_counts rsh beyond h c w :
  let c' := (SendResponse rsh beyond (Http h) c w).1 in
  m_nResponses c' = (m_nResponses c + 1)%Z /\ m_nActiveRequests c' = (m_nActiveRequests c - 1)%Z /\
  m_nRequests c' = m_nRequests c /\ m_oHttpRequestList c' = m_oHttpRequestList c /\
  m_poCurrentHttpRequest c' = m_poCurrentHttpRequest c /\ conn_this c' = conn_this c.
Proof.
  unfold SendResponse. destruct (Disconnected c); [by split_and!|].
  destruct (na_Send _ _ _) as [r w1]. destruct (negb _ && _); [by split_and!|].
  by destruct (_ || _); split_and!.
Qed.

Lemma SendResponse_frame rsh beyond r c w :
  let c' := (SendResponse rsh beyond r c w).1 in
  m_oHttpRequestList c' = m_oHttpRequestList c /\ conn_this c' = conn_this c.
Proof.
  destruct r as [g|h].
  - unfold SendResponse. destruct (Disconnected c); [done|].
    destruct (bool_decide _); [destruct (na_Send _ _ _) as [r w1]; by destruct (r =? -1)%Z|done].
  - by destruct (SendResponse_counts rsh beyond h c w) as (_ & _ & _ & ? & _ & ?).
Qed.

Lemma send_queue_frame rsh beyond q c w :
  let c' := (send_queue rsh beyond q c w).1 in
  m_oHttpRequestList c' = m_oHttpRequestList c /\ conn_this c' = conn_this c.
Proof.
  revert c w. induction q as [|r q IH]; intros c w; cbn [send_queue]; [done|].
  pose proof (SendResponse_frame rsh beyond r (c <| m_oResponseQueue := q |>) w) as [H1 H2].
  destruct (SendResponse rsh beyond r (c <| m_oResponseQueue := q |>) w) as [c1 w1].
  destruct (IH (UpdateLastActivity w1 c1) w1) as [H3 H4]. simpl in *. split; congruence.
Qed.

Lemma conn_AddResponse_empty rsh beyond r c w :
  m_oResponseQueue c = [] ->
  conn_AddResponse rsh beyond r c w =
    let '(c', w') := SendResponse rsh beyond r c w in (UpdateLastActivity w' c', w').
Proof.
  intros Hq. unfold conn_AddResponse. cbn [m_oResponseQueue update]. rewrite Hq. cbn [app send_queue].
  match goal with |- context [SendResponse _ _ _ ?x _] => assert (x = c) as -> end; [|done].
  destruct c. simpl in Hq. by subst.
Qed.

(** C15: what a call of [SendResponse] does when no other thread sends on the connection.  An
    HTTP response is counted once, on every path (a failing send or a client that has gone
    included), and a generic one never; nothing is sent to a client that has gone.  To a
    client that is there the status line, headers and cookies are sent first.  If that
    succeeds, the response does not switch protocols (its code is not 101), and its
    Content-Length header is the length of its body, less than 2^31 ([length_ok]), exactly the
    body follows; if the code is 101, the connection becomes raw and the raw handler, if
    there is one, is told, and no body follows.  A failing head, [Connection: close] (without
    101) and an empty generic body end the reading of the connection.  [AddResponse] does this
    and no more, apart from noting the time, if no response was queued before. *)
Theorem SendResponse_spec rsh beyond (h : HttpResponse) (g : GenericResponse) c w :
  let n := m_poNetworkAbstraction c in
  let '(c', w') := SendResponse rsh beyond (Http h) c w in
  let '(cg, wg) := SendResponse rsh beyond (Generic g) c w in
  (m_nResponses c' = m_nResponses c + 1 /\ m_nActiveRequests c' = m_nActiveRequests c - 1 /\
   m_nResponses cg = m_nResponses c /\ m_nActiveRequests cg = m_nActiveRequests c)%Z /\
  (m_bDisconnected c = true -> w' = w /\ wg = w) /\
  (m_bDisconnected c = false -> m_nResponseCode h <> HTTPRESPONSECODE_101_SWITCHING_PROTOCOLS ->
     (na_Send n (response_head h) w).1 <> (-1)%Z -> length_ok h ->
     let w1 := (na_Send n (response_head h) w).2 in
     w' = if bool_decide (gr_sBody (hr_base h) = []) then w1 else (na_Send n (gr_sBody (hr_base h)) w1).2) /\
  (m_bDisconnected c = false -> m_nResponseCode h = HTTPRESPONSECODE_101_SWITCHING_PROTOCOLS ->
     (na_Send n (response_head h) w).1 <> (-1)%Z ->
     let w1 := (na_Send n (response_head h) w).2 in
     IsRaw c' = true /\ w' = if rsh : bool then rsh_OnConnect (conn_this c) w1 else w1) /\
  (m_bDisconnected c = false -> (na_Send n (response_head h) w).1 = (-1)%Z ->
     StillReading c' = false /\ w' = (na_Send n (response_head h) w).2) /\
  (m_bDisconnected c = false -> m_nResponseCode h <> HTTPRESPONSECODE_101_SWITCHING_PROTOCOLS ->
     Header h #"connection" = #"close" -> StillReading c' = false) /\
  (m_bDisconnected c = false -> gr_sBody g = [] -> StillReading cg = false) /\
  (m_oResponseQueue c = [] ->
     conn_AddResponse rsh beyond (Http h) c w = (UpdateLastActivity w' c', w')).
Proof.
  cbv zeta. pose proof (SendResponse_counts rsh beyond h c w) as Hcnt.
  pose proof (SendResponse_sent rsh beyond h c w) as Hsent.
  pose proof (conn_AddResponse_empty rsh beyond (Http h) c w) as Hadd.
  destruct (SendResponse rsh beyond (Http h) c w) as [c' w'] eqn:Eh.
  destruct (SendResponse rsh beyond (Generic g) c w) as [cg wg] eqn:Eg. cbn [fst] in Hcnt.
  destruct Hcnt as (Hc1 & Hc2 & _).
  unfold SendResponse in Eg.
  assert (m_nResponses cg = m_nResponses c /\ m_nActiveRequests cg = m_nActiveRequests c) as [Hg1 Hg2].
  { destruct (Disconnected c); [by simplify_eq|]. destruct (bool_decide (0 < length (gr_sBody g))).
    - destruct (na_Send _ (gr_sBody g) w) as [r w1]. destruct (r =? -1)%Z; by simplify_eq.
    - by simplify_eq. }
  split; [done|]. split; [intros Hd|split; [intros Hd Hcode Hr Hlen|split; [intros Hd Hcode Hr|split; [intros Hd Hr|
    split; [intros Hd Hcode Hh|split; [intros Hd Hb|exact Hadd]]]]]].
  - unfold SendResponse, Disconnected in Eh, Eg. rewrite Hd in Eh, Eg. by simplify_eq.
  - specialize (Hsent Hd Hcode Hr Hlen). by simplify_eq.
  - unfold SendResponse, Disconnected in Eh. rewrite Hd in Eh. destruct (na_Send _ _ w) as [r w1] eqn:Es.
    cbn [fst] in Hr. rewrite (proj2 (Z.eqb_neq _ _) Hr), (bool_decide_eq_true_2 _ Hcode) in Eh. cbn [negb andb] in Eh. by simplify_eq.
  - unfold SendResponse, Disconnected in Eh. rewrite Hd in Eh. destruct (na_Send _ _ w) as [r w1] eqn:Es.
    simpl in Hr. subst r. cbn in Eh. rewrite orb_true_r in Eh. by simplify_eq.
  - unfold SendResponse, Disconnected in Eh. rewrite Hd in Eh. destruct (na_Send _ _ w) as [r w1] eqn:Es.
    rewrite (bool_decide_eq_false_2 _ Hcode), andb_false_r, (bool_decide_eq_true_2 _ Hcode),
      (bool_decide_eq_true_2 _ Hh) in Eh. cbn [andb orb] in Eh. by simplify_eq.
  - unfold Disconnected in Eg. rewrite Hd, Hb in Eg. by simplify_eq/=.
Qed.


(** ** Accounting *)
Lemma next_request_balanced mode c p w c' p' w' :
  next_request mode c p w = (true, c', p', w') -> balanced c -> balanced c'.
Proof.
  unfold next_request, balanced. destruct (m_poCurrentHttpRequest c) as [r|] eqn:Ec.
  - case_decide; [|by intros; simplify_eq; rewrite Ec].
    case_decide; [destruct (pthread_create _) as [[] ?]|]; intros; simplify_eq/=; [|].
    all: rewrite length_app; simpl length; lia.
  - intros; simplify_eq/=. lia.
Qed.

Lemma add_buffer_loop_balanced n mode c p w o c' p' w' :
  add_buffer_loop n mode c p w = Some (o, c', p', w') -> o <> Ret ADDBUFFER_NORESOURCE ->
  balanced c -> balanced c'.
Proof.
  revert c p w. induction n as [|n IH]; intros c p w; [done|]. cbn [add_buffer_loop].
  destruct (next_request mode c p w) as [[[ok c2] p2] w2] eqn:En. intros Hl Hne Hb.
  destruct ok; cbn [negb] in Hl; [|by simplify_eq].
  pose proof (next_request_balanced _ _ _ _ _ _ _ En Hb) as Hb2.
  destruct (m_poCurrentHttpRequest c2) as [r|] eqn:Er; [|done].
  destruct (ParseData r (m_sBuffer c2)) as [[[r' b'] o']|] eqn:Hp; [|done].
  set (c3 := c2 <| m_poCurrentHttpRequest := Some r' |> <| m_sBuffer := b' |>) in *.
  assert (balanced c3) as Hb3.
  { unfold balanced in *. rewrite Er in Hb2. unfold c3. cbn. exact Hb2. }
  destruct o'; [|by simplify_eq]. destruct (m_nCurrentHttpParseState r'); simplify_eq; try done.
  by eapply IH.
Qed.

(** C16: the books of a connection balance: the requests begun before the current
    one are the answered, the active and the queued ones.  Receiving data (unless
    no thread can be created), taking a request and answering it all keep the
    balance, so a connection that has stopped reading, and has begun a request, is found done
    exactly when the active and the queued requests add up to at most 0 (or to 1, if
    no request is being read).  They add up to 0 when there is none of either; but an error answer
    takes 1 off the active ones although it answers none of them, so the sum can be 0 with a
    request still being handled, or queued.  A connection that is being read is never found done. *)
Theorem connection_balance mode rsh beyond (data : bytes) (size : Z) (h : HttpResponse) c p w
    (Hb : balanced c) :
  (forall o c' p' w', AddBuffer mode data size c p w = Some (o, c', p', w') ->
     o <> Ret ADDBUFFER_NORESOURCE -> balanced c') /\
  balanced (conn_GetNextRequest c).2 /\
  balanced (SendResponse rsh beyond (Http h) c w).1 /\
  (forall d, (CheckDone (DoneReading d c) w).1 = true <->
     (m_nActiveRequests c + Z.of_nat (length (m_oHttpRequestList c)) <=
      if m_poCurrentHttpRequest c then 0 else 1)%Z) /\
  (StillReading c = true -> CheckDone c w = (false, w)).
Proof.
  split; [|split; [|split; [|split]]].
  - intros o c' p' w' H Hne. unfold AddBuffer in H.
    destruct (_ <=? _)%Z; [by simplify_eq|]. destruct (_ <? _)%Z; [by simplify_eq|].
    by eapply add_buffer_loop_balanced.
  - unfold conn_GetNextRequest, balanced in *.
    destruct (m_oHttpRequestList c) as [|r l] eqn:El; simpl; [by rewrite El|].
    simpl length in Hb. lia.
  - destruct (SendResponse_counts rsh beyond h c w) as (H1 & H2 & H3 & H4 & H5 & _).
    unfold balanced in *. rewrite H1, H2, H3, H4, H5. lia.
  - intros d. unfold balanced in Hb. unfold CheckDone. cbn.
    destruct (Z.leb_spec (m_nRequests c - 1) (m_nResponses c)), (m_poCurrentHttpRequest c);
      simpl; split; intros; try done; lia.
  - intros H. unfold CheckDone. by rewrite H.
Qed.

(** The immediate answer to a malformed or oversized request is itself counted
    as a response, so a connection on which one earlier request is still being
    handled is found done, and deleted, before that request is answered. *)
Theorem error_answer_drops_request rsh beyond (stale : bytes) (code : ResponseCode) c w
    (Hb : balanced c) (Hc : m_poCurrentHttpRequest c <> None)
    (Ha : m_nActiveRequests c = 1%Z) (Hq : m_oHttpRequestList c = [])
    (Hd : m_bDisconnected c = false) (Hr : m_bDoneReading c = false) :
  let '(c1, w1) := SendResponse rsh beyond (Http (Error stale (time w) code 0 (Some (conn_this c)))) c w in
  CheckDone (DoneReading false c) w = (false, w) /\
  (CheckDone (DoneReading false c1) w1).1 = true.
Proof.
  pose proof (SendResponse_counts rsh beyond (Error stale (time w) code 0 (Some (conn_this c))) c w) as Hcnt.
  destruct (SendResponse _ _ _ _ _) as [c1 w1]. cbn [fst] in Hcnt. destruct Hcnt as (H1 & H2 & H3 & H4 & H5 & _).
  unfold balanced in Hb. destruct (m_poCurrentHttpRequest c); [|done]. rewrite Hq, Ha in Hb. simpl length in Hb.
  unfold CheckDone. cbn. rewrite H1, H3.
  destruct (Z.leb_spec (m_nRequests c - 1) (m_nResponses c)); [lia|].
  by destruct (Z.leb_spec (m_nRequests c - 1) (m_nResponses c + 1)); [|lia].
Qed.

End facts.

(** ** Concrete instances *)
Definition example_world : script := MkScript 1000 [] [] true true [] [].
Definition example_conn : EHSConnection := EHSConnection_new (E := script_env) 7 3 example_world.
Definition example_bytes : bytes := #"GET / HTTP/1.0" ++ crlf ++ #"Ho".

Lemma example_conn_ok : conn_ok example_conn.
Proof. by repeat constructor. Qed.

Lemma AddBuffer_ok_witness :
  exists o c' p' w', AddBuffer (E := script_env) (B := perl_boost) SERVERRUNNING_SINGLETHREADED
      example_bytes (Z.of_nat (length example_bytes)) example_conn 0 example_world =
    Some (o, c', p', w') /\ buffer_ok c' /\ (o <> Ret ADDBUFFER_NORESOURCE -> conn_ok c').
Proof.
  destruct (AddBuffer_ok (E := script_env) (B := perl_boost) SERVERRUNNING_SINGLETHREADED
    example_bytes (Z.of_nat (length example_bytes)) example_conn 0 example_world)
    as (o & c' & p' & w' & H1 & H2 & H3 & _).
  - exact example_conn_ok.
  - vm_compute. discriminate.
  - reflexivity.
  - reflexivity.
  - exists o, c', p', w'. split; [exact H1|]. split; [exact H2|exact H3].
Defined.

(** Two requests in a read, in two modes; and when they are too long together. *)
Definition two_messages : bytes := render_all [example_message; example_message].
Lemma AddBuffer_pipeline_witness :
  (forall mode, mode = SERVERRUNNING_THREADPOOL \/ mode = SERVERRUNNING_ONETHREADPERREQUEST ->
    exists c' w' l,
      AddBuffer (E := script_env) (B := perl_boost) mode two_messages (Z.of_nat (length two_messages)) example_conn 0 example_world =
        Some (Ret ADDBUFFER_OK, c', 2%Z, w') /\
      m_oHttpRequestList c' = l /\ requests_of (B := perl_boost) [] [example_message; example_message] l) /\
  let c := SetMaxRequestSize (Z.of_nat (length (render example_message))) example_conn in
  AddBuffer (E := script_env) (B := perl_boost) SERVERRUNNING_THREADPOOL two_messages (Z.of_nat (length two_messages)) c 0 example_world =
    Some (Ret ADDBUFFER_TOOBIG, c, 0%Z, example_world).
Proof.
  assert (Forall wf_message [example_message; example_message]) as Hms by (repeat (constructor; [exact example_message_wf|]); constructor).
  split.
  - intros mode Hmode.
    pose proof (AddBuffer_pipeline (E := script_env) (B := perl_boost) (L := perl_boost_laws)
      mode [example_message; example_message] example_conn 0 example_world Hms ltac:(discriminate) I eq_refl ltac:(vm_compute; reflexivity)) as H.
    cbv zeta in H. destruct (_ <? _)%Z eqn:Hlt in H; [vm_compute in Hlt; discriminate|].
    destruct (announced mode _ example_world) as [w'|] eqn:Ha.
    + destruct H as (c' & l & H1 & H2 & H3 & _). exists c', w', l. split; [exact H1|]. split; [exact H2|exact H3].
    + destruct Hmode as [-> | ->]; vm_compute in Ha; discriminate.
  - set (c := SetMaxRequestSize _ example_conn).
    pose proof (AddBuffer_pipeline (E := script_env) (B := perl_boost) (L := perl_boost_laws)
      SERVERRUNNING_THREADPOOL [example_message; example_message] c 0 example_world Hms ltac:(discriminate) I eq_refl ltac:(vm_compute; reflexivity)) as H.
    cbv zeta in H. destruct (_ <? _)%Z eqn:Hlt in H; [exact H|vm_compute in Hlt; discriminate].
Defined.

Lemma AddBuffer_segments_witness :
  exists c1 p1 w1,
    AddBuffer (E := script_env) (B := perl_boost) SERVERRUNNING_THREADPOOL example_bytes
      (Z.of_nat (length example_bytes)) example_conn 0 example_world = Some (Ret ADDBUFFER_OK, c1, p1, w1) /\
    AddBuffer (E := script_env) (B := perl_boost) SERVERRUNNING_THREADPOOL (example_bytes ++ #"st: a")
      (Z.of_nat (length (example_bytes ++ #"st: a"))) example_conn 0 example_world =
    AddBuffer (E := script_env) (B := perl_boost) SERVERRUNNING_THREADPOOL #"st: a" 5 c1 p1 w1.
Proof.
  destruct (AddBuffer (E := script_env) (B := perl_boost) SERVERRUNNING_THREADPOOL example_bytes
    (Z.of_nat (length example_bytes)) example_conn 0 example_world) as [[[[o c1] p1] w1]|] eqn:E1.
  2:{ vm_compute in E1. discriminate. }
  exists c1, p1, w1. assert (o = Ret ADDBUFFER_OK) as -> by (vm_compute in E1; congruence).
  split; [reflexivity|].
  apply (AddBuffer_segments (E := script_env) (B := perl_boost) SERVERRUNNING_THREADPOOL
    example_bytes #"st: a" example_conn 0 example_world c1 p1 w1 E1).
  - vm_compute in E1. injection E1 as <- <- <-. split; discriminate.
  - discriminate.
  - vm_compute. discriminate.
  - reflexivity.
Defined.

(** Two requests are read, one is taken and answered, and one is still queued when the client
    goes; when it has been taken and answered, too, the connection is found done. *)
Definition read_two : EHSConnection :=
  match AddBuffer (E := script_env) (B := perl_boost) SERVERRUNNING_THREADPOOL two_messages (Z.of_nat (length two_messages))
    example_conn 0 example_world with Some (_, c, _, _) => c | None => example_conn end.
Definition take_and_answer (c : EHSConnection) : EHSConnection :=
  (SendResponse (E := script_env) false [] (Http (Error [] 0 HTTPRESPONSECODE_200_OK 1 None)) (conn_GetNextRequest c).2 example_world).1.
Definition is_done (c : EHSConnection) : bool := (CheckDone (E := script_env) (DoneReading true c) example_world).1.

Lemma connection_balance_witness :
  balanced example_conn /\ balanced read_two /\ balanced (take_and_answer read_two) /\
  length (m_oHttpRequestList (take_and_answer read_two)) = 1 /\ is_done (take_and_answer read_two) = false /\
  m_oHttpRequestList (take_and_answer (take_and_answer read_two)) = [] /\ is_done (take_and_answer (take_and_answer read_two)) = true.
Proof.
  set (theorem := fun c => connection_balance (E := script_env) (B := perl_boost) SERVERRUNNING_THREADPOOL false [] two_messages
    (Z.of_nat (length two_messages)) (Error [] 0 HTTPRESPONSECODE_200_OK 1 None) c 0 example_world).
  assert (forall c, balanced c -> balanced (take_and_answer c)) as Hstep.
  { intros c Hc. unfold take_and_answer. apply theorem. by apply theorem. }
  assert (balanced example_conn) as H0 by reflexivity. destruct (theorem _ H0) as (H1 & _).
  assert (balanced read_two) as H2.
  { unfold read_two. destruct (AddBuffer _ _ _ _ _ _) as [[[[o c'] p'] w']|] eqn:E1; [|exact H0].
    apply (H1 _ _ _ _ eq_refl). intros ->. vm_compute in E1. discriminate. }
  pose proof (Hstep _ H2) as H3. pose proof (Hstep _ H3) as H4.
  split; [exact H0|]. split; [exact H2|]. split; [exact H3|]. split; [vm_compute; reflexivity|]. split; [|split; [vm_compute; reflexivity|]].
  - unfold is_done. destruct (theorem _ H3) as (_ & _ & _ & H5 & _). apply not_true_iff_false. rewrite H5.
    vm_compute. intros Hle. by apply Hle.
  - unfold is_done. destruct (theorem _ H4) as (_ & _ & _ & H5 & _). apply H5. vm_compute. discriminate.
Defined.

Definition example_busy : EHSConnection :=
  example_conn <| m_poCurrentHttpRequest := Some (HttpRequest_init 2 7 []) |>
    <| m_nRequests := 2%Z |> <| m_nActiveRequests := 1%Z |>.

Lemma error_answer_drops_request_witness :
  let '(c1, w1) := SendResponse (E := script_env) false [] (Http (Error [] 1000 HTTPRESPONSECODE_400_BADREQUEST 0
    (Some 7))) example_busy example_world in
  (CheckDone (E := script_env) (DoneReading false example_busy) example_world).1 = false /\
  (CheckDone (E := script_env) (DoneReading false c1) w1).1 = true.
Proof.
  pose proof (error_answer_drops_request (E := script_env) false [] [] HTTPRESPONSECODE_400_BADREQUEST
    example_busy example_world eq_refl ltac:(discriminate) eq_refl eq_refl eq_refl eq_refl) as H.
  exact (conj eq_refl (proj2 H)).
Defined.
