(* ===== verification/Server.v ===== *)
(** * [EHSServer] (ehs.cpp, ehsserver.h)

    The server: the list of connections, the count of pending requests, who is
    accepting, and the work of one server thread.  The application behind the
    top-level [EHS] object is the class [App]; random numbers are arguments. *)
From S2P Require Import Prelude Boost StdMap Datum EhsTypes HttpRequest HttpResponse Network Connection.

Class App (W : Type) : Type := {
  RouteRequest : HttpRequest -> W -> res HttpResponse * W;
  ThreadInitHandler : W -> bool * W;
  ThreadExitHandler : W -> W;
  HandleThreadException : thread_id -> option HttpRequest -> exn -> W -> option response * W;
  has_RawSocketHandler : bool
}.

Abbreviation EHSServerParameters := (list (bytes * Datum)).

(** ** Data *)
Record EHSServer : Type := MkEHSServer {
  m_nServerRunningStatus : ServerRunningStatus;
  m_oParams : EHSServerParameters;       (* of the top-level EHS object *)
  m_bAcceptedNewConnection : bool;
  m_nRequestsPending : Z;
  m_bAccepting : bool;
  m_oReadFds : list Z;
  m_oEHSConnectionList : list EHSConnection;
  srv_network : na_id;
  m_nAcceptThreadId : thread_id;
  m_nIdleTimeout : Z;
  m_nThreads : Z;
  m_oCurrentRequest : gmap Z HttpRequest; (* no entry for a null pointer *)
  srv_next_conn : conn_id                 (* the address of the next connection object *)
}.
#[export] Instance eta_EHSServer : Eta EHSServer := fun s =>
  MkEHSServer (m_nServerRunningStatus s) (m_oParams s) (m_bAcceptedNewConnection s)
    (m_nRequestsPending s) (m_bAccepting s) (m_oReadFds s) (m_oEHSConnectionList s)
    (srv_network s) (m_nAcceptThreadId s) (m_nIdleTimeout s) (m_nThreads s)
    (m_oCurrentRequest s) (srv_next_conn s).

(** What the other threads do while a thread is in [pthread_cond_wait], up to the broadcast that
    lets it go on ([pthread_cond_wait] also takes the mutex again): the server and the world
    as the thread finds them, and [None] when nobody ever broadcasts, so that the thread waits
    for good. *)
Class OtherThreads (W : Type) : Type := {
  pthread_cond_wait : EHSServer -> W -> option (EHSServer * W)
}.

(** In single-threaded mode there is no other thread of the server. *)
Definition no_other_threads {W} : OtherThreads W := {| pthread_cond_wait _ _ := None |}.

Definition RAND_MAX : Z := 2147483647.

Definition has_param (k : bytes) (s : EHSServer) : bool := bool_decide (is_Some (sm_find k (m_oParams s))).
Definition param (k : bytes) (s : EHSServer) : Datum := default datum_empty (sm_find k (m_oParams s)).

Definition RunningStatus (s : EHSServer) : ServerRunningStatus := m_nServerRunningStatus s.
Definition AcceptedNewConnection (s : EHSServer) : bool := m_bAcceptedNewConnection s.
Definition srv_RequestsPending (s : EHSServer) : Z := m_nRequestsPending s.

(** Updating the connection object at an address. *)
Fixpoint update_conn (id : conn_id) (f : EHSConnection -> EHSConnection) (l : list EHSConnection) : list EHSConnection :=
  match l with
  | [] => []
  | c :: l' => if decide (conn_this c = id) then f c :: l' else c :: update_conn id f l'
  end.
Fixpoint find_conn (id : conn_id) (l : list EHSConnection) : option EHSConnection :=
  match l with
  | [] => None
  | c :: l' => if decide (conn_this c = id) then Some c else find_conn id l'
  end.

(** ** What requests and responses ask of their connection

    They keep a pointer to it, which the code does not check: [None] is the use of a
    connection that has been deleted.  A response without a connection does nothing. *)
Section asked.
Variables (request : HttpRequest) (s : EHSServer).
Definition Connection : option EHSConnection := find_conn (m_poSourceEHSConnection request) (m_oEHSConnectionList s).
Definition RemoteAddress : option bytes := m_sRemoteAddress <$> Connection.
Definition RemotePort : option Z := m_nRemotePort <$> Connection.
Definition LocalAddress : option bytes := m_sLocalAddress <$> Connection.
Definition LocalPort : option Z := m_nLocalPort <$> Connection.
Definition ClientDisconnected : option bool := Disconnected <$> Connection.
End asked.

Definition resp_EnableIdleTimeout (enable : bool) (r : response) (s : EHSServer) : option EHSServer :=
  match m_poEHSConnection (response_base r) with
  | Some id =>
      if find_conn id (m_oEHSConnectionList s)
      then Some (s <| m_oEHSConnectionList ::= update_conn id (EnableIdleTimeout enable) |>) else None
  | None => Some s
  end.
Definition resp_EnableKeepAlive {W} {E : Env W} (enable : bool) (r : response) (s : EHSServer) (w : W) : option W :=
  match m_poEHSConnection (response_base r) with
  | Some id => (fun c => EnableKeepAlive enable c w) <$> find_conn id (m_oEHSConnectionList s)
  | None => Some w
  end.

(** ** Pending requests *)

(** The circular search of [GetNextRequest]: [k] connections from position [i] on. *)
Fixpoint next_request_from (k : nat) (i : nat) (s : EHSServer) : option HttpRequest * EHSServer :=
  match k with
  | O => (None, s)
  | S k' =>
      match m_oEHSConnectionList s !! i with
      | None => (None, s)
      | Some c =>
          let '(req, c) := conn_GetNextRequest c in
          let s := s <| m_oEHSConnectionList ::= <[i := c]> |> in
          match req with
          | Some r => (Some r, s <| m_nRequestsPending ::= Z.pred |>)
          | None =>
              let i' := if decide (S i = length (m_oEHSConnectionList s)) then 0 else S i in
              next_request_from k' i' s
          end
      end
  end.

(** [GetNextRequest]; [rnd] is what [rand()] returns. *)
Definition srv_GetNextRequest (rnd : Z) (s : EHSServer) : option HttpRequest * EHSServer :=
  let size := length (m_oEHSConnectionList s) in
  if decide (m_oEHSConnectionList s = []) then (None, s)
  else
    let nWhich := Z.to_nat (Z.of_nat size * rnd / (RAND_MAX + 1)) in
    next_request_from size nWhich s.

Section server.
Context {W : Type} {E : Env W} {A : App W} {B : Boost} {T : OtherThreads W}.

(** What memory holds after a response body (see [SendResponse]) and in an
    unused time buffer (see [HttpTime]). *)
Variables (beyond stale : bytes).

(** ** Removing connections *)

(** The loop of [RemoveEHSConnection] over the list. *)
Fixpoint remove_loop (id : conn_id) (removed : bool) (l : list EHSConnection) (w : W) :
    res unit * list EHSConnection * W :=
  match l with
  | [] => (Ret tt, [], w)
  | c :: l' =>
      if decide (conn_this c = id) then
        if removed then
          (Throw (Runtime_error #"EHSServer::RemoveEHSConnection: Deleting a second element"), c :: l', w)
        else remove_loop id true l' (EHSConnection_delete has_RawSocketHandler c w)
      else
        let '(o, l', w) := remove_loop id removed l' w in (o, c :: l', w)
  end.

Definition RemoveEHSConnection (ipo : option conn_id) (s : EHSServer) (w : W) : res unit * EHSServer * W :=
  match ipo with
  | None => (Throw (Invalid_argument #"EHSServer::RemoveEHSConnection: argument is NULL"), s, w)
  | Some id =>
      let '(o, l, w) := remove_loop id false (m_oEHSConnectionList s) w in
      (o, s <| m_oEHSConnectionList := l |>, w)
  end.

(** The scan of [RemoveFinishedConnections]: the first connection that is done. *)
Fixpoint scan_done (l : list EHSConnection) (w : W) : option conn_id * W :=
  match l with
  | [] => (None, w)
  | c :: l' =>
      let '(is_done, w) := CheckDone c w in
      if is_done then (Some (conn_this c), w) else scan_done l' w
  end.

(** [RemoveFinishedConnections]: the scan starts again after every removal. *)
Fixpoint remove_finished (fuel : nat) (s : EHSServer) (w : W) : option (res unit * EHSServer * W) :=
  match fuel with
  | O => None
  | S n =>
      match scan_done (m_oEHSConnectionList s) w with
      | (None, w) => Some (Ret tt, s, w)
      | (Some id, w) =>
          match RemoveEHSConnection (Some id) s w with
          | (Ret _, s, w) => remove_finished n s w
          | (Throw e, s, w) => Some (Throw e, s, w)
          end
      end
  end.
Definition RemoveFinishedConnections (s : EHSServer) (w : W) : option (res unit * EHSServer * W) :=
  remove_finished (S (length (m_oEHSConnectionList s))) s w.

(** [ClearIdleConnections] *)
Definition clear_idle (timeout : Z) (w : W) (c : EHSConnection) : EHSConnection :=
  if StillReading c && (timeout <? time w - LastActivity w c)%Z && negb (RequestsPending c)
  then DoneReading false c else c.
Definition ClearIdleConnections (s : EHSServer) (w : W) : option (res unit * EHSServer * W) :=
  RemoveFinishedConnections (s <| m_oEHSConnectionList ::= fmap (clear_idle (m_nIdleTimeout s) w) |>) w.

(** ** Reading *)

(** [CreateFdSet]: the descriptors to watch, and the highest. *)
Definition CreateFdSet (s : EHSServer) (w : W) : Z * EHSServer :=
  let reading := filter (fun c => StillReading c = true) (m_oEHSConnectionList s) in
  let fds := (fun c => na_GetFd (m_poNetworkAbstraction c) w) <$> reading in
  let listen := na_GetFd (srv_network s) w in
  (foldl Z.max listen fds, s <| m_oReadFds := listen :: fds |>).

Definition FD_ISSET (fd : Z) (s : EHSServer) : bool := bool_decide (fd ∈ m_oReadFds s).

(** [CheckAcceptSocket] *)
Definition accept_connection (na : na_id) (s : EHSServer) (w : W) : EHSServer :=
  let c := EHSConnection_new (srv_next_conn s) na w in
  let c := if has_param #"maxrequestsize" s
           then SetMaxRequestSize (to_unsigned_long (param #"maxrequestsize" s)) c else c in
  let c := if has_param #"parsecontenttype" s
           then SetParseContentType (to_string (param #"parsecontenttype" s)) c else c in
  s <| m_oEHSConnectionList ::= fun l => l ++ [c] |>
    <| m_bAcceptedNewConnection := true |> <| srv_next_conn ::= S |>.

Definition CheckAcceptSocket (s : EHSServer) (w : W) : res unit * EHSServer * W :=
  if FD_ISSET (na_GetFd (srv_network s) w) s then
    match na_Accept (srv_network s) w with
    | (Ret na, w) => (Ret tt, accept_connection na s w, w)
    | (Throw (Runtime_error what), w) =>
        match find #"SSL" what with
        | None => (Throw (Runtime_error what), s, w)
        | Some _ => (Ret tt, s, w)
        end
    | (Throw e, w) => (Throw e, s, w)
    end
  else (Ret tt, s, w).

(** The answer to input that cannot be handled. *)
Definition reject (code : ResponseCode) (c : EHSConnection) (w : W) : EHSConnection * W :=
  let tmp := Error stale (time w) code 0 (Some (conn_this c)) in
  let '(c, w) := SendResponse has_RawSocketHandler beyond (Http tmp) c w in
  (DoneReading false c, w).

(** The body of the loop of [CheckClientSockets]. *)
Definition read_size : nat := Z.to_nat 8192.

Definition check_client (s : EHSServer) (c : EHSConnection) (w : W) :
    option (res unit * EHSConnection * Z * W) :=
  let pending := m_nRequestsPending s in
  if FD_ISSET (na_GetFd (m_poNetworkAbstraction c) w) s then
    let '(nBytesReceived, buf, w) := na_Read (m_poNetworkAbstraction c) read_size w in
    if IsRaw c then
      if (nBytesReceived <? 0)%Z then Some (Ret tt, DoneReading true c, pending, w)
      else
        let c := UpdateLastActivity w c in
        if has_RawSocketHandler && (0 <? nBytesReceived)%Z then
          match rsh_OnData (conn_this c) (take (Z.to_nat nBytesReceived) buf) w with
          | (Throw e, w) => Some (Throw e, c, pending, w)
          | (Ret ok, w) => Some (Ret tt, if ok then c else DoneReading false c, pending, w)
          end
        else Some (Ret tt, c, pending, w)
    else if (nBytesReceived <=? 0)%Z then Some (Ret tt, DoneReading true c, pending, w)
    else
      match AddBuffer (m_nServerRunningStatus s) buf nBytesReceived c pending w with
      | None => None
      | Some (Throw e, c, pending, w) => Some (Throw e, c, pending, w)
      | Some (Ret ADDBUFFER_INVALIDREQUEST, c, pending, w) =>
          let '(c, w) := reject HTTPRESPONSECODE_400_BADREQUEST c w in Some (Ret tt, c, pending, w)
      | Some (Ret ADDBUFFER_TOOBIG, c, pending, w) =>
          let rc := if has_param #"code413" s
                    then code_of_Z (to_unsigned_long (param #"code413" s))
                    else HTTPRESPONSECODE_413_TOOLARGE in
          let '(c, w) := reject rc c w in Some (Ret tt, c, pending, w)
      | Some (Ret ADDBUFFER_NORESOURCE, c, pending, w) =>
          let '(c, w) := reject HTTPRESPONSECODE_503_SERVICEUNAVAILABLE c w in Some (Ret tt, c, pending, w)
      | Some (Ret _, c, pending, w) => Some (Ret tt, c, pending, w)
      end
  else Some (Ret tt, c, pending, w).

(** [CheckClientSockets]: [seen] connections have been handled; an exception leaves
    the others alone. *)
Fixpoint check_clients (n : nat) (i : nat) (s : EHSServer) (w : W) : option (res unit * EHSServer * W) :=
  match n with
  | O => Some (Ret tt, s, w)
  | S n' =>
      match m_oEHSConnectionList s !! i with
      | None => Some (Ret tt, s, w)
      | Some c =>
          match check_client s c w with
          | None => None
          | Some (o, c, pending, w) =>
              let s := s <| m_oEHSConnectionList ::= <[i := c]> |> <| m_nRequestsPending := pending |> in
              match o with
              | Ret _ => check_clients n' (S i) s w
              | Throw e => Some (Throw e, s, w)
              end
          end
      end
  end.
Definition CheckClientSockets (s : EHSServer) (w : W) : option (res unit * EHSServer * W) :=
  check_clients (length (m_oEHSConnectionList s)) 0 s w.

(** ** [HandleData] *)

(** [response->GetConnection()->AddResponse(response)].  The code does not check the pointer: if
    the response has no connection, or one that has been deleted, what happens is undefined
    (the code would lock the mutex of the freed object, and send on its freed network
    object).  [Throw (Undefined _)] marks this; it is no exception, nothing catches it, and the
    model does not go on from there. *)
Definition srv_AddResponse (r : response) (s : EHSServer) (w : W) : res unit * EHSServer * W :=
  match m_poEHSConnection (response_base r) with
  | None => (Throw (Undefined #"null connection"), s, w)
  | Some id =>
      match find_conn id (m_oEHSConnectionList s) with
      | None => (Throw (Undefined #"deleted connection"), s, w)
      | Some c =>
          let '(c, w) := conn_AddResponse has_RawSocketHandler beyond r c w in
          (Ret tt, s <| m_oEHSConnectionList ::= update_conn id (fun _ => c) |>, w)
      end
  end.

(** A request to handle: it is routed, and the response goes back to its connection. *)
Definition handle_request (tid : thread_id) (req : HttpRequest) (s : EHSServer) (w : W) :
    res unit * EHSServer * W :=
  match RouteRequest req w with
  | (Throw e, w) => (Throw e, s, w)
  | (Ret response, w) =>
      match srv_AddResponse (Http response) s w with
      | (Throw e, s, w) => (Throw e, s, w)
      | (Ret _, s, w) => (Ret tt, s <| m_oCurrentRequest ::= delete tid |>, w)
      end
  end.

(** What a thread that enters [HandleData] is to do. *)
Inductive job : Type :=
| JobHandle (req : HttpRequest)
| JobWait
| JobAccept.

(** The beginning of [HandleData], under the mutex: a pending request is taken;
    without one the thread waits if another thread is accepting, and becomes the
    accepting thread otherwise. *)
Definition choose_job (rnd : Z) (tid : thread_id) (s : EHSServer) : job * EHSServer :=
  let s := s <| m_oCurrentRequest ::= delete tid |> in
  let '(req, s) :=
    if bool_decide (m_nServerRunningStatus s <> SERVERRUNNING_ONETHREADPERREQUEST) ||
       bool_decide (tid <> m_nAcceptThreadId s)
    then srv_GetNextRequest rnd s else (None, s) in
  match req with
  | Some req => (JobHandle req, s <| m_oCurrentRequest ::= <[tid := req]> |>)
  | None =>
      if m_bAccepting s then (JobWait, s)
      else (JobAccept, s <| m_bAcceptedNewConnection := false |> <| m_bAccepting := true |>)
  end.

(** The end of accepting, under the mutex. *)
Definition end_accepting (s : EHSServer) (w : W) : option (res unit * EHSServer * W) :=
  match ClearIdleConnections s w with
  | Some (Ret _, s, w) => Some (Ret tt, s <| m_bAccepting := false |>, w)
  | x => x
  end.

(** The accepting thread waits in [select] and reads what has arrived.  An
    exception leaves [m_bAccepting] set. *)
Definition accept_and_read (inTimeoutMilliseconds : Z) (s : EHSServer) (w : W) :
    option (res unit * EHSServer * W) :=
  let '(nHighestFd, s) := CreateFdSet s w in
  match select (m_oReadFds s) inTimeoutMilliseconds w with
  | (Sel_error false, w) => Some (Throw (Runtime_error #"EHSServer::HandleData: select() failed."), s, w)
  | (Sel_error true, w) => end_accepting s w
  | (Sel_ready [], w) => end_accepting (s <| m_oReadFds := [] |>) w
  | (Sel_ready fds, w) =>
      match CheckAcceptSocket (s <| m_oReadFds := fds |>) w with
      | (Throw e, s, w) => Some (Throw e, s, w)
      | (Ret _, s, w) =>
          match CheckClientSockets s w with
          | Some (Ret _, s, w) => end_accepting s w
          | x => x
          end
      end
  end.

(** [HandleData].  While another thread is accepting, the call waits for the condition variable,
    and whatever woke it, it returns without looking again: [None] is a call that does not
    return, because nobody broadcasts any more. *)
Definition HandleData (rnd inTimeoutMilliseconds : Z) (tid : thread_id) (s : EHSServer) (w : W) :
    option (res unit * EHSServer * W) :=
  match choose_job rnd tid s with
  | (JobHandle req, s) => Some (handle_request tid req s w)
  | (JobWait, s) =>
      match pthread_cond_wait s w with
      | Some (s, w) => Some (Ret tt, s, w)
      | None => None
      end
  | (JobAccept, s) => accept_and_read inTimeoutMilliseconds s w
  end.

(** ** Server threads *)

(** The condition on which [HandleData_Threaded] goes on. *)
Definition keep_running (self : thread_id) (s : EHSServer) : bool :=
  bool_decide (m_nServerRunningStatus s = SERVERRUNNING_THREADPOOL) ||
  bool_decide (self = m_nAcceptThreadId s).

(** What a thread does with an exception that leaves [HandleData] ([e] is not [Undefined _], with
    which no thread goes on). *)
Definition thread_exception (self : thread_id) (e : exn) (s : EHSServer) (w : W) : res unit * EHSServer * W :=
  let '(eResponse, w) := HandleThreadException self (m_oCurrentRequest s !! self) e w in
  match eResponse with
  | Some r =>
      let '(o, s, w) := srv_AddResponse r s w in
      (o, s <| m_oCurrentRequest ::= delete self |>, w)
  | None =>
      (Ret tt, s <| m_nServerRunningStatus := SERVERRUNNING_SHOULDTERMINATE |>
                 <| m_nAcceptThreadId := 0%Z |> <| m_oCurrentRequest ::= delete self |>, w)
  end.

(** One iteration of the loop of [HandleData_Threaded]: [Throw] only where something undefined
    has happened. *)
Definition threaded_iteration (rnd : Z) (self : thread_id) (s : EHSServer) (w : W) :
    option (res unit * EHSServer * W) :=
  match HandleData rnd 1000 self s w with
  | Some (Throw (Undefined what), s, w) => Some (Throw (Undefined what), s, w)
  | Some (Throw e, s, w) => Some (thread_exception self e s w)
  | x => x
  end.

(** The loop, for as many iterations as there are random numbers: whether the thread
    is still running, and the state it leaves. *)
Fixpoint threaded_loop (rnds : list Z) (self : thread_id) (s : EHSServer) (w : W) :
    option (bool * EHSServer * W) :=
  match rnds with
  | [] => Some (true, s, w)
  | rnd :: rnds' =>
      match threaded_iteration rnd self s w with
      | Some (Ret _, s, w) =>
          if keep_running self s then threaded_loop rnds' self s w else Some (false, s, w)
      | _ => None
      end
  end.

(** [EHSThreadHandlerHelper] calls the hooks of the application when it is made and when it
    goes.  Its pointer is null or the server's object, of which the value says nothing more. *)
Record EHSThreadHandlerHelper : Type := MkThreadHandlerHelper { m_pEHS : bool }.
Definition EHSThreadHandlerHelper_new (ehs : bool) (w : W) : EHSThreadHandlerHelper * W :=
  if ehs then let '(ok, w) := ThreadInitHandler w in (MkThreadHandlerHelper ok, w)
  else (MkThreadHandlerHelper false, w).
Definition IsOK (thh : EHSThreadHandlerHelper) : bool := m_pEHS thh.
Definition EHSThreadHandlerHelper_delete (thh : EHSThreadHandlerHelper) (w : W) : W :=
  if m_pEHS thh then ThreadExitHandler w else w.

Definition HandleData_Threaded (rnds : list Z) (self : thread_id) (s : EHSServer) (w : W) :
    option (bool * EHSServer * W) :=
  let '(thh, w) := EHSThreadHandlerHelper_new true w in
  if IsOK thh then
    match threaded_loop rnds self s w with
    | Some (false, s, w) => Some (false, s, EHSThreadHandlerHelper_delete thh (na_ThreadCleanup (srv_network s) w))
    | x => x
    end
  else Some (false, s, EHSThreadHandlerHelper_delete thh w).

(** [PthreadHandleData_ThreadedStub] *)
Definition PthreadHandleData_ThreadedStub (rnds : list Z) (self : thread_id) (s : EHSServer) (w : W) :
    option (bool * EHSServer * W) :=
  let s := s <| m_nThreads ::= Z.succ |> in
  match HandleData_Threaded rnds self s w with
  | Some (false, s, w) => Some (false, s <| m_nThreads ::= Z.pred |>, w)
  | x => x
  end.

(** [EndServerThread], up to the wait for the threads, and the condition on which it goes on
    waiting. *)
Definition EndServerThread (s : EHSServer) : EHSServer :=
  s <| m_nServerRunningStatus := SERVERRUNNING_NOTRUNNING |> <| m_nAcceptThreadId := 0%Z |>.
Definition EndServerThread_waits (s : EHSServer) : bool := (0 <? m_nThreads s)%Z.

(** ** Construction and destruction *)

(** The threads of the pool; a failure ends the loop. *)
Fixpoint start_threads (n : nat) (s : EHSServer) (w : W) : res unit * EHSServer * W :=
  match n with
  | O => (Ret tt, s, w)
  | S n' =>
      match pthread_create w with
      | (Some t, w) => start_threads n' (s <| m_nAcceptThreadId := t |>) w
      | (None, w) =>
          (Throw (Runtime_error #"EHSServer::EHSServer: Unable to create threads"),
           s <| m_nServerRunningStatus := SERVERRUNNING_NOTRUNNING |>, w)
      end
  end.

(** The mode the parameters ask for. *)
Definition start_mode (s : EHSServer) (w : W) : res unit * EHSServer * W :=
  let mode := param #"mode" s in
  if datum_eq mode #"threadpool" then
    let s := s <| m_nServerRunningStatus := SERVERRUNNING_THREADPOOL |> in
    let n := GetInt (param #"threadcount" s) in
    start_threads (Z.to_nat (if (n <=? 0)%Z then 1 else n)) s w
  else if datum_eq mode #"onethreadperrequest" then
    let s := s <| m_nServerRunningStatus := SERVERRUNNING_ONETHREADPERREQUEST |> in
    match pthread_create w with
    | (Some t, w) => (Ret tt, s <| m_nAcceptThreadId := t |>, w)
    | (None, w) =>
        (Throw (Runtime_error #"EHSServer::EHSServer: Unable to create listener thread"),
         s <| m_nServerRunningStatus := SERVERRUNNING_NOTRUNNING |>, w)
    end
  else if datum_eq mode #"singlethreaded" then
    (Ret tt, s <| m_nServerRunningStatus := SERVERRUNNING_SINGLETHREADED |>, w)
  else (Throw (Runtime_error #"EHSServer::EHSServer: invalid mode specified"), s, w).

(** The constructor; [top] is the parameters of the top-level [EHS], if there is one. *)
Definition EHSServer_new (top : option EHSServerParameters) (w : W) : res EHSServer * W :=
  match top with
  | None =>
      (Throw (Invalid_argument #"EHSServer::EHSServer: Pointer to toplevel EHS object is NULL."), w)
  | Some params =>
      let s na := MkEHSServer SERVERRUNNING_NOTRUNNING params false 0 false [] [] na 0 15 0 ∅ 1 in
      let get k := default datum_empty (sm_find k params) in
      let nHttps := negb (to_int (get #"https") =? 0)%Z in
      match na_create (if nHttps then Some (to_string (get #"certificate")) else None) w with
      | (Throw e, w) => (Throw e, w)
      | (Ret na, w) =>
          let w := if datum_ne (get #"bindaddress") []
                   then na_SetBindAddress na (to_string (get #"bindaddress")) w else w in
          let w := na_RegisterBindHelper na w in
          match na_Init na (to_int (get #"port")) w with
          | (Throw e, w) => (Throw e, na_delete na w)
          | (Ret _, w) =>
              match start_mode (s na) w with
              | (Ret _, s, w) => (Ret s, w)
              | (Throw e, _, w) => (Throw e, na_delete na w)
              end
          end
      end
  end.

(** The destructor: the listening socket, then every connection in order. *)
Fixpoint delete_all (l : list EHSConnection) (w : W) : W :=
  match l with
  | [] => w
  | c :: l' => delete_all l' (EHSConnection_delete has_RawSocketHandler c w)
  end.
Definition EHSServer_delete (s : EHSServer) (w : W) : W :=
  delete_all (m_oEHSConnectionList s) (na_delete (srv_network s) w).

End server.
