(* ===== verification/ServerFacts.v ===== *)
(** * Properties of the server: fairness of the request search, removal of
    connections, the accounting of pending requests *)
From S2P Require Import Prelude Boost StdMap Datum EhsTypes HttpRequest HttpResponse Network Connection.
From S2P Require Import HttpRequestFacts HttpRequestProps HttpRender ConnectionFacts Server.

(** ** Definitions *)

(** The queue of the connection at a position of the list. *)
Definition queue_at (s : EHSServer) (i : nat) : list HttpRequest :=
  match m_oEHSConnectionList s !! i with
  | Some c => m_oHttpRequestList c
  | None => []
  end.

(** The number of queued requests of all connections. *)
Fixpoint total_queued (l : list EHSConnection) : nat :=
  match l with
  | [] => 0
  | c :: l' => length (m_oHttpRequestList c) + total_queued l'
  end.

(** The server's count of pending requests is right. *)
Definition pending_ok (s : EHSServer) : Prop :=
  m_nRequestsPending s = Z.of_nat (total_queued (m_oEHSConnectionList s)).

(** No two connections are the same object. *)
Definition distinct_conns (s : EHSServer) : Prop := NoDup (conn_this <$> m_oEHSConnectionList s).

(** The test of [CheckDone]. *)
Definition is_finished (c : EHSConnection) : bool :=
  negb (StillReading c) && (m_nRequests c - 1 <=? m_nResponses c)%Z.

(** What the work of a thread does to the list of connections: objects are kept in
    their places, and queued requests are counted. *)
Definition same_books (s s' : EHSServer) : Prop :=
  conn_this <$> m_oEHSConnectionList s' = conn_this <$> m_oEHSConnectionList s /\
  (m_nRequestsPending s' - Z.of_nat (total_queued (m_oEHSConnectionList s')) =
   m_nRequestsPending s - Z.of_nat (total_queued (m_oEHSConnectionList s)))%Z /\
  m_bAccepting s' = m_bAccepting s /\ srv_next_conn s' = srv_next_conn s /\
  m_nServerRunningStatus s' = m_nServerRunningStatus s /\ m_nThreads s' = m_nThreads s.

(** The state between two calls: distinct objects, addresses not yet used ahead, and
    at least [k] more requests counted as pending than queued. *)
Record books_ok (k : Z) (s : EHSServer) : Prop := BooksOk {
  so_distinct : distinct_conns s;
  so_fresh : Forall (fun c => conn_this c < srv_next_conn s) (m_oEHSConnectionList s);
  so_pending : (Z.of_nat (total_queued (m_oEHSConnectionList s)) + k <= m_nRequestsPending s)%Z
}.
Abbreviation server_ok := (books_ok 0).

(** An application and servers for examples: every request is answered with an
    error page; one connection is idle, one has a request queued. *)
Definition example_app : App script := {|
  RouteRequest req w := (Ret (Error_request [] (sc_clock w) HTTPRESPONSECODE_404_NOTFOUND req), w);
  ThreadInitHandler w := (true, w);
  ThreadExitHandler w := w;
  HandleThreadException _ _ _ w := (None, w);
  has_RawSocketHandler := false
|}.
Definition idle_conn : EHSConnection := EHSConnection_new (E := script_env) 1 11 example_world.
Definition queued_conn : EHSConnection :=
  EHSConnection_new (E := script_env) 2 12 example_world
    <| m_poCurrentHttpRequest := Some (HttpRequest_init 2 2 []) |>
    <| m_oHttpRequestList := [HttpRequest_init 1 2 []] |> <| m_nRequests := 2%Z |>.
Definition example_server : EHSServer :=
  MkEHSServer SERVERRUNNING_SINGLETHREADED [] false 1 false [] [idle_conn; queued_conn] 10 0 15 0 ∅ 3.

(** ** The circular search *)
Lemma EHSServer_list_id s : s <| m_oEHSConnectionList := m_oEHSConnectionList s |> = s.
Proof. by destruct s. Qed.

Lemma mod_succ i n : i < n -> (if decide (S i = n) then 0 else S i) = (S i) mod n.
Proof.
  intros H. case_decide as E; [subst; by rewrite Nat.Div0.mod_same|].
  symmetry. apply Nat.mod_small. lia.
Qed.

Lemma next_request_from_spec k i s :
  let n := length (m_oEHSConnectionList s) in
  i < n ->
  match next_request_from k i s with
  | (None, s') => s' = s /\ forall j, j < k -> queue_at s ((i + j) mod n) = []
  | (Some r, s') => exists j c q, j < k /\
      m_oEHSConnectionList s !! ((i + j) mod n) = Some c /\ m_oHttpRequestList c = r :: q /\
      (forall j', j' < j -> queue_at s ((i + j') mod n) = []) /\
      s' = s <| m_oEHSConnectionList ::= <[(i + j) mod n := (conn_GetNextRequest c).2]> |>
             <| m_nRequestsPending ::= Z.pred |>
  end.
Proof.
  intros n. revert i. induction k as [|k IH]; intros i Hi; [split; [done|lia]|].
  cbn [next_request_from]. destruct (lookup_lt_is_Some_2 (m_oEHSConnectionList s) i Hi) as [c Hc].
  rewrite Hc. unfold conn_GetNextRequest. destruct (m_oHttpRequestList c) as [|r q] eqn:Eq.
  - assert (s <| m_oEHSConnectionList ::= <[i := c]> |> = s) as ->.
    { cbn. rewrite list_insert_id by done. apply EHSServer_list_id. }
    fold n. rewrite mod_succ by done.
    assert (S i mod n < n) as Hi' by (apply Nat.mod_upper_bound; lia).
    assert (forall j, ((S i mod n) + j) mod n = (i + S j) mod n) as Hmod.
    { intros j. rewrite Nat.Div0.add_mod_idemp_l. f_equal. lia. }
    assert (queue_at s (i mod n) = []) as Hq0 by (rewrite Nat.mod_small by done; unfold queue_at; by rewrite Hc).
    specialize (IH _ Hi'). destruct (next_request_from k (S i mod n) s) as [[r|] s'].
    + destruct IH as (j & c' & q & Hj & Hl & Hq & Hbefore & ->). exists (S j), c', q.
      rewrite <- !Hmod. split_and!; [lia|done|done| |done].
      intros [|j'] Hj'; [by rewrite Nat.add_0_r|]. rewrite <- Hmod. apply Hbefore. lia.
    + destruct IH as [-> Hall]. split; [done|]. intros [|j] Hj; [by rewrite Nat.add_0_r|].
      rewrite <- Hmod. apply Hall. lia.
  - exists 0, c, q. rewrite Nat.add_0_r, Nat.mod_small by done. split_and!; [lia|done|done|lia|].
    unfold conn_GetNextRequest. by rewrite Eq.
Qed.

Lemma start_in_range (n : nat) rnd :
  n <> 0 -> (0 <= rnd <= RAND_MAX)%Z -> Z.to_nat (Z.of_nat n * rnd / (RAND_MAX + 1)) < n.
Proof.
  intros Hn Hr. unfold RAND_MAX in *.
  assert (0 <= Z.of_nat n * rnd / (2147483647 + 1) < Z.of_nat n)%Z; [|lia].
  split; [apply Z.div_pos; nia|apply Z.div_lt_upper_bound; nia].
Qed.

Lemma total_queued_insert l i c c' :
  l !! i = Some c ->
  (Z.of_nat (total_queued (<[i := c']> l)) =
   Z.of_nat (total_queued l) - Z.of_nat (length (m_oHttpRequestList c))
   + Z.of_nat (length (m_oHttpRequestList c')))%Z.
Proof.
  revert i. induction l as [|x l IH]; intros [|i]; simpl; intros; simplify_eq; [lia|].
  rewrite Nat2Z.inj_add, (IH _ H). lia.
Qed.

Lemma total_queued_zero l : total_queued l = 0 <-> Forall (fun c => m_oHttpRequestList c = []) l.
Proof.
  induction l as [|c l IH]; simpl; [by split|]. rewrite Forall_cons, <- IH.
  destruct (m_oHttpRequestList c); simpl; split; try lia; intros; try tauto.
  by destruct H.
Qed.

Lemma next_request_full (rnd : Z) (s : EHSServer)
    (Hrnd : (0 <= rnd <= RAND_MAX)%Z) (Hp : pending_ok s) :
  let n := length (m_oEHSConnectionList s) in
  let start := Z.to_nat (Z.of_nat n * rnd / (RAND_MAX + 1)) in
  let '(req, s') := srv_GetNextRequest rnd s in
  (req = None <-> m_nRequestsPending s = 0%Z) /\ (req = None -> s' = s) /\
  (forall r, req = Some r -> exists j c q, j < n /\
     m_oEHSConnectionList s !! ((start + j) mod n) = Some c /\ m_oHttpRequestList c = r :: q /\
     (forall j', j' < j -> queue_at s ((start + j') mod n) = []) /\
     s' = s <| m_oEHSConnectionList ::= <[(start + j) mod n := (conn_GetNextRequest c).2]> |>
            <| m_nRequestsPending ::= Z.pred |>) /\
  pending_ok s'.
Proof.
  intros n start. unfold srv_GetNextRequest. fold n. unfold pending_ok in Hp.
  case_decide as Hnil.
  { split; [|split; [done|split; [done|exact Hp]]]. rewrite Hnil in Hp. by split. }
  assert (n <> 0) as Hn by (unfold n; by destruct (m_oEHSConnectionList s)).
  pose proof (start_in_range n rnd Hn Hrnd) as Hst.
  pose proof (next_request_from_spec n start s Hst) as Hspec. fold start.
  destruct (next_request_from n start s) as [[r|] s'].
  - destruct Hspec as (j & c & q & Hj & Hl & Hq & Hbefore & ->).
    pose proof (total_queued_insert _ _ _ (conn_GetNextRequest c).2 Hl) as Htot.
    unfold conn_GetNextRequest in Htot at 2. rewrite Hq in Htot. cbn in Htot.
    split; [split; [done|]|split; [done|split]].
    + intros Hz. lia.
    + intros ? [= <-]. exists j, c, q. by split_and!.
    + unfold pending_ok. cbn -[Z.pred]. rewrite Hp. lia.
  - destruct Hspec as [-> Hall]. split; [split; [|done]|by split_and!]. intros _.
    rewrite Hp. assert (total_queued (m_oEHSConnectionList s) = 0) as ->; [|done].
    apply total_queued_zero, Forall_forall. intros c Hc.
    apply list_elem_of_lookup in Hc as [i Hi].
    pose proof (lookup_lt_Some _ _ _ Hi) as Hlt. fold n in Hlt.
    specialize (Hall ((i + (n - start)) mod n)). unfold queue_at in Hall.
    rewrite Nat.Div0.add_mod_idemp_r in Hall.
    replace (start + (i + (n - start))) with (i + 1 * n) in Hall by lia.
    rewrite Nat.Div0.mod_add, (Nat.mod_small i) in Hall by lia. rewrite Hi in Hall.
    apply Hall. apply Nat.mod_upper_bound. lia.
Qed.

(** C21: a server thread finds a request whenever a connection has one queued.  The
    search starts at a random connection and takes the oldest request of the first
    connection, in circular order from there, whose queue is not empty; only that
    connection's queue and the count of pending requests change, and the count
    stays right. *)
Theorem GetNextRequest_spec (rnd : Z) (s : EHSServer)
    (Hrnd : (0 <= rnd <= RAND_MAX)%Z) (Hp : pending_ok s) :
  let n := length (m_oEHSConnectionList s) in
  let start := Z.to_nat (Z.of_nat n * rnd / (RAND_MAX + 1)) in
  let '(req, s') := srv_GetNextRequest rnd s in
  (req = None <-> m_nRequestsPending s = 0%Z) /\ (req = None -> s' = s) /\
  (forall r, req = Some r -> exists j c q, j < n /\
     m_oEHSConnectionList s !! ((start + j) mod n) = Some c /\ m_oHttpRequestList c = r :: q /\
     (forall j', j' < j -> queue_at s ((start + j') mod n) = []) /\
     s' = s <| m_oEHSConnectionList ::= <[(start + j) mod n := (conn_GetNextRequest c).2]> |>
            <| m_nRequestsPending ::= Z.pred |>) /\
  pending_ok s'.
Proof. by apply next_request_full. Qed.

(** ** Removal of finished connections *)
Lemma NoDup_fmap_filter {X Y} (f : X -> Y) (P : X -> Prop) `{!forall x, Decision (P x)} (l : list X) :
  NoDup (f <$> l) -> NoDup (f <$> filter P l).
Proof.
  induction l as [|x l IH]; [done|]. rewrite fmap_cons, NoDup_cons. intros [Hx Hl].
  rewrite filter_cons. case_decide; [|by apply IH]. rewrite fmap_cons, NoDup_cons.
  split; [|by apply IH]. intros (y & Hy & Hin)%list_elem_of_fmap. apply Hx.
  apply list_elem_of_filter in Hin as [_ Hin]. rewrite Hy. by apply list_elem_of_fmap_2.
Qed.

Section server.
Context {W : Type} {E : Env W} {A : App W} {B : Boost}.

Lemma CheckDone_finished c (w : W) : (CheckDone c w).1 = is_finished c.
Proof. unfold CheckDone, is_finished. destruct (negb _); [|done]. by destruct (_ <=? _)%Z. Qed.

Lemma CheckDone_world c (w : W) : is_finished c = false -> CheckDone c w = (false, w).
Proof. unfold CheckDone, is_finished. destruct (negb _); [|done]. by destruct (_ <=? _)%Z. Qed.

Lemma scan_done_spec l (w : W) :
  match scan_done l w with
  | (None, w') => w' = w /\ Forall (fun c => is_finished c = false) l
  | (Some id, _) => exists l1 c l2, l = l1 ++ c :: l2 /\ conn_this c = id /\ is_finished c = true /\
      Forall (fun c => is_finished c = false) l1
  end.
Proof.
  induction l as [|c l IH]; simpl; [done|].
  pose proof (CheckDone_finished c w) as Hf.
  destruct (is_finished c) eqn:Ef.
  - destruct (CheckDone c w) as [d w1]. simpl in Hf. subst d. exists [], c, l. by split_and!.
  - rewrite (CheckDone_world c w Ef). destruct (scan_done l w) as [[id|] w'].
    + destruct IH as (l1 & c' & l2 & -> & Hid & Hc & Hl1). exists (c :: l1), c', l2.
      split_and!; [done..|]. by constructor.
    + destruct IH as [-> HF]. split; [done|]. by constructor.
Qed.

Lemma remove_loop_absent id b l (w : W) :
  id ∉ conn_this <$> l -> remove_loop id b l w = (Ret tt, l, w).
Proof.
  induction l as [|c l IH]; simpl; [done|]. rewrite not_elem_of_cons. intros [Hc Hl].
  rewrite decide_False by congruence. by rewrite IH.
Qed.

Lemma remove_loop_found l1 c l2 (w : W) :
  NoDup (conn_this <$> l1 ++ c :: l2) ->
  remove_loop (conn_this c) false (l1 ++ c :: l2) w =
    (Ret tt, l1 ++ l2, EHSConnection_delete has_RawSocketHandler c w).
Proof.
  rewrite fmap_app, NoDup_app. cbn. rewrite NoDup_cons. intros (H1 & Hd & Hc & H2).
  assert (conn_this c ∉ conn_this <$> l1) as Hn.
  { intros Hin. apply (Hd _ Hin). left. }
  clear H1 Hd. induction l1 as [|x l1 IH]; simpl.
  - rewrite decide_True by done. by apply remove_loop_absent.
  - simpl in Hn. apply not_elem_of_cons in Hn as [Hx Hn].
    rewrite decide_False by congruence. by rewrite IH.
Qed.

Lemma remove_finished_spec n s (w : W) :
  distinct_conns s -> length (m_oEHSConnectionList s) < n ->
  exists w', remove_finished n s w =
    Some (Ret tt, s <| m_oEHSConnectionList ::= filter (fun c => is_finished c = false) |>, w').
Proof.
  revert s w. induction n as [|n IH]; intros s w Hd Hn; [lia|]. cbn [remove_finished].
  pose proof (scan_done_spec (m_oEHSConnectionList s) w) as Hs.
  destruct (scan_done _ w) as [[id|] w1].
  - destruct Hs as (l1 & c & l2 & Hl & <- & Hc & Hl1). unfold RemoveEHSConnection.
    unfold distinct_conns in Hd. rewrite Hl in Hd |- *. rewrite remove_loop_found by done.
    set (s2 := s <| m_oEHSConnectionList := l1 ++ l2 |>).
    destruct (IH s2 (EHSConnection_delete has_RawSocketHandler c w1)) as [w' Hw'].
    + unfold distinct_conns, s2. cbn. rewrite fmap_app in *. cbn in Hd.
      apply NoDup_app in Hd as (H1 & H2 & H3%NoDup_cons_1_2). apply NoDup_app. split_and!; [done| |done].
      intros x Hx Hx2. apply (H2 x Hx). by right.
    + unfold s2. cbn. rewrite Hl in Hn. rewrite length_app in *. simpl in Hn. lia.
    + exists w'. rewrite Hw'. do 3 f_equal. unfold s2. cbn. rewrite Hl, !filter_app, filter_cons.
      by rewrite decide_False by by rewrite Hc.
  - destruct Hs as [-> HF]. exists w. do 3 f_equal. symmetry. cbn.
    assert (filter (fun c => is_finished c = false) (m_oEHSConnectionList s) = m_oEHSConnectionList s) as ->;
      [|apply EHSServer_list_id].
    clear - HF. induction HF as [|c l Hc Hl IH]; [done|]. rewrite filter_cons, decide_True by done. by rewrite IH.
Qed.

Lemma clear_idle_this t (w : W) (l : list EHSConnection) : conn_this <$> (clear_idle t w <$> l) = conn_this <$> l.
Proof.
  rewrite <- list_fmap_compose. apply list_fmap_ext. intros _ c _. unfold compose, clear_idle. by destruct (_ && _).
Qed.

Lemma ClearIdleConnections_list s (w : W) :
  distinct_conns s ->
  exists w', ClearIdleConnections s w =
    Some (Ret tt, s <| m_oEHSConnectionList ::= fun l =>
      filter (fun c => is_finished c = false) (clear_idle (m_nIdleTimeout s) w <$> l) |>, w').
Proof.
  intros Hd. unfold ClearIdleConnections, RemoveFinishedConnections.
  set (s1 := s <| m_oEHSConnectionList ::= _ |>).
  destruct (remove_finished_spec (S (length (m_oEHSConnectionList s1))) s1 w) as [w' Hw'].
  - unfold distinct_conns, s1. cbn. by rewrite clear_idle_this.
  - lia.
  - exists w'. rewrite Hw'. reflexivity.
Qed.

(** Clearing idle connections always succeeds; it removes exactly the
    connections that are finished, and no connection whose books balance is
    removed while a request of it is queued or being handled. *)
Theorem ClearIdleConnections_spec (s : EHSServer) (w : W)
    (Hd : distinct_conns s)
    (Hb : Forall (fun c => balanced c /\ (0 <= m_nActiveRequests c)%Z) (m_oEHSConnectionList s)) :
  exists s' w', ClearIdleConnections s w = Some (Ret tt, s', w') /\ distinct_conns s' /\
    (forall c', c' ∈ m_oEHSConnectionList s' <->
       exists c, c ∈ m_oEHSConnectionList s /\ c' = clear_idle (m_nIdleTimeout s) w c /\
         is_finished c' = false) /\
    (forall c, c ∈ m_oEHSConnectionList s -> RequestsPending c = true -> m_poCurrentHttpRequest c <> None ->
       c ∈ m_oEHSConnectionList s').
Proof.
  destruct (ClearIdleConnections_list s w Hd) as [w' ->].
  eexists _, w'. split; [done|]. cbn.
  assert (forall c', c' ∈ filter (fun c => is_finished c = false)
      (clear_idle (m_nIdleTimeout s) w <$> m_oEHSConnectionList s) <->
    exists c, c ∈ m_oEHSConnectionList s /\ c' = clear_idle (m_nIdleTimeout s) w c /\ is_finished c' = false) as Hin.
  { intros c'. rewrite list_elem_of_filter, list_elem_of_fmap. naive_solver. }
  split; [|split; [exact Hin|]].
  - unfold distinct_conns. cbn. unfold distinct_conns in Hd. rewrite <- (clear_idle_this (m_nIdleTimeout s) w) in Hd.
    by apply NoDup_fmap_filter.
  - intros c Hc Hp Hcur. apply Hin. exists c.
    assert (clear_idle (m_nIdleTimeout s) w c = c) as Hid.
    { unfold clear_idle. by rewrite Hp, andb_false_r. }
    split_and!; [done|by rewrite Hid|]. rewrite Forall_forall in Hb. destruct (Hb c Hc) as [Hbal Ha].
    unfold is_finished. destruct (StillReading c); [done|]. cbn. apply Z.leb_gt.
    unfold balanced in Hbal. destruct (m_poCurrentHttpRequest c); [|done].
    unfold RequestsPending in Hp. destruct (m_oHttpRequestList c); simpl in *; [|lia].
    destruct (Z.eqb_spec (m_nActiveRequests c) 0); simpl in Hp; [done|lia].
Qed.


(** ** The books of the server *)
Variables (beyond stale : bytes).

#[local] Instance same_books_preorder : PreOrder same_books.
Proof. split; [by intros s|]. unfold same_books. intros s1 s2 s3. intuition (congruence || lia). Qed.

Lemma reject_frame code c (w : W) :
  let c' := (reject beyond stale code c w).1 in
  m_oHttpRequestList c' = m_oHttpRequestList c /\ conn_this c' = conn_this c.
Proof.
  unfold reject.
  pose proof (SendResponse_frame has_RawSocketHandler beyond
    (Http (Error stale (time w) code 0 (Some (conn_this c)))) c w) as H.
  by destruct (SendResponse _ _ _ _ _) as [c1 w1].
Qed.

Lemma check_client_spec s c (w : W) :
  exists o c' p' w', check_client beyond stale s c w = Some (o, c', p', w') /\
    (p' - Z.of_nat (length (m_oHttpRequestList c')) =
     m_nRequestsPending s - Z.of_nat (length (m_oHttpRequestList c)))%Z /\
    conn_this c' = conn_this c.
Proof.
  unfold check_client. destruct (FD_ISSET _ _); [|by do 4 eexists].
  destruct (na_Read _ _ _) as [[n buf] w1]. destruct (IsRaw c).
  { destruct (n <? 0)%Z; [by do 4 eexists|]. destruct (_ && _); [|by do 4 eexists].
    destruct (rsh_OnData _ _ _) as [[[]|] w2]; by do 4 eexists. }
  destruct (n <=? 0)%Z; [by do 4 eexists|].
  destruct (AddBuffer_total (m_nServerRunningStatus s) buf n c (m_nRequestsPending s) w1)
    as (o & c' & p' & w' & -> & Hp & Ht).
  assert (forall code, let '(c2, w2) := reject beyond stale code c' w' in
    (p' - Z.of_nat (length (m_oHttpRequestList c2)) =
     m_nRequestsPending s - Z.of_nat (length (m_oHttpRequestList c)))%Z /\ conn_this c2 = conn_this c) as Hrej.
  { intros code. pose proof (reject_frame code c' w') as Hr. destruct (reject beyond stale code c' w') as [c2 w2].
    simpl in Hr. destruct Hr as [-> ->]. by split. }
  destruct o as [[]|e]; try (do 4 eexists; split; [done|by split]).
  all: match goal with |- context [reject _ _ ?code _ _] => specialize (Hrej code) end.
  all: destruct (reject _ _ _ _ _) as [c2 w2]; by do 4 eexists.
Qed.

Lemma check_clients_spec n i s (w : W) :
  exists o s' w', check_clients beyond stale n i s w = Some (o, s', w') /\ same_books s s'.
Proof.
  revert i s w. induction n as [|n IH]; intros i s w; cbn [check_clients]; [by do 3 eexists|].
  destruct (m_oEHSConnectionList s !! i) as [c|] eqn:Hc; [|by do 3 eexists].
  destruct (check_client_spec s c w) as (o & c' & p' & w' & -> & Hp & Ht).
  set (s1 := s <| m_oEHSConnectionList ::= <[i := c']> |> <| m_nRequestsPending := p' |>).
  assert (same_books s s1) as Hs1.
  { unfold same_books, s1. cbn -[Z.sub]. split_and!; [|pose proof (total_queued_insert _ _ _ c' Hc); lia|done..].
    rewrite list_fmap_insert, Ht. apply list_insert_id. by rewrite list_lookup_fmap, Hc. }
  destruct o as [u|e]; [|by do 3 eexists].
  destruct (IH (S i) s1 w') as (o & s' & w2 & -> & Hs'). do 3 eexists. split; [done|]. by etrans.
Qed.

Context {k : Z}.

Lemma books_ok_same s s' : same_books s s' -> books_ok k s -> books_ok k s'.
Proof.
  intros (H1 & H2 & _ & H4 & _) [Hd Hf Hp]. split.
  - unfold distinct_conns in *. by rewrite H1.
  - rewrite H4. assert (Forall (fun i => i < srv_next_conn s) (conn_this <$> m_oEHSConnectionList s)) as HF
      by by apply Forall_fmap.
    rewrite <- H1 in HF. by apply Forall_fmap in HF.
  - lia.
Qed.

Lemma total_queued_filter P `{!forall x, Decision (P x)} l : total_queued (filter P l) <= total_queued l.
Proof.
  induction l as [|c l IH]; [done|]. rewrite filter_cons. simpl. case_decide; simpl; lia.
Qed.

Lemma total_queued_clear_idle t (w : W) l : total_queued (clear_idle t w <$> l) = total_queued l.
Proof.
  induction l as [|c l IH]; [done|]. rewrite fmap_cons. simpl. rewrite IH. f_equal.
  unfold clear_idle. by destruct (_ && _).
Qed.

Lemma ClearIdleConnections_ok s (w : W) :
  books_ok k s -> exists s' w', ClearIdleConnections s w = Some (Ret tt, s', w') /\ books_ok k s' /\
    m_bAccepting s' = m_bAccepting s /\ m_nThreads s' = m_nThreads s.
Proof.
  intros [Hd Hf Hp]. destruct (ClearIdleConnections_list s w Hd) as [w' ->].
  eexists _, w'. split; [done|]. split; [|done]. split; cbn.
  - unfold distinct_conns. cbn. apply NoDup_fmap_filter. by rewrite clear_idle_this.
  - apply Forall_forall. intros c [_ (c0 & -> & Hc)%list_elem_of_fmap]%list_elem_of_filter.
    rewrite Forall_forall in Hf. specialize (Hf c0 Hc). unfold clear_idle. by destruct (_ && _).
  - pose proof (total_queued_filter (fun c => is_finished c = false)
      (clear_idle (m_nIdleTimeout s) w <$> m_oEHSConnectionList s)) as H.
    rewrite total_queued_clear_idle in H. lia.
Qed.

Lemma CheckAcceptSocket_ok s (w : W) :
  books_ok k s -> exists o s' w', CheckAcceptSocket s w = (o, s', w') /\ books_ok k s' /\
    m_bAccepting s' = m_bAccepting s /\ m_nThreads s' = m_nThreads s.
Proof.
  intros Hok. unfold CheckAcceptSocket. destruct (FD_ISSET _ _); [|by do 3 eexists].
  destruct (na_Accept _ _) as [[na|e] w1].
  - do 3 eexists. split; [done|]. split; [|done]. destruct Hok as [Hd Hf Hp].
    assert (exists c, accept_connection na s w1 =
      s <| m_oEHSConnectionList ::= fun l => l ++ [c] |> <| m_bAcceptedNewConnection := true |>
        <| srv_next_conn ::= S |> /\ conn_this c = srv_next_conn s /\ m_oHttpRequestList c = []) as (c & -> & Hid & Hq).
    { unfold accept_connection. eexists. split; [done|]. by repeat case_match. }
    split; cbn.
    + unfold distinct_conns in *. cbn. rewrite fmap_app. apply NoDup_app. split_and!; [done| |by apply NoDup_singleton].
      intros x (c1 & -> & Hc1)%list_elem_of_fmap [Hx|[]%elem_of_nil]%elem_of_cons.
      rewrite Forall_forall in Hf. specialize (Hf c1 Hc1). lia.
    + apply Forall_app. split; [|constructor; [lia|done]].
      eapply Forall_impl; [done|]. simpl. lia.
    + assert (total_queued (m_oEHSConnectionList s ++ [c]) = total_queued (m_oEHSConnectionList s)) as ->; [|done].
      clear - Hq. induction (m_oEHSConnectionList s) as [|x l IH]; simpl; [by rewrite Hq|]. by rewrite IH.
  - destruct e; try by do 3 eexists. destruct (find _ _); by do 3 eexists.
Qed.


Lemma update_conn_books id c c' l :
  find_conn id l = Some c -> conn_this c' = conn_this c ->
  m_oHttpRequestList c' = m_oHttpRequestList c ->
  conn_this <$> update_conn id (fun _ => c') l = conn_this <$> l /\
  total_queued (update_conn id (fun _ => c') l) = total_queued l.
Proof.
  intros Hf Ht Hq. induction l as [|x l IH]; [done|]. cbn [update_conn find_conn] in *.
  case_decide; simplify_eq; rewrite !fmap_cons; cbn [total_queued]; [by rewrite Ht, Hq|].
  destruct (IH Hf) as [H1 H2]. by rewrite H1, H2.
Qed.

Lemma srv_AddResponse_books r s (w : W) :
  exists o s' w', srv_AddResponse beyond r s w = (o, s', w') /\ same_books s s'.
Proof.
  unfold srv_AddResponse. destruct (m_poEHSConnection _) as [id|]; [|by do 3 eexists].
  destruct (find_conn id _) as [c|] eqn:Hf; [|by do 3 eexists]. unfold conn_AddResponse.
  set (c0 := c <| m_oResponseQueue ::= _ |>).
  pose proof (send_queue_frame has_RawSocketHandler beyond (m_oResponseQueue c0) c0 w) as Hs.
  destruct (send_queue _ _ _ c0 w) as [c1 w1]. destruct Hs as [Hq Ht].
  do 3 eexists. split; [done|]. destruct (update_conn_books id c c1 _ Hf Ht Hq) as [H1 H2].
  unfold same_books. cbn -[Z.sub]. rewrite H1, H2. by split_and!.
Qed.

Lemma srv_GetNextRequest_ok rnd s :
  (0 <= rnd <= RAND_MAX)%Z -> books_ok k s ->
  books_ok k (srv_GetNextRequest rnd s).2 /\
  m_bAccepting (srv_GetNextRequest rnd s).2 = m_bAccepting s /\
  m_nThreads (srv_GetNextRequest rnd s).2 = m_nThreads s.
Proof.
  intros Hr Hok. unfold srv_GetNextRequest. case_decide as Hnil; [done|].
  assert (length (m_oEHSConnectionList s) <> 0) as Hn by by destruct (m_oEHSConnectionList s).
  pose proof (next_request_from_spec (length (m_oEHSConnectionList s)) _ s (start_in_range _ _ Hn Hr)) as Hs.
  destruct (next_request_from _ _ s) as [[r|] s'].
  - destruct Hs as (j & c & q & _ & Hl & Hq & _ & ->). split; [|done].
    apply (books_ok_same s); [|done]. unfold same_books. cbn -[Z.sub Z.pred].
    pose proof (total_queued_insert _ _ _ (conn_GetNextRequest c).2 Hl) as Ht.
    unfold conn_GetNextRequest in *. rewrite Hq in *. cbn -[Z.sub] in *.
    split_and!; [|lia|done..]. rewrite list_fmap_insert. apply list_insert_id.
    by rewrite list_lookup_fmap, Hl.
  - by destruct Hs as [-> _].
Qed.

Lemma end_accepting_ok s (w : W) :
  books_ok k s -> exists o s' w', end_accepting s w = Some (o, s', w') /\ books_ok k s' /\
    m_nThreads s' = m_nThreads s /\ o = Ret tt /\ m_bAccepting s' = false.
Proof.
  intros Hok. unfold end_accepting.
  destruct (ClearIdleConnections_ok s w Hok) as (s' & w' & -> & [] & _ & Hth). do 3 eexists.
  split; [done|]. by repeat split.
Qed.

Lemma accept_and_read_ok t s (w : W) :
  books_ok k s -> exists o s' w', accept_and_read beyond stale t s w = Some (o, s', w') /\ books_ok k s' /\
    m_nThreads s' = m_nThreads s /\
    m_bAccepting s' = match o with Ret _ => false | Throw _ => m_bAccepting s end.
Proof.
  intros Hok. unfold accept_and_read, CreateFdSet.
  set (s1 := s <| m_oReadFds := _ |>). assert (books_ok k s1) as Hok1 by by destruct Hok; split.
  assert (m_nThreads s1 = m_nThreads s) as Ht1 by done.
  assert (forall s2 w2, books_ok k s2 -> m_nThreads s2 = m_nThreads s ->
    exists o s' w', end_accepting s2 w2 = Some (o, s', w') /\ books_ok k s' /\
    m_nThreads s' = m_nThreads s /\
    m_bAccepting s' = match o with Ret _ => false | Throw _ => m_bAccepting s end) as Hend.
  { intros s2 w2 Hok2 Ht2. destruct (end_accepting_ok s2 w2 Hok2) as (o & s' & w' & -> & ? & ? & -> & ?).
    do 3 eexists. split; [done|]. split; [done|]. split; [congruence|done]. }
  destruct (select _ _ _) as [[fds|[]] w1]; [|by apply Hend|by do 3 eexists].
  destruct fds as [|fd fds]; [apply Hend; [by destruct Hok1; split|done]|].
  assert (books_ok k (s1 <| m_oReadFds := fd :: fds |>)) as Hok2 by by destruct Hok1; split.
  destruct (CheckAcceptSocket_ok _ w1 Hok2) as (o & s2 & w2 & -> & Hok3 & Hacc & Hth).
  destruct o as [u|e]; [|by do 3 eexists].
  unfold CheckClientSockets.
  destruct (check_clients_spec (length (m_oEHSConnectionList s2)) 0 s2 w2) as (o & s3 & w3 & -> & Hb).
  pose proof (books_ok_same _ _ Hb Hok3). destruct Hb as (_ & _ & Hacc3 & _ & _ & Hth3).
  destruct o; [apply Hend; [done|by rewrite Hth3, Hth]|]. do 3 eexists.
  split; [done|]. split; [done|]. split; [by rewrite Hth3, Hth|by rewrite Hacc3, Hacc].
Qed.

Lemma choose_job_ok rnd tid s :
  (0 <= rnd <= RAND_MAX)%Z -> books_ok k s ->
  books_ok k (choose_job rnd tid s).2 /\ m_nThreads (choose_job rnd tid s).2 = m_nThreads s /\
  match (choose_job rnd tid s).1 with
  | JobAccept => m_bAccepting s = false /\ m_bAccepting (choose_job rnd tid s).2 = true
  | JobWait => m_bAccepting s = true /\ m_bAccepting (choose_job rnd tid s).2 = true
  | JobHandle _ => m_bAccepting (choose_job rnd tid s).2 = m_bAccepting s
  end.
Proof.
  intros Hr Hok. unfold choose_job. set (s0 := s <| m_oCurrentRequest ::= delete tid |>).
  assert (books_ok k s0) as Hok0 by by destruct Hok; split.
  assert (m_bAccepting s0 = m_bAccepting s /\ m_nThreads s0 = m_nThreads s) as [Ha0 Ht0] by done.
  assert (forall s1, books_ok k s1 -> m_bAccepting s1 = m_bAccepting s -> m_nThreads s1 = m_nThreads s ->
    let x := if m_bAccepting s1 then (JobWait, s1)
             else (JobAccept, s1 <| m_bAcceptedNewConnection := false |> <| m_bAccepting := true |>) in
    books_ok k x.2 /\ m_nThreads x.2 = m_nThreads s /\ match x.1 with
      | JobAccept => m_bAccepting s = false /\ m_bAccepting x.2 = true
      | JobWait => m_bAccepting s = true /\ m_bAccepting x.2 = true
      | JobHandle _ => m_bAccepting x.2 = m_bAccepting s end) as Hno.
  { intros s1 Hok1 Ha1 Ht1. cbv zeta. destruct (m_bAccepting s1) eqn:E1; simpl.
    - split; [done|]. split; [done|]. by split; [congruence|].
    - split; [by destruct Hok1; split|]. split; [done|]. by split; [congruence|]. }
  destruct (_ || _).
  - pose proof (srv_GetNextRequest_ok rnd s0 Hr Hok0) as (Hok1 & Ha1 & Ht1).
    destruct (srv_GetNextRequest rnd s0) as [[r|] s1]; simpl in *.
    + split; [by destruct Hok1; split|]. by split; [congruence|].
    + apply Hno; [done|congruence|congruence].
  - by apply Hno.
Qed.

Lemma handle_request_books tid req s (w : W) :
  exists o s' w', handle_request beyond tid req s w = (o, s', w') /\ same_books s s'.
Proof.
  unfold handle_request. destruct (RouteRequest req w) as [[r|e] w1]; [|by do 3 eexists].
  destruct (srv_AddResponse_books (Http r) s w1) as (o & s' & w' & -> & Hb).
  destruct o; by do 3 eexists.
Qed.

Lemma srv_GetNextRequest_none rnd s s' :
  (0 <= rnd <= RAND_MAX)%Z -> srv_GetNextRequest rnd s = (None, s') -> s' = s /\ total_queued (m_oEHSConnectionList s) = 0.
Proof using.
  intros Hr. unfold srv_GetNextRequest. case_decide as Hnil; [intros [= <-]; by rewrite Hnil|].
  assert (length (m_oEHSConnectionList s) <> 0) as Hn by by destruct (m_oEHSConnectionList s).
  pose proof (next_request_from_spec (length (m_oEHSConnectionList s)) _ s (start_in_range _ _ Hn Hr)) as Hs.
  set (i := Z.to_nat _) in *. pose proof (start_in_range _ _ Hn Hr : i < _) as Hi. intros E1. rewrite E1 in Hs.
  destruct Hs as [-> Hall]. split; [done|]. apply total_queued_zero, Forall_lookup. intros j c Hj.
  pose proof (lookup_lt_Some _ _ _ Hj) as Hlt. set (n := length (m_oEHSConnectionList s)) in *.
  assert (exists d, d < n /\ (i + d) mod n = j) as (d & Hd & Hmod).
  { destruct (decide (i <= j)).
    - exists (j - i). split; [lia|]. rewrite Nat.mod_small; lia.
    - exists (n + j - i). split; [lia|]. replace (i + (n + j - i)) with (j + 1 * n) by lia.
      rewrite Nat.Div0.mod_add. by apply Nat.mod_small. }
  specialize (Hall d Hd). unfold queue_at in Hall. rewrite Hmod, Hj in Hall. done.
Qed.

(** A thread that finds no request although it may take one has looked at every queue. *)
Definition takes_requests (tid : thread_id) (s : EHSServer) : bool :=
  bool_decide (m_nServerRunningStatus s <> SERVERRUNNING_ONETHREADPERREQUEST) || bool_decide (tid <> m_nAcceptThreadId s).

Lemma choose_job_nothing rnd tid s :
  (0 <= rnd <= RAND_MAX)%Z -> takes_requests tid s = true ->
  match (choose_job rnd tid s).1 with JobHandle _ => True | _ => total_queued (m_oEHSConnectionList s) = 0 end.
Proof using.
  intros Hr Ht. unfold choose_job. set (s0 := s <| m_oCurrentRequest ::= delete tid |>).
  change (takes_requests tid s0 = true) in Ht. unfold takes_requests in Ht. rewrite Ht.
  destruct (srv_GetNextRequest rnd s0) as [[r|] s1] eqn:E1; [done|]. apply srv_GetNextRequest_none in E1 as [_ E1]; [|done].
  destruct (m_bAccepting s1); exact E1.
Qed.

End server.

(** The other threads run the operations of Server, each of which keeps the books. *)
Class OthersOk {W : Type} (T : OtherThreads W) : Prop :=
  others_ok k s w s' w' : pthread_cond_wait s w = Some (s', w') -> books_ok k s -> books_ok k s'.
#[export] Instance no_others_ok {W} : OthersOk (no_other_threads (W := W)).
Proof. by intros k s w s' w'. Qed.

Section handle_data.
Context {W : Type} {E : Env W} {A : App W} {B : Boost} {T : OtherThreads W} {LO : OthersOk T}.
Variables (beyond stale : bytes).

(** What a call of [HandleData] leaves, and when it does not return. *)
Definition handled (k : Z) (rnd : Z) (tid : thread_id) (s : EHSServer) (w : W) (x : option (res unit * EHSServer * W)) : Prop :=
  match x with
  | Some (o, s', w') => books_ok k s' /\
      match o, (choose_job rnd tid s).1 with
      | Throw _, JobAccept => m_bAccepting s = false /\ m_bAccepting s' = true
      | _, JobWait => m_bAccepting s = true /\ exists s1, choose_job rnd tid s = (JobWait, s1) /\ pthread_cond_wait s1 w = Some (s', w')
      | _, _ => m_bAccepting s' = m_bAccepting s
      end
  | None => m_bAccepting s = true /\ (takes_requests tid s = true -> total_queued (m_oEHSConnectionList s) = 0) /\
      exists s1, choose_job rnd tid s = (JobWait, s1) /\ pthread_cond_wait s1 w = None
  end.

Lemma HandleData_books k (rnd t : Z) (tid : thread_id) (s : EHSServer) (w : W) :
  (0 <= rnd <= RAND_MAX)%Z -> books_ok k s -> handled k rnd tid s w (HandleData beyond stale rnd t tid s w).
Proof using LO.
  intros Hr Hok. unfold HandleData, handled. pose proof (choose_job_ok rnd tid s Hr Hok) as (Hok1 & _ & Hj).
  pose proof (choose_job_nothing rnd tid s Hr) as Hno.
  destruct (choose_job rnd tid s) as [[req| |] s1]; cbn [fst snd] in *.
  - destruct (handle_request_books beyond tid req s1 w) as (o & s' & w' & -> & Hb).
    split; [by eapply books_ok_same|]. destruct Hb as (_ & _ & Ha & _). rewrite <- Hj. by destruct o.
  - destruct Hj as [Hj _]. destruct (pthread_cond_wait s1 w) as [[s' w']|] eqn:Ew.
    + split; [by eapply others_ok|]. split; [done|]. by exists s1.
    + split_and!; [done|done|]. by exists s1.
  - destruct (accept_and_read_ok beyond stale t s1 w Hok1) as (o & s' & w' & -> & Hok' & _ & Ha).
    destruct Hj as [Hj1 Hj2]. split; [done|]. destruct o; [by rewrite Ha, Hj1|]. by rewrite Ha.
Qed.


End handle_data.

(** ** Witnesses *)
Lemma GetNextRequest_spec_witness :
  pending_ok example_server /\
  exists c q, m_oEHSConnectionList example_server !! 1 = Some c /\
    m_oHttpRequestList c = HttpRequest_init 1 2 [] :: q /\
    (srv_GetNextRequest 0 example_server).1 = Some (HttpRequest_init 1 2 []).
Proof.
  assert (pending_ok example_server) as H by reflexivity. split; [exact H|].
  pose proof (GetNextRequest_spec 0 example_server ltac:(unfold RAND_MAX; lia) H) as HG. cbv zeta in HG.
  assert ((srv_GetNextRequest 0 example_server).1 = Some (HttpRequest_init 1 2 [])) as Hreq by (vm_compute; reflexivity).
  destruct (srv_GetNextRequest 0 example_server) as [req s']. simpl in Hreq. subst req.
  destruct HG as (_ & _ & HG & _). destruct (HG _ eq_refl) as (j & c & q & Hj & Hl & Hq & _).
  exists c, q. change (length (m_oEHSConnectionList example_server)) with 2 in *. simpl in Hl.
  destruct j as [|[|j]]; [|split; [exact Hl|by split]|lia].
  simpl in Hl. injection Hl as <-. discriminate.
Defined.

Lemma ClearIdleConnections_spec_witness :
  exists s' w', ClearIdleConnections (E := script_env) (A := example_app) example_server example_world
      = Some (Ret tt, s', w') /\ queued_conn ∈ m_oEHSConnectionList s'.
Proof.
  destruct (ClearIdleConnections_spec (E := script_env) (A := example_app) example_server example_world)
    as (s' & w' & H1 & _ & _ & H4).
  - unfold distinct_conns. simpl. apply NoDup_cons. split; [|apply NoDup_singleton].
    intros [Hx|Hx]%elem_of_cons; [discriminate|by apply elem_of_nil in Hx].
  - repeat constructor; discriminate.
  - exists s', w'. split; [exact H1|]. apply H4; [right; left|reflexivity|discriminate].
Defined.

(** A request is handled; then, after an exception in the accepting thread, another call finds the
    flag set and waits for good. *)
Definition flagged_server : EHSServer := example_server <| m_oEHSConnectionList := [] |> <| m_nRequestsPending := 0%Z |> <| m_bAccepting := true |>.
