(* ===== verification/Threads.v ===== *)
(** * Server threads: interleavings of [HandleData_Threaded]

    Several threads run the loop of [HandleData_Threaded] on one server.  A step
    is one phase of one thread between two points where the code releases the
    server mutex: coming into being, counting itself, choosing a job, handling a request,
    accepting and reading, waking up.  (Within a phase the code also touches connections
    under their own mutexes; those finer interleavings are the subject of Interleave.)
    A phase in which a thread would use a deleted connection is not a step: what happens
    then is undefined. *)
From S2P Require Import Prelude Boost StdMap EhsTypes HttpRequest HttpResponse Network Connection.
From S2P Require Import Server ConnectionFacts ServerFacts.

(** ** Definitions *)

(** Where a thread is in the loop. *)
Inductive pc : Type :=
| Created                     (* by pthread_create; PthreadHandleData_ThreadedStub has not counted it yet *)
| Idle                        (* about to call HandleData *)
| Handling (req : HttpRequest)
| Waiting                     (* in pthread_cond_wait *)
| Accepting.
#[export] Instance pc_inhabited : Inhabited pc := populate Idle.

(** A thread counts itself when it first runs, and counts itself out at its end: the threads
    in between, given which ones have yet to run. *)
Section counting.
Context {P : Type} (created : P -> bool).
Implicit Types (p q : P) (ts : gmap Z P).

Definition counted ts : gmap Z P := filter (fun x : Z * P => created x.2 = false) ts.

Lemma counted_insert tid p q ts :
  ts !! tid = Some p -> created p = false -> created q = false -> size (counted (<[tid := q]> ts)) = size (counted ts).
Proof.
  intros Hp Hpc Hqc. unfold counted. rewrite map_filter_insert_True by done.
  apply map_size_insert_Some. exists p. by apply map_lookup_filter_Some.
Qed.
Lemma counted_create tid p ts : ts !! tid = None -> created p = true -> counted (<[tid := p]> ts) = counted ts.
Proof. intros Hn Hp. unfold counted. rewrite map_filter_insert_False by (cbn; congruence). by rewrite delete_id. Qed.
Lemma counted_count tid p q ts :
  ts !! tid = Some p -> created p = true -> created q = false -> size (counted (<[tid := q]> ts)) = S (size (counted ts)).
Proof.
  intros Hp Hpc Hqc. unfold counted. rewrite map_filter_insert_True by done. apply map_size_insert_None.
  apply map_lookup_filter_None. right. intros x Hx. cbn. rewrite Hp in Hx. injection Hx as <-. congruence.
Qed.
Lemma counted_delete tid p ts : ts !! tid = Some p -> created p = false -> S (size (counted (delete tid ts))) = size (counted ts).
Proof.
  intros Hp Hc. unfold counted. rewrite map_filter_delete.
  set (m := filter (fun x : Z * P => created x.2 = false) ts).
  assert (m !! tid = Some p) as Hf by by apply map_lookup_filter_Some.
  rewrite map_size_delete, Hf. cbn. assert (size m <> 0); [|lia].
  intros Hz%map_size_empty_inv. by rewrite Hz in Hf.
Qed.
Lemma counted_none ts : size (counted ts) = 0 -> forall t p, ts !! t = Some p -> created p = true.
Proof.
  intros Hz%map_size_empty_inv t p Hp. apply not_false_iff_true. intros Hf.
  assert (counted ts !! t = Some p) as Hx by by apply map_lookup_filter_Some. by rewrite Hz in Hx.
Qed.
End counting.

Section threads.
Context {W : Type} {E : Env W} {A : App W} {B : Boost}.
Variables (beyond stale : bytes).

Record config : Type := Config {
  cf_server : EHSServer;
  cf_world : W;
  cf_threads : gmap Z pc      (* the threads that are running *)
}.

Definition pc_of_job (j : job) : pc :=
  match j with
  | JobHandle r => Handling r
  | JobWait => Waiting
  | JobAccept => Accepting
  end.

(** After a call of [HandleData]: an exception is given to the application, and the
    loop goes on or ends; at its end the thread is counted out.  [None] when the call, or
    the answer to the exception, has used a connection that does not exist. *)
Definition after_HandleData (tid : Z) (o : res unit) (s : EHSServer) (w : W) (ts : gmap Z pc) : option config :=
  match (match o with
         | Ret _ => (Ret tt, s, w)
         | Throw (Undefined what) => (Throw (Undefined what), s, w)
         | Throw e => thread_exception beyond tid e s w
         end) with
  | (Throw _, _, _) => None
  | (Ret _, s, w) =>
      if keep_running tid s then Some (Config s w (<[tid := Idle]> ts))
      else Some (Config (s <| m_nThreads ::= Z.pred |>) w (delete tid ts))
  end.

Inductive step : config -> config -> Prop :=
| step_create s w ts tid :
    ts !! tid = None -> step (Config s w ts) (Config s w (<[tid := Created]> ts))
| step_count s w ts tid :
    ts !! tid = Some Created -> step (Config s w ts) (Config (s <| m_nThreads ::= Z.succ |>) w (<[tid := Idle]> ts))
| step_choose s w ts tid rnd j s' :
    ts !! tid = Some Idle -> (0 <= rnd <= RAND_MAX)%Z -> choose_job rnd tid s = (j, s') ->
    step (Config s w ts) (Config s' w (<[tid := pc_of_job j]> ts))
| step_handle s w ts tid req o s' w' c :
    ts !! tid = Some (Handling req) -> handle_request beyond tid req s w = (o, s', w') ->
    after_HandleData tid o s' w' ts = Some c -> step (Config s w ts) c
| step_accept s w ts tid o s' w' c :
    ts !! tid = Some Accepting -> accept_and_read beyond stale 1000 s w = Some (o, s', w') ->
    after_HandleData tid o s' w' ts = Some c -> step (Config s w ts) c
| step_wake s w ts tid c :
    ts !! tid = Some Waiting -> after_HandleData tid (Ret tt) s w ts = Some c -> step (Config s w ts) c
| step_end s w ts :
    step (Config s w ts) (Config (EndServerThread s) w ts).

(** The accepting flag stands for exactly one accepting thread. *)
Definition one_acceptor (c : config) : Prop :=
  (forall t1 t2, cf_threads c !! t1 = Some Accepting -> cf_threads c !! t2 = Some Accepting -> t1 = t2) /\
  (forall t, cf_threads c !! t = Some Accepting -> m_bAccepting (cf_server c) = true).

(** The threads that have counted themselves are counted. *)
Definition is_created (p : pc) : bool := if p is Created then true else false.
Definition threads_counted (c : config) : Prop :=
  m_nThreads (cf_server c) = Z.of_nat (size (counted is_created (cf_threads c))).

Definition config_ok (c : config) : Prop :=
  server_ok (cf_server c) /\ one_acceptor c /\ threads_counted c.

(** The flag is set although no thread is accepting. *)
Definition flag_stuck (c : config) : Prop :=
  m_bAccepting (cf_server c) = true /\ forall t, cf_threads c !! t <> Some Accepting.

(** ** Lemmas *)
Lemma server_ok_flags s s' :
  m_oEHSConnectionList s' = m_oEHSConnectionList s -> m_nRequestsPending s' = m_nRequestsPending s ->
  srv_next_conn s' = srv_next_conn s -> server_ok s -> server_ok s'.
Proof. intros H1 H2 H3 [Hd Hf Hp]. split; unfold distinct_conns; by rewrite ?H1, ?H2, ?H3. Qed.

Lemma thread_exception_ok tid e s (w : W) :
  server_ok s -> exists o s' w', thread_exception beyond tid e s w = (o, s', w') /\ server_ok s' /\
    m_nThreads s' = m_nThreads s /\ m_bAccepting s' = m_bAccepting s.
Proof.
  intros Hok. unfold thread_exception.
  destruct (HandleThreadException _ _ _ _) as [[r|] w1].
  - destruct (srv_AddResponse_books beyond r s w1) as (o & s' & w' & -> & Hb).
    do 3 eexists. split; [done|]. pose proof (books_ok_same _ _ Hb Hok).
    destruct Hb as (_ & _ & ? & _ & _ & ?). split; [by apply (server_ok_flags s')|]. by split.
  - do 3 eexists. split; [done|]. split; [by apply (server_ok_flags s)|]. done.
Qed.

(** The end of a call: of one that returns, and of one that throws. *)
Definition next_round (tid : Z) (s : EHSServer) (w : W) (ts : gmap Z pc) : config :=
  if keep_running tid s then Config s w (<[tid := Idle]> ts) else Config (s <| m_nThreads ::= Z.pred |>) w (delete tid ts).

Lemma after_return tid s w ts c : after_HandleData tid (Ret tt) s w ts = Some c -> c = next_round tid s w ts.
Proof. unfold after_HandleData, next_round. by destruct (keep_running tid s); intros H%(inj Some). Qed.

Lemma after_throw tid e s w ts c :
  after_HandleData tid (Throw e) s w ts = Some c ->
  exists s' w', thread_exception beyond tid e s w = (Ret tt, s', w') /\ c = next_round tid s' w' ts.
Proof.
  unfold after_HandleData, next_round. destruct (thread_exception beyond tid e s w) as [[[[]|x] s'] w'] eqn:Et; destruct e; try done.
  all: intros Hc; exists s', w'; split; [done|]; by destruct (keep_running tid s'); injection Hc as <-.
Qed.

(** The configuration after a call, from the server state the call left. *)
Lemma after_HandleData_ok tid o s (w : W) ts c p :
  after_HandleData tid o s w ts = Some c -> server_ok s -> ts !! tid = Some p -> is_created p = false ->
  m_nThreads s = Z.of_nat (size (counted is_created ts)) ->
  server_ok (cf_server c) /\ threads_counted c /\
  m_bAccepting (cf_server c) = m_bAccepting s /\
  (forall t, cf_threads c !! t = Some Accepting -> t <> tid /\ ts !! t = Some Accepting).
Proof.
  intros H Hok Hin Hp Hcount.
  assert (forall s' w', server_ok s' -> m_nThreads s' = m_nThreads s -> m_bAccepting s' = m_bAccepting s ->
    c = next_round tid s' w' ts ->
    server_ok (cf_server c) /\ threads_counted c /\ m_bAccepting (cf_server c) = m_bAccepting s /\
    (forall t, cf_threads c !! t = Some Accepting -> t <> tid /\ ts !! t = Some Accepting)) as Hend.
  { intros s' w' Hok' Hth Hacc ->. unfold threads_counted, next_round. destruct (keep_running tid s'); cbn -[Z.pred].
    - rewrite (counted_insert _ tid p), Hth by done. split_and!; [done..|]. intros t. rewrite lookup_insert_Some. naive_solver.
    - pose proof (counted_delete _ _ _ _ Hin Hp). rewrite Hth. split; [by apply (server_ok_flags s')|]. split; [lia|].
      split; [done|]. intros t. rewrite lookup_delete_Some. naive_solver. }
  destruct o as [[]|e]; [by apply (Hend s w), after_return|]. apply after_throw in H as (s1 & w1 & E1 & H).
  destruct (thread_exception_ok tid e s w Hok) as (o' & s' & w' & E' & Hok' & Hth & Hacc). rewrite E' in E1.
  injection E1 as -> <- <-. by apply (Hend s' w').
Qed.

Lemma step_ok c c' : step c c' -> config_ok c -> config_ok c'.
Proof.
  intros Hs (Hok & [H1 H2] & Hc). unfold threads_counted in Hc.
  destruct Hs as [s w ts tid Hin|s w ts tid Hin|s w ts tid rnd j s' Hin Hr Hj|s w ts tid req o s' w' c Hin Hh Ha
    |s w ts tid o s' w' c Hin Hh Ha|s w ts tid c Hin Ha|s w ts]; cbn [cf_server cf_world cf_threads] in *.
  1,2: assert (forall p, p <> Accepting -> one_acceptor (Config s w (<[tid := p]> ts))) as Hone.
  1,3: intros p Hp; split; cbn; [intros t1 t2|intros t]; rewrite !lookup_insert_Some; naive_solver.
  - split; [done|]. split; [by apply Hone|]. unfold threads_counted. cbn. by rewrite counted_create.
  - split; [by apply (server_ok_flags s)|]. split; [by apply Hone|].
    unfold threads_counted. cbn -[Z.succ]. rewrite (counted_count _ tid Created) by done. lia.
  - pose proof (choose_job_ok rnd tid s Hr Hok) as (Hok' & Hth & Hjob). rewrite Hj in *. cbn in *.
    split; [done|]. split; [split|]; cbn.
    + intros t1 t2. rewrite !lookup_insert_Some. destruct j; cbn in *; try naive_solver.
      intros [[<- _]|[? Ht1]] [[<- _]|[? Ht2]]; [done|..]; try (by apply H1);
        [specialize (H2 _ Ht2)|specialize (H2 _ Ht1)]; destruct Hjob; congruence.
    + intros t. rewrite lookup_insert_Some. destruct j; cbn in *; try naive_solver.
    + unfold threads_counted. cbn. by rewrite Hth, Hc, (counted_insert _ tid Idle) by (done || by destruct j).
  - destruct (handle_request_books beyond tid req s w) as (o2 & s2 & w2 & E2 & Hb).
    pose proof (books_ok_same _ _ Hb Hok) as Hok2. destruct Hb as (_ & _ & Hacc & _ & _ & Hth).
    rewrite E2 in Hh. simplify_eq.
    destruct (after_HandleData_ok _ _ _ _ _ _ _ Ha Hok2 Hin eq_refl ltac:(congruence)) as (G1 & G2 & G3 & G4).
    split; [done|]. split; [split|done].
    + intros t1 t2 [_ Ht1]%G4 [_ Ht2]%G4. by apply H1.
    + intros t [_ Ht]%G4. rewrite G3, Hacc. by eapply H2.
  - destruct (accept_and_read_ok beyond stale 1000 s w Hok) as (o2 & s2 & w2 & E2 & Hok2 & Hth & Hacc).
    rewrite E2 in Hh. simplify_eq.
    destruct (after_HandleData_ok _ _ _ _ _ _ _ Ha Hok2 Hin eq_refl ltac:(congruence)) as (G1 & G2 & G3 & G4).
    assert (forall t, cf_threads c !! t <> Some Accepting) as Hno.
    { intros t [Hne Ht]%G4. apply Hne. by apply H1. }
    split; [done|]. split; [split|done]; naive_solver.
  - destruct (after_HandleData_ok _ _ _ _ _ _ _ Ha Hok Hin eq_refl Hc) as (G1 & G2 & G3 & G4).
    split; [done|]. split; [split|done].
    + intros t1 t2 [_ Ht1]%G4 [_ Ht2]%G4. by apply H1.
    + intros t [_ Ht]%G4. rewrite G3. by eapply H2.
  - split; [by apply (server_ok_flags s)|]. by split.
Qed.

Lemma steps_ok c c' : rtc step c c' -> config_ok c -> config_ok c'.
Proof. induction 1; [done|]. intros. by eauto using step_ok. Qed.

Lemma step_stuck c c' : step c c' -> config_ok c -> flag_stuck c -> flag_stuck c'.
Proof.
  intros Hs (Hok & _ & Hc) [Hf Hno]. unfold threads_counted in Hc.
  destruct Hs as [s w ts tid Hin|s w ts tid Hin|s w ts tid rnd j s' Hin Hr Hj|s w ts tid req o s' w' c Hin Hh Ha
    |s w ts tid o s' w' c Hin Hh Ha|s w ts tid c Hin Ha|s w ts]; cbn [cf_server cf_world cf_threads] in *.
  - split; [done|]. cbn. intros t. rewrite lookup_insert_Some. naive_solver.
  - split; [done|]. cbn. intros t. rewrite lookup_insert_Some. naive_solver.
  - pose proof (choose_job_ok rnd tid s Hr Hok) as (Hok' & Hth & Hjob). rewrite Hj in *. cbn in *.
    split; cbn.
    + destruct j; [congruence|by destruct Hjob|destruct Hjob; congruence].
    + intros t. rewrite lookup_insert_Some. destruct j; cbn; try naive_solver.
      destruct Hjob; congruence.
  - destruct (handle_request_books beyond tid req s w) as (o2 & s2 & w2 & E2 & Hb).
    pose proof (books_ok_same _ _ Hb Hok) as Hok2. destruct Hb as (_ & _ & Hacc & _ & _ & Hth).
    rewrite E2 in Hh. simplify_eq.
    destruct (after_HandleData_ok _ _ _ _ _ _ _ Ha Hok2 Hin eq_refl ltac:(congruence)) as (_ & _ & G3 & G4).
    split; [congruence|]. intros t [_ Ht]%G4. by apply (Hno t).
  - by destruct (Hno tid).
  - destruct (after_HandleData_ok _ _ _ _ _ _ _ Ha Hok Hin eq_refl Hc) as (_ & _ & G3 & G4).
    split; [congruence|]. intros t [_ Ht]%G4. by apply (Hno t).
  - done.
Qed.

(** C33: when the accepting thread fails with an exception (a [select] or [accept]
    error, or one that escapes from parsing), the flag stays set with nobody
    accepting, and from then on no interleaving, of any number of threads old or
    new, ever lets a thread accept or read again. *)
Theorem accept_failure_is_final (c c1 c2 : config) (tid : Z) (e : exn) (s' : EHSServer) (w' : W)
    (Hok : config_ok c) (Hin : cf_threads c !! tid = Some Accepting)
    (Hfail : accept_and_read beyond stale 1000 (cf_server c) (cf_world c) = Some (Throw e, s', w'))
    (H1 : after_HandleData tid (Throw e) s' w' (cf_threads c) = Some c1) (H2 : rtc step c1 c2) :
  flag_stuck c2.
Proof.
  assert (config_ok c1 /\ flag_stuck c1) as [Hok1 Hst1].
  { destruct c as [s w ts]. cbn [cf_server cf_world cf_threads] in *. split.
    - eapply step_ok; [|exact Hok]. by eapply step_accept.
    - destruct Hok as (Hok & [Hu Hf] & Hc). unfold threads_counted in Hc. cbn [cf_server cf_world cf_threads] in *.
      destruct (accept_and_read_ok beyond stale 1000 s w Hok) as (o2 & s2 & w2 & E2 & Hok2 & Hth & Hacc).
      rewrite E2 in Hfail. simplify_eq.
      destruct (after_HandleData_ok _ _ _ _ _ _ _ H1 Hok2 Hin eq_refl ltac:(congruence)) as (_ & _ & G3 & G4).
      split; [rewrite G3, Hacc; by eapply Hf|]. intros t [Hne Ht]%G4. apply Hne. by apply Hu. }
  clear H1. induction H2 as [|x y z Hs _ IH]; [done|].
  apply IH; [by eapply step_ok|by eapply step_stuck].
Qed.

End threads.

(** ** Witnesses *)

(** A server without connections, for examples. *)
Definition idle_server : EHSServer :=
  MkEHSServer SERVERRUNNING_THREADPOOL [] false 0 false [] [] 10 0 15 0 ∅ 1.
Definition failing_world : script := example_world <| sc_selects := [Sel_error false] |>.
Definition accepting_config : config (W := script) :=
  Config (idle_server <| m_bAccepting := true |> <| m_nThreads := 2%Z |>) failing_world
    {[ 1%Z := Accepting; 2%Z := Waiting ]}.

Abbreviation script_step := (step (E := script_env) (A := example_app) (B := perl_boost) [] []).

Lemma idle_server_ok : server_ok idle_server.
Proof. split; [apply NoDup_nil_2|constructor|done]. Qed.

Lemma accept_failure_is_final_witness :
  config_ok accepting_config /\
  exists c1, rtc script_step accepting_config c1 /\ flag_stuck c1.
Proof.
  assert (config_ok accepting_config) as H.
  { split; [split; [apply NoDup_nil_2|constructor|discriminate]|]. split; [|reflexivity]. split; [|done].
    intros t1 t2. unfold accepting_config. cbn [cf_threads].
    rewrite !lookup_insert_Some, !lookup_singleton_Some. intros [[<- _]|[_ [_ ?]]] [[<- _]|[_ [_ ?]]]; done. }
  split; [exact H|].
  destruct (accept_and_read (E := script_env) (A := example_app) (B := perl_boost) [] [] 1000
    (cf_server accepting_config) (cf_world accepting_config)) as [[[o s'] w']|] eqn:Ea.
  2:{ vm_compute in Ea. discriminate. }
  assert (exists e, o = Throw e) as [e ->] by (vm_compute in Ea; injection Ea as <- _ _; by eexists).
  destruct (after_HandleData (E := script_env) (A := example_app) [] 1%Z (Throw e) s' w'
    (cf_threads accepting_config)) as [c1|] eqn:E1.
  2:{ vm_compute in Ea. injection Ea as <- <- <-. vm_compute in E1. discriminate. }
  exists c1. split.
  - apply rtc_once. eapply (step_accept _ _ _ _ _ 1%Z); [reflexivity|exact Ea|exact E1].
  - apply (accept_failure_is_final (E := script_env) (A := example_app) (B := perl_boost) [] []
      accepting_config c1 c1 1%Z e s' w' H); [reflexivity|exact Ea|exact E1|apply rtc_refl].
Defined.
