(* ===== verification/Interleave.v ===== *)
(** * Server threads, critical section by critical section

    Threads cuts the life of a server thread where the server mutex is released.  Here the
    cuts are finer: a step is one critical section, of the server mutex or of a connection's
    mutex, or one call outside of them, such as a [Send].  A thread has a program counter
    [fpc], and [run_thread] is what it does next; it is undefined ([None]) when a thread
    that holds a pointer to a connection finds that the connection has been deleted.
    (Of [AddBuffer], which releases the connection's mutex around [pthread_create] in
    one-thread-per-request mode, and of [GetNextRequest], which visits the connections one
    after the other, a step is the whole call.) *)
From S2P Require Import Prelude Boost StdMap Datum EhsTypes HttpRequest HttpResponse Network Connection.
From S2P Require Import Server Threads.

(** ** Program counters *)

(** In [SendResponse]; [r] is the result of the last [Send]. *)
Inductive send_pc : Type :=
| SStart                (* about to look whether the client is there *)
| SHead                 (* about to send the head, or the body of a generic response *)
| SSwitch (r : Z)       (* the head of a 101 has been sent *)
| SBody (r : Z)         (* about to send the body *)
| SCount (r : Z).       (* about to lock again and count *)

(** Where [SendResponse] has been called: in the loop of [AddResponse], or by
    [CheckClientSockets] for the connection at position [i]. *)
Inductive send_cont : Type :=
| ToQueue
| ToReject (i : nat).

Inductive fpc : Type :=
| FCreated                                  (* by pthread_create, not counted yet *)
| FIdle                                     (* about to call HandleData *)
| FWaiting                                  (* in pthread_cond_wait, from which it may wake up at any time *)
| FRouting (req : HttpRequest)              (* in RouteRequest *)
| FAdding (r : response)                    (* about to call AddResponse *)
| FSending (k : send_cont) (id : conn_id) (r : response) (p : send_pc)
| FSent (id : conn_id)                      (* in AddResponse, behind SendResponse *)
| FAnswered                                 (* AddResponse has returned *)
| FCaught (e : exn)                         (* an exception has left HandleData *)
| FSelecting                                (* accepting, before select *)
| FAccepting                                (* before CheckAcceptSocket *)
| FReading (i : nat)                        (* CheckClientSockets: before the Read of connection i *)
| FBuffering (i : nat) (buf : bytes) (n : Z) (* before its AddBuffer *)
| FRejected (i : nat) (id : conn_id)        (* behind the SendResponse of an error *)
| FClearing.                                (* before the lock at the end of accepting *)
#[export] Instance fpc_inhabited : Inhabited fpc := populate FIdle.

Section interleave.
Context {W : Type} {E : Env W} {A : App W} {B : Boost}.
Variables (beyond stale : bytes).

Record fconfig : Type := FConfig {
  fc_server : EHSServer;
  fc_world : W;
  fc_threads : gmap Z fpc
}.

(** What a step leaves: where the thread is, if it is still running. *)
Abbreviation outcome := (option (option fpc * EHSServer * W)).

(** The end of an iteration of [HandleData_Threaded]. *)
Definition next_iteration (tid : thread_id) (s : EHSServer) (w : W) : option fpc * EHSServer * W :=
  if keep_running tid s then (Some FIdle, s, w) else (None, s <| m_nThreads ::= Z.pred |>, w).

(** Work on a connection through a pointer: undefined when it has been deleted. *)
Definition with_conn (id : conn_id) (s : EHSServer) (f : EHSConnection -> fpc * EHSConnection * W) : outcome :=
  match find_conn id (m_oEHSConnectionList s) with
  | None => None
  | Some c =>
      let '(p, c, w) := f c in
      Some (Some p, s <| m_oEHSConnectionList ::= update_conn id (fun _ => c) |>, w)
  end.

(** ** [SendResponse] and [AddResponse] *)
Definition after_send (k : send_cont) (id : conn_id) : fpc :=
  match k with
  | ToQueue => FSent id
  | ToReject i => FRejected i id
  end.

Definition force_close (h : HttpResponse) : bool :=
  bool_decide (Header h #"connection" = #"close") &&
  bool_decide (m_nResponseCode h <> HTTPRESPONSECODE_101_SWITCHING_PROTOCOLS).

(** The critical section at the start: without a client the response is only counted. *)
Definition send_start (r : response) (c : EHSConnection) : option EHSConnection :=
  if Disconnected c then Some (match r with Generic _ => c | Http _ => count_response c end) else None.

(** The first [Send], outside of the mutex. *)
Definition send_head (r : response) (c : EHSConnection) (w : W) : send_pc * EHSConnection * W :=
  match r with
  | Generic g =>
      if bool_decide (0 < length (gr_sBody g)) then
        let '(n, w) := na_Send (m_poNetworkAbstraction c) (gr_sBody g) w in (SCount n, c, w)
      else (SCount 0, DoneReading false c, w)
  | Http h =>
      let '(n, w) := na_Send (m_poNetworkAbstraction c) (response_head h) w in
      (if negb (n =? -1)%Z && bool_decide (m_nResponseCode h = HTTPRESPONSECODE_101_SWITCHING_PROTOCOLS)
       then SSwitch n else SBody n, c, w)
  end.

Definition send_switch (c : EHSConnection) (w : W) : EHSConnection * W :=
  (c <| m_bRawMode := true |>, if has_RawSocketHandler then rsh_OnConnect (conn_this c) w else w).

(** The second [Send], whose result is not looked at. *)
Definition send_body (r : response) (n : Z) (c : EHSConnection) (w : W) : W :=
  match r with
  | Generic _ => w
  | Http h =>
      if negb (n =? -1)%Z then
        let blen := atoi (Header h #"content-length") in
        if (0 <? blen)%Z then
          (na_Send (m_poNetworkAbstraction c) (take (Z.to_nat blen) (gr_sBody (hr_base h) ++ NUL :: beyond)) w).2
        else w
      else w
  end.

(** The critical section at the end. *)
Definition send_count (r : response) (n : Z) (c : EHSConnection) : EHSConnection :=
  match r with
  | Generic _ => if (n =? -1)%Z then DoneReading false c else c
  | Http h => count_response (if force_close h || (n =? -1)%Z then DoneReading false c else c)
  end.

Definition send_step (k : send_cont) (id : conn_id) (r : response) (p : send_pc) (w : W) (c : EHSConnection) :
    fpc * EHSConnection * W :=
  match p with
  | SStart =>
      match send_start r c with
      | Some c => (after_send k id, c, w)
      | None => (FSending k id r SHead, c, w)
      end
  | SHead => let '(p, c, w) := send_head r c w in (FSending k id r p, c, w)
  | SSwitch n => let '(c, w) := send_switch c w in (FSending k id r (SCount n), c, w)
  | SBody n => (FSending k id r (SCount n), c, send_body r n c w)
  | SCount n => (after_send k id, send_count r n c, w)
  end.

(** The loop of [AddResponse]: the next response of the queue, under the mutex. *)
Definition pop_response (id : conn_id) (c : EHSConnection) (w : W) : fpc * EHSConnection * W :=
  match m_oResponseQueue c with
  | [] => (FAnswered, c, w)
  | r :: q => (FSending ToQueue id r SStart, c <| m_oResponseQueue := q |>, w)
  end.

(** ** The accepting thread *)
Definition set_client (i : nat) (c : EHSConnection) (s : EHSServer) : EHSServer :=
  s <| m_oEHSConnectionList ::= <[i := c]> |>.

Definition reject_at (i : nat) (code : ResponseCode) (c : EHSConnection) (w : W) : fpc :=
  FSending (ToReject i) (conn_this c) (Http (Error stale (time w) code 0 (Some (conn_this c)))) SStart.

(** The [Read] of [CheckClientSockets], and what follows it up to [AddBuffer]. *)
Definition read_client (i : nat) (s : EHSServer) (c : EHSConnection) (w : W) : fpc * EHSConnection * W :=
  if FD_ISSET (na_GetFd (m_poNetworkAbstraction c) w) s then
    let '(n, buf, w) := na_Read (m_poNetworkAbstraction c) read_size w in
    if IsRaw c then
      if (n <? 0)%Z then (FReading (S i), DoneReading true c, w)
      else
        let c := UpdateLastActivity w c in
        if has_RawSocketHandler && (0 <? n)%Z then
          match rsh_OnData (conn_this c) (take (Z.to_nat n) buf) w with
          | (Throw e, w) => (FCaught e, c, w)
          | (Ret ok, w) => (FReading (S i), if ok then c else DoneReading false c, w)
          end
        else (FReading (S i), c, w)
    else if (n <=? 0)%Z then (FReading (S i), DoneReading true c, w)
    else (FBuffering i buf n, c, w)
  else (FReading (S i), c, w).

(** [AddBuffer] and the choice of the answer. *)
Definition buffer_client (i : nat) (buf : bytes) (n : Z) (s : EHSServer) (c : EHSConnection) (w : W) :
    option (fpc * EHSConnection * Z * W) :=
  match AddBuffer (m_nServerRunningStatus s) buf n c (m_nRequestsPending s) w with
  | None => None
  | Some (o, c, pending, w) =>
      let p := match o with
        | Throw e => FCaught e
        | Ret ADDBUFFER_INVALIDREQUEST => reject_at i HTTPRESPONSECODE_400_BADREQUEST c w
        | Ret ADDBUFFER_TOOBIG =>
            reject_at i (if has_param #"code413" s
                         then code_of_Z (to_unsigned_long (param #"code413" s))
                         else HTTPRESPONSECODE_413_TOOLARGE) c w
        | Ret ADDBUFFER_NORESOURCE => reject_at i HTTPRESPONSECODE_503_SERVICEUNAVAILABLE c w
        | Ret _ => FReading (S i)
        end in
      Some (p, c, pending, w)
  end.

Definition select_step (s : EHSServer) (w : W) : fpc * EHSServer * W :=
  let '(_, s) := CreateFdSet s w in
  match select (m_oReadFds s) 1000 w with
  | (Sel_error false, w) => (FCaught (Runtime_error #"EHSServer::HandleData: select() failed."), s, w)
  | (Sel_error true, w) => (FClearing, s, w)
  | (Sel_ready [], w) => (FClearing, s <| m_oReadFds := [] |>, w)
  | (Sel_ready fds, w) => (FAccepting, s <| m_oReadFds := fds |>, w)
  end.

(** ** A step of a thread; [rnd] is what [rand()] returns, where it is called. *)
Definition run_thread (rnd : Z) (tid : thread_id) (p : fpc) (s : EHSServer) (w : W) : outcome :=
  match p with
  | FCreated => Some (Some FIdle, s <| m_nThreads ::= Z.succ |>, w)
  | FIdle =>
      let '(j, s) := choose_job rnd tid s in
      Some (Some (match j with JobHandle req => FRouting req | JobWait => FWaiting | JobAccept => FSelecting end), s, w)
  | FWaiting => Some (next_iteration tid s w)
  | FRouting req =>
      match RouteRequest req w with
      | (Ret h, w) => Some (Some (FAdding (Http h)), s, w)
      | (Throw e, w) => Some (Some (FCaught e), s, w)
      end
  | FCaught e =>
      let '(r, w) := HandleThreadException tid (m_oCurrentRequest s !! tid) e w in
      match r with
      | Some r => Some (Some (FAdding r), s, w)
      | None =>
          Some (next_iteration tid (s <| m_nServerRunningStatus := SERVERRUNNING_SHOULDTERMINATE |>
                                      <| m_nAcceptThreadId := 0%Z |> <| m_oCurrentRequest ::= delete tid |>) w)
      end
  | FAdding r =>
      match m_poEHSConnection (response_base r) with
      | None => None
      | Some id => with_conn id s (fun c => pop_response id (c <| m_oResponseQueue ::= fun q => q ++ [r] |>) w)
      end
  | FSending k id r p => with_conn id s (send_step k id r p w)
  | FSent id => with_conn id s (fun c => pop_response id (UpdateLastActivity w c) w)
  | FAnswered => Some (next_iteration tid (s <| m_oCurrentRequest ::= delete tid |>) w)
  | FSelecting => let '(p, s, w) := select_step s w in Some (Some p, s, w)
  | FAccepting =>
      match CheckAcceptSocket s w with
      | (Throw e, s, w) => Some (Some (FCaught e), s, w)
      | (Ret _, s, w) => Some (Some (FReading 0), s, w)
      end
  | FReading i =>
      match m_oEHSConnectionList s !! i with
      | None => Some (Some FClearing, s, w)
      | Some c => let '(p, c, w) := read_client i s c w in Some (Some p, set_client i c s, w)
      end
  | FBuffering i buf n =>
      match m_oEHSConnectionList s !! i with
      | None => None
      | Some c =>
          match buffer_client i buf n s c w with
          | None => None
          | Some (p, c, pending, w) => Some (Some p, set_client i c s <| m_nRequestsPending := pending |>, w)
          end
      end
  | FRejected i id => with_conn id s (fun c => (FReading (S i), DoneReading false c, w))
  | FClearing =>
      match end_accepting s w with
      | None => None
      | Some (Throw e, s, w) => Some (Some (FCaught e), s, w)
      | Some (Ret _, s, w) => Some (next_iteration tid s w)
      end
  end.

(** The configuration after a step of a thread. *)
Definition step_thread (rnd : Z) (tid : thread_id) (c : fconfig) : option fconfig :=
  p ← fc_threads c !! tid;
  '(p, s, w) ← run_thread rnd tid p (fc_server c) (fc_world c);
  Some (FConfig s w (match p with
                     | Some p => <[tid := p]> (fc_threads c)
                     | None => delete tid (fc_threads c)
                     end)).

Inductive fstep : fconfig -> fconfig -> Prop :=
| fstep_start s w ts tid :
    ts !! tid = None -> fstep (FConfig s w ts) (FConfig s w (<[tid := FCreated]> ts))
| fstep_run rnd tid c c' :
    (0 <= rnd <= RAND_MAX)%Z -> step_thread rnd tid c = Some c' -> fstep c c'
| fstep_end s w ts : fstep (FConfig s w ts) (FConfig (EndServerThread s) w ts).

(** A run under a schedule: who takes the next step. *)
Fixpoint run (schedule : list thread_id) (c : fconfig) : option fconfig :=
  match schedule with
  | [] => Some c
  | tid :: schedule => c ← step_thread 0 tid c; run schedule c
  end.

Lemma run_steps l c c' : run l c = Some c' -> rtc fstep c c'.
Proof using.
  revert c. induction l as [|tid l IH]; intros c; cbn [run]; [by intros [= <-]; apply rtc_refl|].
  destruct (step_thread 0 tid c) as [c1|] eqn:E1; cbn; [|done]. intros Hr. eapply rtc_l; [|by apply IH].
  apply (fstep_run 0 tid); [by unfold RAND_MAX|done].
Qed.
End interleave.
