(* ===== verification/Ehs.v ===== *)
(** * The tree of [EHS] objects (ehs.cpp, ehs.h)

    [EHS] objects refer to each other by pointers (parent, registered children,
    source), so the model keeps them in a store.  Virtual functions that the
    application overrides are the class [Handlers].  [tree_app] makes a tree, seen
    from its top, the application [App] of a server. *)
From S2P Require Import Prelude Boost StdMap Datum EhsTypes HttpRequest HttpResponse Network Connection.
From S2P Require Import Server.

(** ** Data *)
Record EHS : Type := MkEHS {
  m_oEHSMap : list (bytes * option ehs_id);
  m_poParent : option ehs_id;
  m_sRegisteredAs : bytes;
  m_poEHSServer : option EHSServer;
  m_poSourceEHS : option ehs_id;
  m_poBindHelper : option nat;
  m_poRawSocketHandler : option nat;
  m_bNoRouting : bool;
  ehs_oParams : EHSServerParameters
}.
#[export] Instance eta_EHS : Eta EHS := fun e =>
  MkEHS (m_oEHSMap e) (m_poParent e) (m_sRegisteredAs e) (m_poEHSServer e) (m_poSourceEHS e)
    (m_poBindHelper e) (m_poRawSocketHandler e) (m_bNoRouting e) (ehs_oParams e).

Abbreviation store := (gmap nat EHS).

(** The constructor does not register the object with its parent. *)
Definition EHS_new (ipoParent : option ehs_id) (isRegisteredAs : bytes) : EHS :=
  MkEHS [] ipoParent isRegisteredAs None None None None false [].

Definition SetSourceEHS (source : ehs_id) (e : EHS) : EHS := e <| m_poSourceEHS := Some source |>.
Definition SetBindHelper (h : option nat) (e : EHS) : EHS := e <| m_poBindHelper := h |>.
Definition SetRawSocketHandler (h : option nat) (e : EHS) : EHS := e <| m_poRawSocketHandler := h |>.

(** ** Registration *)
Definition dangling : exn := Undefined #"deleted EHS object".

Definition RegisterEHS (this child : ehs_id) (path : bytes) (t : store) : res unit * store :=
  match t !! child with
  | None => (Throw dangling, t)
  | Some c =>
      let t := <[child := c <| m_poParent := Some this |> <| m_sRegisteredAs := c_str path |>]> t in
      match t !! this with
      | None => (Throw dangling, t)
      | Some e =>
          let '(old, m) := sm_ref None (c_str path) (m_oEHSMap e) in
          match old with
          | Some _ => (Throw (Runtime_error #"EHS::RegisterEHS: Already registered"), <[this := e <| m_oEHSMap := m |>]> t)
          | None => (Ret tt, <[this := e <| m_oEHSMap := sm_set (c_str path) (Some child) m |>]> t)
          end
      end
  end.

Definition UnregisterEHS (this : ehs_id) (path : bytes) (t : store) : res unit * store :=
  match t !! this with
  | None => (Throw dangling, t)
  | Some e =>
      let '(old, m) := sm_ref None (c_str path) (m_oEHSMap e) in
      match old with
      | None => (Throw (Runtime_error #"EHS::UnregisterEHS: Not registered"), <[this := e <| m_oEHSMap := m |>]> t)
      | Some _ => (Ret tt, <[this := e <| m_oEHSMap := sm_erase (c_str path) m |>]> t)
      end
  end.

(** ** Routing *)

(** [^/{0,1}([^/]+)/(.* )$] *)
Definition re_path : regex :=
  RBol · cls_opt (one_of #"/") · RGrp 1 (cls_plus (none_of #"/")) · RChr "/" · RGrp 2 (cls_star any) · REol.

(** The functions of an [EHS] object that the application may override. *)
Class Handlers (W : Type) : Type := {
  HandleRequest_override :
    ehs_id -> option (HttpRequest -> HttpResponse -> W -> res (ResponseCode * HttpResponse) * W);
  ThreadInitHandler_override : ehs_id -> option (W -> bool * W);
  ThreadExitHandler_override : ehs_id -> option (W -> W);
  HandleThreadException_override :
    ehs_id -> option (thread_id -> option HttpRequest -> exn -> W -> option response * W)
}.

Section routing.
Context {W : Type} {E : Env W} {H : Handlers W} {B : Boost}.
Variables (beyond stale : bytes).

(** [GetNextPathPart] assigns the URI before it returns [match[1]], whose iterators
    point into the old URI.  What they read then is not defined by the language;
    [reread old new pos len] is what the string implementation makes of it. *)
Variable reread : bytes -> bytes -> nat -> nat -> bytes.

Definition GetNextPathPart (irsUri : bytes) : bytes * bytes :=
  match regex_match re_path irsUri with
  | Some c =>
      let uri := group 2 c in
      let len := length (group 1 c) in
      (reread irsUri uri (length irsUri - length uri - 1 - len) len, uri)
  | None => ([], irsUri)
  end.

(** [HandleRequest]: the application's, or the one of the source object, or the time
    as text.  A chain of sources longer than [fuel] is not followed. *)
Fixpoint HandleRequest (fuel : nat) (this : ehs_id) (request : HttpRequest) (response : HttpResponse)
    (t : store) (w : W) : option (res (ResponseCode * HttpResponse) * W) :=
  match fuel with
  | O => None
  | S n =>
      match HandleRequest_override this with
      | Some f => Some (f request response w)
      | None =>
          match t !! this with
          | None => Some (Throw dangling, w)
          | Some e =>
              match m_poSourceEHS e with
              | Some source => HandleRequest n source request response t w
              | None =>
                  let text := print_Z (time w) in
                  let response := SetBody text (length text) response in
                  let response := resp_SetHeader #"Content-Type" #"text/plain" response in
                  Some (Ret (HTTPRESPONSECODE_200_OK, response), w)
              end
          end
      end
  end.

(** The response object [RouteRequest] prepares for the handler. *)
Definition initial_response (request : HttpRequest) (w : W) : HttpResponse :=
  let response := HttpResponse_new stale (time w) (m_nRequestId request) (Some (m_poSourceEHSConnection request)) in
  if bool_decide (m_sHttpVersionNumber request = #"1.0") then
    if bool_decide (Headers request #"Connection" = #"keep-alive")
    then resp_SetHeader #"Connection" #"keep-alive" response
    else resp_SetHeader #"Connection" #"close" response
  else response.

(** The end of a route: the request is handled by this object. *)
Definition handle_here (fuel : nat) (this : ehs_id) (request : HttpRequest) (t : store) (w : W) :
    option (res HttpResponse * store * W) :=
  match HandleRequest fuel this request (initial_response request w) t w with
  | None => None
  | Some (Ret (code, response), w) => Some (Ret (SetResponseCode code response), t, w)
  | Some (Throw e, w) => Some (Throw e, t, w)
  end.

(** [RouteRequest]: every level takes one part off the URI. *)
Fixpoint Route (fuel : nat) (this : ehs_id) (request : HttpRequest) (t : store) (w : W) :
    option (res HttpResponse * store * W) :=
  match fuel with
  | O => None
  | S n =>
      match t !! this with
      | None => Some (Throw dangling, t, w)
      | Some e =>
          let '(sNextPathPart, uri) := if m_bNoRouting e then ([], m_sUri request)
                                       else GetNextPathPart (m_sUri request) in
          let request := request <| m_sUri := uri |> in
          if m_bNoRouting e || bool_decide (sNextPathPart = []) then
            handle_here (S (size t)) this request t w
          else
            let '(child, m) := sm_ref None sNextPathPart (m_oEHSMap e) in
            let t := <[this := e <| m_oEHSMap := m |>]> t in
            match child with
            | Some c => Route n c request t w
            | None => Some (Ret (Error_request stale (time w) HTTPRESPONSECODE_404_NOTFOUND request), t, w)
            end
      end
  end.
Definition route_fuel (request : HttpRequest) : nat := S (length (m_sUri request)).

(** ** The server of an object *)

(** [StartServer]; the parameters are taken even when it fails. *)
Definition StartServer (this : ehs_id) (params : EHSServerParameters) (t : store) (w : W) :
    res unit * store * W :=
  match t !! this with
  | None => (Throw dangling, t, w)
  | Some e =>
      let e := e <| ehs_oParams := params |> in
      match m_poEHSServer e with
      | Some _ => (Throw (Runtime_error #"EHS::StartServer: already running"), <[this := e]> t, w)
      | None =>
          let e := e <| m_bNoRouting := bool_decide (is_Some (sm_find #"norouterequest" params)) |> in
          match EHSServer_new (Some params) w with
          | (Ret s, w) => (Ret tt, <[this := e <| m_poEHSServer := Some s |>]> t, w)
          | (Throw x, w) => (Throw x, <[this := e]> t, w)
          end
      end
  end.

(** The object at the end of the chain of parents, where the server is. *)
Fixpoint top_of (fuel : nat) (what : bytes) (this : ehs_id) (t : store) : option (res ehs_id) :=
  match fuel with
  | O => None
  | S n =>
      match t !! this with
      | None => Some (Throw dangling)
      | Some e =>
          match m_poParent e, m_poEHSServer e with
          | None, None => Some (Throw (Runtime_error what))
          | Some p, _ => top_of n what p t
          | None, Some _ => Some (Ret this)
          end
      end
  end.

(** [ShouldTerminate] *)
Definition ShouldTerminate (this : ehs_id) (t : store) : option (res bool) :=
  match top_of (S (size t)) #"EHS::StopServer: Invalid state" this t with
  | Some (Ret top) =>
      Some (Ret (match t !! top with
                 | Some e => match m_poEHSServer e with
                             | Some s => bool_decide (m_nServerRunningStatus s = SERVERRUNNING_SHOULDTERMINATE)
                             | None => false
                             end
                 | None => false
                 end))
  | Some (Throw x) => Some (Throw x)
  | None => None
  end.

(** ** The tree as the application of a server *)

(** The world of the server is the store and the world outside. *)
#[export] Instance store_env : Env (store * W) := {|
  na_GetFd n x := na_GetFd n x.2;
  na_IsSecure n x := na_IsSecure n x.2;
  na_GetRemoteAddress n x := na_GetRemoteAddress n x.2;
  na_GetLocalAddress n x := na_GetLocalAddress n x.2;
  na_GetRemotePort n x := na_GetRemotePort n x.2;
  na_GetLocalPort n x := na_GetLocalPort n x.2;
  na_GetPeer n x := na_GetPeer n x.2;
  na_Read n size x := let '(k, d, w) := na_Read n size x.2 in (k, d, (x.1, w));
  na_Send n d x := let '(k, w) := na_Send n d x.2 in (k, (x.1, w));
  na_Close n x := (x.1, na_Close n x.2);
  na_Accept n x := let '(r, w) := na_Accept n x.2 in (r, (x.1, w));
  na_delete n x := (x.1, na_delete n x.2);
  na_create c x := let '(r, w) := na_create c x.2 in (r, (x.1, w));
  na_RegisterBindHelper n x := (x.1, na_RegisterBindHelper n x.2);
  na_ThreadCleanup n x := (x.1, na_ThreadCleanup n x.2);
  na_SetBindAddress n a x := (x.1, na_SetBindAddress n a x.2);
  na_Init n p x := let '(r, w) := na_Init n p x.2 in (r, (x.1, w));
  rsh_OnConnect c x := (x.1, rsh_OnConnect c x.2);
  rsh_OnDisconnect c x := (x.1, rsh_OnDisconnect c x.2);
  rsh_OnData c d x := let '(b, w) := rsh_OnData c d x.2 in (b, (x.1, w));
  time x := time x.2;
  setsockopt_keepalive fd b x := (x.1, setsockopt_keepalive fd b x.2);
  pthread_create x := let '(r, w) := pthread_create x.2 in (r, (x.1, w));
  pthread_cond_broadcast x := (x.1, pthread_cond_broadcast x.2);
  select fds ms x := let '(r, w) := select fds ms x.2 in (r, (x.1, w))
|}.

(** The functions an application need not override.  Without a response the server is told to
    terminate; the message on the console is left out. *)
Definition default_ThreadInitHandler (w : W) : bool * W := (true, w).
Definition default_ThreadExitHandler (w : W) : W := w.
Definition default_HandleThreadException (tid : thread_id) (request : option HttpRequest) (ex : exn) (w : W) :
    option response * W := (None, w).

Definition tree_app (top : ehs_id) (rsh : bool) : App (store * W) := {|
  RouteRequest req x :=
    match Route (route_fuel req) top req x.1 x.2 with
    | Some (r, t, w) => (r, (t, w))
    | None => (Throw (Undefined #"endless chain of source objects"), x)
    end;
  ThreadInitHandler x :=
    let '(b, w) := default default_ThreadInitHandler (ThreadInitHandler_override top) x.2 in (b, (x.1, w));
  ThreadExitHandler x :=
    (x.1, default default_ThreadExitHandler (ThreadExitHandler_override top) x.2);
  HandleThreadException tid req e x :=
    let '(r, w) := default default_HandleThreadException (HandleThreadException_override top) tid req e x.2 in (r, (x.1, w));
  has_RawSocketHandler := rsh
|}.

(** [AddResponse] of an [EHS] object. *)
Definition ehs_AddResponse (top : ehs_id) (rsh : bool) (r : response) (s : EHSServer) (x : store * W) :
    res unit * EHSServer * (store * W) :=
  match m_poEHSConnection (response_base r) with
  | None => (Ret tt, s, x)
  | Some _ => srv_AddResponse (A := tree_app top rsh) beyond r s x
  end.

(** The loop of [HandleData] in single-threaded mode, in which there are no other threads of the
    server, for as many iterations as there are random numbers; [Ret false] when it would
    go on, and [None] when an iteration waits for good. *)
Fixpoint handle_until_done {X : Type} {EX : Env X} {AX : App X} (rnds : list Z) (ms : Z) (tid : thread_id)
    (s : EHSServer) (x : X) : option (res bool * EHSServer * X) :=
  match rnds with
  | [] => Some (Ret false, s, x)
  | rnd :: rnds' =>
      match HandleData (T := no_other_threads) beyond stale rnd ms tid s x with
      | None => None
      | Some (Throw e, s, x) => Some (Throw e, s, x)
      | Some (Ret _, s, x) =>
          if negb (srv_RequestsPending s =? 0)%Z || AcceptedNewConnection s
          then handle_until_done rnds' ms tid s x else Some (Ret true, s, x)
      end
  end.

Definition ehs_HandleData (rnds : list Z) (ms : Z) (tid : thread_id) (this : ehs_id) (t : store) (w : W) :
    option (res bool * store * W) :=
  match top_of (S (size t)) #"EHS::HandleData: Invalid state" this t with
  | None => None
  | Some (Throw e) => Some (Throw e, t, w)
  | Some (Ret top) =>
      match t !! top with
      | None => Some (Throw dangling, t, w)
      | Some e =>
          match m_poEHSServer e with
          | None => Some (Ret true, t, w)
          | Some s =>
              if bool_decide (RunningStatus s = SERVERRUNNING_SINGLETHREADED) then
                match handle_until_done (AX := tree_app top (bool_decide (is_Some (m_poRawSocketHandler e))))
                        rnds ms tid s (t, w) with
                | None => None
                | Some (o, s, (t, w)) =>
                    Some (o, alter (fun e => e <| m_poEHSServer := Some s |>) top t, w)
                end
              else Some (Ret true, t, w)
          end
      end
  end.

(** [StopServer]; [drain] is what the server threads do until the last one ends,
    for which [EndServerThread] waits. *)
Definition StopServer (drain : EHSServer -> W -> EHSServer * W) (this : ehs_id) (t : store) (w : W) :
    option (res unit * store * W) :=
  match top_of (S (size t)) #"EHS::StopServer: Invalid state" this t with
  | None => None
  | Some (Throw e) => Some (Throw e, t, w)
  | Some (Ret top) =>
      match t !! top with
      | None => Some (Throw dangling, t, w)
      | Some e =>
          match m_poEHSServer e with
          | None => Some (Ret tt, t, w)
          | Some s =>
              let '(s, w) := drain (EndServerThread s) w in
              let '(_, w) := EHSServer_delete (A := tree_app top (bool_decide (is_Some (m_poRawSocketHandler e)))) s (t, w) in
              Some (Ret tt, <[top := e <| m_poEHSServer := None |>]> t, w)
          end
      end
  end.

(** The destructor: exceptions of [UnregisterEHS] are swallowed; the server, if there
    is one, is deleted without being stopped. *)
Definition EHS_delete (this : ehs_id) (t : store) (w : W) : res unit * store * W :=
  match t !! this with
  | None => (Throw dangling, t, w)
  | Some e =>
      let '(o, t) := match m_poParent e with
                     | Some p => UnregisterEHS p (m_sRegisteredAs e) t
                     | None => (Ret tt, t)
                     end in
      match o with
      | Throw (Undefined what) => (Throw (Undefined what), t, w)
      | _ =>
          let w := match m_poEHSServer e with
                   | Some s => (EHSServer_delete (A := tree_app this (bool_decide (is_Some (m_poRawSocketHandler e)))) s (t, w)).2
                   | None => w
                   end in
          (Ret tt, delete this t, w)
      end
  end.

(** [GetPassphrase]: the parameter, which is created when it is missing. *)
Definition GetPassphrase (twice : bool) (e : EHS) : bytes * EHS :=
  let '(d, m) := sm_ref datum_empty #"passphrase" (ehs_oParams e) in
  (to_string d, e <| ehs_oParams := m |>).

End routing.
