(* ===== verification/EhsFacts.v ===== *)
(** * Properties of the tree of [EHS] objects: routing, registration, the loop of
    [HandleData] *)
From S2P Require Import Prelude Boost StdMap Datum EhsTypes HttpRequest HttpResponse Network Connection.
From S2P Require Import ConnectionFacts Server ServerFacts Ehs FormData.

(** ** Definitions *)

(** The first part of a path and what follows its slash. *)
Definition strip_slash (uri : bytes) : bytes :=
  match uri with
  | a :: u => if decide (a = "/"%char) then u else uri
  | [] => []
  end.
Definition next_part (uri : bytes) : option (bytes * bytes) :=
  match span (none_of #"/") (strip_slash uri) with
  | ([], _) | (_, []) => None
  | (p, _ :: u) => Some (p, u)
  end.

(** A name without a slash. *)
Definition name_ok (p : bytes) : Prop := p <> [] /\ Forall (fun a => none_of #"/" a = true) p.

(** The path made of parts: [p1/p2/.../rest]. *)
Fixpoint render_path (ps : list bytes) (rest : bytes) : bytes :=
  match ps with
  | [] => rest
  | p :: ps' => p ++ "/"%char :: render_path ps' rest
  end.

(** The object registered under a name, and the one at the end of a path of names
    (none of the objects on the way has routing turned off). *)
Definition child_of (t : store) (id : ehs_id) (p : bytes) : option ehs_id :=
  match t !! id with
  | Some e => match sm_find p (m_oEHSMap e) with Some c => c | None => None end
  | None => None
  end.
Definition routes (t : store) (id : ehs_id) : bool :=
  match t !! id with Some e => negb (m_bNoRouting e) | None => false end.
Fixpoint walk (t : store) (id : ehs_id) (ps : list bytes) : option ehs_id :=
  match ps with
  | [] => if t !! id then Some id else None
  | p :: ps' =>
      if routes t id then
        match child_of t id p with
        | Some c => walk t c ps'
        | None => None
        end
      else None
  end.

(** Two behaviours of a string implementation when a match is read after its text
    has been assigned: the old text is still there (a shared representation that
    something else keeps alive), or the new text has been written over it (short
    strings kept within the object). *)
Definition keeps_match (reread : bytes -> bytes -> nat -> nat -> bytes) : Prop :=
  forall old new pos len, reread old new pos len = take len (drop pos old).
Definition reread_shared (old new : bytes) (pos len : nat) : bytes := take len (drop pos old).
Definition reread_in_place (old new : bytes) (pos len : nat) : bytes :=
  take len (drop pos (new ++ NUL :: drop (S (length new)) old)).

(** Every registered object exists and knows where it is registered. *)
Definition tree_ok (t : store) : Prop :=
  (forall id e, t !! id = Some e -> m_sorted str_key (m_oEHSMap e)) /\
  (forall id p c, child_of t id p = Some c ->
     exists ec, t !! c = Some ec /\ m_poParent ec = Some id /\ m_sRegisteredAs ec = p /\ c_str p = p).

(** No object has this one registered. *)
Definition unregistered (t : store) (c : ehs_id) : Prop := forall id p, child_of t id p <> Some c.

(** Nothing arrives, and every request is answered on its own connection. *)
Definition quiet `{E : Env W} (ms : Z) : Prop := forall fds w, exists w', select fds ms w = (Sel_ready [], w').
Definition answers `{A : App W} : Prop := forall req w, exists r w', RouteRequest req w = (Ret r, w') /\
  m_poEHSConnection (hr_base r) = Some (m_poSourceEHSConnection req).

(** The queued requests belong to connections of the list. *)
Definition sources_ok (l : list EHSConnection) : Prop :=
  Forall (fun c => Forall (fun r => m_poSourceEHSConnection r ∈ conn_this <$> l) (m_oHttpRequestList c)) l.

Definition queues (l : list EHSConnection) : list (conn_id * list HttpRequest) :=
  (fun c => (conn_this c, m_oHttpRequestList c)) <$> l.

(** The state of a single-threaded server between two iterations. *)
Record ready (s : EHSServer) : Prop := Ready {
  rd_mode : m_nServerRunningStatus s = SERVERRUNNING_SINGLETHREADED;
  rd_accepting : m_bAccepting s = false;
  rd_pending : pending_ok s;
  rd_distinct : distinct_conns s;
  rd_sources : sources_ok (m_oEHSConnectionList s)
}.

(** ** Paths *)
Import Perl.

Lemma span_spec f s :
  Forall (fun a => f a = true) (span f s).1 /\
  match (span f s).2 with a :: _ => f a = false | [] => True end.
Proof.
  induction s as [|a s IH]; simpl; [by split|]. destruct (f a) eqn:Ea; [|by split].
  destruct (span f s). simpl in *. destruct IH. split; [by constructor|done].
Qed.

(** The pattern after the optional slash. *)
Lemma match_tail b s :
  run (RGrp 1 (cls_plus (none_of #"/"))) (State b s []) (fun st => run (RChr "/") st (fun st =>
    run (RGrp 2 (cls_star any)) st (fun st => run REol st (fun st =>
      match rest st with [] => Some (caps st) | _ :: _ => None end)))) =
  match span (none_of #"/") s with
  | ([], _) | (_, []) => None
  | (p, _ :: u) => Some [(2, u); (1, p)]
  end.
Proof.
  pose proof (span_app (none_of #"/") s) as Hs. pose proof (span_spec (none_of #"/") s) as Hp.
  destruct (span (none_of #"/") s) as [p r]. destruct Hp as [Hp Hr]. subst s.
  destruct p as [|x p].
  { destruct r as [|y r]; [done|]. cbn [snd] in Hr. unfold cls_plus. cbn [run rep bol rest app]. by rewrite Hr. }
  rx. rewrite run_grp_rep; [|done|by destruct r|simpl; lia|done|].
  - destruct r as [|y u]; [done|].
    assert (y = "/"%char) as ->.
    { destruct (decide (y = "/"%char)) as [|Hne]; [done|].
      enough (none_of #"/" y = true) by congruence. apply none_of_spec. set_solver. }
    rewrite run_chr, run_grp. rewrite <- (app_nil_r u).
    apply run_rep_any; [by apply Forall_forall| |].
    + cbn [rest caps bol]. cbn [run rest]. by rewrite Nat.sub_0_r, firstn_all, app_nil_r.
    + intros u' v b' Hx. by destruct u'.
  - intros w' b' a' s' c' Ha. cbn [bol rest caps]. apply run_chr_ne. intros ->. done.
Qed.

Lemma run_opt {R} f a b s c (k : state -> option R) :
  f a = true ->
  run (cls_opt f) (State b (a :: s) c) k =
    match k (State (is_sep a) s c) with Some x => Some x | None => k (State b (a :: s) c) end.
Proof. intros Ha. unfold cls_opt. simpl. rewrite Ha. simpl. by rewrite rep_max0. Qed.

Lemma match_path uri :
  full_match re_path uri =
    match next_part uri with Some (p, u) => Some [(2, u); (1, p)] | None => None end.
Proof.
  unfold full_match, re_path. rewrite !run_seq, run_bol. unfold next_part.
  destruct uri as [|a u]; [done|]. cbn [strip_slash]. case_decide as Ha.
  - subst a. rewrite run_opt by (by apply one_of_true; set_solver). cbv beta.
    rewrite !match_tail. cbn [span]. rewrite (none_of_false #"/" "/"%char) by set_solver.
    by destruct (span _ u) as [[|??] [|??]].
  - unfold cls_opt. rewrite run_opt_none.
    + rewrite match_tail. by destruct (span _ (a :: u)) as [[|??] [|??]].
    + apply bool_decide_eq_false. set_solver.
Qed.

Lemma next_part_spec uri p u :
  next_part uri = Some (p, u) ->
  p <> [] /\ (uri = p ++ "/"%char :: u \/ uri = "/"%char :: p ++ "/"%char :: u).
Proof.
  unfold next_part. intros H.
  pose proof (span_app (none_of #"/") (strip_slash uri)) as Hs.
  pose proof (span_spec (none_of #"/") (strip_slash uri)) as [_ Hr].
  destruct (span _ _) as [[|x q] [|y r]]; simplify_eq. cbn [snd] in Hr. split; [done|].
  assert (y = "/"%char) as ->.
  { destruct (decide (y = "/"%char)) as [|Hne]; [done|].
    enough (none_of #"/" y = true) by congruence. apply none_of_spec. set_solver. }
  rewrite <- Hs. destruct uri as [|a uri]; simpl; [by left|]. case_decide; [subst; by right|by left].
Qed.

Lemma next_part_name p u : name_ok p ->
  next_part (p ++ "/"%char :: u) = Some (p, u) /\ next_part ("/"%char :: p ++ "/"%char :: u) = Some (p, u).
Proof.
  intros [Hne Hp].
  assert (span (none_of #"/") (p ++ "/"%char :: u) = (p, "/"%char :: u)) as Hs.
  { apply span_all; [done|]. intros a [= <-]. apply none_of_false. set_solver. }
  assert (strip_slash (p ++ "/"%char :: u) = p ++ "/"%char :: u) as Hst.
  { destruct p as [|a p]; [done|]. simpl. rewrite decide_False; [done|]. intros ->.
    inversion_clear Hp as [|? ? Ha _]. apply none_of_spec in Ha. set_solver. }
  unfold next_part. cbn [strip_slash]. rewrite decide_True by done. rewrite Hst, Hs. by destruct p.
Qed.

Section routing.
Context {W : Type} {E : Env W} {H : Handlers W} {B : Boost} {L : BoostLaws B}.
Variables (beyond stale : bytes) (reread : bytes -> bytes -> nat -> nat -> bytes).

(** What is looked up for the part [p] of the URI [uri], with [u] behind it: what the code reads
    through the match, when the URI is already [u]. *)
Definition part_read (uri p u : bytes) : bytes := reread uri u (length uri - length u - 1 - length p) (length p).
Fixpoint parts_read (slash : bytes) (ps : list bytes) (rest : bytes) : list bytes :=
  match ps with
  | [] => []
  | p :: ps' => part_read (slash ++ render_path ps rest) p (render_path ps' rest) :: parts_read [] ps' rest
  end.

Lemma GetNextPathPart_next uri :
  GetNextPathPart reread uri = match next_part uri with Some (p, u) => (part_read uri p u, u) | None => ([], uri) end.
Proof using L.
  unfold GetNextPathPart. rewrite regex_match_law, match_path. by destruct (next_part uri) as [[p u]|].
Qed.

Lemma part_kept uri p u : keeps_match reread -> next_part uri = Some (p, u) -> part_read uri p u = p.
Proof using.
  intros Hreread Hn. unfold part_read. rewrite Hreread. apply next_part_spec in Hn as [_ [->| ->]].
  - rewrite length_app. simpl.
    replace (length p + S (length u) - length u - 1 - length p) with 0 by lia. apply take_app_length.
  - rewrite length_cons, length_app. simpl.
    replace (S (length p + S (length u)) - length u - 1 - length p) with 1 by lia. apply take_app_length.
Qed.

Lemma next_part_path slash p ps rest :
  slash = [] \/ slash = #"/" -> name_ok p ->
  next_part (slash ++ render_path (p :: ps) rest) = Some (p, render_path ps rest).
Proof using. intros Hsl Hp. destruct (next_part_name p (render_path ps rest) Hp). by destruct Hsl as [->| ->]. Qed.

(** An implementation that keeps the old text reads the parts themselves. *)
Lemma parts_kept slash ps rest :
  keeps_match reread -> slash = [] \/ slash = #"/" -> Forall name_ok ps -> parts_read slash ps rest = ps.
Proof using.
  intros Hk Hsl Hps. revert slash Hsl. induction Hps as [|p ps Hp Hps IH]; intros slash Hsl; [done|]. cbn [parts_read].
  rewrite part_kept by (done || by apply next_part_path). by rewrite IH by by left.
Qed.

(** A route stops where the URI has no further part or the object does not route. *)
Definition stops (t : store) (id : ehs_id) (uri : bytes) : Prop :=
  next_part uri = None \/ routes t id = false.

Lemma set_uri_id r : r <| m_sUri := m_sUri r |> = r.
Proof. by destruct r. Qed.

Lemma Route_stop n id request t (w : W) :
  is_Some (t !! id) -> stops t id (m_sUri request) ->
  Route stale reread (S n) id request t w = handle_here stale (S (size t)) id request t w.
Proof using L.
  intros [e He] Hstop. cbn [Route]. rewrite He. unfold stops, routes in Hstop. rewrite He in Hstop.
  destruct (m_bNoRouting e) eqn:En; simpl.
  - by destruct request.
  - destruct Hstop as [Hn|]; [|done]. rewrite GetNextPathPart_next, Hn.
    rewrite bool_decide_true by done. by destruct request.
Qed.

Lemma Route_next n id request t (w : W) p u c :
  next_part (m_sUri request) = Some (p, u) -> routes t id = true ->
  part_read (m_sUri request) p u <> [] -> child_of t id (part_read (m_sUri request) p u) = Some c ->
  Route stale reread (S n) id request t w = Route stale reread n c (request <| m_sUri := u |>) t w.
Proof using L.
  intros Hn Hr. set (q := part_read _ p u). intros Hq Hc. cbn [Route]. unfold routes, child_of in *.
  destruct (t !! id) as [e|] eqn:He; [|done].
  destruct (m_bNoRouting e) eqn:En; [done|]. simpl. rewrite GetNextPathPart_next, Hn. fold q.
  rewrite bool_decide_false by done.
  destruct (sm_find q (m_oEHSMap e)) as [[c'|]|] eqn:Ef; simplify_eq. unfold m_ref. rewrite Ef.
  match goal with |- context [<[id := ?e']> t] => assert (<[id := e']> t = t) as ->; [|done] end.
  apply insert_id. rewrite He. by destruct e.
Qed.

Lemma Route_missing n id request t (w : W) p u e :
  next_part (m_sUri request) = Some (p, u) -> routes t id = true ->
  part_read (m_sUri request) p u = p -> child_of t id p = None -> t !! id = Some e ->
  Route stale reread (S n) id request t w =
    Some (Ret (Error_request stale (time w) HTTPRESPONSECODE_404_NOTFOUND (request <| m_sUri := u |>)),
          <[id := e <| m_oEHSMap := (sm_ref None p (m_oEHSMap e)).2 |>]> t, w).
Proof using L.
  intros Hn Hr Hq Hc He. cbn [Route]. unfold routes, child_of in *. rewrite He in *.
  destruct (m_bNoRouting e) eqn:En; [done|]. simpl. rewrite GetNextPathPart_next, Hn, Hq.
  apply next_part_spec in Hn as [Hp _]. rewrite bool_decide_false by done.
  unfold m_ref. by destruct (sm_find p (m_oEHSMap e)) as [[c'|]|]; simplify_eq.
Qed.

(** The part of the URI that is left after the parts of a path. *)
Definition left_over (ps : list bytes) (slash rest : bytes) : bytes :=
  match ps with [] => slash ++ rest | _ => rest end.

Lemma Route_walk ps slash rest n id id' request t (w : W) :
  slash = [] \/ slash = #"/" -> Forall name_ok ps -> Forall (fun q => q <> []) (parts_read slash ps rest) ->
  walk t id (parts_read slash ps rest) = Some id' -> m_sUri request = slash ++ render_path ps rest ->
  Route stale reread (length ps + n) id request t w =
  Route stale reread n id' (request <| m_sUri := left_over ps slash rest |>) t w.
Proof using L.
  revert slash id request. induction ps as [|p ps IH]; intros slash id request Hsl Hps Hne Hw Hu.
  - simpl in *. destruct (t !! id); simplify_eq. rewrite <- Hu. by destruct request.
  - apply Forall_cons in Hps as [Hp Hps']. cbn [parts_read walk] in Hne, Hw. rewrite <- Hu in Hne, Hw.
    apply Forall_cons in Hne as [Hq Hne].
    destruct (routes t id) eqn:Hr; [|done]. destruct (child_of t id _) as [c|] eqn:Hc; [|done].
    assert (next_part (m_sUri request) = Some (p, render_path ps rest)) as Hn by (rewrite Hu; by apply next_part_path).
    cbn [length Nat.add]. rewrite (Route_next _ _ _ _ _ _ _ c Hn Hr Hq Hc).
    rewrite (IH [] c); [|by left|done|done|done|done]. f_equal. by destruct ps.
Qed.

Lemma render_path_length ps rest : Forall name_ok ps -> length ps <= length (render_path ps rest).
Proof. induction 1 as [|p ps Hp Hps IH]; simpl; [lia|]. rewrite length_app. simpl. lia. Qed.

(** C31: routing takes the parts of the path off the URI one by one, and looks for each of them
    in the map of the object it has come to: the object at the end of the names it reads
    handles the request, with what is left of the URI, and no object of the tree
    changes.  The names it reads are the parts of the path if the old text of the URI is still
    there when it is read, after the assignment of the new one ([keeps_match]); the language
    does not promise that (the iterators are invalid by then), and with a string that
    keeps short texts in place the names are others ([GetNextPathPart_in_place]). *)
Theorem Route_reaches (ps : list bytes) (slash rest : bytes) (top id : ehs_id)
    (request : HttpRequest) (t : store) (w : W)
    (Hsl : slash = [] \/ slash = #"/") (Hps : Forall name_ok ps)
    (Hu : m_sUri request = slash ++ render_path ps rest)
    (Hstop : stops t id (left_over ps slash rest)) :
  let names := parts_read slash ps rest in
  (Forall (fun q => q <> []) names -> walk t top names = Some id ->
     Route stale reread (route_fuel request) top request t w =
     handle_here stale (S (size t)) id (request <| m_sUri := left_over ps slash rest |>) t w) /\
  (keeps_match reread -> names = ps).
Proof using L.
  intros names. split; [|intros Hk; by apply parts_kept]. intros Hne Hw.
  assert (length ps <= length (m_sUri request)) as Hl.
  { rewrite Hu, length_app. pose proof (render_path_length ps rest Hps). lia. }
  unfold route_fuel. replace (S (length (m_sUri request))) with (length ps + S (length (m_sUri request) - length ps)) by lia.
  rewrite (Route_walk ps slash rest _ top id) by done. apply Route_stop; [|done].
  clear - Hw. revert top Hw. generalize names. clear names. intros names. induction names as [|p names IH]; simpl; intros top Hw.
  - destruct (t !! top) eqn:E; [|done]. naive_solver.
  - destruct (routes t top); [|done]. destruct (child_of t top p); [|done]. by eapply IH.
Qed.

(** A name that is not registered is answered with the 404 page, and leaves a
    null entry for the name in the map of the object where the route ended, if the old
    text is still read. *)
Theorem Route_unknown (ps : list bytes) (p slash rest : bytes) (top id : ehs_id) (e : EHS)
    (request : HttpRequest) (t : store) (w : W) (Hk : keeps_match reread)
    (Hsl : slash = [] \/ slash = #"/") (Hps : Forall name_ok (ps ++ [p])) (Hw : walk t top ps = Some id)
    (Hu : m_sUri request = slash ++ render_path (ps ++ [p]) rest)
    (He : t !! id = Some e) (Hr : m_bNoRouting e = false) (Hc : child_of t id p = None) :
  exists e', Route stale reread (route_fuel request) top request t w =
    Some (Ret (Error_request stale (time w) HTTPRESPONSECODE_404_NOTFOUND (request <| m_sUri := rest |>)),
          <[id := e']> t, w) /\
    sm_find p (m_oEHSMap e') = Some None /\
    (forall q, q <> p -> sm_find q (m_oEHSMap e') = sm_find q (m_oEHSMap e)).
Proof using L.
  apply Forall_app in Hps as [Hps Hp]. inversion_clear Hp as [|? ? Hp' _].
  assert (render_path (ps ++ [p]) rest = render_path ps (p ++ "/"%char :: rest)) as Hrp.
  { clear. induction ps as [|q ps IH]; simpl; [done|]. by rewrite IH. }
  rewrite Hrp in Hu. assert (length ps <= length (m_sUri request)) as Hl.
  { rewrite Hu, length_app. pose proof (render_path_length ps (p ++ "/"%char :: rest) Hps). lia. }
  unfold route_fuel. replace (S (length (m_sUri request))) with (length ps + S (length (m_sUri request) - length ps)) by lia.
  rewrite (Route_walk ps slash (p ++ "/"%char :: rest) _ top id); [|done|done| | |done].
  2: { rewrite parts_kept by done. eapply Forall_impl; [exact Hps|by intros q [? _]]. }
  2: { by rewrite parts_kept. }
  set (request' := request <| m_sUri := _ |>).
  assert (next_part (m_sUri request') = Some (p, rest)) as Hn.
  { unfold request'. cbn [m_sUri]. destruct (next_part_name p rest Hp') as [H1 H2].
    destruct ps; simpl; [|done]. destruct Hsl as [->| ->]; [exact H1|exact H2]. }
  rewrite (Route_missing _ _ _ _ _ p rest e Hn); [| |by apply part_kept|done|done].
  2:{ unfold routes. by rewrite He, Hr. }
  eexists. split; [unfold request'; reflexivity|]. split.
  - change (sm_find p (sm_ref None p (m_oEHSMap e)).2 = Some None). rewrite m_find_ref. f_equal. unfold m_ref, child_of in *. rewrite He in Hc.
    destruct (sm_find p (m_oEHSMap e)) as [[c|]|]; done.
  - intros q Hq. change (sm_find q (sm_ref None p (m_oEHSMap e)).2 = sm_find q (m_oEHSMap e)).
    unfold m_ref. destruct (sm_find p (m_oEHSMap e)); [done|]. simpl. by apply m_find_set_ne.
Qed.

End routing.

(** Routing depends on the string implementation: [GetNextPathPart] assigns the
    URI before it reads the matched part.  If the assignment writes the rest of the
    URI over the old text, the part that is looked up is taken from the rest. *)
Theorem GetNextPathPart_in_place `{B : Boost} {L : BoostLaws B} (p u : bytes)
    (Hp : name_ok p) (Hu : length p < length u) :
  GetNextPathPart reread_in_place ("/"%char :: p ++ "/"%char :: u) = (take (length p) (drop 1 u), u).
Proof.
  unfold GetNextPathPart. rewrite regex_match_law, match_path.
  destruct (next_part_name p u Hp) as [_ ->].
  change (group 1 [(2, u); (1, p)]) with p. change (group 2 [(2, u); (1, p)]) with u. cbv zeta.
  unfold reread_in_place. f_equal. rewrite length_cons, length_app, length_cons.
  replace (S (length p + S (length u)) - length u - 1 - length p) with 1 by lia.
  destruct u as [|x u]; [simpl in Hu; lia|]. cbn [drop app]. rewrite !drop_0. apply take_app_le. simpl in Hu. lia.
Qed.

(** ** Registration *)
Lemma c_str_idem s : c_str (c_str s) = c_str s.
Proof. induction s as [|a s IH]; simpl; [done|]. case_decide; simpl; [done|]. by rewrite decide_False, IH. Qed.

Lemma m_find_str_ne (p q : bytes) {V} (v : V) m : p <> q -> sm_find q (sm_set p v m) = sm_find q m.
Proof. intros. by apply m_find_set_ne. Qed.

(** Replacing an object: only its own entries are looked up in its map. *)
Lemma child_of_insert t id e i p :
  child_of (<[id := e]> t) i p =
    if decide (i = id) then (match sm_find p (m_oEHSMap e) with Some c => c | None => None end) else child_of t i p.
Proof.
  unfold child_of. case_decide; [subst; by rewrite lookup_insert_eq|]. by rewrite lookup_insert_ne.
Qed.

Lemma child_of_same_map t id e e' i p :
  t !! id = Some e -> m_oEHSMap e' = m_oEHSMap e -> child_of (<[id := e']> t) i p = child_of t i p.
Proof.
  intros He Hm. rewrite child_of_insert. case_decide; [|done]. subst. unfold child_of. by rewrite He, Hm.
Qed.

Lemma child_of_ref {t id e} k i p :
  t !! id = Some e ->
  child_of (<[id := e <| m_oEHSMap := (sm_ref None k (m_oEHSMap e)).2 |>]> t) i p = child_of t i p.
Proof.
  intros He. rewrite child_of_insert. case_decide; [|done]. subst. unfold child_of. rewrite He. cbn -[m_find m_ref].
  unfold m_ref. destruct (sm_find k (m_oEHSMap e)) eqn:Ek; [done|]. simpl.
  destruct (decide (k = p)) as [->|Hne]; [|by rewrite m_find_str_ne].
  by rewrite m_find_set, Ek.
Qed.

Lemma child_of_set t id e k v i p :
  t !! id = Some e ->
  child_of (<[id := e <| m_oEHSMap := sm_set k v (sm_ref None k (m_oEHSMap e)).2 |>]> t) i p =
    if decide (i = id /\ p = k) then v else child_of t i p.
Proof.
  intros He. rewrite child_of_insert. cbn -[m_find m_ref m_set].
  destruct (decide (i = id)) as [->|Hne]; [|by rewrite decide_False by tauto].
  destruct (decide (p = k)) as [->|Hpk].
  - rewrite decide_True by done. by rewrite m_find_set.
  - rewrite decide_False by tauto. rewrite m_find_str_ne by done.
    rewrite <- (child_of_ref k id p He), child_of_insert, decide_True by done. done.
Qed.

Lemma child_of_erase t id e k i p :
  t !! id = Some e -> m_sorted str_key (m_oEHSMap e) ->
  child_of (<[id := e <| m_oEHSMap := sm_erase k (sm_ref None k (m_oEHSMap e)).2 |>]> t) i p =
    if decide (i = id /\ p = k) then None else child_of t i p.
Proof.
  intros He Hs. rewrite child_of_insert. cbn -[m_find m_ref m_erase].
  destruct (decide (i = id)) as [->|Hne]; [|by rewrite decide_False by tauto].
  assert (m_sorted str_key (sm_ref None k (m_oEHSMap e)).2) as Hs2.
  { unfold m_ref. destruct (sm_find k _); [done|]. by apply m_set_sorted. }
  destruct (decide (p = k)) as [->|Hpk].
  - rewrite decide_True by done. by rewrite m_find_erase.
  - rewrite decide_False by tauto. rewrite m_find_erase_ne by (intros ?; by apply Hpk).
    rewrite <- (child_of_ref k id p He), child_of_insert, decide_True by done. done.
Qed.

(** A replaced object keeps its links when parent and name stay. *)
Lemma links_insert (t : store) id e e' i ei :
  t !! id = Some e -> m_poParent e' = m_poParent e -> m_sRegisteredAs e' = m_sRegisteredAs e ->
  t !! i = Some ei ->
  exists ei', <[id := e']> t !! i = Some ei' /\ m_poParent ei' = m_poParent ei /\ m_sRegisteredAs ei' = m_sRegisteredAs ei.
Proof.
  intros He Hp Hn Hi. destruct (decide (i = id)) as [->|Hne].
  - rewrite lookup_insert_eq. simplify_eq. by eexists.
  - rewrite lookup_insert_ne by done. by eexists.
Qed.

Lemma sorted_ref {V} (d : V) k m : m_sorted str_key m -> m_sorted str_key (sm_ref d k m).2.
Proof. intros Hs. unfold m_ref. destruct (sm_find k m); [done|]. by apply m_set_sorted. Qed.

(** A registration under a free name. *)
Lemma RegisterEHS_free this child path t c e :
  this <> child -> t !! child = Some c -> t !! this = Some e -> child_of t this (c_str path) = None ->
  let k := c_str path in
  RegisterEHS this child path t =
    (Ret tt, <[this := e <| m_oEHSMap := sm_set k (Some child) (sm_ref None k (m_oEHSMap e)).2 |>]>
       (<[child := c <| m_poParent := Some this |> <| m_sRegisteredAs := k |>]> t)).
Proof.
  intros Hne Hc He Hfree k. unfold RegisterEHS. rewrite Hc, lookup_insert_ne, He by done.
  fold k. unfold child_of in Hfree. rewrite He in Hfree. fold k in Hfree.
  unfold m_ref. by destruct (sm_find k (m_oEHSMap e)) as [[c'|]|].
Qed.

Lemma RegisterEHS_tree_ok this child path t c e :
  tree_ok t -> unregistered t child -> this <> child ->
  t !! child = Some c -> t !! this = Some e -> child_of t this (c_str path) = None ->
  exists t', RegisterEHS this child path t = (Ret tt, t') /\ tree_ok t' /\
    (forall i p, child_of t' i p = if decide (i = this /\ p = c_str path) then Some child else child_of t i p) /\
    (forall i, is_Some (t !! i) -> is_Some (t' !! i)) /\
    t' !! child = Some (c <| m_poParent := Some this |> <| m_sRegisteredAs := c_str path |>).
Proof.
  intros [Hsorted Hlinks] Hun Hne Hc He Hfree.
  rewrite (RegisterEHS_free this child path t c e) by done.
  set (k := c_str path). set (c1 := c <| m_poParent := _ |> <| m_sRegisteredAs := _ |>).
  set (t1 := <[child := c1]> t). eexists. split; [done|].
  assert (t1 !! this = Some e) as He1 by (unfold t1; by rewrite lookup_insert_ne).
  match goal with |- tree_ok ?x /\ _ => set (t2 := x) end.
  assert (forall i p, child_of t2 i p = if decide (i = this /\ p = k) then Some child else child_of t i p) as Hch.
  { intros i p. unfold t2. rewrite (child_of_set t1 this e k (Some child) i p He1).
    case_decide; [done|]. by apply (child_of_same_map t child c). }
  assert (t2 !! child = Some c1) as Hchild.
  { unfold t2. rewrite lookup_insert_ne by done. unfold t1. by rewrite lookup_insert_eq. }
  split; [split|split; [exact Hch|split; [|exact Hchild]]].
  - intros id e0. unfold t2. rewrite lookup_insert_Some. intros [[<- <-]|[Hi H0]].
    + cbn -[m_set m_ref]. apply m_set_sorted, sorted_ref. by eapply Hsorted.
    + unfold t1 in H0. rewrite lookup_insert_Some in H0. destruct H0 as [[<- <-]|[_ H0]].
      * change (m_sorted str_key (m_oEHSMap c)). by apply (Hsorted child).
      * by eapply Hsorted.
  - intros id p c0 Hc0. rewrite Hch in Hc0. destruct (decide (id = this /\ p = k)) as [[-> ->]|Hx].
    + injection Hc0 as <-. exists c1. split; [exact Hchild|]. split; [done|]. split; [done|]. apply c_str_idem.
    + destruct (Hlinks id p c0 Hc0) as (ec & Hec & Hp & Hn & Hs).
      assert (c0 <> child) as Hcc by (intros ->; by apply (Hun id p)).
      assert (t1 !! c0 = Some ec) as Hec1 by (unfold t1; by rewrite lookup_insert_ne).
      pose (e2 := e <| m_oEHSMap := sm_set k (Some child) (sm_ref None k (m_oEHSMap e)).2 |>).
      destruct (links_insert t1 this e e2 c0 ec He1 eq_refl eq_refl Hec1) as (ec' & H1 & H2 & H3).
      exists ec'. rewrite H2, H3. by split_and!.
  - intros i Hi. unfold t2, t1. apply lookup_insert_is_Some'. right. apply lookup_insert_is_Some'. by right.
Qed.

(** Deleting a registered object. *)
Lemma UnregisterEHS_spec this path t e c :
  t !! this = Some e -> child_of t this (c_str path) = Some c ->
  UnregisterEHS this path t =
    (Ret tt, <[this := e <| m_oEHSMap := sm_erase (c_str path) (sm_ref None (c_str path) (m_oEHSMap e)).2 |>]> t).
Proof.
  intros He Hc. unfold UnregisterEHS. rewrite He. unfold child_of in Hc. rewrite He in Hc.
  unfold m_ref. by destruct (sm_find (c_str path) (m_oEHSMap e)) as [[c'|]|].
Qed.

Section registration.
Context {W : Type} {E : Env W} {H : Handlers W} {B : Boost}.
Variables (beyond stale : bytes) (reread : bytes -> bytes -> nat -> nat -> bytes).

(** Deleting an object takes it out of the routes. *)
Lemma EHS_delete_tree_ok this t e p ep (w : W) :
  tree_ok t -> t !! this = Some e -> m_poParent e = Some p -> t !! p = Some ep -> p <> this ->
  child_of t p (m_sRegisteredAs e) = Some this ->
  exists t' w', EHS_delete stale reread this t w = (Ret tt, t', w') /\ tree_ok t' /\ unregistered t' this /\
    (forall i q, i <> this -> child_of t' i q =
       if decide (i = p /\ q = m_sRegisteredAs e) then None else child_of t i q).
Proof.
  intros [Hsorted Hlinks] He Hp Hep Hne Hc.
  destruct (Hlinks _ _ _ Hc) as (e0 & He0 & _ & _ & Hk). simplify_eq.
  set (k := m_sRegisteredAs e) in *.
  unfold EHS_delete. rewrite He, Hp. fold k.
  rewrite (UnregisterEHS_spec p k t ep this); [|done|by rewrite Hk]. rewrite Hk.
  match goal with |- context [<[p := ?e']> t] => set (t1 := <[p := e']> t) end.
  do 2 eexists. split; [done|].
  assert (forall i q, child_of t1 i q = if decide (i = p /\ q = k) then None else child_of t i q) as Hch.
  { intros i q. apply child_of_erase; [done|]. by eapply Hsorted. }
  assert (forall i q, child_of (delete this t1) i q = if decide (i = this) then None else child_of t1 i q) as Hdel.
  { intros i q. unfold child_of. case_decide; [subst; by rewrite lookup_delete_eq|]. by rewrite lookup_delete_ne. }
  assert (unregistered (delete this t1) this) as Hun.
  { intros i q. rewrite Hdel. case_decide; [done|]. rewrite Hch. case_decide as Hx; [done|].
    intros Hi. destruct (Hlinks i q this Hi) as (e1 & He1 & Hp1 & Hn1 & _). simplify_eq. by apply Hx. }
  split; [split|split; [exact Hun|]].
  - intros id e1. rewrite lookup_delete_Some. intros [_ H1]. unfold t1 in H1. apply lookup_insert_Some in H1.
    destruct H1 as [[<- <-]|[_ H1]]; [|by eapply Hsorted].
    apply m_erase_sorted, sorted_ref. by eapply Hsorted.
  - intros id q c Hq. assert (c <> this) as Hcthis by (intros ->; by apply (Hun id q)).
    rewrite Hdel in Hq. case_decide; [done|]. rewrite Hch in Hq. case_decide; [done|].
    destruct (Hlinks id q c Hq) as (ec & Hec & Hl).
    pose (e2 := ep <| m_oEHSMap := sm_erase k (sm_ref None k (m_oEHSMap ep)).2 |>).
    destruct (links_insert t p ep e2 c ec Hep eq_refl eq_refl Hec) as (ec' & G1 & G2 & G3).
    exists ec'. rewrite lookup_delete_ne by done. rewrite G2, G3. by split.
  - intros i q Hi. rewrite Hdel, decide_False by done. apply Hch.
Qed.

(** C32: an object that is registered nowhere can be registered under a name that is
    free: from then on exactly this name leads to it, and the tree stays in order
    (every registered object exists and knows its parent and name).  Deleting the
    object removes that entry again, so that no route leads to a deleted object. *)
Theorem registration_lifecycle (this child : ehs_id) (path : bytes) (t : store) (w : W)
    (Ht : tree_ok t) (Hun : unregistered t child) (Hne : this <> child)
    (Hc : is_Some (t !! child)) (He : is_Some (t !! this)) (Hfree : child_of t this (c_str path) = None) :
  exists t1, RegisterEHS this child path t = (Ret tt, t1) /\ tree_ok t1 /\
    (forall i p, child_of t1 i p = if decide (i = this /\ p = c_str path) then Some child else child_of t i p) /\
    exists t2 w2, EHS_delete stale reread child t1 w = (Ret tt, t2, w2) /\ tree_ok t2 /\ unregistered t2 child /\
      forall i p, i <> child -> child_of t2 i p = child_of t i p.
Proof.
  destruct Hc as [c Hc]. destruct He as [e He].
  destruct (RegisterEHS_tree_ok this child path t c e) as (t1 & H1 & H2 & H3 & H4 & H5); [done..|].
  exists t1. split; [done|]. split; [done|]. split; [done|].
  destruct (H4 this ltac:(by eexists)) as [e1 He1].
  destruct (EHS_delete_tree_ok child t1 _ this e1 w H2 H5 eq_refl He1 Hne) as (t2 & w2 & G1 & G2 & G3 & G4).
  { rewrite H3, decide_True; [done|]. by split. }
  exists t2, w2. split; [done|]. split; [done|]. split; [done|]. intros i p Hi.
  rewrite G4, H3 by done.
  match goal with |- context [m_sRegisteredAs ?x] => change (m_sRegisteredAs x) with (c_str path) end.
  destruct (decide (i = this /\ p = c_str path)) as [[-> ->]|Hx]; [by rewrite Hfree|done].
Qed.

End registration.

Section failed_registration.
Context {W : Type} {E : Env W} {H : Handlers W} {B : Boost}.
Variables (stale : bytes) (reread : bytes -> bytes -> nat -> nat -> bytes).

(** Registering an object under a name that is taken fails, but the object has
    been told that it is registered there; its destructor then unregisters the
    object that really is, to which no request is routed any more. *)
Theorem failed_registration_unregisters (this child other : ehs_id) (path : bytes) (t : store) (w : W)
    (Ht : tree_ok t) (Hne : this <> child) (Hc : is_Some (t !! child))
    (Hother : child_of t this (c_str path) = Some other) :
  exists t1, RegisterEHS this child path t =
      (Throw (Runtime_error #"EHS::RegisterEHS: Already registered"), t1) /\
    (forall i p, child_of t1 i p = child_of t i p) /\
    exists t2 w2, EHS_delete stale reread child t1 w = (Ret tt, t2, w2) /\
      child_of t2 this (c_str path) = None.
Proof.
  destruct Hc as [c Hc]. destruct Ht as [Hsorted _].
  assert (exists e, t !! this = Some e) as [e He].
  { unfold child_of in Hother. destruct (t !! this); [by eexists|done]. }
  unfold RegisterEHS. rewrite Hc, lookup_insert_ne, He by done.
  pose proof Hother as Hm. unfold child_of in Hm. rewrite He in Hm.
  unfold m_ref at 1. destruct (sm_find (c_str path) (m_oEHSMap e)) as [[o|]|] eqn:Ef; simplify_eq.
  eexists. split; [done|].
  set (c1 := c <| m_poParent := _ |> <| m_sRegisteredAs := _ |>).
  match goal with |- context [<[this := ?e']> _] => assert (e' = e) as -> by (by destruct e) end.
  assert (<[child := c1]> t !! this = Some e) as He1 by by rewrite lookup_insert_ne.
  rewrite (insert_id _ this e He1). split.
  - intros i p. by apply (child_of_same_map t child c).
  - unfold EHS_delete. rewrite lookup_insert_eq. unfold c1 at 1 2. cbn [m_poParent m_sRegisteredAs update].
    rewrite (UnregisterEHS_spec this (c_str path) _ e other He1).
    + do 2 eexists. split; [done|]. unfold child_of. rewrite lookup_delete_ne, lookup_insert_eq by done.
      rewrite c_str_idem. cbn -[m_find m_erase m_ref].
      rewrite m_find_erase; [done|]. apply sorted_ref. by eapply Hsorted.
    + rewrite c_str_idem. rewrite <- Hother. by apply (child_of_same_map t child c).
Qed.

End failed_registration.

(** ** The loop of [HandleData] *)
Section handle_loop.
Context {W : Type} {E : Env W} {A : App W} {B : Boost}.
#[local] Existing Instance no_other_threads.
Variables (beyond stale : bytes).

(** C29: in single-threaded mode [HandleData] handles data while requests are pending.
    Once more requests are counted as pending than are queued, the loop never ends
    again: after any number of iterations it has not returned (it can only be left
    by an exception; and if the accepting flag has been left set, by an exception before
    the call, it is not left at all, but waits for good). *)
Theorem lost_request_hangs (rnds : list Z) (ms : Z) (tid : thread_id) (s : EHSServer) (w : W)
    (Hr : Forall (fun r => 0 <= r <= RAND_MAX)%Z rnds) (Hs : books_ok 1 s) :
  match handle_until_done beyond stale rnds ms tid s w with
  | Some (o, s', w') => books_ok 1 s' /\ o <> Ret true
  | None => m_bAccepting s = true
  end.
Proof.
  revert s w Hs. induction Hr as [|r rnds Hr Hrs IH]; intros s w Hs; cbn [handle_until_done]; [done|].
  pose proof (HandleData_books (T := no_other_threads) (LO := no_others_ok) beyond stale 1 r ms tid s w Hr Hs) as Hh.
  destruct (HandleData _ _ r ms tid s w) as [[[o s'] w']|]; [|by destruct Hh]. destruct Hh as [Hs' Hflag].
  destruct o as [u|e]; [|by split].
  assert (srv_RequestsPending s' =? 0 = false)%Z as ->.
  { apply Z.eqb_neq. unfold srv_RequestsPending. destruct Hs' as [_ _ Hp]. lia. }
  simpl. specialize (IH s' w' Hs'). destruct (handle_until_done _ _ rnds ms tid s' w') as [[[o2 s2] w2]|]; [done|].
  destruct (choose_job r tid s).1; [congruence|by destruct Hflag|congruence].
Qed.

Lemma sources_ok_queues l l' : queues l' = queues l -> sources_ok l -> sources_ok l'.
Proof.
  intros Hq Hl.
  assert (forall l1 l2, queues l1 = queues l2 -> conn_this <$> l1 = conn_this <$> l2) as Hthis.
  { clear. intros l1 l2 Hq. apply (f_equal (fmap fst)) in Hq. unfold queues in Hq.
    by rewrite <- !list_fmap_compose in Hq. }
  unfold sources_ok. rewrite (Hthis l' l Hq). unfold sources_ok in Hl. revert Hl.
  generalize (conn_this <$> l). intros ids Hl. revert l' Hq.
  induction Hl as [|c l Hc Hl IH]; intros [|c' l'] Hq; try done.
  unfold queues in Hq. rewrite !fmap_cons in Hq. injection Hq as _ Hqc Hq. constructor; [|by apply IH].
  by rewrite Hqc.
Qed.

Lemma queues_update id c c' l :
  find_conn id l = Some c -> conn_this c' = conn_this c -> m_oHttpRequestList c' = m_oHttpRequestList c ->
  queues (update_conn id (fun _ => c') l) = queues l.
Proof.
  intros Hf Ht Hq. unfold queues. induction l as [|x l IH]; [done|]. cbn [update_conn find_conn] in *.
  case_decide; simplify_eq; rewrite !fmap_cons; [by rewrite Ht, Hq|]. by rewrite IH.
Qed.

Lemma find_conn_Some id l : id ∈ conn_this <$> l -> exists c, find_conn id l = Some c.
Proof.
  induction l as [|c l IH]; [by intros ?%elem_of_nil|]. rewrite fmap_cons, elem_of_cons. cbn [find_conn].
  intros Hx. case_decide; [by eexists|]. apply IH. naive_solver.
Qed.

(** A response to a connection of the list is delivered. *)
Lemma srv_AddResponse_delivers r id s (w : W) :
  m_poEHSConnection (response_base r) = Some id -> id ∈ conn_this <$> m_oEHSConnectionList s ->
  exists s' w', srv_AddResponse beyond r s w = (Ret tt, s', w') /\
    queues (m_oEHSConnectionList s') = queues (m_oEHSConnectionList s) /\
    m_nRequestsPending s' = m_nRequestsPending s /\ m_bAccepting s' = m_bAccepting s /\
    m_nServerRunningStatus s' = m_nServerRunningStatus s.
Proof.
  intros Hr Hid. unfold srv_AddResponse. rewrite Hr. destruct (find_conn_Some _ _ Hid) as [c Hc]. rewrite Hc.
  unfold conn_AddResponse. set (c0 := c <| m_oResponseQueue ::= _ |>).
  pose proof (send_queue_frame has_RawSocketHandler beyond (m_oResponseQueue c0) c0 w) as Hs.
  destruct (send_queue _ _ _ c0 w) as [c1 w1]. destruct Hs as [Hq Ht].
  do 2 eexists. split; [done|]. split; [|done]. by apply (queues_update id c).
Qed.

Lemma total_queued_queues l l' : queues l' = queues l -> total_queued l' = total_queued l.
Proof.
  revert l'. induction l as [|c l IH]; intros [|c' l'] Hq; try done.
  unfold queues in Hq. rewrite !fmap_cons in Hq. injection Hq as _ Hc Hq. cbn [total_queued].
  rewrite Hc. f_equal. by apply IH.
Qed.

Lemma sources_ok_pop l i c r q :
  l !! i = Some c -> m_oHttpRequestList c = r :: q -> sources_ok l ->
  sources_ok (<[i := (conn_GetNextRequest c).2]> l) /\ m_poSourceEHSConnection r ∈ conn_this <$> l /\
  conn_this <$> (<[i := (conn_GetNextRequest c).2]> l) = conn_this <$> l.
Proof.
  intros Hl Hq Hs.
  assert (conn_this <$> (<[i := (conn_GetNextRequest c).2]> l) = conn_this <$> l) as Ht.
  { rewrite list_fmap_insert. apply list_insert_id. rewrite list_lookup_fmap, Hl. cbn.
    unfold conn_GetNextRequest. by rewrite Hq. }
  unfold sources_ok in *. rewrite Ht. pose proof (Forall_lookup_1 _ _ _ _ Hs Hl) as Hc.
  cbv beta in Hc. rewrite Hq in Hc. inversion_clear Hc as [|? ? Hr Hc']. split; [|done].
  apply Forall_insert; [done|]. unfold conn_GetNextRequest. rewrite Hq. cbn. exact Hc'.
Qed.

Lemma ready_queues s s' :
  queues (m_oEHSConnectionList s') = queues (m_oEHSConnectionList s) ->
  m_nRequestsPending s' = m_nRequestsPending s -> m_bAccepting s' = m_bAccepting s ->
  m_nServerRunningStatus s' = m_nServerRunningStatus s -> ready s -> ready s'.
Proof.
  intros Hq H1 H2 H3 [G1 G2 G3 G4 G5]. split; [congruence|congruence| | |].
  - unfold pending_ok in *. rewrite H1, G3. by rewrite (total_queued_queues _ _ Hq).
  - unfold distinct_conns in *. apply (f_equal (fmap fst)) in Hq. unfold queues in Hq.
    rewrite <- !list_fmap_compose in Hq. unfold compose in Hq. cbn [fst] in Hq.
    change (NoDup ((fun c => conn_this c) <$> m_oEHSConnectionList s')). rewrite Hq. exact G4.
  - by eapply sources_ok_queues.
Qed.

(** An iteration with a request queued handles one request. *)
Lemma iteration_handles rnd ms tid s (w : W) :
  answers -> (0 <= rnd <= RAND_MAX)%Z -> ready s -> (0 < total_queued (m_oEHSConnectionList s)) ->
  exists s' w', HandleData beyond stale rnd ms tid s w = Some (Ret tt, s', w') /\ ready s' /\
    S (total_queued (m_oEHSConnectionList s')) = total_queued (m_oEHSConnectionList s).
Proof.
  intros Hans Hrnd Hs Hpos. unfold HandleData, choose_job.
  set (s0 := s <| m_oCurrentRequest ::= delete tid |>).
  assert (ready s0) as Hs0 by (by destruct Hs; split).
  destruct Hs0 as [G1 G2 G3 G4 G5].
  rewrite (bool_decide_true (m_nServerRunningStatus s0 <> _)) by by rewrite G1. cbn [orb].
  pose proof (next_request_full rnd s0 Hrnd G3) as HG. cbv zeta in HG.
  destruct (srv_GetNextRequest rnd s0) as [req s1]. destruct HG as (Hnone & _ & Hsome & Hp1).
  destruct req as [r|].
  2:{ exfalso. destruct Hnone as [Hz _]. specialize (Hz eq_refl). unfold pending_ok in G3. rewrite Hz in G3.
      change (m_oEHSConnectionList s0) with (m_oEHSConnectionList s) in G3. lia. }
  destruct (Hsome r eq_refl) as (j & c & q & _ & Hl & Hq & _ & Hs1). clear Hnone Hsome.
  set (i := (_ + j) mod _) in *.
  destruct (sources_ok_pop _ _ _ _ _ Hl Hq G5) as (Hs5 & Hin & Hthis).
  set (s2 := s1 <| m_oCurrentRequest ::= <[tid := r]> |>).
  assert (m_oEHSConnectionList s2 = <[i := (conn_GetNextRequest c).2]> (m_oEHSConnectionList s0)) as Hl2 by (unfold s2; by rewrite Hs1).
  assert (ready s2) as Hs2.
  { split; [unfold s2; by rewrite Hs1|unfold s2; by rewrite Hs1|exact Hp1| |by rewrite Hl2].
    unfold distinct_conns. rewrite Hl2, Hthis. exact G4. }
  unfold handle_request. destruct (Hans r w) as (h & w1 & -> & Hconn).
  destruct (srv_AddResponse_delivers (Http h) _ s2 w1 Hconn) as (s3 & w3 & -> & Hq3 & Hp3 & Ha3 & Hm3).
  { by rewrite Hl2, Hthis. }
  do 2 eexists. split; [reflexivity|]. split.
  - assert (ready s3) as [F1 F2 F3 F4 F5] by by apply (ready_queues s2). by split.
  - change (S (total_queued (m_oEHSConnectionList s3)) = total_queued (m_oEHSConnectionList s0)).
    rewrite (total_queued_queues _ _ Hq3), Hl2.
    pose proof (total_queued_insert _ _ _ (conn_GetNextRequest c).2 Hl) as Htot.
    assert (length (m_oHttpRequestList (conn_GetNextRequest c).2) = length q) as Hlen
      by (unfold conn_GetNextRequest; by rewrite Hq).
    rewrite Hlen, Hq in Htot. cbn [length] in Htot. lia.
Qed.

(** An iteration without a queued request looks for input and finds none. *)
Lemma iteration_idle rnd ms tid s (w : W) :
  quiet ms -> (0 <= rnd <= RAND_MAX)%Z -> ready s -> total_queued (m_oEHSConnectionList s) = 0 ->
  exists s' w', HandleData beyond stale rnd ms tid s w = Some (Ret tt, s', w') /\
    m_nRequestsPending s' = 0%Z /\ m_bAcceptedNewConnection s' = false /\ total_queued (m_oEHSConnectionList s') = 0.
Proof.
  intros Hquiet Hrnd Hs Hz. unfold HandleData, choose_job.
  set (s0 := s <| m_oCurrentRequest ::= delete tid |>).
  assert (ready s0) as Hs0 by (by destruct Hs; split).
  destruct Hs0 as [G1 G2 G3 G4 G5].
  rewrite (bool_decide_true (m_nServerRunningStatus s0 <> _)) by by rewrite G1. cbn [orb].
  pose proof (next_request_full rnd s0 Hrnd G3) as HG. cbv zeta in HG.
  unfold pending_ok in G3. change (m_oEHSConnectionList s0) with (m_oEHSConnectionList s) in G3. rewrite Hz in G3.
  destruct (srv_GetNextRequest rnd s0) as [req s1]. destruct HG as ([_ Hnone] & Hsame & _ & _).
  rewrite (Hnone G3), (Hsame (Hnone G3)), G2.
  unfold accept_and_read, CreateFdSet.
  match goal with |- context [select ?f _ _] => destruct (Hquiet f w) as [w1 ->] end.
  unfold end_accepting.
  match goal with |- context [ClearIdleConnections ?x w1] => set (s2 := x) end.
  destruct (ClearIdleConnections_list s2 w1 G4) as [w2 ->].
  do 2 eexists. split; [reflexivity|]. split; [exact G3|]. split; [done|]. apply Nat.le_0_r.
  eapply Nat.le_trans; [apply (total_queued_filter (fun c => is_finished c = false))|].
  rewrite total_queued_clear_idle. change (m_oEHSConnectionList s2) with (m_oEHSConnectionList s). by rewrite Hz.
Qed.

(** C28: when every queued request is counted, every request is answered on its own
    connection and no new input arrives, [HandleData] of a single-threaded server
    returns after at most one iteration more than requests are queued, and then
    none is left. *)
Theorem HandleData_returns (rnds : list Z) (ms : Z) (tid : thread_id) (s : EHSServer) (w : W)
    (Hquiet : quiet ms) (Hans : answers) (Hs : ready s)
    (Hr : Forall (fun r => 0 <= r <= RAND_MAX)%Z rnds)
    (Hlen : total_queued (m_oEHSConnectionList s) < length rnds) :
  exists s' w', handle_until_done beyond stale rnds ms tid s w = Some (Ret true, s', w') /\
    m_nRequestsPending s' = 0%Z /\ total_queued (m_oEHSConnectionList s') = 0.
Proof.
  revert s w Hs Hlen. induction Hr as [|r rnds Hr Hrs IH]; intros s w Hs Hlen; [simpl in Hlen; lia|].
  cbn [handle_until_done]. cbn [length] in Hlen.
  destruct (decide (total_queued (m_oEHSConnectionList s) = 0)) as [Hz|Hnz].
  - destruct (iteration_idle r ms tid s w Hquiet Hr Hs Hz) as (s' & w' & -> & Hp & Ha & Ht).
    unfold srv_RequestsPending, AcceptedNewConnection. rewrite Hp, Ha. by do 2 eexists.
  - destruct (iteration_handles r ms tid s w Hans Hr Hs ltac:(lia)) as (s' & w' & -> & Hs' & Ht).
    destruct (negb (srv_RequestsPending s' =? 0)%Z || AcceptedNewConnection s') eqn:Ego.
    + apply IH; [done|lia].
    + do 2 eexists. split; [reflexivity|]. apply orb_false_iff in Ego as [Hp _].
      apply negb_false_iff, Z.eqb_eq in Hp. unfold srv_RequestsPending in Hp. split; [done|].
      destruct Hs' as [_ _ F3 _ _]. unfold pending_ok in F3. lia.
Qed.

End handle_loop.

(** ** Witnesses *)
Definition no_handlers : Handlers script := {|
  HandleRequest_override _ := None;
  ThreadInitHandler_override _ := None;
  ThreadExitHandler_override _ := None;
  HandleThreadException_override _ := None
|}.

(** A top-level object with a child [app], which has a child [x]; object 3 is not
    registered. *)
Definition example_tree : store :=
  <[0 := EHS_new None [] <| m_oEHSMap := [(#"app", Some 1)] |>]>
  (<[1 := EHS_new (Some 0) #"app" <| m_oEHSMap := [(#"x", Some 2)] |>]>
  (<[2 := EHS_new (Some 1) #"x"]> (<[3 := EHS_new None []]> ∅))).
Definition example_page (uri : bytes) : HttpRequest := HttpRequest_init 1 7 [] <| m_sUri := uri |>.

Lemma GetNextPathPart_in_place_witness :
  GetNextPathPart (B := perl_boost) reread_shared #"/app/page" = (#"app", #"page") /\
  GetNextPathPart (B := perl_boost) reread_in_place #"/app/page" = (#"age", #"page").
Proof.
  split; [vm_compute; reflexivity|].
  apply (GetNextPathPart_in_place (L := perl_boost_laws) #"app" #"page").
  - split; [discriminate|]. repeat constructor; vm_compute; reflexivity.
  - vm_compute. lia.
Defined.

(** An implementation that keeps the old text, and one that writes over it, with which another
    object is reached. *)
Lemma Route_reaches_witness :
  walk example_tree 0 [ #"app"; #"x" ] = Some 2 /\
  (exists r, Route (E := script_env) (H := no_handlers) (B := perl_boost) [] reread_shared
    (route_fuel (example_page #"/app/x/page")) 0 (example_page #"/app/x/page") example_tree example_world =
    Some (Ret r, example_tree, example_world)) /\
  parts_read reread_shared #"/" [ #"app"; #"x" ] #"page" = [ #"app"; #"x" ] /\
  parts_read reread_in_place #"/" [ #"foo" ] #"xapp" = [ #"app" ] /\
  Route (E := script_env) (H := no_handlers) (B := perl_boost) [] reread_in_place
    (route_fuel (example_page #"/foo/xapp")) 0 (example_page #"/foo/xapp") example_tree example_world =
    handle_here (E := script_env) (H := no_handlers) [] (S (size example_tree)) 1
      (example_page #"/foo/xapp" <| m_sUri := #"xapp" |>) example_tree example_world.
Proof.
  assert (walk example_tree 0 [ #"app"; #"x" ] = Some 2) as Hw by (vm_compute; reflexivity). split; [exact Hw|].
  destruct (Route_reaches (E := script_env) (H := no_handlers) (B := perl_boost) (L := perl_boost_laws) []
    reread_shared [ #"app"; #"x" ] #"/" #"page" 0 2 (example_page #"/app/x/page") example_tree example_world) as [H1 H2].
  - by right.
  - repeat constructor; vm_compute; congruence.
  - reflexivity.
  - left. vm_compute. reflexivity.
  - specialize (H2 (fun _ _ _ _ => eq_refl)). split; [|split; [exact H2|split; [vm_compute; reflexivity|]]].
    + eexists. etransitivity; [apply H1|].
      * rewrite H2. repeat constructor; discriminate.
      * rewrite H2. exact Hw.
      * vm_compute. reflexivity.
    + apply (Route_reaches (E := script_env) (H := no_handlers) (B := perl_boost) (L := perl_boost_laws) []
        reread_in_place [ #"foo" ] #"/" #"xapp" 0 1 (example_page #"/foo/xapp") example_tree example_world).
      * by right.
      * repeat constructor; vm_compute; congruence.
      * reflexivity.
      * left. vm_compute. reflexivity.
      * vm_compute. repeat constructor; discriminate.
      * vm_compute. reflexivity.
Defined.

Lemma Route_unknown_witness :
  exists e', Route (E := script_env) (H := no_handlers) (B := perl_boost) [] reread_shared
    (route_fuel (example_page #"/app/nope/page")) 0 (example_page #"/app/nope/page") example_tree example_world =
    Some (Ret (Error_request [] 1000 HTTPRESPONSECODE_404_NOTFOUND (example_page #"page")),
      <[1 := e']> example_tree, example_world) /\ sm_find #"nope" (m_oEHSMap e') = Some None.
Proof.
  destruct (Route_unknown (E := script_env) (H := no_handlers) (B := perl_boost) (L := perl_boost_laws) []
      reread_shared [ #"app" ] #"nope" #"/" #"page" 0 1
      (EHS_new (Some 0) #"app" <| m_oEHSMap := [(#"x", Some 2)] |>)
      (example_page #"/app/nope/page") example_tree example_world (fun _ _ _ _ => eq_refl)) as (e' & H1 & H2 & _).
  - by right.
  - repeat constructor; vm_compute; congruence.
  - vm_compute. reflexivity.
  - reflexivity.
  - vm_compute. reflexivity.
  - reflexivity.
  - vm_compute. reflexivity.
  - exists e'. split; [exact H1|exact H2].
Defined.

Lemma example_tree_children i p c :
  child_of example_tree i p = Some c -> (i = 0 /\ p = #"app" /\ c = 1) \/ (i = 1 /\ p = #"x" /\ c = 2).
Proof.
  unfold example_tree. rewrite !child_of_insert. repeat case_decide; subst; cbn -[lit kcmp]; try done.
  - destruct (kcmp str_key p #"app") eqn:Ek; [|done..]. apply kcmp_eq in Ek. intros [= <-]. by left.
  - destruct (kcmp str_key p #"x") eqn:Ek; [|done..]. apply kcmp_eq in Ek. intros [= <-]. by right.
Qed.

Lemma example_tree_ok : tree_ok example_tree.
Proof.
  split.
  - intros i e. unfold example_tree. rewrite !lookup_insert_Some, lookup_empty. naive_solver.
  - intros i p c [(-> & -> & ->)|(-> & -> & ->)]%example_tree_children; (eexists; split; [reflexivity|by split_and!]).
Qed.

Lemma registration_lifecycle_witness :
  exists t1 t2 w2, RegisterEHS 1 3 #"y" example_tree = (Ret tt, t1) /\ child_of t1 1 #"y" = Some 3 /\
    EHS_delete (E := script_env) (H := no_handlers) (B := perl_boost) [] reread_shared 3 t1 example_world = (Ret tt, t2, w2) /\
    child_of t2 1 #"y" = None.
Proof.
  destruct (registration_lifecycle (E := script_env) (H := no_handlers) (B := perl_boost) [] reread_shared
    1 3 #"y" example_tree example_world) as (t1 & H1 & _ & H3 & t2 & w2 & H4 & _ & _ & H7).
  - exact example_tree_ok.
  - intros i p [(-> & -> & ?)|(-> & -> & ?)]%example_tree_children; discriminate.
  - discriminate.
  - by eexists.
  - by eexists.
  - reflexivity.
  - exists t1, t2, w2. split; [exact H1|]. split; [rewrite H3; reflexivity|]. split; [exact H4|].
    rewrite H7 by discriminate. reflexivity.
Defined.

Lemma failed_registration_unregisters_witness :
  exists t1 t2 w2, RegisterEHS 0 3 #"app" example_tree =
      (Throw (Runtime_error #"EHS::RegisterEHS: Already registered"), t1) /\
    EHS_delete (E := script_env) (H := no_handlers) (B := perl_boost) [] reread_shared 3 t1 example_world = (Ret tt, t2, w2) /\
    child_of t2 0 #"app" = None.
Proof.
  destruct (failed_registration_unregisters (E := script_env) (H := no_handlers) (B := perl_boost) [] reread_shared
    0 3 1 #"app" example_tree example_world) as (t1 & H1 & _ & t2 & w2 & H4 & H5).
  - exact example_tree_ok.
  - discriminate.
  - by eexists.
  - reflexivity.
  - exists t1, t2, w2. split; [exact H1|]. split; [exact H4|exact H5].
Defined.

(** A client sends a complete request and a malformed one at once. *)
Definition hostile_bytes : bytes := #"GET / HTTP/1.0" ++ crlf ++ crlf ++ #"bad" ++ crlf ++ crlf.
Definition hostile_world : script :=
  MkScript 1000 [(11, hostile_bytes)] [Ret 11] true true [Sel_ready [10%Z]; Sel_ready [11%Z]] [].
Definition listening_server : EHSServer :=
  MkEHSServer SERVERRUNNING_SINGLETHREADED [] false 0 false [] [] 10 0 15 0 ∅ 1.

(** After the server has read it (two iterations), the loop never returns. *)
Lemma lost_request_hangs_witness :
  exists s w, handle_until_done (EX := script_env) (AX := example_app) (B := perl_boost) [] [] [0%Z; 0%Z] 1000 5
      listening_server hostile_world = Some (Ret false, s, w) /\ m_oEHSConnectionList s = [] /\
    exists o s' w', handle_until_done (EX := script_env) (AX := example_app) (B := perl_boost) [] []
      (replicate 100 0%Z) 1000 5 s w = Some (o, s', w') /\ o <> Ret true.
Proof.
  destruct (handle_until_done (EX := script_env) (AX := example_app) (B := perl_boost) [] [] [0%Z; 0%Z] 1000 5
      listening_server hostile_world) as [[[o s] w]|] eqn:E0.
  2:{ vm_compute in E0. discriminate. }
  assert (o = Ret false /\ m_oEHSConnectionList s = [] /\ books_ok 1 s /\ m_bAccepting s = false) as (-> & Hl & Hb & Ha).
  { vm_compute in E0. injection E0 as <- <- _. split; [reflexivity|]. split; [reflexivity|]. split; [|reflexivity].
    split; [constructor|constructor|vm_compute; discriminate]. }
  exists s, w. split; [reflexivity|]. split; [exact Hl|].
  pose proof (lost_request_hangs (E := script_env) (A := example_app) (B := perl_boost) [] [] (replicate 100 0%Z) 1000 5 s w
    ltac:(apply Forall_replicate; unfold RAND_MAX; lia) Hb) as H.
  destruct (handle_until_done (EX := script_env) (AX := example_app) (B := perl_boost) [] [] (replicate 100 0%Z) 1000 5 s w)
    as [[[o s'] w']|]; [|congruence].
  exists o, s', w'. split; [reflexivity|]. apply H.
Defined.

(** The scripted world, with a [select] that always times out. *)
Definition quiet_env : Env script :=
  let e := script_env in {|
  na_GetFd := @na_GetFd _ e; na_IsSecure := @na_IsSecure _ e;
  na_GetRemoteAddress := @na_GetRemoteAddress _ e; na_GetLocalAddress := @na_GetLocalAddress _ e;
  na_GetRemotePort := @na_GetRemotePort _ e; na_GetLocalPort := @na_GetLocalPort _ e; na_GetPeer := @na_GetPeer _ e;
  na_Read := @na_Read _ e; na_Send := @na_Send _ e; na_Close := @na_Close _ e; na_Accept := @na_Accept _ e;
  na_delete := @na_delete _ e; na_create := @na_create _ e; na_RegisterBindHelper := @na_RegisterBindHelper _ e;
  na_ThreadCleanup := @na_ThreadCleanup _ e; na_SetBindAddress := @na_SetBindAddress _ e; na_Init := @na_Init _ e;
  rsh_OnConnect := @rsh_OnConnect _ e; rsh_OnDisconnect := @rsh_OnDisconnect _ e; rsh_OnData := @rsh_OnData _ e;
  time := @time _ e; setsockopt_keepalive := @setsockopt_keepalive _ e; pthread_create := @pthread_create _ e;
  pthread_cond_broadcast := @pthread_cond_broadcast _ e;
  select _ _ w := (Sel_ready [], w)
|}.

Lemma HandleData_returns_witness :
  exists s' w', handle_until_done (EX := quiet_env) (AX := example_app) (B := perl_boost) [] [] [0%Z; 0%Z] 1000 5
      example_server example_world = Some (Ret true, s', w') /\ m_nRequestsPending s' = 0%Z.
Proof.
  destruct (HandleData_returns (E := quiet_env) (A := example_app) (B := perl_boost) [] [] [0%Z; 0%Z] 1000 5
    example_server example_world) as (s' & w' & H1 & H2 & _).
  - intros fds w. by exists w.
  - intros req w. by do 2 eexists.
  - split; [reflexivity|reflexivity|reflexivity| |].
    + unfold distinct_conns. simpl. apply NoDup_cons. split; [|apply NoDup_singleton].
      intros [Hx|Hx]%elem_of_cons; [discriminate|by apply elem_of_nil in Hx].
    + unfold sources_ok. cbn [m_oEHSConnectionList example_server]. repeat constructor.
  - repeat constructor; unfold RAND_MAX; lia.
  - vm_compute. lia.
  - exists s', w'. split; [exact H1|exact H2].
Defined.
