(* ===== verification/InterleaveFacts.v ===== *)
(** * Properties of the fine interleavings

    Every thread that holds a request of a connection is counted in the connection, so the
    connection is not deleted under it, as long as no request has been rejected; behind
    [SendResponse] nothing protects it.  The steps of one thread alone amount to those of
    Threads. *)
From S2P Require Import Prelude Boost StdMap Datum EhsTypes HttpRequest HttpResponse Network Connection.
From S2P Require Import HttpRequestFacts HttpRequestProps HttpRender ConnectionFacts Server ServerFacts Threads Interleave.
From S2P Require Import Ehs EhsFacts.

(** ** Definitions *)

(** The connection to which a thread owes a response. *)
Definition holds (current : gmap Z HttpRequest) (tid : thread_id) (p : fpc) : option conn_id :=
  match p with
  | FRouting req => Some (m_poSourceEHSConnection req)
  | FAdding r => m_poEHSConnection (response_base r)
  | FSending ToQueue id _ _ => Some id
  | FCaught _ => m_poSourceEHSConnection <$> current !! tid
  | _ => None
  end.

(** How many threads owe a response to a connection. *)
Definition holders (current : gmap Z HttpRequest) (id : conn_id) (ts : gmap Z fpc) : nat :=
  size (filter (fun x => holds current x.1 x.2 = Some id) ts).

(** The thread has been chosen to accept. *)
Definition is_accepting (p : fpc) : bool :=
  match p with
  | FSelecting | FAccepting | FReading _ | FBuffering _ _ _ | FRejected _ _ | FClearing => true
  | FSending (ToReject _) _ _ _ => true
  | _ => false
  end.

(** A request is being rejected. *)
Definition is_rejecting (p : fpc) : bool :=
  match p with
  | FSending (ToReject _) _ _ _ | FRejected _ _ => true
  | _ => false
  end.

Definition alive (id : conn_id) (s : EHSServer) : Prop := id ∈ conn_this <$> m_oEHSConnectionList s.

(** The books of a connection of which at least [n] requests are being handled (one whose
    exception has not been answered stays counted). *)
Record conn_good (n : nat) (c : EHSConnection) : Prop := {
  cg_ok : conn_ok c;
  cg_balanced : balanced c;
  cg_responses : (0 <= m_nResponses c)%Z;
  cg_queue : m_oResponseQueue c = [];
  cg_active : (Z.of_nat n <= m_nActiveRequests c)%Z
}.

(** What a thread may rely on. *)
Definition thread_ok (s : EHSServer) (tid : thread_id) (p : fpc) : Prop :=
  match p with
  | FCreated | FIdle | FWaiting | FSent _ | FAnswered => True
  | FRouting req => m_oCurrentRequest s !! tid = Some req /\ alive (m_poSourceEHSConnection req) s
  | FAdding r => exists h id, r = Http h /\ m_poEHSConnection (hr_base h) = Some id /\ alive id s
  | FSending k id r _ => k = ToQueue /\ (exists h, r = Http h) /\ alive id s
  | FCaught _ => forall req, m_oCurrentRequest s !! tid = Some req -> alive (m_poSourceEHSConnection req) s
  | FSelecting | FAccepting | FReading _ | FClearing => m_oCurrentRequest s !! tid = None
  | FBuffering i _ _ => m_oCurrentRequest s !! tid = None /\ i < length (m_oEHSConnectionList s)
  | FRejected _ _ => False
  end.

(** The application answers the request it is given. *)
Class AnswerLaws {W : Type} (A : App W) : Prop := {
  route_answers req w h w' : RouteRequest req w = (Ret h, w') ->
    m_poEHSConnection (hr_base h) = Some (m_poSourceEHSConnection req);
  exception_answers tid req e w r w' : HandleThreadException tid req e w = (Some r, w') ->
    exists q h, req = Some q /\ r = Http h /\ m_poEHSConnection (hr_base h) = Some (m_poSourceEHSConnection q)
}.

Definition chi (o : option conn_id) (id : conn_id) : nat := if decide (o = Some id) then 1 else 0.

(** ** Counting holders *)
Definition agree_but (tid : thread_id) (cur cur' : gmap Z HttpRequest) : Prop :=
  forall t, t <> tid -> cur' !! t = cur !! t.

Lemma holds_agree tid cur cur' t p : agree_but tid cur cur' -> t <> tid -> holds cur' t p = holds cur t p.
Proof. intros Ha Ht. destruct p; try done. unfold holds. by rewrite Ha. Qed.

Lemma holders_delete tid cur cur' id ts :
  agree_but tid cur cur' -> holders cur' id (delete tid ts) = holders cur id (delete tid ts).
Proof.
  intros Ha. unfold holders. f_equal. apply map_filter_ext. intros t p Hp.
  apply lookup_delete_Some in Hp as [Ht _]. cbn [fst snd]. by rewrite (holds_agree tid cur cur').
Qed.

Lemma holders_insert tid cur cur' id ts p :
  agree_but tid cur cur' ->
  holders cur' id (<[tid := p]> ts) = chi (holds cur' tid p) id + holders cur id (delete tid ts).
Proof.
  intros Ha. rewrite <- (holders_delete tid cur cur' id ts Ha), <- insert_delete_eq. unfold holders, chi.
  destruct (decide (holds cur' tid p = Some id)) as [Hp|Hp].
  - rewrite map_filter_insert_True by done. rewrite map_size_insert_None; [done|].
    apply map_lookup_filter_None. left. by rewrite lookup_delete_eq.
  - rewrite map_filter_insert_False by done. by rewrite delete_delete_eq.
Qed.

Lemma holders_split tid cur id ts p :
  ts !! tid = Some p -> holders cur id ts = chi (holds cur tid p) id + holders cur id (delete tid ts).
Proof. intros Hp. rewrite <- (holders_insert tid cur cur) by done. by rewrite insert_id. Qed.

Lemma holders_pos cur id ts t p : ts !! t = Some p -> holds cur t p = Some id -> 0 < holders cur id ts.
Proof. intros Hp Hh. rewrite (holders_split t cur id ts p Hp). unfold chi. rewrite decide_True by done. lia. Qed.

Lemma holders_none cur id ts : (forall t p, ts !! t = Some p -> holds cur t p <> Some id) -> holders cur id ts = 0.
Proof.
  intros Hn. unfold holders. apply map_size_empty_iff, map_empty. intros t.
  apply map_lookup_filter_None. right. intros p Hp. cbn. by apply Hn.
Qed.

(** ** Replacing a connection object *)
Lemma update_conn_this id c l : conn_this c = id -> conn_this <$> update_conn id (fun _ => c) l = conn_this <$> l.
Proof.
  intros Hc. induction l as [|x l IH]; [done|]. cbn [update_conn]. case_decide; rewrite !fmap_cons; [congruence|by rewrite IH].
Qed.

Lemma find_conn_spec id l c : find_conn id l = Some c -> c ∈ l /\ conn_this c = id.
Proof.
  induction l as [|x l IH]; [done|]. cbn [find_conn]. case_decide.
  - intros [= ->]. by split; [left|].
  - intros [? ?]%IH. by split; [right|].
Qed.

Lemma find_conn_None id l : find_conn id l = None -> id ∉ conn_this <$> l.
Proof. intros Hf Hin. destruct (find_conn_Some id l Hin) as [c Hc]. congruence. Qed.

Lemma update_conn_elem id c l x :
  NoDup (conn_this <$> l) -> x ∈ update_conn id (fun _ => c) l -> x = c \/ x ∈ l /\ conn_this x <> id.
Proof.
  induction l as [|y l IH]; [by intros _ ?%elem_of_nil|]. rewrite fmap_cons, NoDup_cons. intros [Hy Hl].
  cbn [update_conn]. case_decide as Hd; rewrite elem_of_cons; intros [->|Hx].
  - by left.
  - right. split; [by right|]. intros Hi. apply Hy. rewrite Hd, <- Hi. by apply list_elem_of_fmap_2.
  - right. by split; [left|].
  - destruct (IH Hl Hx) as [->|[? ?]]; [by left|]. right. by split; [right|].
Qed.

Lemma find_conn_lookup (l : list EHSConnection) i c :
  NoDup (conn_this <$> l) -> l !! i = Some c -> find_conn (conn_this c) l = Some c.
Proof.
  revert i. induction l as [|y l IH]; intros [|i]; try done; rewrite fmap_cons, NoDup_cons; intros [Hy Hl] Hi; cbn [find_conn].
  - injection Hi as ->. by rewrite decide_True by done.
  - rewrite decide_False; [by eapply IH|]. intros Heq. apply Hy. rewrite Heq.
    apply list_elem_of_fmap_2. by eapply list_elem_of_lookup_2.
Qed.

(** Replacing by position is replacing by address. *)
Lemma insert_update (l : list EHSConnection) i c c' :
  NoDup (conn_this <$> l) -> l !! i = Some c -> <[i := c']> l = update_conn (conn_this c) (fun _ => c') l.
Proof.
  revert i. induction l as [|y l IH]; intros [|i]; try done; rewrite fmap_cons, NoDup_cons; intros [Hy Hl] Hi; cbn [update_conn].
  - injection Hi as ->. by rewrite decide_True by done.
  - rewrite decide_False; [cbn; f_equal; by apply IH|]. intros Heq. apply Hy. rewrite Heq.
    apply list_elem_of_fmap_2. by eapply list_elem_of_lookup_2.
Qed.

(** The server with another connection object at an address. *)
Definition put (id : conn_id) (c : EHSConnection) (s : EHSServer) : EHSServer :=
  s <| m_oEHSConnectionList ::= update_conn id (fun _ => c) |>.

Lemma put_alive id c s i : conn_this c = id -> alive i (put id c s) <-> alive i s.
Proof. intros Hc. unfold alive, put. cbn. by rewrite update_conn_this. Qed.

Lemma total_queued_update id c c' l :
  find_conn id l = Some c ->
  (Z.of_nat (total_queued (update_conn id (fun _ => c') l)) - Z.of_nat (length (m_oHttpRequestList c')) =
   Z.of_nat (total_queued l) - Z.of_nat (length (m_oHttpRequestList c)))%Z.
Proof.
  induction l as [|x l IH]; [done|]. cbn [find_conn update_conn]. case_decide; cbn [total_queued].
  - intros [= ->]. lia.
  - intros Hf. specialize (IH Hf). lia.
Qed.

Lemma put_books k id c c' s s' :
  books_ok k s -> find_conn id (m_oEHSConnectionList s) = Some c -> conn_this c' = id ->
  m_oEHSConnectionList s' = update_conn id (fun _ => c') (m_oEHSConnectionList s) -> srv_next_conn s' = srv_next_conn s ->
  (m_nRequestsPending s' - Z.of_nat (length (m_oHttpRequestList c')) =
   m_nRequestsPending s - Z.of_nat (length (m_oHttpRequestList c)))%Z ->
  books_ok k s'.
Proof.
  intros [Hd Hf Hp] Hc Hc' Hl Hn Hq. pose proof (total_queued_update id c c' _ Hc). split; [| |rewrite Hl; lia].
  - unfold distinct_conns in *. by rewrite Hl, update_conn_this.
  - assert (forall l, Forall (fun x => conn_this x < srv_next_conn s) l <-> Forall (fun i => i < srv_next_conn s) (conn_this <$> l))
      as Hiff by (intros l; by rewrite Forall_fmap).
    rewrite Hn, Hl, Hiff, update_conn_this by done. by apply Hiff.
Qed.

(** ** The invariant *)
Section facts.
Context {W : Type} {E : Env W} {A : App W} {B : Boost}.
Variables (beyond stale : bytes).

Abbreviation conns c := (m_oEHSConnectionList (fc_server c)).
Abbreviation current c := (m_oCurrentRequest (fc_server c)).

Record fine_ok (c : fconfig (W := W)) : Prop := {
  fk_books : server_ok (fc_server c);
  fk_conns x : x ∈ conns c -> conn_good (holders (current c) (conn_this x) (fc_threads c)) x;
  fk_threads tid p : fc_threads c !! tid = Some p -> thread_ok (fc_server c) tid p;
  fk_acceptor t1 t2 p1 p2 : fc_threads c !! t1 = Some p1 -> fc_threads c !! t2 = Some p2 ->
    is_accepting p1 = true -> is_accepting p2 = true -> t1 = t2;
  fk_flag t p : fc_threads c !! t = Some p -> is_accepting p = true -> m_bAccepting (fc_server c) = true
}.

Definition set_thread (tid : thread_id) (p : option fpc) (ts : gmap Z fpc) : gmap Z fpc :=
  match p with Some p => <[tid := p]> ts | None => delete tid ts end.

Definition holds_opt (cur : gmap Z HttpRequest) (tid : thread_id) (p : option fpc) : option conn_id :=
  p ≫= holds cur tid.

Lemma set_thread_lookup tid p ts t q :
  set_thread tid p ts !! t = Some q -> t = tid /\ p = Some q \/ t <> tid /\ ts !! t = Some q.
Proof. destruct p; cbn; rewrite ?lookup_insert_Some, ?lookup_delete_Some; naive_solver. Qed.

Lemma holders_set tid cur cur' id ts p :
  agree_but tid cur cur' ->
  holders cur' id (set_thread tid p ts) = chi (holds_opt cur' tid p) id + holders cur id (delete tid ts).
Proof. intros Ha. destruct p as [p|]; cbn; [by apply holders_insert|]. by rewrite (holders_delete tid cur). Qed.

(** A step of one thread: what has to be shown. *)
Lemma fine_ok_step s (w : W) ts tid p s' w' p' :
  fine_ok (FConfig s w ts) -> ts !! tid = Some p ->
  server_ok s' -> agree_but tid (m_oCurrentRequest s) (m_oCurrentRequest s') ->
  (forall x', x' ∈ m_oEHSConnectionList s' ->
     conn_good (chi (holds_opt (m_oCurrentRequest s') tid p') (conn_this x') +
       holders (m_oCurrentRequest s) (conn_this x') (delete tid ts)) x') ->
  (forall q, p' = Some q -> thread_ok s' tid q) ->
  (forall t q, t <> tid -> ts !! t = Some q -> thread_ok s' t q) ->
  (forall q, p' = Some q -> is_accepting q = true -> is_accepting p = true \/ m_bAccepting s = false) ->
  ((exists t q, t <> tid /\ ts !! t = Some q /\ is_accepting q = true) \/
    (exists q, p' = Some q /\ is_accepting q = true) -> m_bAccepting s' = true) ->
  fine_ok (FConfig s' w' (set_thread tid p' ts)).
Proof.
  intros [H1 H2 H3 H4 H5] Hp Hs Ha Hc Ht Ho Hac Hfl. cbn [fc_server fc_world fc_threads] in *. split; cbn [fc_server fc_world fc_threads].
  - exact Hs.
  - intros x Hx. rewrite (holders_set tid (m_oCurrentRequest s)) by done. by apply Hc.
  - intros t q [[-> Hq]|[Hn Hq]]%set_thread_lookup; [by apply Ht|by apply Ho].
  - intros t1 t2 p1 p2 Hp1%set_thread_lookup Hp2%set_thread_lookup A1 A2.
    destruct Hp1 as [[-> E1]|[N1 E1]], Hp2 as [[-> E2]|[N2 E2]]; [done| | |by eapply H4].
    + destruct (Hac _ E1 A1) as [Hb|Hb]; [by eapply H4|]. specialize (H5 _ _ E2 A2). congruence.
    + destruct (Hac _ E2 A2) as [Hb|Hb]; [by eapply H4|]. specialize (H5 _ _ E1 A1). congruence.
  - intros t q [[-> Hq]|[Hn Hq]]%set_thread_lookup Haq; apply Hfl; [right; by eexists|left; by exists t, q].
Qed.

(** The other threads do not notice that connections are added or replaced. *)
Lemma thread_ok_mono s s' tid t q :
  (forall id, alive id s -> alive id s') -> length (m_oEHSConnectionList s) <= length (m_oEHSConnectionList s') ->
  agree_but tid (m_oCurrentRequest s) (m_oCurrentRequest s') -> t <> tid -> thread_ok s t q -> thread_ok s' t q.
Proof.
  intros Hal Hlen Ha Ht. destruct q; cbn; rewrite ?(Ha t Ht); try done.
  - intros [? ?]. split; [done|by apply Hal].
  - intros (h & id & ? & ? & ?). exists h, id. split_and!; [done|done|by apply Hal].
  - intros (? & ? & ?). split_and!; [done|done|by apply Hal].
  - intros Hr req Hq. by apply Hal, Hr.
  - intros [? ?]. split; [done|lia].
Qed.

Lemma conn_good_le n m c : conn_good n c -> m <= n -> conn_good m c.
Proof. intros [] Hm. split; try done. lia. Qed.

(** A step of a thread that changes one connection object. *)
Lemma fine_ok_put s (w : W) ts tid p id c c' s' w' p' :
  fine_ok (FConfig s w ts) -> ts !! tid = Some p ->
  find_conn id (m_oEHSConnectionList s) = Some c -> conn_this c' = id ->
  m_oEHSConnectionList s' = update_conn id (fun _ => c') (m_oEHSConnectionList s) ->
  (m_nRequestsPending s' - Z.of_nat (length (m_oHttpRequestList c')) =
   m_nRequestsPending s - Z.of_nat (length (m_oHttpRequestList c)))%Z ->
  srv_next_conn s' = srv_next_conn s -> agree_but tid (m_oCurrentRequest s) (m_oCurrentRequest s') ->
  m_bAccepting s' = m_bAccepting s ->
  (forall n, conn_good (chi (holds (m_oCurrentRequest s) tid p) id + n) c ->
             conn_good (chi (holds (m_oCurrentRequest s') tid p') id + n) c') ->
  (forall i, i <> id -> chi (holds (m_oCurrentRequest s') tid p') i <= chi (holds (m_oCurrentRequest s) tid p) i) ->
  (thread_ok s tid p -> thread_ok s' tid p') -> (is_accepting p' = true -> is_accepting p = true) ->
  fine_ok (FConfig s' w' (<[tid := p']> ts)).
Proof.
  intros Hok Hp Hc Hc' Hl Hq Hn Hcur Hacc Hgood Hle Ht Ha. pose proof Hok as [H1 H2 H3 H4 H5].
  cbn [fc_server fc_world fc_threads] in *. pose proof (find_conn_spec _ _ _ Hc) as [Hin Hid].
  assert (forall i, alive i s' <-> alive i s) as Hal by (intros i; unfold alive; by rewrite Hl, update_conn_this).
  assert (length (m_oEHSConnectionList s') = length (m_oEHSConnectionList s)) as Hlen.
  { by rewrite Hl, <- (length_fmap conn_this), update_conn_this, length_fmap. }
  apply (fine_ok_step s w ts tid p s' w' (Some p')); try done.
  - eapply (put_books 0 id c c' s s'); eassumption.
  - intros x Hx. rewrite Hl in Hx. cbn [holds_opt mbind option_bind]. apply update_conn_elem in Hx as [->|[Hx Hne]].
    + rewrite Hc'. apply Hgood. rewrite <- holders_split by done. rewrite <- Hid. by apply H2.
    + eapply conn_good_le; [by apply H2|]. rewrite (holders_split tid _ _ ts p) by done. specialize (Hle _ Hne). lia.
    + apply H1.
  - intros q [= <-]. by apply Ht, H3.
  - intros t q Hne Htq. apply (thread_ok_mono s s' tid); [intros i; by apply Hal|lia|done|done|by apply H3].
  - intros q [= <-] Haq. left. by apply Ha.
  - rewrite Hacc. intros [(t & q & _ & Htq & Haq)|(q & [= <-] & Haq)]; [by eapply H5|]. eapply H5; [exact Hp|by apply Ha].
Qed.

(** A step of a thread that leaves the connections alone. *)
Lemma fine_ok_same s (w : W) ts tid p s' w' p' :
  fine_ok (FConfig s w ts) -> ts !! tid = Some p ->
  m_oEHSConnectionList s' = m_oEHSConnectionList s -> m_nRequestsPending s' = m_nRequestsPending s ->
  srv_next_conn s' = srv_next_conn s -> agree_but tid (m_oCurrentRequest s) (m_oCurrentRequest s') ->
  m_bAccepting s' = m_bAccepting s ->
  (forall i, chi (holds_opt (m_oCurrentRequest s') tid p') i <= chi (holds (m_oCurrentRequest s) tid p) i) ->
  (forall q, p' = Some q -> thread_ok s tid p -> thread_ok s' tid q) ->
  (forall q, p' = Some q -> is_accepting q = true -> is_accepting p = true) ->
  fine_ok (FConfig s' w' (set_thread tid p' ts)).
Proof.
  intros Hok Hp Hl Hq Hn Hcur Hacc Hle Ht Ha. pose proof Hok as [H1 H2 H3 H4 H5].
  cbn [fc_server fc_world fc_threads] in *. apply (fine_ok_step s w ts tid p); try done.
  - destruct H1 as [Hd Hf Hpd]. split; unfold distinct_conns; by rewrite ?Hl, ?Hn, ?Hq.
  - intros x Hx. rewrite Hl in Hx. eapply conn_good_le; [by apply H2|].
    rewrite (holders_split tid _ _ ts p) by done. specialize (Hle (conn_this x)). lia.
  - intros q Hpq. by apply Ht, H3.
  - intros t q Hne Htq. apply (thread_ok_mono s s' tid); [intros i; unfold alive; by rewrite Hl|by rewrite Hl|done|done|by apply H3].
  - intros q Hpq Haq. left. by eapply Ha.
  - rewrite Hacc. intros [(t & q & _ & Htq & Haq)|(q & Hpq & Haq)]; [by eapply H5|]. eapply H5; [exact Hp|by eapply Ha].
Qed.

(** ** The parts of a step *)

(** The part of a connection on which its books depend. *)
Definition core_view (c : EHSConnection) :=
  (conn_this c, m_poCurrentHttpRequest c, m_nRequests c, m_oHttpRequestList c, m_nResponses c, m_nActiveRequests c,
   m_oResponseQueue c).

Lemma conn_good_view n c c' : core_view c' = core_view c -> conn_good n c -> conn_good n c'.
Proof.
  unfold core_view. intros [= H1 H2 H3 H4 H5 H6 H7] [[G1 G2 G3] G4 G5 G6 G7]. split; [split| | | |].
  - by rewrite H1, H2, H3, H4.
  - unfold request_ids in *. by rewrite H3, H4.
  - by rewrite H1, H4.
  - unfold balanced in *. by rewrite H2, H3, H4, H5, H6.
  - by rewrite H5.
  - by rewrite H7.
  - by rewrite H6.
Qed.

(** Answering. *)
Lemma conn_good_count n c : conn_good (S n) c -> conn_good n (count_response c).
Proof.
  intros [[G1 G2 G3] G4 G5 G6 G7]. split; [by split| | |done|].
  - unfold balanced in *. cbn -[Z.pred Z.succ Z.sub]. lia.
  - cbn -[Z.succ]. lia.
  - cbn -[Z.pred]. lia.
Qed.

(** Taking a request. *)
Lemma conn_good_take n c r q :
  m_oHttpRequestList c = r :: q -> conn_good n c ->
  conn_good (S n) (conn_GetNextRequest c).2 /\ m_poSourceEHSConnection r = conn_this c.
Proof.
  intros Hq [[G1 G2 G3] G4 G5 G6 G7]. unfold conn_GetNextRequest. rewrite Hq. cbn [snd].
  rewrite Hq in *. apply Forall_cons in G3 as [[_ Hsrc] G3]. split; [|done]. split; [split| |done|done|].
  - cbn. by destruct (m_poCurrentHttpRequest c) as [cur|]; [|destruct G1].
  - unfold request_ids in *. rewrite Hq in G2. cbn -[seqZ Z.sub Z.of_nat Z.succ] in *.
    rewrite seqZ_cons in G2 by lia. injection G2 as _ G2. rewrite G2. f_equal; lia.
  - cbn. exact G3.
  - unfold balanced in *. rewrite Hq in G4. cbn -[Z.succ Z.sub] in *. cbn [length] in G4. lia.
  - cbn -[Z.succ]. lia.
Qed.

Lemma choose_job_cases rnd tid s j s' :
  (0 <= rnd <= RAND_MAX)%Z -> choose_job rnd tid s = (j, s') ->
  match j with
  | JobHandle req => exists i c q, m_oEHSConnectionList s !! i = Some c /\ m_oHttpRequestList c = req :: q /\
      s' = s <| m_oCurrentRequest ::= delete tid |> <| m_oEHSConnectionList ::= <[i := (conn_GetNextRequest c).2]> |>
             <| m_nRequestsPending ::= Z.pred |> <| m_oCurrentRequest ::= <[tid := req]> |>
  | JobWait => s' = s <| m_oCurrentRequest ::= delete tid |>
  | JobAccept => m_bAccepting s = false /\
      s' = s <| m_oCurrentRequest ::= delete tid |> <| m_bAcceptedNewConnection := false |> <| m_bAccepting := true |>
  end.
Proof.
  intros Hr. unfold choose_job. set (s0 := s <| m_oCurrentRequest ::= delete tid |>).
  assert (forall r s1, (None, s0) = (r, s1) \/ srv_GetNextRequest rnd s0 = (r, s1) ->
    match r with
    | Some req => exists i c q, m_oEHSConnectionList s !! i = Some c /\ m_oHttpRequestList c = req :: q /\
        s1 = s0 <| m_oEHSConnectionList ::= <[i := (conn_GetNextRequest c).2]> |> <| m_nRequestsPending ::= Z.pred |>
    | None => s1 = s0
    end) as Hnext.
  { intros r s1 [[= <- <-]|Hg]; [done|]. unfold srv_GetNextRequest in Hg. case_decide as Hnil; [by injection Hg as <- <-|].
    assert (length (m_oEHSConnectionList s0) <> 0) as Hn by by destruct (m_oEHSConnectionList s0).
    pose proof (next_request_from_spec (length (m_oEHSConnectionList s0)) _ s0 (start_in_range _ _ Hn Hr)) as Hs.
    rewrite Hg in Hs. destruct r as [req|]; [|by destruct Hs as [-> _]].
    destruct Hs as (k & c & q & _ & Hl & Hq & _ & ->). by eexists _, c, q. }
  assert (exists r s1, ((None, s0) = (r, s1) \/ srv_GetNextRequest rnd s0 = (r, s1)) /\
    (if bool_decide (m_nServerRunningStatus s0 <> SERVERRUNNING_ONETHREADPERREQUEST) || bool_decide (tid <> m_nAcceptThreadId s0)
     then srv_GetNextRequest rnd s0 else (None, s0)) = (r, s1)) as (r & s1 & Hrs & ->).
  { destruct (_ || _); [destruct (srv_GetNextRequest rnd s0) as [r s1]; exists r, s1; by split; [right|]|].
    exists None, s0. by split; [left|]. }
  specialize (Hnext r s1 Hrs). destruct r as [req|].
  - intros [= <- <-]. destruct Hnext as (i & c & q & ? & ? & ->). by exists i, c, q.
  - subst s1. change (m_bAccepting s0) with (m_bAccepting s). destruct (m_bAccepting s); by intros [= <- <-].
Qed.

Lemma AddBuffer_good n mode d k c pending (w : W) o c' pending' w' :
  AddBuffer mode d k c pending w = Some (o, c', pending', w') -> o <> Ret ADDBUFFER_NORESOURCE ->
  conn_good n c -> conn_good n c' /\ conn_this c' = conn_this c /\
  (pending' - Z.of_nat (length (m_oHttpRequestList c')) = pending - Z.of_nat (length (m_oHttpRequestList c)))%Z.
Proof.
  intros Hb Hne Hg. pose proof (AddBuffer_total mode d k c pending w) as (o1 & c1 & p1 & w1 & E1 & Hp & Ht).
  rewrite Hb in E1. injection E1 as <- <- <- <-. split_and!; [|done|done]. revert Hb. unfold AddBuffer.
  destruct (k <=? 0)%Z; [by intros [= <- <- <- <-]|]. destruct (_ <? _)%Z; [by intros [= <- <- <- <-]|].
  set (c0 := c <| m_sBuffer ::= _ |>). intros Hl. assert (conn_good n c0) as [G1 G2 G3 G4 G5] by by apply (conn_good_view n c).
  destruct (add_buffer_loop_ok _ _ _ _ _ _ _ _ _ Hl G1) as (H1 & _).
  pose proof (add_buffer_loop_io _ _ _ _ _ _ _ _ _ Hl) as Hio. unfold io_view in Hio. injection Hio as _ _ _ _ _ Hq Hr Ha.
  split; [by apply H1|by eapply add_buffer_loop_balanced|by rewrite Hr|by rewrite Hq|by rewrite Ha].
Qed.

Lemma read_client_view i s c (w : W) p c' w' :
  read_client i s c w = (p, c', w') ->
  core_view c' = core_view c /\ ((exists e, p = FCaught e) \/ p = FReading (S i) \/ (exists buf n, p = FBuffering i buf n)).
Proof.
  unfold read_client. destruct (FD_ISSET _ _); [|intros [= <- <- <-]; by auto].
  destruct (na_Read _ _ _) as [[n buf] w1]. destruct (IsRaw c).
  - destruct (n <? 0)%Z; [intros [= <- <- <-]; by auto|]. destruct (_ && _); [|intros [= <- <- <-]; by auto].
    destruct (rsh_OnData _ _ _) as [[[]|e] w2]; intros [= <- <- <-]; eauto.
  - destruct (n <=? 0)%Z; intros [= <- <- <-]; eauto 6.
Qed.

Lemma with_conn_Some id s f p' s' (w' : W) :
  with_conn id s f = Some (p', s', w') ->
  exists c p c', find_conn id (m_oEHSConnectionList s) = Some c /\ f c = (p, c', w') /\ p' = Some p /\ s' = put id c' s.
Proof.
  unfold with_conn. destruct (find_conn _ _) as [c|]; [|done]. destruct (f c) as [[p c'] w1] eqn:Hf.
  intros [= <- <- <-]. by exists c, p, c'.
Qed.

Lemma agree_refl tid cur : agree_but tid cur cur.
Proof. done. Qed.
Lemma agree_delete tid cur : agree_but tid cur (delete tid cur).
Proof. intros t Ht. by rewrite lookup_delete_ne. Qed.
Lemma agree_take tid cur req : agree_but tid cur (<[tid := req]> (delete tid cur)).
Proof. intros t Ht. by rewrite lookup_insert_ne, lookup_delete_ne. Qed.
Hint Resolve agree_refl agree_delete agree_take : core.

Lemma chi_none id : chi None id = 0.
Proof. unfold chi. by rewrite decide_False. Qed.
Lemma chi_self id : chi (Some id) id = 1.
Proof. unfold chi. by rewrite decide_True. Qed.
Lemma chi_ne id i : i <> id -> chi (Some id) i = 0.
Proof. intros Hi. unfold chi. rewrite decide_False; [done|congruence]. Qed.

(** The end of an iteration. *)
Lemma next_iteration_ok s0 s (w : W) ts tid p w' :
  fine_ok (FConfig s0 w ts) -> ts !! tid = Some p ->
  m_oEHSConnectionList s = m_oEHSConnectionList s0 -> m_nRequestsPending s = m_nRequestsPending s0 ->
  srv_next_conn s = srv_next_conn s0 -> agree_but tid (m_oCurrentRequest s0) (m_oCurrentRequest s) ->
  m_bAccepting s = m_bAccepting s0 ->
  let '(p', s', w'') := next_iteration tid s w' in fine_ok (FConfig s' w'' (set_thread tid p' ts)).
Proof.
  intros Hok Hp H1 H2 H3 H4 H5. unfold next_iteration. destruct (keep_running tid s).
  - apply (fine_ok_same s0 w ts tid p); try done; [intros i; cbn; rewrite chi_none; lia|by intros q [= <-]..].
  - apply (fine_ok_same s0 w ts tid p); try done. intros i. cbn. rewrite chi_none. lia.
Qed.

(** The steps of [SendResponse] and [AddResponse]. *)
Lemma send_step_ok id h sp c (w : W) p' c' w' :
  send_step beyond ToQueue id (Http h) sp w c = (p', c', w') ->
  conn_this c' = conn_this c /\ m_oHttpRequestList c' = m_oHttpRequestList c /\
  ((p' = FSent id /\ forall n, conn_good (S n) c -> conn_good n c') \/
   ((exists q, p' = FSending ToQueue id (Http h) q) /\ core_view c' = core_view c)).
Proof.
  destruct sp; cbn [send_step].
  - unfold send_start. destruct (Disconnected c); intros [= <- <- <-]; split_and!; try done; [left|right; eauto].
    split; [done|]. intros n. by apply conn_good_count.
  - unfold send_head. destruct (na_Send _ _ _) as [n w1]. intros [= <- <- <-]. split_and!; try done. right; eauto.
  - intros [= <- <- <-]. split_and!; try done. right; eauto.
  - intros [= <- <- <-]. split_and!; try done. right; eauto.
  - unfold send_count. intros [= <- <- <-].
    set (c1 := if force_close h || (r =? -1)%Z then DoneReading false c else c).
    assert (core_view c1 = core_view c) as Hv by (unfold c1; by destruct (_ || _)).
    split_and!; [unfold c1; by destruct (_ || _)|unfold c1; by destruct (_ || _)|]. left. split; [done|].
    intros n0 Hn. apply conn_good_count. by apply (conn_good_view _ c).
Qed.

Lemma pop_response_ok id c (w : W) p c' w' :
  m_oResponseQueue c = [] -> pop_response id c w = (p, c', w') -> p = FAnswered /\ c' = c.
Proof. unfold pop_response. intros ->. by intros [= <- <- <-]. Qed.

(** ** The steps keep the invariant *)
Context {L : AnswerLaws A}.

Lemma choose_step_ok s (w : W) ts tid rnd p' s' w' :
  fine_ok (FConfig s w ts) -> ts !! tid = Some FIdle -> (0 <= rnd <= RAND_MAX)%Z ->
  run_thread beyond stale rnd tid FIdle s w = Some (p', s', w') -> fine_ok (FConfig s' w' (set_thread tid p' ts)).
Proof using.
  intros Hok Hp Hr. cbn [run_thread]. destruct (choose_job rnd tid s) as [j s1] eqn:Hj. intros [= <- <- <-].
  apply choose_job_cases in Hj; [|done]. cbn [set_thread]. pose proof Hok as [H1 H2 H3 H4 H5]. cbn [fc_server fc_world fc_threads] in *.
  destruct j as [req| |].
  - destruct Hj as (i & c & q & Hi & Hq & ->). pose proof (list_elem_of_lookup_2 _ _ _ Hi) as Hin.
    destruct (conn_good_take _ _ _ _ Hq (H2 c Hin)) as [_ Hsrc]. pose proof (so_distinct _ _ H1) as Hd.
    pose proof (find_conn_lookup _ _ _ Hd Hi) as Hf.
    apply (fine_ok_put s w ts tid FIdle (conn_this c) c (conn_GetNextRequest c).2); try done.
    + unfold conn_GetNextRequest. by rewrite Hq.
    + cbn. by apply insert_update.
    + cbn -[Z.pred Z.sub]. unfold conn_GetNextRequest. rewrite Hq. cbn -[Z.pred Z.sub]. lia.
    + cbn. apply agree_take.
    + intros n. cbn [holds]. rewrite chi_none, Hsrc, chi_self. intros Hg. by eapply conn_good_take.
    + intros k Hk. cbn [holds]. rewrite Hsrc, chi_ne by done. lia.
    + intros _. cbn. rewrite lookup_insert_eq. split; [done|]. unfold alive. cbn. rewrite (insert_update _ _ c) by done.
      rewrite update_conn_this; [rewrite Hsrc; by apply list_elem_of_fmap_2|]. unfold conn_GetNextRequest. by rewrite Hq.
  - subst s1. apply (fine_ok_same s w ts tid FIdle _ _ (Some FWaiting)); try done.
    + by intros ? [= <-].
    + by intros ? [= <-].
  - destruct Hj as [Hb ->]. apply (fine_ok_step s w ts tid FIdle _ _ (Some FSelecting)); try done; cbn.
    + by destruct H1; split.
    + intros x Hx. rewrite chi_none. eapply conn_good_le; [by apply H2|]. rewrite (holders_split tid _ _ ts FIdle) by done. lia.
    + intros q [= <-]. cbn. by rewrite lookup_delete_eq.
    + intros t q Hne Htq. apply (thread_ok_mono s _ tid); [done|done|apply agree_delete|done|by apply H3].
    + intros q [= <-] _. by right.
Qed.

(** Steps through a pointer to a connection. *)
Lemma pointer_step_ok s (w : W) ts tid p p' s' w' :
  fine_ok (FConfig s w ts) -> ts !! tid = Some p ->
  match p with FAdding _ | FSending _ _ _ _ | FSent _ => True | _ => False end ->
  run_thread beyond stale 0 tid p s w = Some (p', s', w') -> fine_ok (FConfig s' w' (set_thread tid p' ts)).
Proof using.
  intros Hok Hp Hk. pose proof Hok as [H1 H2 H3 H4 H5]. cbn [fc_server fc_world fc_threads] in *. pose proof (H3 _ _ Hp) as Ht.
  destruct p as [| | | |r|k id r sp|id| | | | | | | |]; try done; cbn [run_thread].
  - destruct Ht as (h & id & -> & Hid & Hal). cbn [response_base]. rewrite Hid.
    intros (c & q & c' & Hf & Hpop & -> & ->)%with_conn_Some. destruct (find_conn_spec _ _ _ Hf) as [Hin Hc].
    destruct (H2 c Hin) as [_ _ _ Hq _]. unfold pop_response in Hpop. cbn in Hpop. rewrite Hq in Hpop. injection Hpop as <- Hc' _.
    assert (holds (m_oCurrentRequest s) tid (FAdding (Http h)) = Some id) as Hh by done.
    apply (fine_ok_put s w ts tid (FAdding (Http h)) id c c'); try done; try (by rewrite <- Hc').
    + intros n. rewrite Hh. cbn [holds]. apply conn_good_view. rewrite <- Hc'. unfold core_view. cbn. by rewrite Hq.
    + intros i Hi. by rewrite Hh.
    + intros _. cbn. split_and!; [done|by eexists|]. apply put_alive; [by rewrite <- Hc'|done].
  - destruct Ht as (-> & [h ->] & Hal). intros (c & q & c' & Hf & Hs & -> & ->)%with_conn_Some.
    destruct (find_conn_spec _ _ _ Hf) as [Hin Hc]. apply send_step_ok in Hs as (Ht' & Hl & Hcase).
    assert (conn_this c' = id) as Hc' by congruence.
    apply (fine_ok_put s w ts tid (FSending ToQueue id (Http h) sp) id c c'); try done.
    + cbn -[Z.sub]. by rewrite Hl.
    + intros n. cbn [holds]. destruct Hcase as [[-> Hg]|[[x ->] Hv]]; cbn [holds]; rewrite ?chi_self, ?chi_none.
      * apply Hg.
      * by apply conn_good_view.
    + intros i Hi. destruct Hcase as [[-> _]|[[x ->] _]]; cbn [holds]; rewrite ?chi_none; lia.
    + intros _. destruct Hcase as [[-> _]|[[x ->] _]]; [done|]. cbn. split_and!; [done|by eexists|]. by apply put_alive.
    + by destruct Hcase as [[-> _]|[[x ->] _]].
  - intros (c & q & c' & Hf & Hpop & -> & ->)%with_conn_Some. destruct (find_conn_spec _ _ _ Hf) as [Hin Hc].
    destruct (H2 c Hin) as [_ _ _ Hq _]. apply pop_response_ok in Hpop as [-> ->]; [|done].
    apply (fine_ok_put s w ts tid (FSent id) id c (UpdateLastActivity w c)); try done.
    + intros n. cbn [holds]. by apply conn_good_view.
Qed.

Lemma holds_alive s tid p id : thread_ok s tid p -> holds (m_oCurrentRequest s) tid p = Some id -> alive id s.
Proof using.
  destruct p as [| | |req|r|[|i] id' r sp| | |e| | | | | |]; try done; cbn.
  - by intros [_ ?] [= <-].
  - intros (h & i & -> & Hi & ?). cbn. rewrite Hi. by intros [= <-].
  - by intros (_ & _ & ?) [= <-].
  - intros Hr. destruct (m_oCurrentRequest s !! tid) as [q|]; [|done]. intros [= <-]. by apply Hr.
Qed.

(** Requests that are being handled keep a connection alive. *)
Lemma not_finished n c : conn_good (S n) c -> is_finished c = false.
Proof using.
  intros [[G1 _ _] G4 G5 _ G7]. unfold is_finished. destruct (negb _); [|done]. cbn [andb]. apply Z.leb_gt.
  unfold balanced in G4. destruct (m_poCurrentHttpRequest c); [lia|]. destruct G1 as [G1 G2]. lia.
Qed.

Lemma clear_idle_view t (w : W) c : core_view (clear_idle t w c) = core_view c.
Proof using. unfold clear_idle. by destruct (_ && _). Qed.

Lemma clear_step_ok s (w : W) ts tid p' s' w' :
  fine_ok (FConfig s w ts) -> ts !! tid = Some FClearing ->
  run_thread beyond stale 0 tid FClearing s w = Some (p', s', w') -> fine_ok (FConfig s' w' (set_thread tid p' ts)).
Proof using.
  intros Hok Hp. pose proof Hok as [H1 H2 H3 H4 H5]. cbn [fc_server fc_world fc_threads run_thread] in *.
  destruct (end_accepting_ok s w H1) as (o & s1 & w1 & E1 & Hok1 & _ & -> & Hb1). rewrite E1.
  unfold end_accepting in E1. destruct (ClearIdleConnections_list s w (so_distinct _ _ H1)) as [w2 E2]. rewrite E2 in E1.
  injection E1 as Hs1 _. set (l' := filter _ _) in Hs1.
  assert (m_oEHSConnectionList s1 = l' /\ m_oCurrentRequest s1 = m_oCurrentRequest s) as [Hl1 Hc1] by by rewrite <- Hs1.
  assert (forall x, x ∈ l' -> exists c, c ∈ m_oEHSConnectionList s /\ core_view x = core_view c) as Hsub.
  { intros x [_ (c & -> & Hc)%list_elem_of_fmap]%list_elem_of_filter. exists c. by split; [|apply clear_idle_view]. }
  assert (forall t q id, t <> tid -> ts !! t = Some q -> holds (m_oCurrentRequest s) t q = Some id -> alive id s1) as Hkeep.
  { intros t q id Hne Hq Hh. pose proof (holds_alive s t q id (H3 _ _ Hq) Hh) as (c & -> & Hc)%list_elem_of_fmap.
    pose proof (H2 c Hc) as Hg. rewrite (holders_split t _ _ ts q Hq), Hh, chi_self in Hg.
    unfold alive. rewrite Hl1. apply list_elem_of_fmap. exists (clear_idle (m_nIdleTimeout s) w c).
    pose proof (clear_idle_view (m_nIdleTimeout s) w c) as Hv. split; [by injection Hv|]. apply list_elem_of_filter.
    split; [|by apply list_elem_of_fmap_2]. eapply not_finished, conn_good_view; [exact Hv|exact Hg]. }
  assert (forall t q, t <> tid -> ts !! t = Some q -> thread_ok s1 t q) as Hothers.
  { intros t q Hne Hq. pose proof (H3 _ _ Hq) as Ht. pose proof (fun id => Hkeep t q id Hne Hq) as Hk.
    destruct q as [| | |req|r|[|i] id r sp| | |e| | | |i buf n| |]; try done; cbn in *; rewrite ?Hc1; try done.
    - destruct Ht. split; [done|by apply Hk].
    - destruct Ht as (h & id & -> & Hid & _). exists h, id. split_and!; [done|done|by apply Hk].
    - destruct Ht as (? & ? & _). split_and!; [done|done|by apply Hk].
    - by destruct Ht.
    - intros req Hreq. apply Hk. by rewrite Hreq.
    - exfalso. apply Hne. by eapply H4. }
  assert (forall p s', m_oEHSConnectionList s' = l' -> m_oCurrentRequest s' = m_oCurrentRequest s -> server_ok s' ->
    m_bAccepting s' = false -> (forall t q, t <> tid -> ts !! t = Some q -> thread_ok s' t q) -> p = Some FIdle \/ p = None ->
    fine_ok (FConfig s' w1 (set_thread tid p ts))) as Hgoal.
  { intros q s2 Hl2 Hc2 Hok2 Hb2 Ho2 Hq. assert (holds_opt (m_oCurrentRequest s2) tid q = None) as Hnone by by destruct Hq as [->| ->].
    apply (fine_ok_step s w ts tid FClearing); try done.
    - by rewrite Hc2.
    - intros x Hx. rewrite Hl2 in Hx. rewrite Hnone, chi_none. destruct (Hsub x Hx) as (c & Hc & Hv).
      assert (conn_this x = conn_this c) as -> by by injection Hv.
      eapply conn_good_view; [exact Hv|]. eapply conn_good_le; [by apply H2|]. rewrite (holders_split tid _ _ ts FClearing) by done. lia.
    - intros y ->. by destruct Hq as [[= ->]|].
    - intros y -> Ha. by destruct Hq as [[= ->]|].
    - intros [(t & y & Hne & Hty & Ha)|(y & -> & Ha)]; [|by destruct Hq as [[= ->]|]].
      exfalso. apply Hne. by eapply H4. }
  unfold next_iteration. intros [= Hnext]. destruct (keep_running tid s1); injection Hnext as <- <- <-; apply Hgoal; try done; auto.
  by destruct Hok1; split.
Qed.

Lemma CheckAcceptSocket_cases s (w : W) o s' w' :
  CheckAcceptSocket s w = (o, s', w') ->
  s' = s \/ o = Ret tt /\ exists c, conn_this c = srv_next_conn s /\ conn_good 0 c /\
    m_oEHSConnectionList s' = m_oEHSConnectionList s ++ [c] /\
    m_oCurrentRequest s' = m_oCurrentRequest s /\ m_bAccepting s' = m_bAccepting s.
Proof using.
  unfold CheckAcceptSocket. destruct (FD_ISSET _ _); [|intros [= <- <- <-]; by left].
  destruct (na_Accept _ _) as [[na|e] w1].
  - intros [= <- <- <-]. right. split; [done|]. unfold accept_connection. eexists. split_and!; [| |reflexivity|done|done].
    + by repeat case_match.
    + apply (conn_good_view _ (EHSConnection_new (srv_next_conn s) na w1)); [by repeat case_match|]. by repeat split.
  - destruct e; try (intros [= <- <- <-]; by left). destruct (find _ _); intros [= <- <- <-]; by left.
Qed.

Lemma accept_step_ok s (w : W) ts tid p' s' w' :
  fine_ok (FConfig s w ts) -> ts !! tid = Some FAccepting ->
  run_thread beyond stale 0 tid FAccepting s w = Some (p', s', w') -> fine_ok (FConfig s' w' (set_thread tid p' ts)).
Proof using.
  intros Hok Hp. pose proof Hok as [H1 H2 H3 H4 H5]. cbn [fc_server fc_world fc_threads run_thread] in *.
  destruct (CheckAcceptSocket_ok s w H1) as (o & s1 & w1 & E1 & Hok1 & Hb1 & _). rewrite E1.
  pose proof (H3 _ _ Hp) as Ht. pose proof (H5 _ _ Hp eq_refl) as Hb.
  apply CheckAcceptSocket_cases in E1 as [->|(-> & c & Hc & Hg & Hl & Hcur & Hacc)].
  - assert (forall p, p = FReading 0 \/ (exists e, p = FCaught e) -> fine_ok (FConfig s w1 (set_thread tid (Some p) ts))) as Hgoal.
    { intros p Hcase. apply (fine_ok_same s w ts tid FAccepting); try done.
      - intros i. cbn in Ht. destruct Hcase as [->|[e ->]]; cbn; rewrite ?Ht; done.
      - intros q [= <-] _. cbn in Ht. destruct Hcase as [->|[e ->]]; cbn; [done|]. by rewrite Ht. }
    destruct o; intros [= <- <- <-]; apply Hgoal; eauto.
  - intros [= <- <- <-]. apply (fine_ok_step s w ts tid FAccepting); try done.
    + by rewrite Hcur.
    + intros x Hx. cbn [holds_opt holds mbind option_bind]. rewrite chi_none. rewrite Hl in Hx. apply elem_of_app in Hx as [Hx|Hx].
      * eapply conn_good_le; [by apply H2|]. rewrite (holders_split tid _ _ ts FAccepting) by done. lia.
      * apply list_elem_of_singleton in Hx as ->. rewrite holders_none; [done|]. intros t q Hq Hh.
        apply lookup_delete_Some in Hq as [_ Hq]. pose proof (holds_alive s t q _ (H3 _ _ Hq) Hh) as Hal.
        destruct H1 as [_ Hf _]. apply list_elem_of_fmap in Hal as (y & Hy & Hin). rewrite Forall_forall in Hf.
        specialize (Hf y Hin). lia.
    + intros q [= <-]. cbn in *. by rewrite Hcur.
    + intros t q Hne Hq. apply (thread_ok_mono s s1 tid); [|rewrite Hl, length_app; lia|by rewrite Hcur|done|by apply H3].
      intros i Hi. unfold alive in *. rewrite Hl, fmap_app. apply elem_of_app. by left.
    + intros q [= <-] _. by left.
    + intros _. congruence.
Qed.

Lemma client_step_ok s (w : W) ts tid p p' s' w' :
  fine_ok (FConfig s w ts) -> ts !! tid = Some p ->
  match p with FReading _ | FBuffering _ _ _ => True | _ => False end ->
  run_thread beyond stale 0 tid p s w = Some (p', s', w') -> (forall q, p' = Some q -> is_rejecting q = false) ->
  fine_ok (FConfig s' w' (set_thread tid p' ts)).
Proof using.
  intros Hok Hp Hk. pose proof Hok as [H1 H2 H3 H4 H5]. cbn [fc_server fc_world fc_threads] in *. pose proof (H3 _ _ Hp) as Ht.
  pose proof (so_distinct _ _ H1) as Hd.
  destruct p as [| | | | | | | | | | |i|i buf n| |]; try done; cbn [run_thread]; clear Hk.
  - cbn in Ht. destruct (m_oEHSConnectionList s !! i) as [c|] eqn:Hi.
    + destruct (read_client i s c w) as [[p c'] w1] eqn:Er. intros [= <- <- <-] _. apply read_client_view in Er as [Hv Hcase].
      assert (conn_this c' = conn_this c /\ m_oHttpRequestList c' = m_oHttpRequestList c) as [Hc' Hq] by by injection Hv.
      assert (holds (m_oCurrentRequest s) tid p = None) as Hnone.
      { destruct Hcase as [[e ->]|[->|(buf & k & ->)]]; try done. cbn. by rewrite Ht. }
      apply (fine_ok_put s w ts tid (FReading i) (conn_this c) c c'); try done.
      * by eapply find_conn_lookup.
      * cbn. by apply insert_update.
      * cbn -[Z.sub]. by rewrite Hq.
      * intros m. cbn [set_client m_oCurrentRequest update]. rewrite Hnone. by apply conn_good_view.
      * intros k _. cbn [set_client m_oCurrentRequest update]. by rewrite Hnone.
      * intros _. destruct Hcase as [[e ->]|[->|(buf & k & ->)]]; cbn; rewrite ?Ht; try done.
        rewrite length_insert. split; [done|]. by eapply lookup_lt_Some.
    + intros [= <- <- <-] _. apply (fine_ok_same s w ts tid (FReading i)); try done; by intros q [= <-].
  - cbn in Ht. destruct Ht as [Ht Hlt]. destruct (m_oEHSConnectionList s !! i) as [c|] eqn:Hi; [|done].
    unfold buffer_client. destruct (AddBuffer _ _ _ _ _ _) as [[[[o c'] pend] w1]|] eqn:Eb; [|done]. intros [= <- <- <-] Hrej.
    specialize (Hrej _ eq_refl). set (p := match o with Ret _ => _ | Throw e => FCaught e end) in *.
    assert (p = FReading (S i) \/ exists e, p = FCaught e) as Hcase.
    { unfold p, reject_at in *. destruct o as [[]|e]; try done; auto. right. by eexists. }
    assert (o <> Ret ADDBUFFER_NORESOURCE) as Hne by (intros ->; done).
    destruct (AddBuffer_good 0 _ _ _ _ _ _ _ _ _ _ Eb Hne) as (_ & Hc' & Hq).
    { eapply conn_good_le; [apply H2; by eapply list_elem_of_lookup_2|lia]. }
    assert (holds (m_oCurrentRequest s) tid p = None) as Hnone.
    { destruct Hcase as [->|[e ->]]; [done|]. cbn. by rewrite Ht. }
    apply (fine_ok_put s w ts tid (FBuffering i buf n) (conn_this c) c c'); try done.
    + by eapply find_conn_lookup.
    + cbn. by apply insert_update.
    + intros m. cbn [set_client m_oCurrentRequest update]. rewrite Hnone. intros Hg. by eapply AddBuffer_good in Eb as [? _].
    + intros k _. cbn [set_client m_oCurrentRequest update]. by rewrite Hnone.
    + intros _. destruct Hcase as [->|[e ->]]; cbn; by rewrite ?Ht.
Qed.

Lemma other_step_ok s (w : W) ts tid p p' s' w' :
  fine_ok (FConfig s w ts) -> ts !! tid = Some p ->
  match p with FCreated | FRouting _ | FCaught _ | FWaiting | FAnswered | FSelecting => True | _ => False end ->
  run_thread beyond stale 0 tid p s w = Some (p', s', w') -> fine_ok (FConfig s' w' (set_thread tid p' ts)).
Proof using L.
  intros Hok Hp Hk. pose proof Hok as [H1 H2 H3 H4 H5]. cbn [fc_server fc_world fc_threads] in *. pose proof (H3 _ _ Hp) as Ht.
  assert (forall p w1, (forall i, chi (holds (m_oCurrentRequest s) tid p) i <= chi (holds_opt (m_oCurrentRequest s) tid (ts !! tid)) i) ->
    thread_ok s tid p -> is_accepting p = false -> fine_ok (FConfig s w1 (set_thread tid (Some p) ts))) as Hsame.
  { intros q w1 Hq Hqt Hqa. rewrite Hp in Hq. apply (fine_ok_same s w ts tid p); try done; intros x [= <-]; [done|]. by rewrite Hqa. }
  rewrite Hp in Hsame. cbn [holds_opt mbind option_bind] in Hsame.
  destruct p as [| | |req| | | | |e| | | | | |]; try done; cbn [run_thread]; clear Hk.
  - intros [= <- <- <-]. apply (fine_ok_same s w ts tid FCreated); try done; by intros q [= <-].
  - intros [= Hn]. pose proof (next_iteration_ok s s w ts tid FWaiting w Hok Hp eq_refl eq_refl eq_refl (agree_refl _ _) eq_refl) as H.
    by rewrite Hn in H.
  - destruct Ht as [Hcur Hal]. destruct (RouteRequest req w) as [[h|e] w1] eqn:Er; intros [= <- <- <-]; apply Hsame; try done.
    + intros i. cbn. by rewrite (route_answers _ _ _ _ Er).
    + cbn. eexists h, _. split_and!; [done|by eapply route_answers|done].
    + intros i. cbn. by rewrite Hcur.
    + cbn. rewrite Hcur. by intros x [= <-].
  - pose proof (next_iteration_ok s (s <| m_oCurrentRequest ::= delete tid |>) w ts tid FAnswered w Hok Hp) as H.
    intros Hn%(inj Some). rewrite Hn in H. by apply H.
  - destruct (HandleThreadException _ _ _ _) as [[r|] w1] eqn:Ee.
    + apply exception_answers in Ee as (q & h & Hq & -> & Hid). intros [= <- <- <-]. cbn in Ht. apply Hsame; try done.
      * intros i. cbn. by rewrite Hid, Hq.
      * cbn. eexists h, _. split_and!; [done|done|]. by apply Ht.
    + pose proof (next_iteration_ok s (s <| m_nServerRunningStatus := SERVERRUNNING_SHOULDTERMINATE |>
        <| m_nAcceptThreadId := 0%Z |> <| m_oCurrentRequest ::= delete tid |>) w ts tid (FCaught e) w1 Hok Hp) as H.
      intros Hn%(inj Some). rewrite Hn in H. by apply H.
  - unfold select_step, CreateFdSet. cbn in Ht.
    assert (forall fds p w1, p = FClearing \/ p = FAccepting \/ (exists e, p = FCaught e) ->
      fine_ok (FConfig (s <| m_oReadFds := fds |>) w1 (set_thread tid (Some p) ts))) as Hgoal.
    { intros fds p w1 Hcase. apply (fine_ok_same s w ts tid FSelecting); try done.
      - intros i. destruct Hcase as [->|[->|[e ->]]]; cbn; rewrite ?Ht; done.
      - intros q [= <-] _. destruct Hcase as [->|[->|[e ->]]]; cbn; by rewrite ?Ht. }
    destruct (select _ _ _) as [[[|fd fds]|[]] w1]; intros [= <- <- <-]; apply Hgoal; eauto.
Qed.

(** [rnd] matters only where a request is chosen. *)
Lemma run_thread_rnd rnd tid p s (w : W) :
  p <> FIdle -> run_thread beyond stale rnd tid p s w = run_thread beyond stale 0 tid p s w.
Proof using. by destruct p. Qed.

Lemma run_thread_ok rnd s (w : W) ts tid p p' s' w' :
  fine_ok (FConfig s w ts) -> ts !! tid = Some p -> (0 <= rnd <= RAND_MAX)%Z ->
  run_thread beyond stale rnd tid p s w = Some (p', s', w') -> (forall q, p' = Some q -> is_rejecting q = false) ->
  fine_ok (FConfig s' w' (set_thread tid p' ts)).
Proof using L.
  intros Hok Hp Hr Hrun Hq. assert (p = FIdle \/ p <> FIdle) as [->|Hne] by (destruct p; by auto); [by eapply choose_step_ok|].
  rewrite run_thread_rnd in Hrun by done. pose proof (fk_threads _ Hok _ _ Hp) as Ht. cbn [fc_server] in Ht.
  destruct p; try done; solve [by eapply pointer_step_ok|by eapply other_step_ok|by eapply client_step_ok|by eapply accept_step_ok
    |by eapply clear_step_ok].
Qed.

(** A step after which no request is being rejected. *)
Definition quiet_step (c c' : fconfig) : Prop :=
  fstep beyond stale c c' /\ forall t q, fc_threads c' !! t = Some q -> is_rejecting q = false.

Lemma quiet_step_ok c c' : quiet_step c c' -> fine_ok c -> fine_ok c'.
Proof using L.
  intros [Hs Hq] Hok. destruct Hs as [s w ts tid Hin|rnd tid c c' Hr Hs|s w ts].
  - destruct Hok as [H1 H2 H3 H4 H5]. cbn [fc_server fc_world fc_threads] in *.
    assert (forall t q, <[tid := FCreated]> ts !! t = Some q -> q = FCreated \/ ts !! t = Some q) as Hlook.
    { intros t q. rewrite lookup_insert_Some. naive_solver. }
    split; cbn [fc_server fc_world fc_threads]; [by destruct H1; split| | | |].
    + intros x Hx. rewrite (holders_insert tid (m_oCurrentRequest s)) by done. cbn [holds]. rewrite chi_none.
      rewrite delete_id by done. by apply H2.
    + intros t q [->|Hq']%Hlook; [done|by apply (H3 t q)].
    + intros t1 t2 p1 p2 [->|E1]%Hlook [->|E2]%Hlook; [done..|by eapply H4].
    + intros t q [->|Hq']%Hlook; [done|by eapply H5].
  - destruct c as [s w ts]. unfold step_thread in Hs. cbn [fc_server fc_world fc_threads] in Hs.
    destruct (ts !! tid) as [p|] eqn:Hp; cbn in Hs; [|done].
    destruct (run_thread beyond stale rnd tid p s w) as [[[p' s'] w']|] eqn:Hrun; cbn in Hs; [|done]. injection Hs as <-.
    apply (run_thread_ok rnd s w ts tid p p' s' w' Hok Hp Hr Hrun). intros q ->. apply (Hq tid). cbn. by rewrite lookup_insert_eq.
  - by destruct Hok as [[? ? ?] H2 H3 H4 H5].
Qed.

Lemma run_thread_defined c tid p rnd :
  fine_ok c -> fc_threads c !! tid = Some p -> (forall id, p <> FSent id) ->
  is_Some (run_thread beyond stale rnd tid p (fc_server c) (fc_world c)).
Proof using.
  destruct c as [s w ts]. intros [H1 _ H3 _ _] Hp Hsent. cbn [fc_server fc_world fc_threads] in *. pose proof (H3 _ _ Hp) as Ht.
  assert (forall id f, alive id s -> is_Some (with_conn (W := W) id s f)) as Hwith.
  { intros id f Hal. unfold with_conn. destruct (find_conn_Some _ _ Hal) as [c ->]. destruct (f c) as [[q c'] w1]. by eexists. }
  destruct p as [| | |req|r|k id r sp|id| |e| | |i|i buf n| |]; cbn [run_thread].
  - by eexists.
  - destruct (choose_job _ _ _). by eexists.
  - by eexists.
  - destruct (RouteRequest _ _) as [[]]; by eexists.
  - destruct Ht as (h & id & -> & Hid & Hal). cbn [response_base]. rewrite Hid. by apply Hwith.
  - destruct Ht as (_ & _ & Hal). by apply Hwith.
  - by destruct (Hsent id).
  - by eexists.
  - destruct (HandleThreadException _ _ _ _) as [[]]; by eexists.
  - destruct (select_step _ _) as [[]]. by eexists.
  - destruct (CheckAcceptSocket _ _) as [[[]]]; by eexists.
  - destruct (_ !! i) as [c|]; [|by eexists]. destruct (read_client _ _ _ _) as [[]]. by eexists.
  - destruct Ht as [_ Hi]. destruct (lookup_lt_is_Some_2 _ _ Hi) as [c ->]. unfold buffer_client.
    destruct (AddBuffer_total (m_nServerRunningStatus s) buf n c (m_nRequestsPending s) w) as (o & c' & p' & w' & -> & _). by eexists.
  - done.
  - destruct (end_accepting_ok s w H1) as (o & s' & w' & -> & _ & _ & -> & _). by eexists.
Qed.

(** C23: as long as no request is rejected, whatever the threads do and in whatever order:
    no thread uses a connection that has been deleted, except behind [SendResponse]; the
    connection of a request that is being handled, or whose response is being sent, is in
    the list and counts it; no two threads are accepting; and between two steps the queue
    of responses of a connection is empty. *)
Theorem connections_outlive_requests s (w : W) c tid p rnd :
  server_ok s -> m_oEHSConnectionList s = [] -> rtc quiet_step (FConfig s w ∅) c ->
  fc_threads c !! tid = Some p ->
  ((forall id, p <> FSent id) -> is_Some (run_thread beyond stale rnd tid p (fc_server c) (fc_world c))) /\
  (forall id, holds (m_oCurrentRequest (fc_server c)) tid p = Some id ->
     exists x, find_conn id (m_oEHSConnectionList (fc_server c)) = Some x /\ (1 <= m_nActiveRequests x)%Z) /\
  (is_accepting p = true -> forall t q, fc_threads c !! t = Some q -> is_accepting q = true -> t = tid) /\
  (forall x, x ∈ m_oEHSConnectionList (fc_server c) -> m_oResponseQueue x = []).
Proof using L.
  intros Hs Hl Hr Hp.
  assert (fine_ok (FConfig s w ∅)) as H0.
  { split; cbn [fc_server fc_world fc_threads]; [done| |done..]. intros x. rewrite Hl. by intros ?%elem_of_nil. }
  assert (fine_ok c) as Hok by (clear Hp Hs Hl; induction Hr; eauto using quiet_step_ok). clear H0.
  pose proof Hok as [H1 H2 H3 H4 H5]. split_and!.
  - intros Hsent. by apply run_thread_defined.
  - intros id Hh. destruct (find_conn_Some id _ (holds_alive _ _ _ _ (H3 _ _ Hp) Hh)) as [x Hx]. exists x. split; [done|].
    apply find_conn_spec in Hx as [Hx <-]. destruct (H2 x Hx) as [_ _ _ _ Ha].
    rewrite (holders_split tid _ _ (fc_threads c) p), Hh, chi_self in Ha by done. lia.
  - intros Ha t q Hq Haq. by eapply H4.
  - intros x Hx. by destruct (H2 x Hx).
Qed.

(** ** One thread alone

    The steps of one thread without those of others are the functions of Connection and
    Server. *)
Lemma put_same id c s : find_conn id (m_oEHSConnectionList s) = Some c -> put id c s = s.
Proof using.
  intros Hc. unfold put. assert (update_conn id (fun _ => c) (m_oEHSConnectionList s) = m_oEHSConnectionList s) as Hu.
  { induction (m_oEHSConnectionList s) as [|x l IH]; [done|]. cbn [find_conn update_conn] in *. case_decide; [by injection Hc as ->|].
    by rewrite IH. }
  cbn. rewrite Hu. by destruct s.
Qed.

Lemma put_put id c1 c2 s : conn_this c1 = id -> put id c2 (put id c1 s) = put id c2 s.
Proof using.
  intros Hc. unfold put. cbn. f_equal. induction (m_oEHSConnectionList s) as [|x l IH]; [done|]. cbn [update_conn].
  case_decide as Hd; cbn [update_conn]; [by rewrite decide_True by done|]. by rewrite decide_False, IH by done.
Qed.

Lemma find_put id c s : conn_this c = id -> alive id s -> find_conn id (m_oEHSConnectionList (put id c s)) = Some c.
Proof using.
  unfold alive, put. cbn. intros Hc. induction (m_oEHSConnectionList s) as [|x l IH]; [by intros ?%elem_of_nil|].
  rewrite fmap_cons, elem_of_cons. intros Hal. cbn [update_conn]. case_decide as Hd; cbn [find_conn].
  - by rewrite decide_True by done.
  - rewrite decide_False by done. apply IH. by destruct Hal.
Qed.

Lemma find_alive id c s : find_conn id (m_oEHSConnectionList s) = Some c -> alive id s.
Proof using. intros [Hc <-]%find_conn_spec. by apply list_elem_of_fmap_2. Qed.

Lemma alone_step rnd tid p p' s s' (w w' : W) ts :
  (0 <= rnd <= RAND_MAX)%Z -> run_thread beyond stale rnd tid p s w = Some (Some p', s', w') ->
  fstep beyond stale (FConfig s w (<[tid := p]> ts)) (FConfig s' w' (<[tid := p']> ts)).
Proof using.
  intros Hr Hs. eapply (fstep_run _ _ rnd tid); [done|]. unfold step_thread. cbn. rewrite lookup_insert_eq. cbn.
  rewrite Hs. cbn. by rewrite insert_insert_eq.
Qed.

(** A step on the connection [c], which is the one at [id]. *)
Lemma conn_step tid p p' id f c c' s (w w' : W) ts :
  (forall s, run_thread beyond stale 0 tid p s w = with_conn id s f) ->
  conn_this c = id -> alive id s -> f c = (p', c', w') -> conn_this c' = id ->
  fstep beyond stale (FConfig (put id c s) w (<[tid := p]> ts)) (FConfig (put id c' s) w' (<[tid := p']> ts)).
Proof using.
  intros Hrun Hc Hal Hf Hc'. apply (alone_step 0); [by unfold RAND_MAX|]. rewrite Hrun. unfold with_conn.
  rewrite find_put by done. rewrite Hf. do 3 f_equal. by apply put_put.
Qed.

Lemma send_alone k id r tid c s (w : W) ts :
  conn_this c = id -> alive id s ->
  let '(c', w') := SendResponse has_RawSocketHandler beyond r c w in
  conn_this c' = id /\
  rtc (fstep beyond stale) (FConfig (put id c s) w (<[tid := FSending k id r SStart]> ts))
    (FConfig (put id c' s) w' (<[tid := after_send k id]> ts)).
Proof using.
  intros Hc Hal.
  assert (forall sp c p' c' w w', conn_this c = id -> conn_this c' = id -> send_step beyond k id r sp w c = (p', c', w') ->
    fstep beyond stale (FConfig (put id c s) w (<[tid := FSending k id r sp]> ts)) (FConfig (put id c' s) w' (<[tid := p']> ts)))
    as Hstep.
  { intros sp c0 p' c' w0 w' Hc0 Hc' Hs. by eapply (conn_step tid _ p' id (send_step beyond k id r sp w0) c0 c'). }
  unfold SendResponse. destruct r as [g|h].
  - destruct (Disconnected c) eqn:Hd.
    + split; [done|]. apply rtc_once. apply Hstep; try done. cbn. unfold send_start. by rewrite Hd.
    + case_bool_decide as Hb.
      * destruct (na_Send _ _ w) as [n w1] eqn:Es. split; [by destruct (n =? -1)%Z|].
        eapply rtc_l; [apply Hstep; [done..|cbn; unfold send_start; by rewrite Hd]|].
        eapply rtc_l; [apply Hstep; [done|done|]; cbn; rewrite bool_decide_eq_true_2 by done; by rewrite Es|].
        apply rtc_once. apply Hstep; [done|by destruct (n =? -1)%Z|done].
      * split; [done|].
        eapply rtc_l; [apply Hstep; [done..|cbn; unfold send_start; by rewrite Hd]|].
        eapply rtc_l; [apply (Hstep SHead c (FSending k id (Generic g) (SCount 0)) (DoneReading false c) w w); [done|done|]; cbn; by rewrite bool_decide_eq_false_2 by done|].
        apply rtc_once. by apply Hstep.
  - destruct (Disconnected c) eqn:Hd.
    + split; [done|]. apply rtc_once. apply Hstep; try done. cbn. unfold send_start. by rewrite Hd.
    + destruct (na_Send _ _ w) as [n w1] eqn:Es. fold (force_close h).
      destruct (negb (n =? -1)%Z && bool_decide (m_nResponseCode h = HTTPRESPONSECODE_101_SWITCHING_PROTOCOLS)) eqn:Esw.
      * split; [done|]. apply andb_true_iff in Esw as [Hn H101].
        eapply rtc_l; [apply Hstep; [done..|cbn; unfold send_start; by rewrite Hd]|].
        eapply rtc_l; [apply (Hstep SHead c (FSending k id (Http h) (SSwitch n)) c w w1); [done..|unfold send_step, send_head; by rewrite Es, Hn, H101]|].
        eapply rtc_l; [apply (Hstep (SSwitch n) c (FSending k id (Http h) (SCount n)) (c <| m_bRawMode := true |>) w1
          (if has_RawSocketHandler then rsh_OnConnect (conn_this c) w1 else w1)); [done..|reflexivity]|].
        apply rtc_once. apply Hstep; [done..|]. cbn. apply bool_decide_eq_true in H101.
        unfold force_close. rewrite H101, (bool_decide_eq_false_2 (_ <> _)) by auto. rewrite andb_false_r.
        apply negb_true_iff in Hn. by rewrite Hn.
      * split; [by destruct (_ || _)|].
        eapply rtc_l; [apply Hstep; [done..|cbn; unfold send_start; by rewrite Hd]|].
        eapply rtc_l; [apply (Hstep SHead c (FSending k id (Http h) (SBody n)) c w w1); [done..|unfold send_step, send_head; by rewrite Es, Esw]|].
        eapply rtc_l; [apply (Hstep (SBody n) c (FSending k id (Http h) (SCount n)) c w1 (send_body beyond (Http h) n c w1)); [done..|reflexivity]|].
        apply rtc_once. apply Hstep; [done|by destruct (_ || _)|reflexivity].
Qed.

Lemma SendResponse_queue rsh r c (w : W) : m_oResponseQueue (SendResponse rsh beyond r c w).1 = m_oResponseQueue c.
Proof using.
  unfold SendResponse. destruct r as [g|h].
  - destruct (Disconnected c); [done|]. case_bool_decide; [|done]. destruct (na_Send _ _ _) as [n w1]. by destruct (n =? -1)%Z.
  - destruct (Disconnected c); [done|]. destruct (na_Send _ _ _) as [n w1]. destruct (_ && bool_decide _); [done|]. by destruct (_ || _).
Qed.

Lemma queue_alone q r id tid c s (w : W) ts :
  conn_this c = id -> alive id s ->
  let '(c', w') := send_queue has_RawSocketHandler beyond (r :: q) c w in
  conn_this c' = id /\
  rtc (fstep beyond stale) (FConfig (put id (c <| m_oResponseQueue := q |>) s) w (<[tid := FSending ToQueue id r SStart]> ts))
    (FConfig (put id c' s) w' (<[tid := FAnswered]> ts)).
Proof using.
  revert r c w. induction q as [|r2 q IH]; intros r c w Hc Hal; cbn [send_queue];
    set (c0 := c <| m_oResponseQueue := _ |>); assert (conn_this c0 = id) as Hc0 by done;
    pose proof (send_alone ToQueue id r tid c0 s w ts Hc0 Hal) as Hsend;
    pose proof (SendResponse_queue has_RawSocketHandler r c0 w) as Hq;
    destruct (SendResponse has_RawSocketHandler beyond r c0 w) as [c1 w1]; destruct Hsend as [Hc1 Hsend]; cbn [fst] in Hq.
  - split; [done|]. etrans; [exact Hsend|]. apply rtc_once.
    apply (conn_step tid (FSent id) FAnswered id (fun c => pop_response id (UpdateLastActivity w1 c) w1)); try done.
    unfold pop_response. cbn. by rewrite Hq.
  - pose proof (IH r2 (UpdateLastActivity w1 c1) w1 Hc1 Hal) as IH2. cbn [send_queue] in IH2.
    destruct (SendResponse _ _ _ _ w1) as [c2 w2]. destruct (send_queue _ _ q _ w2) as [c3 w3]. destruct IH2 as [Hc3 IH2].
    split; [done|]. etrans; [exact Hsend|]. eapply rtc_l; [|exact IH2].
    apply (conn_step tid (FSent id) _ id (fun c => pop_response id (UpdateLastActivity w1 c) w1)); try done.
    unfold pop_response. cbn. by rewrite Hq.
Qed.

Lemma add_alone r tid s (w : W) ts s' w' :
  srv_AddResponse beyond r s w = (Ret tt, s', w') ->
  rtc (fstep beyond stale) (FConfig s w (<[tid := FAdding r]> ts)) (FConfig s' w' (<[tid := FAnswered]> ts)).
Proof using.
  unfold srv_AddResponse. destruct (m_poEHSConnection _) as [id|] eqn:Hid; [|done].
  destruct (find_conn id _) as [c|] eqn:Hf; [|done]. destruct (find_conn_spec _ _ _ Hf) as [_ Hc]. unfold conn_AddResponse.
  set (c0 := c <| m_oResponseQueue ::= _ |>). destruct (m_oResponseQueue c0) as [|r1 q] eqn:Hq.
  { exfalso. unfold c0 in Hq. cbn in Hq. by destruct (m_oResponseQueue c). }
  pose proof (queue_alone q r1 id tid c0 s w ts Hc (find_alive _ _ _ Hf)) as Hal.
  destruct (send_queue _ _ (r1 :: q) c0 w) as [c' w1]. destruct Hal as [_ Hal]. intros [= <- <-].
  rewrite <- (put_same id c s Hf) at 1. eapply rtc_l; [|exact Hal].
  apply (conn_step tid (FAdding r) _ id (fun c => pop_response id (c <| m_oResponseQueue ::= fun q => q ++ [r] |>) w)); try done.
  - intros s0. cbn [run_thread]. by rewrite Hid.
  - by eapply find_alive.
  - unfold pop_response. cbn. unfold c0 in Hq. cbn in Hq. by rewrite Hq.
Qed.

(** Threads and their counters in the coarse semantics. *)
Definition fine_pc (p : pc) : fpc :=
  match p with
  | Created => FCreated
  | Idle => FIdle
  | Handling req => FRouting req
  | Waiting => FWaiting
  | Accepting => FSelecting
  end.
Definition fine_config (c : config (W := W)) : fconfig := FConfig (cf_server c) (cf_world c) (fine_pc <$> cf_threads c).

Lemma iteration_alone rnd tid p s s' (w w' : W) ts ts' :
  (0 <= rnd <= RAND_MAX)%Z -> run_thread beyond stale rnd tid p s w = Some (next_iteration tid s' w') -> ts !! tid = Some p ->
  delete tid ts = fine_pc <$> delete tid ts' ->
  fstep beyond stale (FConfig s w ts)
    (fine_config (next_round tid s' w' ts')).
Proof using.
  intros Hr Hs Hp Hts. eapply (fstep_run _ _ rnd tid); [done|]. unfold step_thread. cbn. rewrite Hp. cbn. rewrite Hs. cbn.
  unfold next_iteration, fine_config, next_round. destruct (keep_running tid s'); cbn; do 2 f_equal.
  - by rewrite <- insert_delete_eq, Hts, <- (insert_delete_eq ts'), fmap_insert.
  - exact Hts.
Qed.

(** The server after the work on the connection at a position. *)
Definition client_done (i : nat) (c : EHSConnection) (pending : Z) (s : EHSServer) : EHSServer :=
  s <| m_oEHSConnectionList ::= <[i := c]> |> <| m_nRequestsPending := pending |>.

Lemma client_put i c c1 c2 pending s :
  distinct_conns s -> m_oEHSConnectionList s !! i = Some c -> conn_this c1 = conn_this c -> conn_this c2 = conn_this c ->
  put (conn_this c) c2 (client_done i c1 pending s) = client_done i c2 pending s /\
  find_conn (conn_this c) (m_oEHSConnectionList (client_done i c1 pending s)) = Some c1.
Proof using.
  intros Hd Hi Hc1 Hc2. pose proof (lookup_lt_Some _ _ _ Hi) as Hlt.
  assert (<[i := c1]> (m_oEHSConnectionList s) !! i = Some c1) as Hi1 by by apply list_lookup_insert_eq.
  assert (NoDup (conn_this <$> <[i := c1]> (m_oEHSConnectionList s))) as Hd1.
  { rewrite list_fmap_insert, list_insert_id; [done|]. by rewrite list_lookup_fmap, Hi, Hc1. }
  split.
  - unfold put, client_done. cbn. f_equal. rewrite <- Hc1, <- (insert_update _ i c1) by done. apply list_insert_insert_eq.
  - unfold client_done. cbn. rewrite <- Hc1. by eapply find_conn_lookup.
Qed.

Lemma reject_alone tid i code c c1 pending s (w : W) ts :
  distinct_conns s -> m_oEHSConnectionList s !! i = Some c -> conn_this c1 = conn_this c ->
  let '(c2, w2) := reject beyond stale code c1 w in
  rtc (fstep beyond stale) (FConfig (client_done i c1 pending s) w (<[tid := reject_at stale i code c1 w]> ts))
    (FConfig (client_done i c2 pending s) w2 (<[tid := FReading (S i)]> ts)).
Proof using.
  intros Hd Hi Hc1. unfold reject, reject_at. set (r := Http (Error _ _ _ _ _)).
  destruct (client_put i c c1 c1 pending s Hd Hi Hc1 Hc1) as [Hp1 Hf1].
  pose proof (send_alone (ToReject i) (conn_this c) r tid c1 (client_done i c1 pending s) w ts Hc1 (find_alive _ _ _ Hf1)) as Hsend.
  destruct (SendResponse _ _ _ c1 w) as [c2 w2]. destruct Hsend as [Hc2 Hsend]. rewrite (put_same _ _ _ Hf1) in Hsend.
  rewrite Hc1. etrans; [exact Hsend|]. apply rtc_once.
  destruct (client_put i c c1 (DoneReading false c2) pending s Hd Hi Hc1 Hc2) as [<- _].
  apply (conn_step tid (FRejected i (conn_this c)) _ (conn_this c) (fun c => (FReading (S i), DoneReading false c, w2))); try done.
  by eapply find_alive.
Qed.

Lemma check_client_alone tid i s c (w : W) ts o c' p' w' :
  distinct_conns s -> m_oEHSConnectionList s !! i = Some c -> check_client beyond stale s c w = Some (o, c', p', w') ->
  rtc (fstep beyond stale) (FConfig s w (<[tid := FReading i]> ts))
    (FConfig (client_done i c' p' s) w' (<[tid := match o with Ret _ => FReading (S i) | Throw e => FCaught e end]> ts)).
Proof using.
  intros Hd Hi.
  assert (forall p c1 w1, read_client i s c w = (p, c1, w1) ->
    fstep beyond stale (FConfig s w (<[tid := FReading i]> ts))
      (FConfig (client_done i c1 (m_nRequestsPending s) s) w1 (<[tid := p]> ts))) as Hread.
  { intros p c1 w1 Hc. apply (alone_step 0); [by unfold RAND_MAX|]. cbn [run_thread]. rewrite Hi, Hc. by destruct s. }
  unfold check_client. unfold read_client in Hread. destruct (FD_ISSET _ _).
  2:{ intros [= <- <- <- <-]. by apply rtc_once, Hread. }
  destruct (na_Read _ _ _) as [[n buf] w1]. destruct (IsRaw c).
  { destruct (n <? 0)%Z; [intros [= <- <- <- <-]; by apply rtc_once, Hread|].
    destruct (_ && _); [|intros [= <- <- <- <-]; by apply rtc_once, Hread].
    destruct (rsh_OnData _ _ _) as [[[]|e] w2]; intros [= <- <- <- <-]; by apply rtc_once, Hread. }
  destruct (n <=? 0)%Z; [intros [= <- <- <- <-]; by apply rtc_once, Hread|].
  specialize (Hread _ _ _ eq_refl). assert (client_done i c (m_nRequestsPending s) s = s) as Hsame.
  { unfold client_done. cbn. rewrite list_insert_id by done. by destruct s. }
  rewrite Hsame in Hread. destruct (AddBuffer_total (m_nServerRunningStatus s) buf n c (m_nRequestsPending s) w1)
    as (o1 & c1 & p1 & w2 & Eb & _ & Hc1). rewrite Eb.
  assert (forall p, buffer_client stale i buf n s c w1 = Some (p, c1, p1, w2) ->
    rtc (fstep beyond stale) (FConfig s w (<[tid := FReading i]> ts)) (FConfig (client_done i c1 p1 s) w2 (<[tid := p]> ts))) as Hbuf.
  { intros p Hb. eapply rtc_l; [exact Hread|]. apply rtc_once. apply (alone_step 0); [by unfold RAND_MAX|]. cbn [run_thread].
    by rewrite Hi, Hb. }
  unfold buffer_client in Hbuf. rewrite Eb in Hbuf. specialize (Hbuf _ eq_refl).
  destruct o1 as [[]|e]; try (intros [= <- <- <- <-]; exact Hbuf).
  all: match type of Hbuf with context [reject_at _ _ ?code _ _] =>
    pose proof (reject_alone tid i code c c1 p1 s w2 ts Hd Hi Hc1) as Hrej; destruct (reject beyond stale code c1 w2) as [c2 w3] end.
  all: intros [= <- <- <- <-]; etrans; [exact Hbuf|exact Hrej].
Qed.

Lemma check_clients_alone n tid i s (w : W) ts o s' w' :
  distinct_conns s -> i + n = length (m_oEHSConnectionList s) -> check_clients beyond stale n i s w = Some (o, s', w') ->
  rtc (fstep beyond stale) (FConfig s w (<[tid := FReading i]> ts))
    (FConfig s' w' (<[tid := match o with Ret _ => FClearing | Throw e => FCaught e end]> ts)).
Proof using.
  revert i s w. induction n as [|n IH]; intros i s w Hd Hn; cbn [check_clients].
  - intros [= <- <- <-]. apply rtc_once, (alone_step 0); [by unfold RAND_MAX|]. cbn [run_thread].
    by rewrite lookup_ge_None_2 by lia.
  - destruct (lookup_lt_is_Some_2 (m_oEHSConnectionList s) i) as [c Hi]; [lia|]. rewrite Hi.
    destruct (check_client_spec beyond stale s c w) as (o1 & c1 & p1 & w1 & E1 & _ & Hc1). rewrite E1.
    pose proof (check_client_alone tid i s c w ts o1 c1 p1 w1 Hd Hi E1) as Hone.
    destruct o1 as [u|e]; [|by intros [= <- <- <-]].
    intros Hrest. etrans; [exact Hone|]. apply (IH (S i) (client_done i c1 p1 s) w1); [| |exact Hrest].
    + unfold distinct_conns, client_done in *. cbn. rewrite list_fmap_insert, list_insert_id; [done|].
      by rewrite list_lookup_fmap, Hi, Hc1.
    + unfold client_done. cbn. rewrite length_insert. lia.
Qed.

(** The accepting phase up to the last critical section, or to an exception. *)
Lemma accept_alone tid s (w : W) ts o s' w' :
  server_ok s -> accept_and_read beyond stale 1000 s w = Some (o, s', w') ->
  match o with
  | Ret _ => exists s1 w1, end_accepting s1 w1 = Some (Ret tt, s', w') /\
      rtc (fstep beyond stale) (FConfig s w (<[tid := FSelecting]> ts)) (FConfig s1 w1 (<[tid := FClearing]> ts))
  | Throw e => rtc (fstep beyond stale) (FConfig s w (<[tid := FSelecting]> ts)) (FConfig s' w' (<[tid := FCaught e]> ts))
  end.
Proof using.
  intros Hok.
  assert (forall p s1 w1, select_step s w = (p, s1, w1) ->
    fstep beyond stale (FConfig s w (<[tid := FSelecting]> ts)) (FConfig s1 w1 (<[tid := p]> ts))) as Hsel.
  { intros p s1 w1 Hs. apply (alone_step 0); [by unfold RAND_MAX|]. cbn [run_thread]. by rewrite Hs. }
  unfold accept_and_read. unfold select_step in Hsel. destruct (CreateFdSet s w) as [hi s0] eqn:Ec.
  assert (server_ok s0) as Hok0 by (unfold CreateFdSet in Ec; injection Ec as _ <-; by destruct Hok; split).
  assert (forall s1 w1, server_ok s1 -> fstep beyond stale (FConfig s w (<[tid := FSelecting]> ts)) (FConfig s1 w1 (<[tid := FClearing]> ts)) ->
    end_accepting s1 w1 = Some (o, s', w') ->
    match o with
    | Ret _ => exists s1 w1, end_accepting s1 w1 = Some (Ret tt, s', w') /\
        rtc (fstep beyond stale) (FConfig s w (<[tid := FSelecting]> ts)) (FConfig s1 w1 (<[tid := FClearing]> ts))
    | Throw e => rtc (fstep beyond stale) (FConfig s w (<[tid := FSelecting]> ts)) (FConfig s' w' (<[tid := FCaught e]> ts))
    end) as Hend.
  { intros s1 w1 Hok1 Hstep He. destruct (end_accepting_ok s1 w1 Hok1) as (o1 & s2 & w2 & E1 & _ & _ & -> & _).
    rewrite E1 in He. injection He as <- <- <-. exists s1, w1. split; [done|]. by apply rtc_once. }
  destruct (select (m_oReadFds s0) 1000 w) as [[fds|[]] w1].
  - destruct fds as [|fd fds].
    + apply Hend; [by destruct Hok0; split|]. by apply Hsel.
    + specialize (Hsel _ _ _ eq_refl). set (s1 := s0 <| m_oReadFds := fd :: fds |>) in *.
      assert (server_ok s1) as Hok1 by by destruct Hok0; split.
      destruct (CheckAcceptSocket_ok s1 w1 Hok1) as (o2 & s2 & w2 & E2 & Hok2 & _). rewrite E2.
      assert (forall p, match o2 with Ret _ => FReading 0 | Throw e => FCaught e end = p ->
        fstep beyond stale (FConfig s1 w1 (<[tid := FAccepting]> ts)) (FConfig s2 w2 (<[tid := p]> ts))) as Hacc.
      { intros p <-. apply (alone_step 0); [by unfold RAND_MAX|]. cbn [run_thread]. rewrite E2. by destruct o2. }
      specialize (Hacc _ eq_refl). destruct o2 as [u|e].
      2:{ intros [= <- <- <-]. eapply rtc_l; [exact Hsel|]. by apply rtc_once. }
      unfold CheckClientSockets.
      destruct (check_clients_spec beyond stale (length (m_oEHSConnectionList s2)) 0 s2 w2) as (o3 & s3 & w3 & E3 & Hb). rewrite E3.
      pose proof (check_clients_alone _ tid 0 s2 w2 ts o3 s3 w3 (so_distinct _ _ Hok2) eq_refl E3) as Hcl.
      destruct o3 as [u3|e].
      * intros He. destruct (end_accepting_ok s3 w3 (books_ok_same _ _ Hb Hok2)) as (o4 & s4 & w4 & E4 & _ & _ & -> & _).
        rewrite E4 in He. injection He as <- <- <-. exists s3, w3. split; [done|].
        eapply rtc_l; [exact Hsel|]. by eapply rtc_l.
      * intros [= <- <- <-]. eapply rtc_l; [exact Hsel|]. by eapply rtc_l.
  - apply Hend; [done|]. by apply Hsel.
  - intros [= <- <- <-]. apply rtc_once. by apply Hsel.
Qed.

(** What a thread does with an exception. *)
Lemma exception_alone tid e s (w : W) ts ts' c :
  ts !! tid = Some (FCaught e) -> delete tid ts = fine_pc <$> delete tid ts' ->
  after_HandleData beyond tid (Throw e) s w ts' = Some c -> rtc (fstep beyond stale) (FConfig s w ts) (fine_config c).
Proof using.
  intros Hp Hts (s3 & w3 & Ex & ->)%after_throw. unfold thread_exception in Ex.
  destruct (HandleThreadException tid _ e w) as [[r|] w1] eqn:Eh.
  - destruct (srv_AddResponse beyond r s w1) as [[o s2] w2] eqn:Ea. injection Ex as -> <- <-.
    assert (ts = <[tid := FCaught e]> ts) as Hts1 by by rewrite insert_id.
    rewrite Hts1. eapply rtc_l; [apply (alone_step 0 tid _ (FAdding r) s s w w1); [by unfold RAND_MAX|by cbn [run_thread]; rewrite Eh]|].
    etrans; [by eapply add_alone|]. apply rtc_once.
    apply (iteration_alone 0 tid FAnswered); [by unfold RAND_MAX|done|by rewrite lookup_insert_eq|by rewrite delete_insert_eq].
  - injection Ex as <- <-. apply rtc_once.
    apply (iteration_alone 0 tid (FCaught e)); [by unfold RAND_MAX|by cbn [run_thread]; rewrite Eh|done|done].
Qed.

(** Every step of the coarse interleavings of Threads, in which a thread runs from one
    release of the server mutex to the next, is a run of the fine ones: what Threads can
    reach can be reached here. *)
Lemma coarse_steps_are_runs (c c' : config (W := W)) :
  config_ok c -> step beyond stale c c' -> rtc (fstep beyond stale) (fine_config c) (fine_config c').
Proof using.
  intros (Hok & _ & _) Hs.
  assert (forall s (w : W) ts tid p, ts !! tid = Some p -> fine_config (Config s w ts) = FConfig s w (<[tid := fine_pc p]> (fine_pc <$> ts))) as Hins.
  { intros s w ts tid p Hp. unfold fine_config. cbn. rewrite insert_id; [done|]. by rewrite lookup_fmap, Hp. }
  destruct Hs as [s w ts tid Hin|s w ts tid Hin|s w ts tid rnd j s' Hin Hr Hj|s w ts tid req o s' w' c Hin Hh Ha
    |s w ts tid o s' w' c Hin Hh Ha|s w ts tid c Hin Ha|s w ts]; cbn [cf_server cf_world cf_threads] in *.
  - apply rtc_once. unfold fine_config. cbn. rewrite fmap_insert. apply fstep_start. by rewrite lookup_fmap, Hin.
  - apply rtc_once. rewrite (Hins _ _ _ _ _ Hin). unfold fine_config. cbn. rewrite fmap_insert.
    by apply (alone_step 0); [by unfold RAND_MAX|].
  - apply rtc_once. rewrite (Hins _ _ _ _ _ Hin). unfold fine_config. cbn. rewrite fmap_insert.
    apply (alone_step rnd); [done|]. cbn [run_thread fine_pc]. rewrite Hj. by destruct j.
  - rewrite (Hins _ _ _ _ _ Hin). cbn [fine_pc]. unfold handle_request in Hh.
    destruct (RouteRequest req w) as [[h|e] w1] eqn:Er.
    + destruct (srv_AddResponse beyond (Http h) s w1) as [[[[]|e] s2] w2] eqn:Es; injection Hh as <- <- <-.
      2:{ exfalso. assert (exists what, e = Undefined what) as [what ->]; [|done]. unfold srv_AddResponse in Es.
          repeat case_match; simplify_eq; by eexists. }
      apply after_return in Ha as ->.
      eapply rtc_l; [apply (alone_step 0 tid _ (FAdding (Http h)) s s w w1); [by unfold RAND_MAX|by cbn [run_thread]; rewrite Er]|].
      etrans; [by eapply add_alone|]. apply rtc_once.
      apply (iteration_alone 0 tid FAnswered); [by unfold RAND_MAX|done|by rewrite lookup_insert_eq|].
      by rewrite delete_insert_eq, fmap_delete.
    + injection Hh as <- <- <-.
      eapply rtc_l; [apply (alone_step 0 tid _ (FCaught e) s s w w1); [by unfold RAND_MAX|by cbn [run_thread]; rewrite Er]|].
      eapply exception_alone; [by rewrite lookup_insert_eq| |exact Ha]. by rewrite delete_insert_eq, fmap_delete.
  - rewrite (Hins _ _ _ _ _ Hin). cbn [fine_pc]. pose proof (accept_alone tid s w (fine_pc <$> ts) o s' w' Hok Hh) as Hac.
    destruct o as [[]|e].
    + destruct Hac as (s1 & w1 & He & Hac). etrans; [exact Hac|]. apply rtc_once. apply after_return in Ha as ->.
      apply (iteration_alone 0 tid FClearing); [by unfold RAND_MAX|by cbn [run_thread]; rewrite He|by rewrite lookup_insert_eq|].
      by rewrite delete_insert_eq, fmap_delete.
    + etrans; [exact Hac|]. eapply exception_alone; [by rewrite lookup_insert_eq| |exact Ha]. by rewrite delete_insert_eq, fmap_delete.
  - apply rtc_once. apply after_return in Ha as ->.
    apply (iteration_alone 0 tid FWaiting); [by unfold RAND_MAX|done| |by rewrite fmap_delete]. cbn. by rewrite lookup_fmap, Hin.
  - apply rtc_once, fstep_end.
Qed.
End facts.
