(* ===== verification/InterleaveBooks.v ===== *)
(** * What every interleaving keeps

    The books of the server, who is accepting, and which threads are counted, over all the
    fine interleavings of Interleave, those in which requests are rejected included; and
    when a thread cannot take its step. *)
From S2P Require Import Prelude Boost StdMap Datum EhsTypes HttpRequest HttpResponse Network Connection.
From S2P Require Import HttpRequestFacts HttpRequestProps HttpRender ConnectionFacts Server ServerFacts Threads Interleave.
From S2P Require Import Ehs EhsFacts InterleaveFacts.

(** ** Definitions *)
Definition is_fcreated (p : fpc) : bool := if p is FCreated then true else false.
Definition accepting_opt (p : option fpc) : bool := if p is Some p then is_accepting p else false.

(** The connection a thread is about to use through a pointer that it has kept. *)
Definition uses (p : fpc) : option conn_id :=
  match p with
  | FAdding r => m_poEHSConnection (response_base r)
  | FSending _ id _ _ | FSent id | FRejected _ id => Some id
  | _ => None
  end.

(** The thread has no connection to use: the pointer is null, or its object is gone. *)
Definition dangles (s : EHSServer) (p : fpc) : Prop :=
  match uses p with
  | Some id => ~ alive id s
  | None => exists r, p = FAdding r
  end.

Section books.
Context {W : Type} {E : Env W} {A : App W} {B : Boost}.
Variables (beyond stale : bytes).

Record fine_books (c : fconfig (W := W)) : Prop := {
  fb_books : server_ok (fc_server c);
  fb_acceptor t1 t2 p1 p2 : fc_threads c !! t1 = Some p1 -> fc_threads c !! t2 = Some p2 ->
    is_accepting p1 = true -> is_accepting p2 = true -> t1 = t2;
  fb_flag t p : fc_threads c !! t = Some p -> is_accepting p = true -> m_bAccepting (fc_server c) = true;
  fb_range t i buf n : fc_threads c !! t = Some (FBuffering i buf n) -> i < length (m_oEHSConnectionList (fc_server c));
  fb_counted : m_nThreads (fc_server c) = Z.of_nat (size (counted is_fcreated (fc_threads c)))
}.

(** What a step of a thread does to these books. *)
Record effect (p : fpc) (s : EHSServer) (p' : option fpc) (s' : EHSServer) : Prop := {
  ef_books : server_ok s';
  ef_threads : m_nThreads s' = (m_nThreads s + (if is_fcreated p then 1 else 0) - (if p' is None then 1 else 0))%Z;
  ef_created : p' <> Some FCreated;
  ef_running : p = FCreated -> p' <> None;
  ef_flag : match is_accepting p, accepting_opt p' with
            | true, true => m_bAccepting s' = m_bAccepting s
            | true, false => True
            | false, true => m_bAccepting s = false /\ m_bAccepting s' = true
            | false, false => m_bAccepting s' = m_bAccepting s
            end;
  ef_length : is_accepting p = false -> length (m_oEHSConnectionList s') = length (m_oEHSConnectionList s);
  ef_range i buf n : p' = Some (FBuffering i buf n) -> i < length (m_oEHSConnectionList s')
}.

(** ** The parts of a step *)
Lemma send_step_keeps k id r sp (w : W) c p' c' w' :
  send_step beyond k id r sp w c = (p', c', w') ->
  conn_this c' = conn_this c /\ m_oHttpRequestList c' = m_oHttpRequestList c /\
  m_poNetworkAbstraction c' = m_poNetworkAbstraction c /\
  (p' = after_send k id \/ exists q, p' = FSending k id r q).
Proof using.
  destruct sp; cbn [send_step].
  - unfold send_start. destruct (Disconnected c); [destruct r|]; intros [= <- <- <-]; eauto 10.
  - unfold send_head. destruct r; repeat case_match; intros [= <- <- <-]; simplify_eq; eauto 10.
  - intros [= <- <- <-]. eauto 10.
  - intros [= <- <- <-]. eauto 10.
  - unfold send_count. destruct r; [destruct (_ =? _)%Z|destruct (_ || _)]; intros [= <- <- <-]; eauto 10.
Qed.

Lemma pop_response_keeps id c (w : W) p' c' w' :
  pop_response id c w = (p', c', w') ->
  conn_this c' = conn_this c /\ m_oHttpRequestList c' = m_oHttpRequestList c /\
  m_poNetworkAbstraction c' = m_poNetworkAbstraction c /\ w' = w /\
  (p' = FAnswered \/ exists r, p' = FSending ToQueue id r SStart).
Proof using. unfold pop_response. destruct (m_oResponseQueue c); intros [= <- <- <-]; eauto 10. Qed.

Lemma buffer_client_keeps i buf n s c (w : W) p' c' pending w' :
  buffer_client stale i buf n s c w = Some (p', c', pending, w') ->
  conn_this c' = conn_this c /\
  (pending - Z.of_nat (length (m_oHttpRequestList c')) = m_nRequestsPending s - Z.of_nat (length (m_oHttpRequestList c)))%Z /\
  (p' = FReading (S i) \/ (exists e, p' = FCaught e) \/ exists code, p' = reject_at stale i code c' w').
Proof using.
  unfold buffer_client. destruct (AddBuffer_total (m_nServerRunningStatus s) buf n c (m_nRequestsPending s) w) as (o & c1 & p1 & w1 & -> & Hp & Hc).
  destruct o as [[]|e]; intros [= <- <- <- <-]; split_and!; eauto 10; lia.
Qed.

Lemma next_iteration_effect p s tid s1 (w : W) p' s' w' :
  server_ok s1 -> m_nThreads s1 = m_nThreads s -> m_bAccepting s1 = m_bAccepting s \/ is_accepting p = true ->
  length (m_oEHSConnectionList s1) = length (m_oEHSConnectionList s) \/ is_accepting p = true -> is_fcreated p = false ->
  next_iteration tid s1 w = (p', s', w') -> effect p s p' s'.
Proof using.
  intros Hok Ht Ha Hl Hp. unfold next_iteration.
  assert (match is_accepting p, false with
    | true, true => m_bAccepting s1 = m_bAccepting s
    | true, false => True
    | false, true => m_bAccepting s = false /\ m_bAccepting s1 = true
    | false, false => m_bAccepting s1 = m_bAccepting s end) as Hflag by (destruct (is_accepting p); [done|by destruct Ha]).
  assert (is_accepting p = false -> length (m_oEHSConnectionList s1) = length (m_oEHSConnectionList s)) as Hlen
    by (intros Hf; destruct Hl; congruence).
  destruct (keep_running tid s1); intros [= <- <- <-].
  - split; try done. rewrite Hp. lia.
  - split; try done; [by destruct Hok; split|cbn -[Z.pred]; rewrite Hp; lia|by intros ->].
Qed.

Lemma with_conn_effect p id s f p' s' (w' : W) :
  server_ok s -> with_conn id s f = Some (p', s', w') -> is_fcreated p = false ->
  (forall c q c', f c = (q, c', w') -> conn_this c = id -> conn_this c' = id /\ m_oHttpRequestList c' = m_oHttpRequestList c /\
     is_accepting q = is_accepting p /\ (forall i buf n, q <> FBuffering i buf n) /\ q <> FCreated) ->
  effect p s p' s'.
Proof using.
  intros Hok (c & q & c' & Hf & Hq & -> & ->)%with_conn_Some Hp Hk. destruct (find_conn_spec _ _ _ Hf) as [_ Hid].
  destruct (Hk _ _ _ Hq Hid) as (H1 & H2 & H3 & H4 & H5). split; cbn [accepting_opt]; try done.
  - eapply (put_books 0 id c c' s); try done. cbn -[Z.sub]. by rewrite H2.
  - cbn -[Z.sub]. rewrite Hp. lia.
  - naive_solver.
  - rewrite H3. by destruct (is_accepting p).
  - intros _. by rewrite <- (length_fmap conn_this), <- (length_fmap conn_this (m_oEHSConnectionList s)); cbn; rewrite update_conn_this.
  - naive_solver.
Qed.

(** Work of the accepting thread on the connection at a position. *)
Lemma client_effect p s i c c' pending q :
  server_ok s -> m_oEHSConnectionList s !! i = Some c -> conn_this c' = conn_this c ->
  (pending - Z.of_nat (length (m_oHttpRequestList c')) = m_nRequestsPending s - Z.of_nat (length (m_oHttpRequestList c)))%Z ->
  is_accepting p = true -> is_fcreated p = false -> q <> FCreated ->
  (forall j buf n, q = FBuffering j buf n -> j < length (m_oEHSConnectionList s)) ->
  effect p s (Some q) (set_client i c' s <| m_nRequestsPending := pending |>).
Proof using.
  intros Hok Hi Hc Hq Ha Hp Hqc Hr. pose proof (so_distinct _ _ Hok) as Hd. split; cbn [accepting_opt]; try done.
  - eapply (put_books 0 (conn_this c) c c' s); try done; [by eapply find_conn_lookup|]. cbn. by apply insert_update.
  - cbn -[Z.sub]. rewrite Hp. lia.
  - naive_solver.
  - rewrite Ha. by destruct (is_accepting q).
  - congruence.
  - intros j buf n [= ->]. cbn. rewrite length_insert. by eapply Hr.
Qed.

(** ** Every step *)
Lemma run_thread_effect rnd tid p s (w : W) p' s' w' :
  server_ok s -> (0 <= rnd <= RAND_MAX)%Z -> run_thread beyond stale rnd tid p s w = Some (p', s', w') -> effect p s p' s'.
Proof using.
  intros Hok Hr.
  assert (forall q s1, is_accepting q = is_accepting p -> q <> FCreated -> (forall i buf n, q <> FBuffering i buf n) -> is_fcreated p = false ->
    server_ok s1 -> m_nThreads s1 = m_nThreads s -> m_bAccepting s1 = m_bAccepting s ->
    length (m_oEHSConnectionList s1) = length (m_oEHSConnectionList s) \/ is_accepting p = true -> effect p s (Some q) s1) as Hplain.
  { intros q s1 Ha Hc Hb Hp H1 H2 H3 H4. split; cbn [accepting_opt]; try done.
    - rewrite Hp. lia.
    - congruence.
    - rewrite Ha. by destruct (is_accepting p).
    - intros Hf. destruct H4; congruence.
    - intros i buf n [= ->]. by destruct (Hb i buf n). }
  assert (forall e s1, is_accepting p = true -> is_fcreated p = false -> server_ok s1 -> m_nThreads s1 = m_nThreads s -> effect p s (Some (FCaught e)) s1) as Hcaught.
  { intros e s1 Ha Hp H1 H2. split; cbn [accepting_opt is_accepting]; try done; [rewrite Hp; lia|by rewrite Ha|congruence]. }
  destruct p as [| | |req|r|k id r sp|id| |e| | |i|i buf n|i id|]; cbn [run_thread].
  - intros [= <- <- <-]. split; cbn -[Z.succ]; try done; [by destruct Hok; split|lia].
  - pose proof (choose_job_ok rnd tid s Hr Hok) as (Hok1 & Ht & Hj). destruct (choose_job rnd tid s) as [j s1] eqn:Ej.
    cbn [fst snd] in *. assert (length (m_oEHSConnectionList s1) = length (m_oEHSConnectionList s)) as Hl.
    { apply choose_job_cases in Ej; [|done]. destruct j; [destruct Ej as (i & c & q & _ & _ & ->); cbn; by rewrite length_insert|by subst|by destruct Ej as [_ ->]]. }
    intros [= <- <- <-]. destruct j; (split; cbn [accepting_opt is_accepting]; try done; try (by rewrite Ht; cbn; lia)); by destruct Hj; congruence.
  - intros [= H]. eapply next_iteration_effect in H; try done; by left.
  - destruct (RouteRequest _ _) as [[h|e] w1]; intros [= <- <- <-]; apply Hplain; try done; by left.
  - destruct (m_poEHSConnection _) as [id|]; [|done]. intros H. eapply with_conn_effect; [exact Hok|exact H|done|].
    intros c q c' (H1 & H2 & _ & _ & H3)%pop_response_keeps Hid. split_and!; [by rewrite H1|done|..]; by destruct H3 as [->|[? ->]].
  - intros H. eapply with_conn_effect; [exact Hok|exact H|done|].
    intros c q c' (H1 & H2 & _ & H3)%send_step_keeps Hid. split_and!; [by rewrite H1|done|..]; by destruct k; destruct H3 as [->|[? ->]].
  - intros H. eapply with_conn_effect; [exact Hok|exact H|done|].
    intros c q c' (H1 & H2 & _ & _ & H3)%pop_response_keeps Hid. split_and!; [by rewrite H1|done|..]; by destruct H3 as [->|[? ->]].
  - intros [= H]. eapply next_iteration_effect in H; try done; [by destruct Hok; split|by left|by left].
  - destruct (HandleThreadException _ _ _ _) as [[r|] w1].
    + intros [= <- <- <-]. apply Hplain; try done. by left.
    + intros [= H]. eapply next_iteration_effect in H; try done; [by destruct Hok; split|by left|by left].
  - unfold select_step, CreateFdSet. destruct (select _ _ _) as [[[|fd fds]|[]] w1]; intros [= <- <- <-];
      solve [apply Hplain; try done; [by destruct Hok; split|by left]|apply Hcaught; try done; by destruct Hok; split].
  - destruct (CheckAcceptSocket_ok s w Hok) as (o & s1 & w1 & -> & Hok1 & Hb & Ht).
    destruct o as [u|e]; intros [= <- <- <-]; [apply Hplain; try done; by right|by apply Hcaught].
  - destruct (_ !! i) as [c|] eqn:Hi; [|intros [= <- <- <-]; apply Hplain; try done; by left].
    destruct (read_client i s c w) as [[q c'] w1] eqn:Er. apply read_client_view in Er as [Hv Hq]. intros [= <- <- <-].
    assert (conn_this c' = conn_this c /\ m_oHttpRequestList c' = m_oHttpRequestList c) as [H1 H2] by by injection Hv.
    pose proof (client_effect (FReading i) s i c c' (m_nRequestsPending s) q Hok Hi H1 ltac:(rewrite H2; lia) eq_refl eq_refl) as Hc.
    assert (set_client i c' s <| m_nRequestsPending := m_nRequestsPending s |> = set_client i c' s) as Hs by by destruct s.
    rewrite Hs in Hc. apply lookup_lt_Some in Hi. apply Hc; [by destruct Hq as [[? ->]|[->|(? & ? & ->)]]|].
    intros j b m ->. destruct Hq as [[? ?]|[?|(? & ? & [= <- <- <-])]]; [done..|exact Hi].
  - destruct (_ !! i) as [c|] eqn:Hi; [|done].
    destruct (buffer_client stale i buf n s c w) as [[[[q c'] pending] w1]|] eqn:Eb; [|done]. intros [= <- <- <-].
    apply buffer_client_keeps in Eb as (H1 & H2 & H3). apply (client_effect _ s i c c' pending q); try done.
    + by destruct H3 as [->|[[? ->]|[? ->]]].
    + intros j b m ->. by destruct H3 as [?|[[? ?]|[? ?]]].
  - intros H. eapply with_conn_effect; [exact Hok|exact H|done|].
    intros c q c' [= <- <- <-] Hid. by split_and!.
  - destruct (end_accepting_ok s w Hok) as (o & s1 & w1 & -> & Hok1 & Ht & -> & _). intros [= H].
    eapply next_iteration_effect in H; try done; by right.
Qed.

Lemma fstep_books c c' : fstep beyond stale c c' -> fine_books c -> fine_books c'.
Proof using.
  intros Hs [H1 H2 H3 H4 H5]. destruct Hs as [s w ts tid Hin|rnd tid c c' Hr Hs|s w ts]; cbn [fc_server fc_world fc_threads] in *.
  - assert (forall t q, <[tid := FCreated]> ts !! t = Some q -> q = FCreated \/ ts !! t = Some q) as Hlook.
    { intros t q. rewrite lookup_insert_Some. naive_solver. }
    split; cbn [fc_server fc_world fc_threads]; [done| | | |by rewrite counted_create].
    + intros t1 t2 p1 p2 [->|E1]%Hlook [->|E2]%Hlook; [done..|by eapply H2].
    + intros t q [->|Hq]%Hlook; [done|by eapply H3].
    + intros t i buf n [|Hq]%Hlook; [done|by eapply H4].
  - destruct c as [s w ts]. unfold step_thread in Hs. cbn [fc_server fc_world fc_threads] in *.
    destruct (ts !! tid) as [p|] eqn:Hp; cbn in Hs; [|done].
    destruct (run_thread beyond stale rnd tid p s w) as [[[p' s'] w']|] eqn:Hrun; cbn in Hs; [|done]. injection Hs as <-.
    apply run_thread_effect in Hrun as [G1 G2 G3 G4 G5 G6 G7]; [|done..].
    change (fine_books (FConfig s' w' (set_thread tid p' ts))). split; cbn [fc_server fc_world fc_threads]; [done| | | |].
    + intros t1 t2 p1 p2 [[-> E1]|[N1 E1]]%set_thread_lookup [[-> E2]|[N2 E2]]%set_thread_lookup A1 A2; [done| | |by eapply H2].
      * subst p'. cbn in G5. rewrite A1 in G5. destruct (is_accepting p) eqn:Ha; [by eapply H2|].
        specialize (H3 _ _ E2 A2). destruct G5. congruence.
      * subst p'. cbn in G5. rewrite A2 in G5. destruct (is_accepting p) eqn:Ha; [by eapply H2|].
        specialize (H3 _ _ E1 A1). destruct G5. congruence.
    + intros t q [[-> ->]|[Hn Hq]]%set_thread_lookup Haq.
      * cbn in G5. rewrite Haq in G5. destruct (is_accepting p) eqn:Ha; [rewrite G5; by eapply H3|apply G5].
      * pose proof (H3 _ _ Hq Haq) as Hf. destruct (is_accepting p) eqn:Ha; [by destruct Hn; eapply H2|].
        destruct (accepting_opt p'); [apply G5|congruence].
    + intros t i buf n [[-> ->]|[Hn Hq]]%set_thread_lookup; [by eapply G7|].
      destruct (is_accepting p) eqn:Ha; [by destruct Hn; eapply H2|]. rewrite G6 by done. by eapply H4.
    + rewrite G2, H5. destruct p' as [q|]; cbn [set_thread].
      * assert (is_fcreated q = false) as Hq by by destruct q.
        destruct (is_fcreated p) eqn:Hc.
        -- rewrite (counted_count _ tid p) by done. lia.
        -- rewrite (counted_insert _ tid p) by done. lia.
      * assert (is_fcreated p = false) as Hc by (destruct p; try done; by destruct G4).
        pose proof (counted_delete is_fcreated tid p ts Hp Hc). rewrite Hc. lia.
  - split; try done. by destruct H1; split.
Qed.

Lemma fsteps_books c c' : rtc (fstep beyond stale) c c' -> fine_books c -> fine_books c'.
Proof using. induction 1; eauto using fstep_books. Qed.

Lemma start_books s (w : W) : server_ok s -> m_nThreads s = 0%Z -> fine_books (FConfig s w ∅).
Proof using. intros Hs Hn. split; cbn [fc_server fc_world fc_threads]; [done..|]. rewrite Hn. reflexivity. Qed.

(** A thread that cannot take its step is about to use a connection that is not there. *)
Lemma run_thread_stuck c tid p rnd :
  fine_books c -> fc_threads c !! tid = Some p ->
  run_thread beyond stale rnd tid p (fc_server c) (fc_world c) = None -> dangles (fc_server c) p.
Proof using.
  destruct c as [s w ts]. intros [H1 _ _ H4 _] Hp. cbn [fc_server fc_world fc_threads] in *.
  assert (forall id f, with_conn (W := W) id s f = None -> ~ alive id s) as Hwith.
  { intros id f. unfold with_conn. destruct (find_conn id _) as [c|] eqn:Hf; [by destruct (f c) as [[? ?] ?]|].
    intros _. by apply find_conn_None. }
  unfold dangles. destruct p as [| | |req|r|k id r sp|id| |e| | |i|i buf n|i id|]; cbn [run_thread uses]; try done.
  - by destruct (choose_job _ _ _).
  - by destruct (RouteRequest _ _) as [[]].
  - destruct (m_poEHSConnection _) as [id|]; [apply Hwith|]. intros _. by exists r.
  - apply Hwith.
  - apply Hwith.
  - by destruct (HandleThreadException _ _ _ _) as [[]].
  - by destruct (select_step _ _) as [[]].
  - by destruct (CheckAcceptSocket _ _) as [[[]]].
  - destruct (_ !! i) as [c|]; [|done]. by destruct (read_client _ _ _ _) as [[]].
  - pose proof (H4 _ _ _ _ Hp) as Hi. destruct (lookup_lt_is_Some_2 _ _ Hi) as [c ->]. unfold buffer_client.
    destruct (AddBuffer_total (m_nServerRunningStatus s) buf n c (m_nRequestsPending s) w) as (o & c' & p' & w' & -> & _). done.
  - apply Hwith.
  - by destruct (end_accepting_ok s w H1) as (o & s' & w' & -> & _ & _ & -> & _).
Qed.

(** C22: in every interleaving of the threads of a server, critical section by critical
    section, and whatever arrives: at most one thread is accepting, and while one is, the
    accepting flag is set (the flag can also be set with no thread accepting, after an
    exception); the count of threads is the number of those that have begun to run and not
    ended, and a thread that [pthread_create] has made counts itself only then, so when
    the count is 0, and [EndServerThread] stops waiting and the server is deleted, there
    may still be threads, none of which has begun; the books of the server are in order;
    and a thread that cannot go on is about to use a connection that is not there. *)
Theorem one_thread_accepts (s : EHSServer) (w : W) (c : fconfig)
    (Hs : server_ok s) (Hn : m_nThreads s = 0%Z) (Hc : rtc (fstep beyond stale) (FConfig s w ∅) c) :
  (forall t1 t2 p1 p2, fc_threads c !! t1 = Some p1 -> fc_threads c !! t2 = Some p2 ->
     is_accepting p1 = true -> is_accepting p2 = true -> t1 = t2) /\
  (forall t p, fc_threads c !! t = Some p -> is_accepting p = true -> m_bAccepting (fc_server c) = true) /\
  m_nThreads (fc_server c) = Z.of_nat (size (counted is_fcreated (fc_threads c))) /\
  (EndServerThread_waits (fc_server c) = false -> forall t p, fc_threads c !! t = Some p -> p = FCreated) /\
  server_ok (fc_server c) /\
  (forall t p rnd, fc_threads c !! t = Some p ->
     run_thread beyond stale rnd t p (fc_server c) (fc_world c) = None -> dangles (fc_server c) p).
Proof using.
  pose proof (fsteps_books _ _ Hc (start_books s w Hs Hn)) as Hb. pose proof Hb as [H1 H2 H3 _ H5].
  split_and!; [done..| |done|].
  - intros Hz%Z.ltb_ge t p Hp. assert (is_fcreated p = true) as Hf by (eapply counted_none; [|exact Hp]; lia). by destruct p.
  - intros t p rnd Hp. by apply run_thread_stuck with (tid := t).
Qed.

End books.

(** ** Witness

    Three threads come; the first one accepts and the second one waits, when the third one has
    not run yet.  And before the first of them has run, nothing keeps the server. *)
Abbreviation books_fstep := (fstep (E := script_env) (A := example_app) (B := perl_boost) [] []).
Definition three_created : fconfig :=
  FConfig idle_server example_world (<[3%Z := FCreated]> (<[2%Z := FCreated]> (<[1%Z := FCreated]> ∅))).
Lemma three_come : rtc books_fstep (FConfig idle_server example_world ∅) three_created.
Proof.
  eapply rtc_l; [by apply (fstep_start _ _ _ _ ∅ 1%Z)|]. eapply rtc_l; [by apply (fstep_start _ _ _ _ _ 2%Z)|].
  eapply rtc_l; [by apply (fstep_start _ _ _ _ _ 3%Z)|]. apply rtc_refl.
Qed.

Lemma one_thread_accepts_witness :
  server_ok idle_server /\ m_nThreads idle_server = 0%Z /\
  (fc_threads three_created !! 1%Z = Some FCreated /\ EndServerThread_waits (EndServerThread (fc_server three_created)) = false) /\
  exists c, rtc books_fstep (FConfig idle_server example_world ∅) c /\
    fc_threads c !! 1%Z = Some FSelecting /\ fc_threads c !! 2%Z = Some FWaiting /\ fc_threads c !! 3%Z = Some FCreated /\
    m_bAccepting (fc_server c) = true /\ m_nThreads (fc_server c) = 2%Z.
Proof.
  split; [exact idle_server_ok|]. split; [reflexivity|]. split; [split; vm_compute; reflexivity|].
  destruct (run (E := script_env) (A := example_app) (B := perl_boost) [] [] [1; 1; 2; 2]%Z three_created) as [c|] eqn:Hr.
  2:{ vm_compute in Hr. discriminate. }
  assert (fc_threads c !! 1%Z = Some FSelecting /\ fc_threads c !! 2%Z = Some FWaiting /\ fc_threads c !! 3%Z = Some FCreated /\
    size (counted is_fcreated (fc_threads c)) = 2) as (H1 & H2 & H3 & H4).
  { vm_compute in Hr. injection Hr as <-. split_and!; vm_compute; reflexivity. }
  apply run_steps in Hr. exists c.
  assert (rtc books_fstep (FConfig idle_server example_world ∅) c) as Hc by (etrans; [exact three_come|exact Hr]).
  destruct (one_thread_accepts (E := script_env) (A := example_app) (B := perl_boost) [] [] idle_server example_world c
    idle_server_ok eq_refl Hc) as (_ & G2 & G3 & _).
  split; [exact Hc|]. split; [exact H1|]. split; [exact H2|]. split; [exact H3|].
  split; [apply (G2 _ _ H1); reflexivity|]. rewrite G3, H4. reflexivity.
Defined.
