(* ===== verification/InterleaveRaces.v ===== *)
(** * Races

    What the server mutex and the mutex of a connection do not prevent.  The configurations
    the theorems start from are reached by the schedules at the end. *)
From S2P Require Import Prelude Boost StdMap Datum EhsTypes HttpRequest HttpResponse Network Connection.
From S2P Require Import HttpRequestFacts HttpRequestProps HttpRender ConnectionFacts Server ServerFacts Threads Interleave.
From S2P Require Import Ehs EhsFacts InterleaveFacts.

Section races.
Context {W : Type} {E : Env W} {A : App W} {B : Boost}.
Variables (beyond stale : bytes).
Implicit Types (s : EHSServer) (ts : gmap Z fpc) (c : EHSConnection).

Lemma clear_idle_finished t (w : W) c : is_finished c = true -> is_finished (clear_idle t w c) = true.
Proof using.
  unfold clear_idle. destruct (_ && _); [|done]. unfold is_finished, StillReading. cbn. by intros [_ ?]%andb_true_iff.
Qed.

(** A finished connection is deleted at the end of accepting, whoever has a pointer to it. *)
Lemma finished_deleted tid id c s (w : W) ts :
  distinct_conns s -> find_conn id (m_oEHSConnectionList s) = Some c -> is_finished c = true ->
  ts !! tid = Some FClearing ->
  exists cf, fstep beyond stale (FConfig s w ts) cf /\ ~ alive id (fc_server cf) /\
    forall t, t <> tid -> fc_threads cf !! t = ts !! t.
Proof using.
  intros Hd [Hc Hid]%find_conn_spec Hfin Ht. destruct (ClearIdleConnections_list s w Hd) as [w1 E1].
  set (s1 := s <| m_oEHSConnectionList ::= _ |>) in E1.
  assert (~ alive id s1) as Hdead.
  { intros (x & Hx & [Hxf Hin]%list_elem_of_filter)%list_elem_of_fmap. apply list_elem_of_fmap in Hin as (y & -> & Hy).
    assert (conn_this y = id) as Hyid by (rewrite Hx; unfold clear_idle; by destruct (_ && _)).
    assert (y = c) as ->.
    { apply list_elem_of_lookup in Hy as [i Hi]. apply list_elem_of_lookup in Hc as [j Hj].
      enough (i = j) by congruence. eapply NoDup_lookup; [exact Hd| |]; rewrite list_lookup_fmap; [by rewrite Hi|].
      rewrite Hj. cbn. congruence. }
    by rewrite clear_idle_finished in Hxf. }
  assert (exists s2 w2, end_accepting s w = Some (Ret tt, s2, w2) /\ m_oEHSConnectionList s2 = m_oEHSConnectionList s1)
    as (s2 & w2 & E2 & Hl2) by (unfold end_accepting; rewrite E1; by do 2 eexists).
  destruct (next_iteration tid s2 w2) as [[p s3] w3] eqn:Hn.
  assert (m_oEHSConnectionList s3 = m_oEHSConnectionList s2) as Hl3
    by (revert Hn; unfold next_iteration; destruct (keep_running tid s2); by intros [= _ <- _]).
  eexists. split; [eapply (fstep_run _ _ 0 tid); [by unfold RAND_MAX|]|].
  - unfold step_thread. cbn. rewrite Ht. cbn. rewrite E2. cbn. rewrite Hn. cbn. reflexivity.
  - cbn. split.
    + unfold alive in *. by rewrite Hl3, Hl2.
    + intros t Hne. destruct p; [by rewrite lookup_insert_ne|by rewrite lookup_delete_ne].
Qed.

(** C25: [SendResponse] counts the response before it returns, and [AddResponse] then locks
    the mutex of the connection again.  If this was the last response owed, nothing is read
    from the connection any more, and another thread is about to clean up, the connection is
    deleted in between and the thread goes on with a dangling pointer.  (The counting has
    been moved to the end of [SendResponse] in order to avoid this race.) *)
Theorem response_race s (w : W) ts t1 t2 id c h n rnd :
  distinct_conns s -> find_conn id (m_oEHSConnectionList s) = Some c ->
  ts !! t1 = Some (FSending ToQueue id (Http h) (SCount n)) -> ts !! t2 = Some FClearing ->
  (StillReading c = false \/ force_close h = true \/ n = (-1)%Z) -> (m_nRequests c - 1 <= m_nResponses c + 1)%Z ->
  exists cf, rtc (fstep beyond stale) (FConfig s w ts) cf /\
    fc_threads cf !! t1 = Some (FSent id) /\ ~ alive id (fc_server cf) /\ step_thread beyond stale rnd t1 cf = None.
Proof using.
  intros Hd Hf H1 H2 Hclosed Hlast. destruct (find_conn_spec _ _ _ Hf) as [_ Hid].
  assert (t1 <> t2) as Hne by (intros ->; congruence). set (c1 := send_count (Http h) n c).
  assert (conn_this c1 = id) as Hid1 by by unfold c1, send_count, count_response; destruct (_ || _).
  assert (is_finished c1 = true) as Hfin.
  { unfold is_finished. apply andb_true_iff. split.
    - apply negb_true_iff. unfold c1, send_count, count_response. destruct Hclosed as [Hc|[->| ->]]; [|done|].
      + destruct (_ || _); [done|exact Hc].
      + by rewrite orb_true_r.
    - apply Z.leb_le. unfold c1, send_count, count_response. destruct (_ || _); cbn; lia. }
  assert (fstep beyond stale (FConfig s w ts) (FConfig (put id c1 s) w (<[t1 := FSent id]> ts))) as Hcount.
  { eapply (fstep_run _ _ 0 t1); [by unfold RAND_MAX|]. unfold step_thread. cbn. rewrite H1. cbn.
    unfold with_conn. by rewrite Hf. }
  destruct (finished_deleted t2 id c1 (put id c1 s) w (<[t1 := FSent id]> ts)) as (cf & Hs & Hdead & Hts).
  - unfold distinct_conns, put. cbn. by rewrite update_conn_this.
  - apply find_put; [done|]. by eapply find_alive.
  - done.
  - by rewrite lookup_insert_ne.
  - exists cf. assert (fc_threads cf !! t1 = Some (FSent id)) as Hp by by rewrite Hts, lookup_insert_eq.
    split_and!; [|done|done|].
    + eapply rtc_l; [exact Hcount|]. by apply rtc_once.
    + unfold step_thread. rewrite Hp. cbn. unfold with_conn.
      destruct (find_conn id (m_oEHSConnectionList (fc_server cf))) eqn:Hx; [|done].
      exfalso. apply Hdead. exact (find_alive _ _ _ Hx).
Qed.

(** C26: an error answer is counted as if it answered the request that is being handled: when
    a later request on the connection is rejected while a thread handles one, the connection
    is deleted under that thread. *)
Theorem rejected_under_handler s (w : W) ts t1 t2 i code c req :
  distinct_conns s -> m_oEHSConnectionList s !! i = Some c -> S i = length (m_oEHSConnectionList s) ->
  balanced c -> m_oHttpRequestList c = [] -> m_nActiveRequests c = 1%Z ->
  ts !! t1 = Some (FRouting req) -> m_poSourceEHSConnection req = conn_this c ->
  ts !! t2 = Some (reject_at stale i code c w) ->
  exists cf, rtc (fstep beyond stale) (FConfig s w ts) cf /\
    fc_threads cf !! t1 = Some (FRouting req) /\ ~ alive (m_poSourceEHSConnection req) (fc_server cf).
Proof using.
  intros Hd Hi Hlast Hbal Hq Hact H1 -> H2. pose proof (reject_alone beyond stale t2 i code c c (m_nRequestsPending s) s w ts Hd Hi eq_refl) as Hrej.
  assert (client_done i c (m_nRequestsPending s) s = s) as Hsame.
  { unfold client_done. cbn. rewrite (list_insert_id _ _ _ Hi). by destruct s. }
  rewrite Hsame, (insert_id ts t2) in Hrej by done. unfold reject in Hrej.
  pose proof (SendResponse_counts has_RawSocketHandler beyond (Error stale (time w) code 0 (Some (conn_this c))) c w) as Hcnt.
  destruct (SendResponse _ _ _ c w) as [c1 w1]. destruct Hcnt as (C1 & C2 & C3 & C4 & C5 & C6). cbn [fst] in *.
  set (s2 := client_done i (DoneReading false c1) (m_nRequestsPending s) s) in *.
  destruct (client_put i c (DoneReading false c1) (DoneReading false c1) (m_nRequestsPending s) s Hd Hi C6 C6) as [_ Hf].
  assert (t1 <> t2) as Hne by (intros ->; by rewrite H1 in H2).
  destruct (finished_deleted t2 (conn_this c) (DoneReading false c1) s2 w1 (<[t2 := FClearing]> ts)) as (cf & Hs & Hdead & Hts).
  - unfold distinct_conns, s2, client_done in *. cbn. rewrite list_fmap_insert, list_insert_id; [done|].
    by rewrite list_lookup_fmap, Hi; cbn; rewrite <- C6.
  - done.
  - unfold is_finished. cbn. apply Z.leb_le. unfold balanced in Hbal. rewrite Hq, Hact in Hbal. rewrite C3, C1.
    destruct (m_poCurrentHttpRequest c); cbn in Hbal; lia.
  - by rewrite lookup_insert_eq.
  - exists cf. split_and!; [|by rewrite Hts, lookup_insert_ne|done]. etrans; [exact Hrej|].
    eapply rtc_l; [|by apply rtc_once]. apply (alone_step _ _ 0); [by unfold RAND_MAX|]. cbn [run_thread].
    rewrite lookup_ge_None_2; [done|]. unfold s2, client_done. cbn. rewrite length_insert. lia.
Qed.

(** What a thread sends, if nothing fails: the head, and then the body. *)
Definition head_sent (h : HttpResponse) c (w : W) : W := (na_Send (m_poNetworkAbstraction c) (response_head h) w).2.
Definition body_sent (h : HttpResponse) c (w : W) : W :=
  (na_Send (m_poNetworkAbstraction c)
    (take (Z.to_nat (atoi (Header h #"content-length"))) (gr_sBody (hr_base h) ++ NUL :: beyond)) w).2.

Lemma send_step_run tid id sp sp' r c s (w w' : W) ts :
  find_conn id (m_oEHSConnectionList s) = Some c -> ts !! tid = Some (FSending ToQueue id r sp) ->
  send_step beyond ToQueue id r sp w c = (FSending ToQueue id r sp', c, w') ->
  fstep beyond stale (FConfig s w ts) (FConfig s w' (<[tid := FSending ToQueue id r sp']> ts)).
Proof using.
  intros Hf Ht Hs. eapply (fstep_run _ _ 0 tid); [by unfold RAND_MAX|]. unfold step_thread. cbn. rewrite Ht. cbn.
  unfold with_conn. rewrite Hf, Hs. cbn. do 2 f_equal. exact (put_same _ _ _ Hf).
Qed.

Lemma head_step tid id h c s (w : W) ts :
  find_conn id (m_oEHSConnectionList s) = Some c -> ts !! tid = Some (FSending ToQueue id (Http h) SHead) ->
  m_nResponseCode h <> HTTPRESPONSECODE_101_SWITCHING_PROTOCOLS ->
  fstep beyond stale (FConfig s w ts) (FConfig s (head_sent h c w)
    (<[tid := FSending ToQueue id (Http h) (SBody (na_Send (m_poNetworkAbstraction c) (response_head h) w).1)]> ts)).
Proof using.
  intros Hf Ht Hcode. eapply send_step_run; [done|done|]. cbn. unfold head_sent. destruct (na_Send _ _ w) as [n w1]. cbn.
  by rewrite (bool_decide_eq_false_2 _ Hcode), andb_false_r.
Qed.

Lemma body_step tid id h n c s (w : W) ts :
  find_conn id (m_oEHSConnectionList s) = Some c -> ts !! tid = Some (FSending ToQueue id (Http h) (SBody n)) ->
  n <> (-1)%Z -> (0 < atoi (Header h #"content-length"))%Z ->
  fstep beyond stale (FConfig s w ts) (FConfig s (body_sent h c w) (<[tid := FSending ToQueue id (Http h) (SCount n)]> ts)).
Proof using.
  intros Hf Ht Hn Hlen. eapply send_step_run; [done|done|]. unfold send_step, send_body.
  rewrite (proj2 (Z.eqb_neq n (-1)) Hn), (proj2 (Z.ltb_lt _ _) Hlen). reflexivity.
Qed.

(** C27: the mutex of a connection is not held while a response is being sent, so the
    responses to two requests of one connection that are handled at the same time can be
    mixed: the client gets both heads before the bodies, and the bodies in the other order. *)
Theorem responses_interleave s (w : W) ts t1 t2 id c h1 h2 :
  let w1 := head_sent h1 c w in
  let w2 := head_sent h2 c w1 in
  t1 <> t2 -> find_conn id (m_oEHSConnectionList s) = Some c ->
  ts !! t1 = Some (FSending ToQueue id (Http h1) SHead) -> ts !! t2 = Some (FSending ToQueue id (Http h2) SHead) ->
  m_nResponseCode h1 <> HTTPRESPONSECODE_101_SWITCHING_PROTOCOLS -> m_nResponseCode h2 <> HTTPRESPONSECODE_101_SWITCHING_PROTOCOLS ->
  (0 < atoi (Header h1 #"content-length"))%Z -> (0 < atoi (Header h2 #"content-length"))%Z ->
  (na_Send (m_poNetworkAbstraction c) (response_head h1) w).1 <> (-1)%Z ->
  (na_Send (m_poNetworkAbstraction c) (response_head h2) w1).1 <> (-1)%Z ->
  exists n1 n2, rtc (fstep beyond stale) (FConfig s w ts) (FConfig s (body_sent h1 c (body_sent h2 c w2))
    (<[t1 := FSending ToQueue id (Http h1) (SCount n1)]> (<[t2 := FSending ToQueue id (Http h2) (SCount n2)]> ts))).
Proof using.
  intros w1 w2 Hne Hf H1 H2 Hc1 Hc2 Hl1 Hl2 Hn1 Hn2. pose proof (not_eq_sym Hne). do 2 eexists.
  eapply rtc_l; [by eapply (head_step t1)|]. eapply rtc_l; [eapply (head_step t2); [done|by rewrite lookup_insert_ne|done]|].
  eapply rtc_l; [eapply (body_step t2); [done|by rewrite lookup_insert_eq|exact Hn2|done]|].
  eapply rtc_l; [eapply (body_step t1); [done|by rewrite 2!lookup_insert_ne, lookup_insert_eq|exact Hn1|done]|].
  match goal with |- rtc _ ?x ?y => assert (x = y) as ->; [|apply rtc_refl] end.
  f_equal. apply map_eq. intros t. destruct (decide (t = t1)) as [->|]; [by rewrite !lookup_insert_eq|].
  destruct (decide (t = t2)) as [->|]; by simplify_map_eq.
Qed.
End races.

(** ** Schedules *)
#[export] Instance example_answers : AnswerLaws example_app.
Proof. split; [by intros req w h w' [= <- <-]|by intros tid req e w r w' [=]]. Qed.

Abbreviation script_fstep := (fstep (E := script_env) (A := example_app) (B := perl_boost) [] []).
Abbreviation script_run := (run (E := script_env) (A := example_app) (B := perl_boost) [] []).

(** Two idle threads of a pool; a client connects on socket 7, and then its data arrive, each
    after a [select]. *)
Definition one_get : bytes := #"GET / HTTP/1.0" ++ crlf ++ crlf.
Definition race_world (ok : bool) (data : list bytes) : script :=
  example_world <| sc_send_ok := ok |> <| sc_selects := Sel_ready [10%Z] :: ((fun _ => Sel_ready [7%Z]) <$> data) |>
    <| sc_accepts := [Ret 7] |> <| sc_incoming := (fun d => (7, d)) <$> data |>.
Definition race_server : EHSServer := idle_server <| m_nThreads := 2%Z |>.
Definition race_start (ok : bool) (data : list bytes) : fconfig :=
  FConfig race_server (race_world ok data) {[ 1%Z := FIdle; 2%Z := FIdle ]}.
Definition race_config (schedule : list thread_id) (ok : bool) (data : list bytes) : fconfig :=
  default (race_start ok data) (script_run schedule (race_start ok data)).

Lemma race_config_reached schedule ok data : rtc script_fstep (race_start ok data) (race_config schedule ok data).
Proof.
  unfold race_config. destruct (script_run schedule (race_start ok data)) as [c|] eqn:Hr; [|apply rtc_refl].
  by eapply run_steps.
Qed.

Definition nodup_conns (c : fconfig (W := script)) : bool := bool_decide (NoDup (conn_this <$> m_oEHSConnectionList (fc_server c))).
Lemma nodup_conns_spec c : nodup_conns c = true -> distinct_conns (fc_server c).
Proof. apply bool_decide_eq_true. Qed.

(** Thread 1 accepts, reads a request and fails to send the answer, while thread 2 is cleaning up. *)
Definition dangling_schedule : list thread_id := (replicate 19 1 ++ [2; 2])%Z.
Lemma response_race_witness :
  exists c cf, rtc script_fstep (race_start false [one_get]) c /\ rtc script_fstep c cf /\
    fc_threads cf !! 1%Z = Some (FSent 1) /\ ~ alive 1 (fc_server cf).
Proof.
  set (c := race_config dangling_schedule false [one_get]). exists c. pose proof (race_config_reached dangling_schedule false [one_get]) as Hr.
  assert (distinct_conns (fc_server c)) as Hd by (apply nodup_conns_spec; vm_compute; reflexivity).
  assert (exists x h n, find_conn 1 (m_oEHSConnectionList (fc_server c)) = Some x /\
    fc_threads c !! 1%Z = Some (FSending ToQueue 1 (Http h) (SCount n)) /\ n = (-1)%Z /\
    (m_nRequests x - 1 <=? m_nResponses x + 1)%Z = true) as (x & h & n & Hf & H1 & Hc & Hl%Z.leb_le).
  { do 3 eexists. split; [vm_compute; reflexivity|]. split; [vm_compute; reflexivity|]. split; vm_compute; reflexivity. }
  assert (fc_threads c !! 2%Z = Some FClearing) as H2 by (vm_compute; reflexivity).
  fold c in Hr. clearbody c.
  destruct (response_race (E := script_env) (A := example_app) (B := perl_boost) [] [] (fc_server c) (fc_world c) (fc_threads c)
    1%Z 2%Z 1 x h n 0%Z Hd Hf H1 H2 (or_intror (or_intror Hc)) Hl) as (cf & H & Hp & Ha & _).
  exists cf. split; [exact Hr|]. split; [|by split]. revert H. by destruct c.
Defined.

(** Thread 1 has taken the first request when thread 2 reads one that is rejected. *)
Definition reject_schedule : list thread_id := (replicate 14 1 ++ replicate 5 2)%Z.
Definition reject_data : list bytes := [one_get; #"FOO" ++ crlf].
Lemma rejected_under_handler_witness :
  exists c cf req, rtc script_fstep (race_start true reject_data) c /\ rtc script_fstep c cf /\
    fc_threads cf !! 1%Z = Some (FRouting req) /\ ~ alive (m_poSourceEHSConnection req) (fc_server cf).
Proof.
  set (c := race_config reject_schedule true reject_data). exists c. pose proof (race_config_reached reject_schedule true reject_data) as Hr.
  assert (distinct_conns (fc_server c)) as Hd by (apply nodup_conns_spec; vm_compute; reflexivity).
  assert (exists x req, m_oEHSConnectionList (fc_server c) = [x] /\ fc_threads c !! 1%Z = Some (FRouting req) /\
    m_poSourceEHSConnection req = conn_this x /\
    fc_threads c !! 2%Z = Some (reject_at [] 0 HTTPRESPONSECODE_400_BADREQUEST x (fc_world c)) /\
    bool_decide (balanced x) = true /\ m_oHttpRequestList x = [] /\ m_nActiveRequests x = 1%Z)
    as (x & req & Hx & H1 & Hs & H2 & Hb & Hq & Ha).
  { do 2 eexists. split; [vm_compute; reflexivity|]. split; [vm_compute; reflexivity|]. split; [vm_compute; reflexivity|]. split; [vm_compute; reflexivity|].
    split; [vm_compute; reflexivity|]. split; vm_compute; reflexivity. }
  fold c in Hr. clearbody c.
  destruct (rejected_under_handler (E := script_env) (A := example_app) (B := perl_boost) [] [] (fc_server c) (fc_world c) (fc_threads c)
    1%Z 2%Z 0 HTTPRESPONSECODE_400_BADREQUEST x req Hd) as (cf & H & Hp & Hal); try done.
  - by rewrite Hx.
  - by rewrite Hx.
  - by apply bool_decide_eq_true in Hb.
  - exists cf, req. split; [exact Hr|]. split; [|by split]. revert H. by destruct c.
Defined.

(** Two requests in one packet, one for each thread. *)
Definition pipeline_schedule : list thread_id := (replicate 17 1 ++ replicate 4 2)%Z.
Definition pipeline_data : list bytes := [one_get ++ one_get].
Lemma responses_interleave_witness :
  exists c cf h1 h2 x, rtc script_fstep (race_start true pipeline_data) c /\ rtc script_fstep c cf /\
    fc_world cf = body_sent (E := script_env) [] h1 x (body_sent (E := script_env) [] h2 x
      (head_sent (E := script_env) h2 x (head_sent (E := script_env) h1 x (fc_world c)))).
Proof.
  set (c := race_config pipeline_schedule true pipeline_data). exists c.
  pose proof (race_config_reached pipeline_schedule true pipeline_data) as Hr.
  assert (exists x h1 h2, find_conn 1 (m_oEHSConnectionList (fc_server c)) = Some x /\
    fc_threads c !! 1%Z = Some (FSending ToQueue 1 (Http h1) SHead) /\ fc_threads c !! 2%Z = Some (FSending ToQueue 1 (Http h2) SHead) /\
    m_nResponseCode h1 = HTTPRESPONSECODE_404_NOTFOUND /\ m_nResponseCode h2 = HTTPRESPONSECODE_404_NOTFOUND /\
    (0 <? atoi (Header h1 #"content-length"))%Z = true /\ (0 <? atoi (Header h2 #"content-length"))%Z = true /\
    sc_send_ok (fc_world c) = true)
    as (x & h1 & h2 & Hf & H1 & H2 & Hc1 & Hc2 & Hl1%Z.ltb_lt & Hl2%Z.ltb_lt & Hw).
  { do 3 eexists. split; [vm_compute; reflexivity|]. split; [vm_compute; reflexivity|]. split; [vm_compute; reflexivity|].
    repeat (split; [vm_compute; reflexivity|]). vm_compute; reflexivity. }
  fold c in Hr. clearbody c.
  assert (forall d (w : script), sc_send_ok w = true -> (na_Send (m_poNetworkAbstraction x) d w).1 <> (-1)%Z) as Hsend.
  { intros d w Hok. cbn. rewrite Hok. lia. }
  destruct (responses_interleave (E := script_env) (A := example_app) (B := perl_boost) [] [] (fc_server c) (fc_world c) (fc_threads c)
    1%Z 2%Z 1 x h1 h2) as (n1 & n2 & H); try done.
  - by rewrite Hc1.
  - by rewrite Hc2.
  - by apply Hsend.
  - by apply Hsend.
  - match type of H with rtc _ _ ?cf => exists cf, h1, h2, x end. split; [exact Hr|]. split; [|reflexivity].
    revert H. by destruct c.
Defined.

(** A schedule in which no request is rejected. *)
Fixpoint run_quiet (schedule : list thread_id) (c : fconfig (W := script)) : option fconfig :=
  match schedule with
  | [] => Some c
  | tid :: schedule =>
      c ← step_thread (E := script_env) (A := example_app) (B := perl_boost) [] [] 0 tid c;
      if bool_decide (map_Forall (fun _ p => is_rejecting p = false) (fc_threads c)) then run_quiet schedule c else None
  end.

Abbreviation script_quiet_step := (quiet_step (E := script_env) (A := example_app) (B := perl_boost) [] []).

Lemma run_quiet_steps l c c' : run_quiet l c = Some c' -> rtc script_quiet_step c c'.
Proof.
  revert c. induction l as [|tid l IH]; intros c; cbn [run_quiet]; [by intros [= <-]; apply rtc_refl|].
  destruct (step_thread _ _ 0 tid c) as [c1|] eqn:E1; cbn; [|done]. case_bool_decide as Hq; [|done].
  intros Hr. eapply rtc_l; [|by apply IH]. split; [|exact Hq]. apply (fstep_run _ _ 0 tid); [by unfold RAND_MAX|done].
Qed.

(** Two threads are started, and both are sending an answer to the one connection. *)
Lemma connections_outlive_requests_witness :
  exists c p, rtc script_quiet_step (FConfig idle_server (race_world true pipeline_data) ∅) c /\
    fc_threads c !! 2%Z = Some p /\
    exists x, find_conn 1 (m_oEHSConnectionList (fc_server c)) = Some x /\ (1 <= m_nActiveRequests x)%Z.
Proof.
  set (start := fun ts => FConfig idle_server (race_world true pipeline_data) ts).
  set (both := start (<[2%Z := FCreated]> {[1%Z := FCreated]})).
  assert (rtc script_quiet_step (start ∅) both) as H0.
  { eapply rtc_l; [split; [by apply (fstep_start _ _ _ _ ∅ 1%Z)|]|].
    - intros t q. cbn. rewrite lookup_insert_Some, lookup_empty. by intros [[<- <-]|[? ?]].
    - apply rtc_once. split; [by apply (fstep_start _ _ _ _ _ 2%Z)|].
      intros t q. cbn. rewrite lookup_insert_Some, lookup_singleton_Some. by intros [[<- <-]|(? & <- & <-)]. }
  set (c := default (start ∅) (run_quiet (1 :: 2 :: pipeline_schedule)%Z both)).
  assert (rtc script_quiet_step (start ∅) c) as Hr.
  { unfold c. destruct (run_quiet _ _) as [c1|] eqn:E1; [|apply rtc_refl]. cbn. etrans; [exact H0|]. by eapply run_quiet_steps. }
  assert (exists r, fc_threads c !! 2%Z = Some (FSending ToQueue 1 r SHead)) as [r Hp].
  { eexists. vm_compute. reflexivity. }
  clearbody c. exists c, (FSending ToQueue 1 r SHead). split; [exact Hr|]. split; [exact Hp|].
  pose proof (connections_outlive_requests (E := script_env) (A := example_app) (B := perl_boost) [] [] idle_server
    (race_world true pipeline_data) c 2%Z _ 0%Z idle_server_ok eq_refl Hr Hp) as (_ & H & _). by apply H.
Defined.

