(* ===== verification/ServerNetworks.v ===== *)
(** * Who owns the network objects of a server

    [EHSServer] owns the [NetworkAbstraction] on which it listens, and every connection
    owns the one that [Accept] made for it.  The laws of this file say what the operations
    of [NetworkAbstraction] do to the set of objects that are alive, and they say it only
    of calls on live objects: nothing is known of other calls.  The operations of Server and
    Connection keep the ownership; InterleaveNetworks follows it through the
    interleavings of the threads. *)
From S2P Require Import Prelude Boost StdMap Datum EhsTypes HttpRequest HttpResponse Network Connection.
From S2P Require Import ConnectionFacts Server ServerFacts Threads.

(** The objects that are alive, those among them whose connection has been closed, and those
    that [Accept] has made, which have a peer to read from and to send to.  [Close] does not
    clear the descriptor of a socket, and the destructor closes it once more, so an object
    that is closed must go before anything else is opened. *)
Record nets : Type := MkNets { alive : gset na_id; closed : gset na_id; peers : gset na_id }.

(** An object can be used when it is alive and no object waits for its end. *)
#[export] Instance nets_elem_of : ElemOf na_id nets := fun n x => n ∈ alive x /\ closed x = ∅.
#[export] Instance nets_eq_dec : EqDecision nets.
Proof. solve_decision. Defined.
Definition connected (n : na_id) (o : nets) : Prop := n ∈ o /\ n ∈ peers o.

(** An object comes into being, and goes. *)
Definition born (n : na_id) (o o' : nets) : Prop :=
  n ∉ alive o /\ alive o' = {[n]} ∪ alive o /\ closed o' = ∅ /\ peers o ⊆ peers o'.
Definition gone (n : na_id) (o o' : nets) : Prop :=
  alive o' = alive o ∖ {[n]} /\ closed o' = ∅ /\ peers o ∖ {[n]} ⊆ peers o'.

(** The outcome of a call that makes an object. *)
Definition makes {W} (live : W -> nets) (w : W) (x : res na_id * W) : Prop :=
  match x with
  | (Ret na, w') => born na (live w) (live w')
  | (Throw _, w') => live w' = live w
  end.
Definition makes_peer {W} (live : W -> nets) (w : W) (x : res na_id * W) : Prop :=
  makes live w x /\ if x is (Ret na, w') then na ∈ peers (live w') else True.

(** What can be relied on in an implementation of [NetworkAbstraction], in the handler of
    raw sockets and in the C library.  Whether a first object can be made may depend on the
    past: see SecureNetwork. *)
Class NetLaws {W : Type} (E : Env W) : Type := {
  live : W -> nets;
  may_create : option bytes -> W -> Prop;
  live_Read n k w : connected n (live w) -> live (na_Read n k w).2 = live w;
  live_Send n d w : connected n (live w) -> live (na_Send n d w).2 = live w;
  live_Close n w :
    n ∈ live w -> alive (live (na_Close n w)) = alive (live w) /\ closed (live (na_Close n w)) ⊆ {[n]} /\
                  peers (live w) ⊆ peers (live (na_Close n w));
  live_Accept n w : n ∈ live w -> makes_peer live w (na_Accept n w);
  live_delete n w : n ∈ alive (live w) -> closed (live w) ⊆ {[n]} -> gone n (live w) (live (na_delete n w));
  live_create cert w : may_create cert w -> closed (live w) = ∅ -> makes live w (na_create cert w);
  live_RegisterBindHelper n w : n ∈ live w -> live (na_RegisterBindHelper n w) = live w;
  live_SetBindAddress n a w : n ∈ live w -> live (na_SetBindAddress n a w) = live w;
  live_Init n port w : n ∈ live w -> live (na_Init n port w).2 = live w;
  live_OnConnect c w : live (rsh_OnConnect c w) = live w;
  live_OnDisconnect c w : live (rsh_OnDisconnect c w) = live w;
  live_OnData c d w : live (rsh_OnData c d w).2 = live w;
  live_pthread_create w : live (pthread_create w).2 = live w;
  live_cond_broadcast w : live (pthread_cond_broadcast w) = live w;
  live_select fds t w : live (select fds t w).2 = live w
}.

(** The application leaves the network objects alone. *)
Class AppNetLaws {W : Type} {E : Env W} (L : NetLaws E) (A : App W) : Prop := {
  live_RouteRequest req w : live (RouteRequest req w).2 = live w;
  live_HandleThreadException tid req e w : live (HandleThreadException tid req e w).2 = live w
}.

(** The live objects are those of the rest of the program and those of [l], each once, and
    none of them is closed. *)
Definition own (b : gset na_id) (l : list na_id) (o : nets) : Prop :=
  NoDup l /\ b ## list_to_set l /\ alive o = b ∪ list_to_set l /\ closed o = ∅.

#[export] Instance own_proper b : Proper (Permutation ==> eq ==> iff) (own b).
Proof.
  intros l l' Hl o o' <-. unfold own. assert (list_to_set l =@{gset na_id} list_to_set l') as -> by by apply list_to_set_perm_L.
  by rewrite Hl.
Qed.

Lemma own_live b l o n : own b l o -> n ∈ l -> n ∈ o.
Proof. intros (_ & _ & Ha & Hc) Hn. split; [|done]. rewrite Ha. apply elem_of_union_r. by apply elem_of_list_to_set. Qed.

Lemma usable_closed n (o : nets) : n ∈ o -> closed o ⊆ {[n]}.
Proof. intros [_ ->]. set_solver. Qed.

Lemma own_add b l o o' n : own b l o -> born n o o' -> own b (n :: l) o'.
Proof.
  intros (Hn & Hd & Ha & _) (Hf & Ha' & Hc & _). unfold own. rewrite Ha', Ha in *. cbn [list_to_set].
  split_and!; [constructor; set_solver|set_solver|set_solver|done].
Qed.

Lemma own_remove b l o o' n : own b (n :: l) o -> gone n o o' -> own b l o'.
Proof.
  intros ([Hn Hl]%NoDup_cons & Hd & Ha & _) (Ha' & Hc & _). unfold own. rewrite Ha', Ha. cbn [list_to_set] in *.
  assert (n ∉ (list_to_set l : gset na_id)) by by rewrite elem_of_list_to_set.
  split_and!; [done|set_solver|set_solver|done].
Qed.

Lemma own_alone o o' n : born n o o' -> own (alive o) [n] o'.
Proof.
  intros (Hf & Ha & Hc & _). split_and!; [apply NoDup_singleton|set_solver|rewrite Ha; set_solver|done].
Qed.

Lemma born_usable n o o' : born n o o' -> n ∈ o'.
Proof. intros (_ & Ha & Hc & _). split; [rewrite Ha; set_solver|done]. Qed.

Lemma born_gone n o o1 o2 : born n o o1 -> gone n o1 o2 -> alive o2 = alive o /\ closed o2 = ∅.
Proof. intros (Hf & Ha & _ & _) (Ha' & Hc & _). rewrite Ha', Ha. split; [set_solver|done]. Qed.

Lemma gone_after n o o1 o2 : alive o1 = alive o -> peers o ⊆ peers o1 -> gone n o1 o2 -> gone n o o2.
Proof. intros Ha Hp (Ha' & Hc & Hp'). unfold gone. rewrite <- Ha. split_and!; [done|done|set_solver]. Qed.

(** Objects with a peer keep it as long as they are there. *)
Lemma peers_grow (l : list na_id) (p p' : gset na_id) : p ⊆ p' -> Forall (.∈ p) l -> Forall (.∈ p') l.
Proof. rewrite !Forall_forall. set_solver. Qed.

Lemma peers_gone (l : list na_id) n o o' : n ∉ l -> gone n o o' -> Forall (.∈ peers o) l -> Forall (.∈ peers o') l.
Proof. intros Hn (_ & _ & Hp). rewrite !Forall_forall. intros Hl x Hx. apply Hp. set_solver. Qed.

Section networks.
Context {W : Type} {E : Env W} {L : NetLaws E} {A : App W} {LA : AppNetLaws L A} {B : Boost}.
Variables (beyond stale : bytes).

(** The objects of a server: the listening one, and those of the connections. *)
Abbreviation nas l := (m_poNetworkAbstraction <$> l).
Definition networks (s : EHSServer) : list na_id := srv_network s :: nas (m_oEHSConnectionList s).

(** ** Connections *)
Abbreviation na_of := m_poNetworkAbstraction.

Lemma Send_live n d (w : W) r w' : connected n (live w) -> na_Send n d w = (r, w') -> live w' = live w.
Proof using L. intros Hn E1. pose proof (live_Send n d w Hn) as H. by rewrite E1 in H. Qed.

Lemma next_request_live mode c p (w : W) ok c' p' w' :
  next_request mode c p w = (ok, c', p', w') -> na_of c' = na_of c /\ live w' = live w.
Proof using L.
  unfold next_request. destruct (m_poCurrentHttpRequest c) as [r|]; [|by intros [= <- <- <- <-]].
  destruct (decide _); [|by intros [= <- <- <- <-]]. destruct (decide (mode = _)).
  - pose proof (live_pthread_create (pthread_cond_broadcast w)) as Hp. rewrite live_cond_broadcast in Hp.
    destruct (pthread_create _) as [[t|] w1]; by intros [= <- <- <- <-].
  - intros [= <- <- <- <-]. by rewrite live_cond_broadcast.
Qed.

Lemma add_buffer_loop_live n mode c p (w : W) o c' p' w' :
  add_buffer_loop n mode c p w = Some (o, c', p', w') -> na_of c' = na_of c /\ live w' = live w.
Proof using L.
  revert c p w. induction n as [|n IH]; intros c p w; [done|]. cbn [add_buffer_loop].
  destruct (next_request mode c p w) as [[[ok c1] p1] w1] eqn:E1. apply next_request_live in E1 as [H1 H2].
  destruct ok; cbn [negb]; [|intros [= <- <- <- <-]; by rewrite H1, H2].
  destruct (m_poCurrentHttpRequest c1) as [r|]; [|done]. destruct (ParseData r _) as [[[r' b'] [x|e]]|]; [|by intros [= <- <- <- <-]|done].
  destruct (m_nCurrentHttpParseState r'); try (by intros [= <- <- <- <-]).
  intros [H3 H4]%IH. by rewrite H3, H4.
Qed.

Lemma AddBuffer_live mode d k c p (w : W) o c' p' w' :
  AddBuffer mode d k c p w = Some (o, c', p', w') -> na_of c' = na_of c /\ live w' = live w.
Proof using L.
  unfold AddBuffer. destruct (k <=? 0)%Z; [by intros [= <- <- <- <-]|].
  destruct (_ <? _)%Z; [by intros [= <- <- <- <-]|]. intros [H1 H2]%add_buffer_loop_live. by rewrite H1, H2.
Qed.

(** ** The server *)

(** What a server owns, given what the rest of the program has. *)
Definition owns (b : gset na_id) (s : EHSServer) (w : W) : Prop :=
  own b (networks s) (live w) /\ Forall (.∈ peers (live w)) (tail (networks s)).

Lemma owns_same b s s' (w w' : W) : networks s' = networks s -> live w' = live w -> owns b s w -> owns b s' w'.
Proof. unfold owns. by intros -> ->. Qed.

Lemma owns_conn b s (w : W) c : owns b s w -> c ∈ m_oEHSConnectionList s -> connected (na_of c) (live w).
Proof.
  intros [Ho Hp] Hc. apply (list_elem_of_fmap_2 na_of) in Hc. split.
  - eapply own_live; [exact Ho|]. by right.
  - by eapply Forall_forall in Hp.
Qed.

Lemma owns_network b s (w : W) : owns b s w -> srv_network s ∈ live w.
Proof. intros [Ho _]. eapply own_live; [exact Ho|]. left. Qed.

(** A connection comes last, and goes from anywhere. *)
Lemma owns_add b s s' (w w' : W) n :
  networks s' = networks s ++ [n] -> owns b s w -> born n (live w) (live w') -> n ∈ peers (live w') -> owns b s' w'.
Proof using.
  intros Hs [Ho Hp] Hb Hn. split.
  - rewrite Hs, <- Permutation_cons_append. by eapply own_add.
  - rewrite Hs. unfold networks in *. cbn [tail app] in *. apply Forall_app. split; [|by constructor].
    eapply peers_grow; [apply Hb|exact Hp].
Qed.

Lemma owns_remove b s s' (w w' : W) n l1 l2 :
  networks s = srv_network s :: l1 ++ n :: l2 -> networks s' = srv_network s :: l1 ++ l2 ->
  owns b s w -> gone n (live w) (live w') -> owns b s' w'.
Proof using.
  unfold owns. intros -> -> [Ho Hp] Hg. rewrite <- Permutation_middle, Permutation_swap in Ho. split; [by eapply own_remove|].
  cbn [tail] in *. rewrite Forall_app, Forall_cons in Hp. eapply peers_gone; [|exact Hg|apply Forall_app; tauto].
  destruct Ho as ([Hn _]%NoDup_cons & _). by apply not_elem_of_cons in Hn as [_ ?].
Qed.

(** Replacing a connection by one with the same network object. *)
Lemma nas_insert (i : nat) c c' (l : list EHSConnection) : l !! i = Some c -> na_of c' = na_of c -> nas (<[i := c']> l) = nas l.
Proof. intros Hc Hn. rewrite list_fmap_insert. apply list_insert_id. by rewrite list_lookup_fmap, Hc, Hn. Qed.

Lemma nas_update id c c' (l : list EHSConnection) : find_conn id l = Some c -> na_of c' = na_of c -> nas (update_conn id (fun _ => c') l) = nas l.
Proof.
  intros Hf Hn. induction l as [|x l IH]; [done|]. cbn [update_conn find_conn] in *.
  case_decide; simplify_eq; rewrite !fmap_cons; [by rewrite Hn|by rewrite IH].
Qed.

Lemma find_conn_in id c l : find_conn id l = Some c -> c ∈ l.
Proof.
  induction l as [|x l IH]; [done|]. cbn [find_conn]. case_decide; [intros [= ->]; left|]. intros H1. right. by apply IH.
Qed.

(** Removing connections: the one that [CheckDone] closes is deleted before anything else
    happens. *)
Lemma CheckDone_live c (w : W) :
  na_of c ∈ live w ->
  alive (live (CheckDone c w).2) = alive (live w) /\ closed (live (CheckDone c w).2) ⊆ {[na_of c]} /\
  peers (live w) ⊆ peers (live (CheckDone c w).2).
Proof using L.
  intros Hn. pose proof (usable_closed _ _ Hn).
  unfold CheckDone. destruct (negb _); [|done]. destruct (_ <=? _)%Z; [|done]. cbn [snd].
  destruct (negb _); [by apply live_Close|done].
Qed.

Lemma scan_done_checks l (w : W) :
  match scan_done l w with
  | (None, w') => w' = w
  | (Some id, w') => exists l1 c l2, l = l1 ++ c :: l2 /\ conn_this c = id /\ w' = (CheckDone c w).2
  end.
Proof.
  induction l as [|c l IH]; [done|]. cbn [scan_done]. pose proof (CheckDone_finished c w) as Hf.
  destruct (is_finished c) eqn:Ef.
  - destruct (CheckDone c w) as [d w1] eqn:E1. cbn in Hf. subst d. exists [], c, l. by rewrite E1.
  - rewrite (CheckDone_world c w Ef). destruct (scan_done l w) as [[id|] w']; [|done].
    destruct IH as (l1 & c' & l2 & -> & Hid & Hc). by exists (c :: l1), c', l2.
Qed.

Lemma delete_live c (w : W) :
  na_of c ∈ alive (live w) -> closed (live w) ⊆ {[na_of c]} ->
  gone (na_of c) (live w) (live (EHSConnection_delete has_RawSocketHandler c w)).
Proof using L.
  intros Hn Hc. unfold EHSConnection_delete. destruct (_ && _); [|by apply live_delete].
  rewrite <- (live_OnDisconnect (conn_this c) w) in Hn, Hc |- *. by apply live_delete.
Qed.

Lemma remove_finished_owns n b s (w : W) o s' w' :
  distinct_conns s -> owns b s w -> remove_finished n s w = Some (o, s', w') -> owns b s' w'.
Proof using L.
  revert s w. induction n as [|n IH]; intros s w Hd Ho; [done|]. cbn [remove_finished].
  pose proof (scan_done_checks (m_oEHSConnectionList s) w) as Hs.
  destruct (scan_done _ w) as [[id|] w1]; [|intros [= <- <- <-]; by eapply owns_same; [|by rewrite Hs|exact Ho]].
  destruct Hs as (l1 & c & l2 & E1 & <- & ->).
  assert (connected (na_of c) (live w)) as [Hlive _] by (eapply owns_conn; [exact Ho|rewrite E1; apply elem_of_app; right; left]).
  destruct (CheckDone_live c w Hlive) as (Ha & Hc & Hp).
  unfold RemoveEHSConnection, distinct_conns in *. rewrite E1 in Hd |- *. rewrite remove_loop_found by done. apply IH.
  - unfold distinct_conns. cbn. revert Hd. rewrite !fmap_app. cbn. rewrite <- Permutation_middle. by intros [_ ?]%NoDup_cons.
  - eapply (owns_remove _ s _ w _ (na_of c) (nas l1) (nas l2)); [..|exact Ho|].
    + unfold networks. by rewrite E1, fmap_app.
    + unfold networks. cbn. by rewrite fmap_app.
    + eapply gone_after; [exact Ha|exact Hp|]. apply delete_live; [rewrite Ha; apply Hlive|done].
Qed.

Lemma end_accepting_owns b s (w : W) o s' w' :
  distinct_conns s -> owns b s w -> end_accepting s w = Some (o, s', w') -> owns b s' w'.
Proof using L.
  intros Hd Ho. unfold end_accepting. destruct (ClearIdleConnections s w) as [[[o1 s1] w1]|] eqn:E1; [|done].
  assert (owns b s1 w1) as Ho1.
  { eapply remove_finished_owns in E1; [done|..].
    - unfold distinct_conns. cbn. by rewrite clear_idle_this.
    - eapply owns_same; [|done|exact Ho]. unfold networks. cbn. f_equal. rewrite <- list_fmap_compose.
      apply list_fmap_ext. intros _ c _. unfold compose, clear_idle. by destruct (_ && _). }
  destruct o1; intros [= <- <- <-]; exact Ho1.
Qed.

(** Accepting and reading. *)
Lemma accept_connection_networks na s (w : W) : networks (accept_connection na s w) = networks s ++ [na].
Proof using.
  unfold networks, accept_connection. cbn. rewrite fmap_app. cbn.
  assert (forall c, na_of (if has_param #"parsecontenttype" s then SetParseContentType (to_string (param #"parsecontenttype" s)) c else c) =
    na_of c) as -> by by intros c; destruct (has_param _ s).
  assert (forall c, na_of (if has_param #"maxrequestsize" s then SetMaxRequestSize (to_unsigned_long (param #"maxrequestsize" s)) c else c) =
    na_of c) as -> by by intros c; destruct (has_param _ s).
  done.
Qed.

Lemma CheckAcceptSocket_owns b s (w : W) o s' w' :
  owns b s w -> CheckAcceptSocket s w = (o, s', w') -> owns b s' w'.
Proof using L.
  intros Ho. unfold CheckAcceptSocket. destruct (FD_ISSET _ _); [|by intros [= <- <- <-]].
  pose proof (live_Accept (srv_network s) w (owns_network _ _ _ Ho)) as Ha.
  destruct (na_Accept _ _) as [[na|e] w1]; destruct Ha as [Hm Hp]; cbn in Hm.
  - intros [= <- <- <-]. eapply owns_add; [|exact Ho|exact Hm|exact Hp]. apply accept_connection_networks.
  - assert (owns b s w1) by by eapply owns_same. destruct e; try (by intros [= <- <- <-]).
    destruct (find _ _); by intros [= <- <- <-].
Qed.

(** Requests. *)
Lemma next_request_from_networks k i s : networks (next_request_from k i s).2 = networks s.
Proof.
  revert i s. induction k as [|k IH]; intros i s; [done|]. cbn [next_request_from].
  destruct (m_oEHSConnectionList s !! i) as [c|] eqn:Hc; [|done]. destruct (conn_GetNextRequest c) as [r c1] eqn:E1.
  assert (networks (s <| m_oEHSConnectionList ::= <[i := c1]> |>) = networks s) as Hn.
  { unfold networks. cbn. rewrite (nas_insert _ c); [done|done|]. unfold conn_GetNextRequest in E1.
    destruct (m_oHttpRequestList c); by injection E1 as <- <-. }
  destruct r; [exact Hn|]. by rewrite IH, Hn.
Qed.

Lemma choose_job_networks rnd tid s : networks (choose_job rnd tid s).2 = networks s.
Proof.
  unfold choose_job. set (s0 := s <| m_oCurrentRequest ::= _ |>). assert (networks s0 = networks s) as H0 by done.
  assert (networks (srv_GetNextRequest rnd s0).2 = networks s) as H1.
  { unfold srv_GetNextRequest. case_decide; [done|]. by rewrite next_request_from_networks. }
  destruct (_ || _); [|by destruct (m_bAccepting s0)]. destruct (srv_GetNextRequest rnd s0) as [[r|] s1]; [exact H1|].
  by destruct (m_bAccepting s1).
Qed.

(** Construction and destruction. *)
Lemma start_threads_live n s (w : W) o s' w' :
  start_threads n s w = (o, s', w') ->
  live w' = live w /\ networks s' = networks s /\ (m_oEHSConnectionList s = [] -> m_oEHSConnectionList s' = []) /\
  m_nThreads s' = m_nThreads s /\ m_bAccepting s' = m_bAccepting s /\ m_nRequestsPending s' = m_nRequestsPending s.
Proof using L.
  revert s w. induction n as [|n IH]; intros s w; cbn [start_threads]; [by intros [= <- <- <-]|].
  pose proof (live_pthread_create w) as Hl. destruct (pthread_create w) as [[t|] w1]; cbn [snd] in Hl.
  - intros (H1 & H2 & H3)%IH. split; [congruence|]. by split.
  - by intros [= <- <- <-].
Qed.

Lemma start_mode_live s (w : W) o s' w' :
  start_mode s w = (o, s', w') ->
  live w' = live w /\ networks s' = networks s /\ (m_oEHSConnectionList s = [] -> m_oEHSConnectionList s' = []) /\
  m_nThreads s' = m_nThreads s /\ m_bAccepting s' = m_bAccepting s /\ m_nRequestsPending s' = m_nRequestsPending s.
Proof using L.
  unfold start_mode. destruct (datum_eq _ _); [by intros H%start_threads_live|]. destruct (datum_eq _ _).
  - pose proof (live_pthread_create w) as Hl. destruct (pthread_create w) as [[t|] w1]; by intros [= <- <- <-].
  - destruct (datum_eq _ _); by intros [= <- <- <-].
Qed.

(** The certificate the constructor asks a secure socket with, if it asks for one. *)
Definition wanted_certificate (params : EHSServerParameters) : option bytes :=
  let get k := default datum_empty (sm_find k params) in
  if negb (to_int (get #"https") =? 0)%Z then Some (to_string (get #"certificate")) else None.
Definition may_start (top : option EHSServerParameters) (w : W) : Prop :=
  if top is Some params then may_create (wanted_certificate params) w else True.

(** Nothing has been gained or lost. *)
Definition restored (o o' : nets) : Prop := alive o' = alive o /\ closed o' = ∅.

Lemma deleted_restored na o (w : W) : born na o (live w) -> restored o (live (na_delete na w)).
Proof using L.
  intros Hb. pose proof (born_usable _ _ _ Hb) as Hn. eapply born_gone; [exact Hb|].
  apply live_delete; [apply Hn|by apply usable_closed].
Qed.

Lemma EHSServer_new_owns top (w : W) r w' :
  may_start top w -> closed (live w) = ∅ -> EHSServer_new top w = (r, w') ->
  match r with
  | Ret s => owns (alive (live w)) s w' /\ config_ok (Config s w' ∅)
  | Throw _ => restored (live w) (live w')
  end.
Proof using L.
  intros Hm Hw. unfold EHSServer_new. destruct top as [params|]; [|by intros [= <- <-]]. cbv zeta.
  pose proof (live_create _ w Hm Hw) as Hc. unfold wanted_certificate in Hc.
  destruct (na_create _ w) as [[na|e] w1]; cbn in Hc; [|intros [= <- <-]; by rewrite Hc]. pose proof (born_usable _ _ _ Hc) as Hn.
  set (w2 := if datum_ne _ _ then _ else w1).
  assert (live w2 = live w1) as H2 by (unfold w2; destruct (datum_ne _ _); [by apply live_SetBindAddress|done]).
  assert (live (na_RegisterBindHelper na w2) = live w1) as H3 by (rewrite <- H2; apply live_RegisterBindHelper; by rewrite H2).
  match goal with |- context [na_Init na ?port ?w3] => pose proof (live_Init na port w3) as Hi end.
  rewrite H3 in Hi. specialize (Hi Hn). destruct (na_Init na _ _) as [[u|e] w4]; cbn [snd] in Hi.
  - destruct (start_mode _ w4) as [[[u'|e] s] w5] eqn:E5; apply start_mode_live in E5 as (H5 & Hns & Hcs & Ht & Ha & Hp); rewrite Hi in H5.
    + intros [= <- <-]. specialize (Hcs eq_refl). split.
      * unfold owns. rewrite Hns, H5. split; [by apply own_alone|constructor].
      * split; [|split; [split|]]; cbn.
        -- split; unfold distinct_conns; rewrite ?Hcs, ?Hp; [constructor|constructor|done].
        -- intros t1 t2. by rewrite lookup_empty.
        -- intros t. by rewrite lookup_empty.
        -- unfold threads_counted. cbn. by rewrite Ht.
    + intros [= <- <-]. apply deleted_restored. by rewrite H5.
  - intros [= <- <-]. apply deleted_restored. by rewrite Hi.
Qed.

Lemma delete_all_owns b l (w : W) : own b (nas l) (live w) -> alive (live (delete_all l w)) = b /\ closed (live (delete_all l w)) = ∅.
Proof using L.
  revert w. induction l as [|c l IH]; intros w Ho; cbn [delete_all].
  - destruct Ho as (_ & _ & Ha & Hc). split; [|done]. rewrite Ha. apply (right_id_L ∅ (∪)).
  - assert (na_of c ∈ live w) as Hc by (apply (own_live _ _ _ _ Ho); left).
    apply IH. eapply own_remove; [exact Ho|]. apply delete_live; [apply Hc|by apply usable_closed].
Qed.

Lemma EHSServer_delete_owns b s (w : W) :
  owns b s w -> alive (live (EHSServer_delete s w)) = b /\ closed (live (EHSServer_delete s w)) = ∅.
Proof using L.
  intros Ho. pose proof (owns_network _ _ _ Ho) as Hn. unfold EHSServer_delete. apply delete_all_owns.
  eapply own_remove; [apply Ho|]. apply live_delete; [apply Hn|by apply usable_closed].
Qed.

End networks.
