(* ===== verification/InterleaveNetworks.v ===== *)
(** * The network objects in the interleavings of the threads

    Every step of a thread, as long as it uses connections that exist, keeps the ownership
    of the network objects.  (A thread that is about to use a connection that has been deleted
    takes no step here: see InterleaveBooks and InterleaveRaces.) *)
From S2P Require Import Prelude Boost StdMap Datum EhsTypes HttpRequest HttpResponse Network Connection.
From S2P Require Import HttpRequestFacts HttpRequestProps HttpRender ConnectionFacts Server ServerFacts Threads Interleave.
From S2P Require Import Ehs EhsFacts InterleaveFacts InterleaveBooks ServerNetworks.

Section networks.
Context {W : Type} {E : Env W} {L : NetLaws E} {A : App W} {LA : AppNetLaws L A} {B : Boost}.
Variables (beyond stale : bytes).

Abbreviation na_of := m_poNetworkAbstraction.

(** ** Calls on the network object of a connection *)
Lemma send_step_live k id r sp c (w : W) p' c' w' :
  connected (na_of c) (live w) -> send_step beyond k id r sp w c = (p', c', w') -> live w' = live w.
Proof using L.
  intros Hn. destruct sp; cbn [send_step].
  - destruct (send_start r c); by intros [= _ _ <-].
  - unfold send_head. destruct r as [g|h].
    + case_bool_decide; [|by intros [= _ _ <-]]. destruct (na_Send _ _ w) as [n w1] eqn:E1. apply Send_live in E1; [|done].
      by intros [= _ _ <-].
    + destruct (na_Send _ _ w) as [n w1] eqn:E1. apply Send_live in E1; [|done]. by intros [= _ _ <-].
  - intros [= _ _ <-]. destruct has_RawSocketHandler; [apply live_OnConnect|done].
  - intros [= _ _ <-]. unfold send_body. destruct r as [g|h]; [done|]. destruct (negb _); [|done].
    destruct (0 <? _)%Z; [by apply live_Send|done].
  - by intros [= _ _ <-].
Qed.

Lemma read_client_live i s c (w : W) p' c' w' :
  connected (na_of c) (live w) -> read_client i s c w = (p', c', w') -> na_of c' = na_of c /\ live w' = live w.
Proof using L.
  intros Hn. unfold read_client. destruct (FD_ISSET _ _); [|by intros [= _ <- <-]].
  pose proof (live_Read (na_of c) read_size w Hn) as Hr. destruct (na_Read _ _ _) as [[n buf] w1]. cbn [snd] in Hr.
  destruct (IsRaw c).
  - destruct (n <? 0)%Z; [by intros [= _ <- <-]|]. destruct (_ && _); [|by intros [= _ <- <-]].
    pose proof (live_OnData (conn_this (UpdateLastActivity w1 c)) (take (Z.to_nat n) buf) w1) as Ho.
    destruct (rsh_OnData _ _ _) as [[[]|] w2]; intros [= _ <- <-]; by rewrite <- Hr.
  - destruct (n <=? 0)%Z; by intros [= _ <- <-].
Qed.

Lemma buffer_client_live i buf n s c (w : W) p' c' pending w' :
  buffer_client stale i buf n s c w = Some (p', c', pending, w') -> na_of c' = na_of c /\ live w' = live w.
Proof using L.
  unfold buffer_client. destruct (AddBuffer _ _ _ _ _ _) as [[[[o c1] p1] w1]|] eqn:Ea; [|done].
  apply AddBuffer_live in Ea. by intros [= _ <- _ <-].
Qed.

(** ** Steps *)
Lemma with_conn_owns b id s (w : W) f p' s' w' :
  owns b s w -> with_conn id s f = Some (p', s', w') ->
  (forall c q c', f c = (q, c', w') -> connected (na_of c) (live w) -> na_of c' = na_of c /\ live w' = live w) ->
  owns b s' w'.
Proof using.
  intros Ho (c & q & c' & Hf & Hq & -> & ->)%with_conn_Some Hk.
  destruct (Hk _ _ _ Hq) as [Hn Hl]; [eapply owns_conn; [exact Ho|by eapply find_conn_in]|].
  eapply owns_same; [|exact Hl|exact Ho]. unfold networks, put. cbn. by rewrite (nas_update _ c).
Qed.

Lemma next_iteration_owns b tid s (w : W) p' s' w' : owns b s w -> next_iteration tid s w = (p', s', w') -> owns b s' w'.
Proof using. intros Ho. unfold next_iteration. destruct (keep_running tid s); by intros [= _ <- <-]. Qed.

Lemma run_thread_owns b rnd tid p s (w : W) p' s' w' :
  distinct_conns s -> owns b s w -> run_thread beyond stale rnd tid p s w = Some (p', s', w') -> owns b s' w'.
Proof using LA.
  intros Hd Ho. destruct p as [| | |req|r|k id r sp|id| |e| | |i|i buf n|i id|]; cbn [run_thread].
  - by intros [= _ <- <-].
  - pose proof (choose_job_networks rnd tid s) as Hn. destruct (choose_job rnd tid s) as [j s1]. intros [= _ <- <-].
    by eapply owns_same.
  - intros H%(inj Some). eapply next_iteration_owns; [|exact H]; done.
  - pose proof (live_RouteRequest req w) as Hl. destruct (RouteRequest _ _) as [[h|e] w1]; intros [= _ <- <-]; by eapply owns_same.
  - destruct (m_poEHSConnection _) as [id|]; [|done]. intros H. eapply with_conn_owns; [exact Ho|exact H|].
    intros c q c' (_ & _ & H1 & -> & _)%pop_response_keeps _. by rewrite H1.
  - intros H. eapply with_conn_owns; [exact Ho|exact H|]. intros c q c' Hq Hn.
    split; [by apply send_step_keeps in Hq as (_ & _ & ? & _)|by eapply send_step_live].
  - intros H. eapply with_conn_owns; [exact Ho|exact H|]. intros c q c' (_ & _ & H1 & -> & _)%pop_response_keeps _. by rewrite H1.
  - intros H%(inj Some). eapply next_iteration_owns; [|exact H]; done.
  - pose proof (live_HandleThreadException tid (m_oCurrentRequest s !! tid) e w) as Hl.
    destruct (HandleThreadException _ _ _ _) as [[r|] w1]; cbn [snd] in Hl.
    + intros [= _ <- <-]. by eapply owns_same.
    + intros H%(inj Some). eapply next_iteration_owns; [|exact H]. by eapply (owns_same b s).
  - unfold select_step, CreateFdSet. cbv zeta. pose proof (live_select (m_oReadFds (CreateFdSet s w).2) 1000 w) as Hl.
    unfold CreateFdSet in Hl. cbn [snd] in Hl.
    destruct (select _ _ _) as [[[|fd fds]|[]] w1]; cbn [snd] in Hl; intros [= _ <- <-]; by eapply (owns_same b s).
  - destruct (CheckAcceptSocket s w) as [[o s1] w1] eqn:E1. apply CheckAcceptSocket_owns with (b := b) in E1; [|done].
    destruct o; by intros [= _ <- <-].
  - destruct (_ !! i) as [c|] eqn:Hi; [|by intros [= _ <- <-]]. destruct (read_client i s c w) as [[q c'] w1] eqn:Er.
    apply read_client_live in Er as [Hn Hl]; [|eapply owns_conn; [exact Ho|by eapply list_elem_of_lookup_2]].
    intros [= _ <- <-]. eapply owns_same; [|exact Hl|exact Ho]. unfold networks. cbn. by rewrite (nas_insert _ c).
  - destruct (_ !! i) as [c|] eqn:Hi; [|done].
    destruct (buffer_client stale i buf n s c w) as [[[[q c'] pending] w1]|] eqn:Eb; [|done]. intros [= _ <- <-].
    apply buffer_client_live in Eb as [Hn Hl]. eapply owns_same; [|exact Hl|exact Ho]. unfold networks. cbn. by rewrite (nas_insert _ c).
  - intros H. eapply with_conn_owns; [exact Ho|exact H|]. by intros c q c' [= _ <- <-].
  - destruct (end_accepting s w) as [[[o s1] w1]|] eqn:E1; [|done]. apply end_accepting_owns with (b := b) in E1; [|done..].
    destruct o; [intros H%(inj Some); by eapply next_iteration_owns; [|exact H]|by intros [= _ <- <-]].
Qed.

Lemma fstep_owns b c c' :
  fstep beyond stale c c' -> fine_books c -> owns b (fc_server c) (fc_world c) -> owns b (fc_server c') (fc_world c').
Proof using LA.
  intros Hs [Hok _ _ _ _] Ho. destruct Hs as [s w ts tid Hin|rnd tid c c' Hr Hs|s w ts]; [done| |done].
  destruct c as [s w ts]. unfold step_thread in Hs. cbn [fc_server fc_world fc_threads] in *.
  destruct (ts !! tid) as [p|] eqn:Hp; cbn in Hs; [|done].
  destruct (run_thread beyond stale rnd tid p s w) as [[[p' s'] w']|] eqn:Hrun; cbn in Hs; [|done]. injection Hs as <-.
  eapply run_thread_owns; [apply Hok|exact Ho|exact Hrun].
Qed.

(** From the construction of a server on, all its threads can reach. *)
Lemma started_owns b s (w : W) c :
  owns b s w -> config_ok (Config s w ∅) -> rtc (fstep beyond stale) (FConfig s w ∅) c ->
  owns b (fc_server c) (fc_world c) /\ fine_books c.
Proof using LA.
  intros Ho (Hok & _ & Hn) Hr. assert (fine_books (FConfig s w ∅)) as Hb by by apply start_books.
  revert Ho Hb. change (owns b s w) with (owns b (fc_server (FConfig s w ∅)) (fc_world (FConfig s w ∅))). clear Hok Hn.
  induction Hr as [c|c1 c2 c3 H1 _ IH]; [by split|]. intros Ho Hb. apply IH; [by eapply fstep_owns|by eapply fstep_books].
Qed.
End networks.
