(* ===== verification/SocketNetwork.v ===== *)
(** * The network of a server made of sockets (socket.h, networkabstraction.h)

    The server is written against the interface of [NetworkAbstraction], the class [Env].
    Here the interface is implemented by the objects of Socket, as in a build without SSL:
    the objects that exist are a map, and every virtual function is the method of [Socket]
    on the object.  The laws of ServerNetworks hold of the implementation, so what is proved
    of every network there becomes, at the end of the file, a theorem on descriptors. *)
From S2P Require Import Prelude Boost StdMap Datum Socket SocketFacts SocketOwners EhsTypes HttpRequest HttpResponse.
From S2P Require Import Network Connection Server ServerFacts Threads Interleave InterleaveBooks ServerNetworks InterleaveNetworks.

Local Open Scope Z_scope.

(** What the server uses that is not the network. *)
Class Host (W : Type) : Type := {
  host_OnConnect : conn_id -> W -> W;
  host_OnDisconnect : conn_id -> W -> W;
  host_OnData : conn_id -> bytes -> W -> res bool * W;
  host_time : W -> Z;
  host_keepalive : Z -> bool -> W -> W;
  host_pthread_create : W -> option thread_id * W;
  host_cond_broadcast : W -> W;
  host_select : list Z -> Z -> W -> select_result * W
}.

(** What can have gone wrong: a call on an object that does not exist, whose behaviour is
    undefined, or a call that waits for longer than the fuel lasts.  What a world says that
    has such a mark is no claim about the program. *)
Inductive trouble : Type :=
| Dangling
| Hangs.
#[export] Instance trouble_eq_dec : EqDecision trouble.
Proof. solve_decision. Defined.

(** The objects that exist, the system, and what went wrong first. *)
Record net_world (W : Type) : Type := MkNetWorld {
  objects : gmap na_id Socket;
  system : W;
  went_wrong : option trouble
}.
#[global] Arguments MkNetWorld {W}.
#[global] Arguments objects {W}.
#[global] Arguments system {W}.
#[global] Arguments went_wrong {W}.
#[export] Instance eta_net_world {W} : Eta (net_world W) := fun x => MkNetWorld (objects x) (system x) (went_wrong x).

Definition wrong {W} (t : trouble) (x : net_world W) : net_world W :=
  x <| went_wrong ::= fun o => Some (default t o) |>.

Section network.
Context {W : Type} {OS : Os W} {H : Host W}.
Variables (fuel : nat) (helper : option nat).

(** ** The objects *)

(** A method called through a pointer. *)
Definition on_object {X} (n : na_id) (dflt : X) (method : Socket -> W -> option (X * Socket * W)) (x : net_world W) :
    X * net_world W :=
  match objects x !! n with
  | None => (dflt, wrong Dangling x)
  | Some s =>
      match method s (system x) with
      | None => (dflt, wrong Hangs x)
      | Some (a, s, w) => (a, x <| objects ::= <[n := s]> |> <| system := w |>)
      end
  end.

(** A getter, and what [new] and [delete] do to the map. *)
Definition get_object {X} (n : na_id) (dflt : X) (getter : Socket -> X) (x : net_world W) : X :=
  from_option getter dflt (objects x !! n).
Definition new_object (s : Socket) (x : net_world W) : na_id * net_world W :=
  let n := fresh (dom (objects x)) in (n, x <| objects ::= <[n := s]> |>).
Definition delete_object (n : na_id) (x : net_world W) : net_world W :=
  match objects x !! n with
  | None => wrong Dangling x
  | Some s => x <| objects ::= delete n |> <| system ::= Socket_delete s |>
  end.

(** ** The operations of [NetworkAbstraction] *)
Definition net_Read (n : na_id) (size : nat) : net_world W -> Z * bytes * net_world W :=
  on_object n (-1, []) (fun s w => '(k, d, w) ← sock_Read fuel (Z.of_nat size) s w; Some (k, d, s, w)).
Definition net_Send (n : na_id) (d : bytes) : net_world W -> Z * net_world W :=
  on_object n (-1) (fun s w => '(k, w) ← sock_Send fuel d 0 s w; Some (k, s, w)).
Definition net_Close (n : na_id) (x : net_world W) : net_world W :=
  (on_object n tt (fun s w => Some (tt, s, Close s w)) x).2.
Definition net_Accept (n : na_id) (x : net_world W) : res na_id * net_world W :=
  let '(r, x) := on_object n (Throw (Undefined #"Accept")) (Accept fuel) x in
  match r with
  | Ret c => let '(k, x) := new_object c x in (Ret k, x)
  | Throw e => (Throw e, x)
  end.
Definition net_Init (n : na_id) (port : Z) : net_world W -> res unit * net_world W :=
  on_object n (Throw (Undefined #"Init")) (fun s w => Some (Init port s w)).
Definition net_RegisterBindHelper (n : na_id) (x : net_world W) : net_world W :=
  (on_object n tt (fun s w => Some (tt, RegisterBindHelper helper s, w)) x).2.
Definition net_SetBindAddress (n : na_id) (a : bytes) (x : net_world W) : net_world W :=
  (on_object n tt (fun s w => Some (tt, SetBindAddress (Some a) s, w)) x).2.

(** The choice of the constructor of [EHSServer]: a secure socket, for which there is no
    code without SSL, or a plain one. *)
Definition net_create (certificate : option bytes) (x : net_world W) : res na_id * net_world W :=
  match certificate with
  | Some _ =>
      (Throw (Runtime_error #"EHSServer::EHSServer: EHS not compiled with SSL support. Cannot create HTTPS server."), x)
  | None => let '(n, x) := new_object Socket_new x in (Ret n, x)
  end.

Definition on_system {X} (f : W -> X * W) (x : net_world W) : X * net_world W :=
  let '(a, w) := f (system x) in (a, x <| system := w |>).

#[local] Instance socket_env : Env (net_world W) := {|
  na_GetFd n := get_object n INVALID_SOCKET m_fd;
  na_IsSecure _ _ := false;
  na_GetRemoteAddress n := get_object n [] GetRemoteAddress;
  na_GetLocalAddress n := get_object n [] GetLocalAddress;
  na_GetRemotePort n := get_object n 0 GetRemotePort;
  na_GetLocalPort n := get_object n 0 GetLocalPort;
  na_GetPeer n := get_object n [] GetPeer;
  na_Read := net_Read;
  na_Send := net_Send;
  na_Close := net_Close;
  na_Accept := net_Accept;
  na_delete := delete_object;
  na_create := net_create;
  na_RegisterBindHelper := net_RegisterBindHelper;
  na_ThreadCleanup _ x := x;
  na_SetBindAddress := net_SetBindAddress;
  na_Init := net_Init;
  rsh_OnConnect c x := x <| system ::= host_OnConnect c |>;
  rsh_OnDisconnect c x := x <| system ::= host_OnDisconnect c |>;
  rsh_OnData c d := on_system (host_OnData c d);
  time x := host_time (system x);
  setsockopt_keepalive fd b x := x <| system ::= host_keepalive fd b |>;
  pthread_create := on_system host_pthread_create;
  pthread_cond_broadcast x := x <| system ::= host_cond_broadcast |>;
  select fds ms := on_system (host_select fds ms)
|}.
End network.

(** ** The descriptors of the objects *)

(** The rest of what the server calls leaves the table of descriptors as it is. *)
Class HostLaws {W : Type} {OS : Os W} (L : OsLaws OS) (H : Host W) : Prop := {
  OnConnect_keeps c w : open_fds (host_OnConnect c w) = open_fds w;
  OnDisconnect_keeps c w : open_fds (host_OnDisconnect c w) = open_fds w;
  OnData_keeps c d w : open_fds (host_OnData c d w).2 = open_fds w;
  pthread_create_keeps w : open_fds (host_pthread_create w).2 = open_fds w;
  cond_broadcast_keeps w : open_fds (host_cond_broadcast w) = open_fds w;
  select_keeps fds ms w : open_fds (host_select fds ms w).2 = open_fds w
}.

Definition fds_of (m : gmap na_id Socket) : list Z := descriptors (map_to_list m).*2.

Lemma fds_of_update n s s' m : m !! n = Some s -> fds_of (<[n := s']> m) ≡ₚ held_list s' ++ fds_of (delete n m).
Proof.
  intros Hn. unfold fds_of, descriptors. rewrite <- insert_delete_eq, map_to_list_insert by apply lookup_delete_eq.
  by rewrite fmap_cons, bind_cons.
Qed.

Lemma fds_of_lookup n s m : m !! n = Some s -> fds_of m ≡ₚ held_list s ++ fds_of (delete n m).
Proof. intros Hn. rewrite <- (fds_of_update n s s m Hn). by rewrite insert_id. Qed.

Lemma fds_of_new n s m : m !! n = None -> fds_of (<[n := s]> m) ≡ₚ held_list s ++ fds_of m.
Proof.
  intros Hn. unfold fds_of, descriptors. rewrite map_to_list_insert by done. by rewrite fmap_cons, bind_cons.
Qed.

Lemma elem_of_held_list k s : k ∈ held_list s <-> m_fd s = k /\ k <> INVALID_SOCKET.
Proof.
  unfold held_list. case_decide as Hs.
  - split; [by intros ?%not_elem_of_nil|]. intros [<- ?]. done.
  - rewrite list_elem_of_singleton. split; [by intros ->|]. by intros [<- _].
Qed.

Lemma elem_of_fds_of k m : k ∈ fds_of m <-> exists n s, m !! n = Some s /\ m_fd s = k /\ k <> INVALID_SOCKET.
Proof.
  unfold fds_of, descriptors. rewrite list_elem_of_bind. setoid_rewrite elem_of_held_list. split.
  - intros (s & Hk & Hs). apply list_elem_of_fmap in Hs as ([n t] & -> & Hn%elem_of_map_to_list). by exists n, t.
  - intros (n & s & Hn & Hk). exists s. split; [exact Hk|]. apply list_elem_of_fmap. exists (n, s).
    by rewrite elem_of_map_to_list.
Qed.

(** What is known as long as [Close] and the destructor are called as they should: every
    descriptor belongs to the rest of the program, [b], or to one object, though the
    object's may be closed; and whatever else is known, [P]. *)
Definition sound (b : gset Z) (m : gmap na_id Socket) (o : gset Z) (P : Prop) : Prop :=
  NoDup (fds_of m) /\ b ## list_to_set (fds_of m) /\ b ⊆ o /\ o ⊆ b ∪ list_to_set (fds_of m) /\ P.
#[export] Instance sound_dec b m o P : Decision P -> Decision (sound b m o P).
Proof. unfold sound. apply _. Defined.

(** The objects whose descriptor is closed. *)
Definition half_closed (m : gmap na_id Socket) (o : gset Z) : gset na_id :=
  dom (filter (fun x : na_id * Socket => m_fd x.2 <> INVALID_SOCKET /\ m_fd x.2 ∉ o) m).

Lemma elem_of_half_closed n m o :
  n ∈ half_closed m o <-> exists s, m !! n = Some s /\ m_fd s <> INVALID_SOCKET /\ m_fd s ∉ o.
Proof.
  unfold half_closed. rewrite elem_of_dom. split.
  - intros [s [Hs Hc]%map_lookup_filter_Some]. by exists s.
  - intros (s & Hs & Hc). exists s. by apply map_lookup_filter_Some.
Qed.

(** [p] are the objects that have a peer. *)
Definition nets_of (b : gset Z) (p : gset na_id) (m : gmap na_id Socket) (o : gset Z) (P : Prop) {d : Decision P} : nets :=
  if decide (sound b m o P) then MkNets (dom m) (half_closed m o) p else MkNets ∅ {[0%nat]} ∅.

(** None is closed exactly when each descriptor is the rest's or one object's and open. *)
Definition in_order (b : gset Z) (m : gmap na_id Socket) (o : gset Z) (P : Prop) : Prop :=
  SocketOwners.own b (fds_of m) o /\ P.

Section nets_of.
Context (b : gset Z) (p : gset na_id) (m : gmap na_id Socket) (o : gset Z) (P : Prop) {d : Decision P}.

Lemma in_order_nets : in_order b m o P -> nets_of b p m o P = MkNets (dom m) ∅ p.
Proof using.
  intros [(Hn & Hd & Ho) HP]. unfold nets_of. rewrite Ho, decide_True by (split_and!; [done|done|set_solver..|done]).
  f_equal. apply elem_of_equiv_empty_L. intros n (s & Hs & Hv & Hc)%elem_of_half_closed. apply Hc, elem_of_union_r.
  apply elem_of_list_to_set, elem_of_fds_of. eauto.
Qed.

Lemma nets_in_order :
  closed (nets_of b p m o P) = ∅ ->
  in_order b m o P /\ alive (nets_of b p m o P) = dom m /\ peers (nets_of b p m o P) = p.
Proof using.
  unfold nets_of. case_decide as Hs; cbn [closed alive peers]; [|set_solver].
  intros Hc. split; [|done]. destruct Hs as (Hn & Hd & Hb & Ho & Ht). split; [|done]. split_and!; [done..|].
  apply set_eq. intros k. split; [apply Ho|]. rewrite elem_of_union, elem_of_list_to_set.
  intros [Hk|Hk]; [by apply Hb|]. apply elem_of_fds_of in Hk as (n & s & Hk & <- & Hv).
  apply dec_stable. intros Hf. apply (not_elem_of_empty (C := gset na_id) n). rewrite <- Hc. apply elem_of_half_closed. eauto.
Qed.

Lemma usable_in_order n : n ∈ nets_of b p m o P -> in_order b m o P /\ exists s, m !! n = Some s.
Proof using.
  intros [Hn Hc]. destruct (nets_in_order Hc) as (Hi & Hm & _). split; [done|]. rewrite Hm in Hn. by apply elem_of_dom.
Qed.

(** Two objects with the same descriptor are one. *)
Lemma fds_of_distinct n s k t :
  NoDup (fds_of m) -> m !! n = Some s -> m !! k = Some t -> m_fd s = m_fd t -> m_fd s <> INVALID_SOCKET -> n = k.
Proof using.
  intros Hm Hs Ht Hf Hv. apply dec_stable. intros Hk. rewrite (fds_of_lookup n s) in Hm by done.
  apply NoDup_app in Hm as (_ & Hm & _). apply (Hm (m_fd s)); [by apply elem_of_held_list|].
  apply elem_of_fds_of. exists k, t. rewrite lookup_delete_ne by done. by split_and!.
Qed.

(** The descriptor of an object is closed by [Close]. *)
Lemma closed_nets n s :
  in_order b m o P -> m !! n = Some s ->
  let x := nets_of b p m (o ∖ held s) P in alive x = dom m /\ closed x ⊆ {[n]} /\ peers x = p.
Proof using.
  intros [(Hd & Hb & Ho) HP] Hs x. subst x o. unfold nets_of. rewrite decide_True; cbn [alive closed peers].
  - split_and!; [done| |done]. intros k (t & Hk & Hv & Hc)%elem_of_half_closed. apply elem_of_singleton.
    rewrite elem_of_difference, elem_of_union, elem_of_list_to_set in Hc.
    assert (m_fd t ∈ fds_of m) as Hin by (apply elem_of_fds_of; eauto).
    assert (m_fd t ∈ held s) as Hh by (apply dec_stable; naive_solver).
    rewrite <- held_set, elem_of_list_to_set, elem_of_held_list in Hh. destruct Hh as [Hh _].
    by eapply fds_of_distinct; [exact Hd|exact Hk|exact Hs|done|done].
  - split_and!; [done|done| |set_solver|exact HP]. assert (b ## held s); [|set_solver].
    intros k Hk. rewrite <- held_set, elem_of_list_to_set, elem_of_held_list. intros Hh. apply (Hb k Hk).
    apply elem_of_list_to_set, elem_of_fds_of. naive_solver.
Qed.

(** The destructor closes it, again if need be, and everything is in order afterwards. *)
Lemma deleted_in_order n s (Q : Prop) :
  sound b m o P -> m !! n = Some s -> half_closed m o ⊆ {[n]} -> Q -> in_order b (delete n m) (o ∖ held s) Q.
Proof using.
  intros (Hd & Hb & Hb' & Ho & _) Hs Hc HQ. split; [|exact HQ].
  rewrite (fds_of_lookup n s) in Hd, Hb, Ho by done. rewrite list_to_set_app_L, held_set in Hb, Ho.
  apply NoDup_app in Hd as (_ & Hdis & Hd). split_and!; [done|set_solver|].
  apply set_eq. intros k. rewrite elem_of_difference, elem_of_union, elem_of_list_to_set.
  assert (k ∈ held s <-> k ∈ held_list s) as Hh by by rewrite <- held_set, elem_of_list_to_set. split.
  - intros [[?|[?|Hk%elem_of_list_to_set]%elem_of_union]%Ho%elem_of_union Hn]; [by left|done|by right].
  - intros [Hk|Hk]; [split; [by apply Hb'|set_solver]|]. split; [|rewrite Hh; intros Hk'; by apply (Hdis k)].
    apply elem_of_fds_of in Hk as (j & t & Hj%lookup_delete_Some & <- & Hv). apply dec_stable. intros Hf.
    assert (j ∈ half_closed m o) as Hj'%Hc%elem_of_singleton by (apply elem_of_half_closed; naive_solver). naive_solver.
Qed.
End nets_of.

Lemma own_perm b d d' o : d ≡ₚ d' -> SocketOwners.own b d o -> SocketOwners.own b d' o.
Proof. intros Hd. by rewrite (SocketOwners.own_proper b d d' Hd o o eq_refl). Qed.

(** An object is replaced by what a method makes of it. *)
Lemma updated_own b m n s s' (o o' : gset Z) :
  m !! n = Some s ->
  (SocketOwners.own b (held_list s ++ fds_of (delete n m)) o -> SocketOwners.own b (held_list s' ++ fds_of (delete n m)) o') ->
  SocketOwners.own b (fds_of m) o -> SocketOwners.own b (fds_of (<[n := s']> m)) o'.
Proof.
  intros Hs Hm Ho. eapply own_perm; [symmetry; by apply (fds_of_update _ s)|]. apply Hm. eapply own_perm; [|exact Ho].
  by apply fds_of_lookup.
Qed.

Lemma fds_of_same m n s s' : m !! n = Some s -> m_fd s' = m_fd s -> fds_of (<[n := s']> m) ≡ₚ fds_of m.
Proof.
  intros Hs Hf. rewrite (fds_of_update _ s), (fds_of_lookup n s m) by done. unfold held_list. by rewrite Hf.
Qed.

(** ** The laws *)
Section laws.
Context {W : Type} {OS : Os W} {L : OsLaws OS}.
Variables (fuel : nat) (helper : option nat) (b : gset Z).

Definition fine (x : net_world W) : Prop := went_wrong x <> Some Dangling.
#[local] Instance fine_dec x : Decision (fine x).
Proof using. unfold fine. apply _. Defined.
Definition nets_in (x : net_world W) : nets := nets_of b (dom (objects x)) (objects x) (open_fds (system x)) (fine x).
Definition orderly (x : net_world W) : Prop := in_order b (objects x) (open_fds (system x)) (fine x).

Lemma orderly_nets x : orderly x -> nets_in x = MkNets (dom (objects x)) ∅ (dom (objects x)).
Proof using. apply in_order_nets. Qed.

Lemma orderly_kept x y : orderly x -> orderly y -> dom (objects y) = dom (objects x) -> nets_in y = nets_in x.
Proof using. intros Hx Hy Hd. by rewrite (orderly_nets x), (orderly_nets y), Hd. Qed.

Lemma orderly_hangs x : orderly x -> orderly (wrong Hangs x).
Proof using. intros [Ho Ht]. split; [exact Ho|]. unfold fine in *. cbn. destruct (went_wrong x) as [[]|]; naive_solver. Qed.

(** A method that leaves the descriptors it is not concerned with alone. *)
Definition keeps_order {X} (method : Socket -> W -> option (X * Socket * W)) : Prop :=
  forall s w a s' w' d, method s w = Some (a, s', w') ->
    SocketOwners.own b (held_list s ++ d) (open_fds w) -> SocketOwners.own b (held_list s' ++ d) (open_fds w').

Lemma on_object_orderly {X} n (dflt : X) method x :
  keeps_order method -> n ∈ nets_in x -> nets_in (on_object n dflt method x).2 = nets_in x.
Proof using.
  intros Hm Hn. destruct (usable_in_order _ _ _ _ _ _ Hn) as [Hx [s Hs]]. unfold on_object. rewrite Hs.
  destruct (method s (system x)) as [[[a s'] w']|] eqn:E; [|apply orderly_kept; [done|by apply orderly_hangs|done]].
  apply orderly_kept; [done| |cbn; apply dom_insert_lookup_L; eauto]. destruct Hx as [Ho Ht]. split; [|exact Ht].
  cbn. eapply updated_own; [exact Hs| |exact Ho]. by eapply Hm.
Qed.

(** A method that keeps the descriptor and changes nothing about those that are open. *)
Lemma keeps_order_same {X} (method : Socket -> W -> option (X * Socket * W)) :
  (forall s w a s' w', method s w = Some (a, s', w') -> m_fd s' = m_fd s /\ open_fds w' = open_fds w) -> keeps_order method.
Proof using. intros Hm s w a s' w' d [Hs ->]%Hm. unfold held_list. by rewrite Hs. Qed.

Lemma net_Read_laws n k x : n ∈ nets_in x -> nets_in (net_Read fuel n k x).2 = nets_in x.
Proof using.
  apply on_object_orderly, keeps_order_same. intros s w a s' w'.
  destruct (sock_Read fuel _ s w) as [[[j d] w1]|] eqn:E; cbn; [|done]. apply Read_keeps in E. by intros [= <- <- <-].
Qed.

Lemma net_Send_laws n d x : n ∈ nets_in x -> nets_in (net_Send fuel n d x).2 = nets_in x.
Proof using.
  apply on_object_orderly, keeps_order_same. intros s w a s' w'.
  destruct (sock_Send fuel d 0 s w) as [[j w1]|] eqn:E; cbn; [|done]. apply Send_keeps in E. by intros [= <- <- <-].
Qed.

Lemma net_Init_laws n port x : n ∈ nets_in x -> nets_in (net_Init n port x).2 = nets_in x.
Proof using.
  apply on_object_orderly. intros s w a s' w' d [= E] Ho. by eapply Init_own.
Qed.

Lemma net_RegisterBindHelper_laws n x : n ∈ nets_in x -> nets_in (net_RegisterBindHelper helper n x) = nets_in x.
Proof using. apply on_object_orderly, keeps_order_same. by intros s w a s' w' [= <- <- <-]. Qed.

Lemma net_SetBindAddress_laws n a x : n ∈ nets_in x -> nets_in (net_SetBindAddress n a x) = nets_in x.
Proof using. apply on_object_orderly, keeps_order_same. by intros s w c s' w' [= <- <- <-]. Qed.

Lemma new_object_makes c x :
  SocketOwners.own b (held_list c ++ fds_of (objects x)) (open_fds (system x)) -> fine x ->
  let '(k, y) := new_object c x in
  k ∉ dom (objects x) /\ nets_in y = MkNets ({[k]} ∪ dom (objects x)) ∅ ({[k]} ∪ dom (objects x)).
Proof using.
  intros Ho Ht. unfold new_object. set (k := fresh _). assert (k ∉ dom (objects x)) as Hk by apply is_fresh.
  split; [done|]. rewrite orderly_nets; [by cbn; rewrite dom_insert_L|]. split; [|exact Ht].
  eapply own_perm; [symmetry; apply fds_of_new; by apply not_elem_of_dom|exact Ho].
Qed.

Lemma net_create_laws certificate x : True -> closed (nets_in x) = ∅ -> makes nets_in x (net_create certificate x).
Proof using.
  intros _ Hc. destruct (nets_in_order _ _ _ _ _ Hc) as ([Ho Ht] & Ha & Hp). destruct certificate as [a|]; [done|].
  pose proof (new_object_makes Socket_new x Ho Ht) as Hm. cbn [net_create]. destruct (new_object Socket_new x) as [k y].
  destruct Hm as [Hk Hy]. unfold makes, born. rewrite Hy. unfold nets_in. rewrite Ha, Hp. split_and!; [done..|set_solver].
Qed.

Lemma net_Accept_laws n x : n ∈ nets_in x -> makes_peer nets_in x (net_Accept fuel n x).
Proof using.
  intros Hn. destruct (usable_in_order _ _ _ _ _ _ Hn) as [Hx [s Hs]]. unfold net_Accept, on_object. rewrite Hs.
  destruct (Accept fuel s (system x)) as [[[r s'] w']|] eqn:E; [|split; [|done]; by apply orderly_kept; [|apply orderly_hangs|]].
  destruct (Hx) as [Ho Ht]. destruct (Accept_own _ _ _ _ _ _ _ _ Ho E) as [Hfd Ho'].
  set (y := x <| objects ::= <[n := s']> |> <| system := w' |>).
  assert (dom (objects y) = dom (objects x)) as Hd by (cbn; apply dom_insert_lookup_L; by exists s).
  assert (fds_of (objects y) ≡ₚ fds_of (objects x)) as Hp by by apply (fds_of_same _ _ s).
  destruct r as [c|e].
  - assert (SocketOwners.own b (held_list c ++ fds_of (objects y)) (open_fds (system y))) as Hy
      by (eapply own_perm; [|exact Ho']; by rewrite Hp).
    pose proof (new_object_makes c y Hy Ht) as Hm. destruct (new_object c y) as [k z]. destruct Hm as [Hk Hz].
    unfold makes_peer, makes, born. rewrite Hz, (orderly_nets x) by done. rewrite Hd in *. cbn [alive closed peers].
    split_and!; [done..|set_solver|set_solver].
  - split; [|done]. apply orderly_kept; [done| |done]. split; [|exact Ht]. eapply own_perm; [|exact Ho']. by rewrite Hp.
Qed.

Lemma net_Close_laws n x :
  n ∈ nets_in x -> alive (nets_in (net_Close n x)) = alive (nets_in x) /\ closed (nets_in (net_Close n x)) ⊆ {[n]} /\
    peers (nets_in x) ⊆ peers (nets_in (net_Close n x)).
Proof using.
  intros Hn. destruct (usable_in_order _ _ _ _ _ _ Hn) as [Hx [s Hs]]. unfold net_Close, on_object. rewrite Hs. cbn [snd].
  rewrite (orderly_nets x Hx). unfold nets_in. cbn. rewrite (insert_id _ _ _ Hs), Close_closes.
  destruct (closed_nets b (dom (objects x)) _ _ (fine x) n s Hx Hs) as (H1 & H2 & H3).
  change (fine (x <| objects ::= <[n := s]> |> <| system := Close s (system x) |>)) with (fine x).
  split_and!; [exact H1|exact H2|apply reflexive_eq; symmetry; exact H3].
Qed.

Lemma delete_object_laws n x :
  n ∈ alive (nets_in x) -> closed (nets_in x) ⊆ {[n]} -> gone n (nets_in x) (nets_in (delete_object n x)).
Proof using.
  unfold nets_in at 1 2 3, nets_of. case_decide as Hx; cbn [alive closed]; [|set_solver].
  intros [s Hs]%elem_of_dom Hc. unfold delete_object. rewrite Hs.
  rewrite orderly_nets; [unfold gone; cbn; rewrite dom_delete_L; done|]. unfold orderly. cbn. unfold Socket_delete.
  rewrite Close_closes. eapply deleted_in_order; [exact Hx|exact Hs|exact Hc|apply Hx].
Qed.
End laws.

(** ** A server on sockets *)
Section server.
Context {W : Type} {OS : Os W} {L : OsLaws OS} {H : Host W} {HL : HostLaws L H}.
Variables (fuel : nat) (helper : option nat).

(** The sockets keep what ServerNetworks relies on. *)
Definition socket_laws (b : gset Z) : NetLaws (socket_env fuel helper).
Proof using HL.
  apply (Build_NetLaws (net_world W) (socket_env fuel helper) (nets_in b) (fun _ _ => True)
    (fun n k x Hn => net_Read_laws fuel b n k x (proj1 Hn)) (fun n d x Hn => net_Send_laws fuel b n d x (proj1 Hn))
    (net_Close_laws b) (net_Accept_laws fuel b) (delete_object_laws b) (net_create_laws b)
    (net_RegisterBindHelper_laws helper b) (net_SetBindAddress_laws b) (net_Init_laws b));
    intros; unfold nets_in, fine; cbn; unfold on_system.
  - by rewrite OnConnect_keeps.
  - by rewrite OnDisconnect_keeps.
  - pose proof (OnData_keeps c d (system w)) as Hk. destruct (host_OnData c d (system w)). cbn in *. by rewrite Hk.
  - pose proof (pthread_create_keeps (system w)) as Hk. destruct (host_pthread_create (system w)). cbn in *. by rewrite Hk.
  - by rewrite cond_broadcast_keeps.
  - pose proof (select_keeps fds t (system w)) as Hk. destruct (host_select fds t (system w)). cbn in *. by rewrite Hk.
Defined.

Lemma nets_in_read b (x : net_world W) :
  closed (nets_in b x) = ∅ ->
  dom (objects x) = alive (nets_in b x) /\ SocketOwners.own b (fds_of (objects x)) (open_fds (system x)) /\ fine x.
Proof using. unfold nets_in. by intros ([Ho Ht] & -> & _)%nets_in_order. Qed.

Lemma nets_in_none b (x : net_world W) :
  alive (nets_in b x) = ∅ -> closed (nets_in b x) = ∅ -> objects x = ∅ /\ open_fds (system x) = b /\ fine x.
Proof using.
  intros Ha Hc. destruct (nets_in_read b x Hc) as (Hd & Ho & Ht). rewrite Ha in Hd. apply dom_empty_inv_L in Hd.
  rewrite Hd in Ho. destruct Ho as (_ & _ & ->). split_and!; [done| |done].
  unfold fds_of. rewrite map_to_list_empty. cbn. apply (right_id_L ∅ (∪)).
Qed.

Lemma nets_in_start b (x : net_world W) :
  objects x = ∅ -> went_wrong x = None -> open_fds (system x) = b -> nets_in b x = MkNets ∅ ∅ ∅.
Proof using.
  intros Ho Ht Hb. rewrite orderly_nets; [by rewrite Ho, dom_empty_L|]. unfold orderly, in_order, fine. rewrite Ho, Ht, Hb.
  split; [|done]. unfold fds_of. rewrite map_to_list_empty. cbn.
  split_and!; [constructor|apply disjoint_empty_r|symmetry; apply (right_id_L ∅ (∪))].
Qed.

Context (b : gset Z) {A : App (net_world W)} {LA : AppNetLaws (socket_laws b) A} {B : Boost}.
Variables (beyond stale : bytes).

End server.

(** ** Concrete runs *)

(** Every descriptor is always ready. *)
#[export] Instance posix_host : Host posix := {|
  host_OnConnect _ p := p;
  host_OnDisconnect _ p := p;
  host_OnData _ _ p := (Ret true, p);
  host_time _ := 1000;
  host_keepalive _ _ p := p;
  host_pthread_create p := (Some 5, p);
  host_cond_broadcast p := p;
  host_select fds _ p := (Sel_ready fds, p)
|}.
#[export] Instance posix_host_laws : HostLaws posix_laws posix_host.
Proof. by split. Defined.

#[local] Instance posix_env : Env (net_world posix) := socket_env 5 None.

Definition no_content : App (net_world posix) := {|
  RouteRequest req x := (Ret (Error_request [] (time x) HTTPRESPONSECODE_404_NOTFOUND req), x);
  ThreadInitHandler x := (true, x);
  ThreadExitHandler x := x;
  HandleThreadException _ _ _ x := (None, x);
  has_RawSocketHandler := false
|}.
#[local] Existing Instance no_content.
Lemma no_content_laws : AppNetLaws (socket_laws 5 None {[0; 1; 2]}) no_content.
Proof. by split. Defined.
#[local] Existing Instance perl_boost.

Definition before_start : net_world posix :=
  MkNetWorld ∅ (MkPosix {[0; 1; 2]} [Some (MkSockaddr 40000 7); None; Some (MkSockaddr 40001 7)] [] (Eother 0)) None.
Definition on_port (k : Z) : EHSServerParameters :=
  sm_set #"port" (assign_cstr (print_Z k)) (sm_set #"mode" (assign_cstr #"threadpool") []).
Definition on_8080 : EHSServerParameters := on_port 8080.

Definition starting : res EHSServer * net_world posix := EHSServer_new (Some on_8080) before_start.
Definition running : EHSServer := match starting.1 with Ret s => s | Throw _ => example_server end.

(** A thread comes, accepts one connection and goes round again; then the peer is gone, while a
    second one comes. *)
Definition initial : fconfig := FConfig running starting.2 ∅.
Definition with_thread : fconfig := FConfig running starting.2 {[5 := FCreated]}.
Definition after (n : nat) : fconfig := default with_thread (run [] [] (replicate n 5) with_thread).
Definition after_one : fconfig := after 7.
Definition after_two : fconfig := after 14.

Lemma starts_running : EHSServer_new (Some on_8080) before_start = (Ret running, starting.2).
Proof. by vm_compute. Qed.

Lemma after_reached n : rtc (fstep [] []) initial (after n).
Proof.
  eapply rtc_l; [by apply (fstep_start _ _ running starting.2 ∅ 5)|].
  change (rtc (fstep [] []) with_thread (after n)). unfold after.
  destruct (run [] [] (replicate n 5) with_thread) as [c|] eqn:Hr; [by eapply run_steps|apply rtc_refl].
Qed.

