(* ===== verification/SecureNetwork.v ===== *)
(** * The network of a server with SSL (securesocket.h, socket.h, ehs.cpp)

    In a build with SSL a network object is a plain or a secure socket, and all secure ones
    share the static members of their class.  As in SocketNetwork, the interface of
    [NetworkAbstraction], the class [Env], is implemented by the methods of the objects that
    exist, and the laws of ServerNetworks become theorems on descriptors and on the static
    members: a server never uses them after their deletion, but one that is started after
    the last secure object is gone does. *)
From S2P Require Import Prelude Boost StdMap Datum Locking Socket SocketFacts SocketOwners SslError SecureSocket SecureSocketFacts EhsTypes HttpRequest HttpResponse.
From S2P Require Import Network Connection Server ServerFacts Threads ServerNetworks SocketNetwork.

Local Open Scope Z_scope.

(** A pointer to a [NetworkAbstraction] points to one of these. *)
Inductive net_object : Type :=
| Plain (s : Socket)
| Secure (s : SecureSocket).

Definition base (o : net_object) : Socket :=
  match o with
  | Plain s => s
  | Secure s => ss_base s
  end.
Definition set_base (f : Socket -> Socket) (o : net_object) : net_object :=
  match o with
  | Plain s => Plain (f s)
  | Secure s => Secure (s <| ss_base ::= f |>)
  end.
Definition is_secure (o : net_object) : bool := if o is Secure _ then true else false.

(** The objects that exist, the static members of [SecureSocket], the system, and what went
    wrong first. *)
Record tls_net (W : Type) : Type := MkTlsNet {
  t_objects : gmap na_id net_object;
  t_statics : statics;
  t_system : W;
  t_wrong : option trouble
}.
#[global] Arguments MkTlsNet {W}.
#[global] Arguments t_objects {W}.
#[global] Arguments t_statics {W}.
#[global] Arguments t_system {W}.
#[global] Arguments t_wrong {W}.
#[export] Instance eta_tls_net {W} : Eta (tls_net W) := fun x =>
  MkTlsNet (t_objects x) (t_statics x) (t_system x) (t_wrong x).

Definition t_mark {W} (t : trouble) (x : tls_net W) : tls_net W := x <| t_wrong ::= fun o => Some (default t o) |>.

Section network.
Context {W : Type} {OS : Os W} {S : Ssl W} {H : Host W}.
Variables (fuel : nat) (helper handler : option nat).

(** ** Methods

    A method of an object changes the object, the static members and the system; or it waits
    for too long, or does what has no defined behaviour. *)
Definition method (X : Type) : Type := net_object -> statics -> W -> (X * net_object * statics * W) + trouble.

Definition t_on_object {X} (n : na_id) (dflt : X) (f : method X) (x : tls_net W) : X * tls_net W :=
  match t_objects x !! n with
  | None => (dflt, t_mark SocketNetwork.Dangling x)
  | Some o =>
      match f o (t_statics x) (t_system x) with
      | inr t => (dflt, t_mark t x)
      | inl (a, o, st, w) => (a, x <| t_objects ::= <[n := o]> |> <| t_statics := st |> <| t_system := w |>)
      end
  end.

(** A call that may wait, and one that may have thrown, or may have used what is deleted. *)
Definition waiting {A B} (f : A -> B + trouble) (r : option A) : B + trouble :=
  match r with
  | Some a => f a
  | None => inr Hangs
  end.
Definition defined {X A} (r : res X) (a : A) : A + trouble :=
  match r with
  | Throw (Undefined _) => inr SocketNetwork.Dangling
  | _ => inl a
  end.

Definition obj_Read (size : nat) : method (Z * bytes) := fun o st w =>
  match o with
  | Plain s => waiting (fun '(k, d, w) => inl (k, d, o, st, w)) (sock_Read fuel (Z.of_nat size) s w)
  | Secure s =>
      match m_pSsl s with
      | Some ssl => waiting (fun '(k, d, w) => inl (k, d, o, st, w)) (ss_Read fuel ssl (Z.of_nat size) w)
      | None => if decide (size = 0%nat) then inl (0, [], o, st, w) else inr SocketNetwork.Dangling  (* SSL_read(NULL, ...) *)
      end
  end.
Definition obj_Send (d : bytes) : method Z := fun o st w =>
  match o with
  | Plain s => waiting (fun '(k, w) => inl (k, o, st, w)) (sock_Send fuel d 0 s w)
  | Secure s =>
      match m_pSsl s with
      | Some ssl => waiting (fun '(k, w) => inl (k, o, st, w)) (ss_Send fuel ssl d w)
      | None => if decide (d = []) then inl (0, o, st, w) else inr SocketNetwork.Dangling
      end
  end.
Definition obj_Close : method unit := fun o st w => inl (tt, o, st, Close (base o) w).
Definition obj_Init (port : Z) : method (res unit) := fun o st w =>
  match o with
  | Plain s => let '(r, s, w) := Init port s w in inl (r, Plain s, st, w)
  | Secure s => waiting (fun '(r, s, st, w) => defined r (r, Secure s, st, w)) (ss_Init fuel port s st w)
  end.
Definition obj_Accept : method (res net_object) := fun o st w =>
  match o with
  | Plain s =>
      waiting (fun '(r, s, w) => inl (match r with Ret c => Ret (Plain c) | Throw e => Throw e end, Plain s, st, w))
        (Accept fuel s w)
  | Secure s =>
      waiting (fun '(r, s, st, w) =>
        defined r (match r with Ret c => Ret (Secure c) | Throw e => Throw e end, Secure s, st, w))
        (ss_Accept fuel s st w)
  end.
Definition obj_set (f : Socket -> Socket) : method unit := fun o st w => inl (tt, set_base f o, st, w).
Definition obj_ThreadCleanup : method unit := fun o st w =>
  match o with
  | Plain _ => inl (tt, o, st, w)
  | Secure _ => let '(r, w) := ss_ThreadCleanup st w in defined r (tt, o, st, w)
  end.

(** ** Objects come and go *)
Definition t_new_object (o : net_object) (x : tls_net W) : na_id * tls_net W :=
  let n := fresh (dom (t_objects x)) in (n, x <| t_objects ::= <[n := o]> |>).

Definition t_Accept (n : na_id) (x : tls_net W) : res na_id * tls_net W :=
  let '(r, x) := t_on_object n (Throw (Undefined #"Accept")) obj_Accept x in
  match r with
  | Ret c => let '(k, x) := t_new_object c x in (Ret k, x)
  | Throw e => (Throw e, x)
  end.

(** The choice of the constructor of [EHSServer]. *)
Definition t_create (certificate : option bytes) (x : tls_net W) : res na_id * tls_net W :=
  let '(n, x) :=
    match certificate with
    | Some certfile =>
        let '(s, st) := SecureSocket_new certfile handler (t_statics x) in
        t_new_object (Secure s) (x <| t_statics := st |>)
    | None => t_new_object (Plain Socket_new) x
    end in
  (Ret n, x).

Definition t_delete (n : na_id) (x : tls_net W) : tls_net W :=
  match t_objects x !! n with
  | None => t_mark SocketNetwork.Dangling x
  | Some (Plain s) => x <| t_objects ::= delete n |> <| t_system ::= Socket_delete s |>
  | Some (Secure s) =>
      match SecureSocket_delete s (t_statics x) (t_system x) with
      | (Ret st, w) => x <| t_objects ::= delete n |> <| t_statics := st |> <| t_system := w |>
      | (Throw _, _) => t_mark SocketNetwork.Dangling x
      end
  end.

Definition t_get {X} (n : na_id) (dflt : X) (getter : net_object -> X) (x : tls_net W) : X :=
  from_option getter dflt (t_objects x !! n).
Definition t_on_system {X} (f : W -> X * W) (x : tls_net W) : X * tls_net W :=
  let '(a, w) := f (t_system x) in (a, x <| t_system := w |>).

Definition tls_env : Env (tls_net W) := {|
  na_GetFd n := t_get n INVALID_SOCKET (fun o => m_fd (base o));
  na_IsSecure n := t_get n false is_secure;
  na_GetRemoteAddress n := t_get n [] (fun o => GetRemoteAddress (base o));
  na_GetLocalAddress n := t_get n [] (fun o => GetLocalAddress (base o));
  na_GetRemotePort n := t_get n 0 (fun o => GetRemotePort (base o));
  na_GetLocalPort n := t_get n 0 (fun o => GetLocalPort (base o));
  na_GetPeer n := t_get n [] (fun o => GetPeer (base o));
  na_Read n size := t_on_object n (-1, []) (obj_Read size);
  na_Send n d := t_on_object n (-1) (obj_Send d);
  na_Close n x := (t_on_object n tt obj_Close x).2;
  na_Accept := t_Accept;
  na_delete := t_delete;
  na_create := t_create;
  na_RegisterBindHelper n x := (t_on_object n tt (obj_set (RegisterBindHelper helper)) x).2;
  na_ThreadCleanup n x := (t_on_object n tt obj_ThreadCleanup x).2;
  na_SetBindAddress n a x := (t_on_object n tt (obj_set (SetBindAddress (Some a))) x).2;
  na_Init n port := t_on_object n (Throw (Undefined #"Init")) (obj_Init port);
  rsh_OnConnect c x := x <| t_system ::= host_OnConnect c |>;
  rsh_OnDisconnect c x := x <| t_system ::= host_OnDisconnect c |>;
  rsh_OnData c d := t_on_system (host_OnData c d);
  time x := host_time (t_system x);
  setsockopt_keepalive fd b x := x <| t_system ::= host_keepalive fd b |>;
  pthread_create := t_on_system host_pthread_create;
  pthread_cond_broadcast x := x <| t_system ::= host_cond_broadcast |>;
  select fds ms := t_on_system (host_select fds ms)
|}.
End network.
