(* ===== verification/SecureNetworkFacts.v ===== *)
(** * Servers with SSL: descriptors and static members

    The laws of ServerNetworks for the network of SecureNetwork, and what follows for a server
    with SSL: whom its descriptors belong to, that the static members of [SecureSocket]
    are not used after their deletion, what becomes of a failed handshake, and what
    happens to a server that is started after another one has gone. *)
From S2P Require Import Prelude Boost StdMap Datum Locking Socket SocketFacts SocketOwners SslError SecureSocket SecureSocketFacts EhsTypes HttpRequest HttpResponse.
From S2P Require Import Network Connection Server ServerFacts Threads Interleave InterleaveBooks ServerNetworks InterleaveNetworks SocketNetwork SecureNetwork.

Local Open Scope Z_scope.

(** The rest of OpenSSL leaves the table of descriptors as it is, too (files that are read
    are closed again). *)
Class TlsKeeps {W} {OS : Os W} (L : OsLaws OS) (S : Ssl W) : Prop := {
  free_strings_keeps w : open_fds (ERR_free_strings w) = open_fds w;
  remove_state_keeps w : open_fds (ERR_remove_state w) = open_fds w;
  library_init_keeps w : open_fds (SSL_library_init w) = open_fds w;
  evp_cleanup_keeps w : open_fds (CRYPTO_EVP_cleanup w) = open_fds w;
  ctx_new_keeps w : open_fds (SSL_CTX_new w).2 = open_fds w;
  ctx_free_keeps w : open_fds (SSL_CTX_free w) = open_fds w;
  chain_file_keeps f w : open_fds (SSL_CTX_use_certificate_chain_file f w).2 = open_fds w;
  key_file_keeps f w : open_fds (SSL_CTX_use_PrivateKey_file f w).2 = open_fds w;
  verify_keeps w : open_fds (SSL_CTX_set_verify_and_options w) = open_fds w;
  cipher_keeps l w : open_fds (SSL_CTX_set_cipher_list l w).2 = open_fds w;
  ssl_read_keeps s n w : open_fds (SSL_read s n w).2 = open_fds w;
  ssl_write_keeps s d w : open_fds (SSL_write s d w).2 = open_fds w;
  mutex_init_keeps w : open_fds (pthread_mutex_init w).2 = open_fds w;
  mutex_destroy_keeps w : open_fds (pthread_mutex_destroy w).2 = open_fds w;
  id_callback_keeps x w : open_fds (CRYPTO_set_id_callback x w) = open_fds w;
  locking_callback_keeps x w : open_fds (CRYPTO_set_locking_callback x w) = open_fds w;
  create_callback_keeps x w : open_fds (CRYPTO_set_dynlock_create_callback x w) = open_fds w;
  lock_callback_keeps x w : open_fds (CRYPTO_set_dynlock_lock_callback x w) = open_fds w;
  destroy_callback_keeps x w : open_fds (CRYPTO_set_dynlock_destroy_callback x w) = open_fds w
}.
#[export] Hint Rewrite @free_strings_keeps @remove_state_keeps @library_init_keeps @evp_cleanup_keeps @ctx_free_keeps
  @verify_keeps @id_callback_keeps @locking_callback_keeps @create_callback_keeps @lock_callback_keeps
  @destroy_callback_keeps @load_strings_keeps @ssl_free_keeps @set_fd_keeps using (typeclasses eauto) : tls_fds.

Section keeps.
Context {W : Type} {OS : Os W} {L : OsLaws OS} {S : Ssl W} {T : TlsLaws L S} {K : TlsKeeps L S}.

(** ** Calls of the class that open and close nothing *)
Lemma throw_ssl_error_keeps {A} fuel message cleanup st w (x : res A * statics * W) :
  (forall w, open_fds (cleanup w) = open_fds w) ->
  throw_ssl_error fuel message cleanup st w = Some x -> open_fds x.2 = open_fds w.
Proof using T.
  intros Hc. unfold throw_ssl_error. destruct (s_pSslError st); try (by intros [= <-]).
  destruct (GetError _ _ _ _ _) as [[[[n e] l] w1]|] eqn:E; [|done]. apply GetError_keeps in E.
  intros [= <-]. cbn. by rewrite Hc.
Qed.

Lemma init_mutexes_keeps tbl w : open_fds (init_mutexes tbl w).2 = open_fds w.
Proof using K.
  revert w. induction tbl as [|m tbl IH]; intros w; [done|]. cbn [init_mutexes]. pose proof (mutex_init_keeps w) as Hm.
  destruct (pthread_mutex_init w) as [[] w1]; [|done]. specialize (IH w1). cbn [snd] in Hm.
  destruct (init_mutexes tbl w1) as [[r t] w2]. cbn [snd] in *. congruence.
Qed.

Lemma destroy_mutexes_keeps n w : open_fds (destroy_mutexes n w) = open_fds w.
Proof using K. revert w. induction n as [|n IH]; intros w; [done|]. cbn. by rewrite IH, mutex_destroy_keeps. Qed.

Lemma init_locking_keeps st w : open_fds (init_locking st w).2 = open_fds w.
Proof using K.
  unfold init_locking, DynamicSslLocking_new, set_dynlock_callbacks.
  set (x := if decide (s_pDynamicSslLocking st = Null) then _ else _).
  assert (open_fds x.2 = open_fds w) as Hx by (unfold x; case_decide; [cbn; by autorewrite with tls_fds|done]).
  destruct x as [st1 w1]. cbn [snd] in Hx. case_decide; [|done]. unfold StaticSslLocking_new.
  pose proof (init_mutexes_keeps (replicate (CRYPTO_num_locks (W := W)) Raw) w1) as Hm.
  destruct (init_mutexes _ w1) as [[[u|e] tbl] w2]; cbn [snd] in *; autorewrite with tls_fds; congruence.
Qed.

Lemma InitializeCertificates_keeps fuel s st w x : InitializeCertificates fuel s st w = Some x -> open_fds x.2 = open_fds w.
Proof using T K.
  unfold InitializeCertificates. pose proof (ctx_new_keeps w) as H1. destruct (SSL_CTX_new w) as [[] w1]; cbn [negb snd] in *.
  2: { intros E. rewrite <- H1. by eapply throw_ssl_error_keeps; [|exact E]. }
  case_bool_decide; [by intros [= <-]|]. rewrite <- H1. clear H1.
  pose proof (chain_file_keeps (c_str (m_sCertFile s)) w1) as H1. destruct (SSL_CTX_use_certificate_chain_file _ w1) as [r1 w2].
  cbn [snd] in H1. rewrite <- H1. clear H1.
  destruct (negb _); [apply throw_ssl_error_keeps; intros; by autorewrite with tls_fds|].
  pose proof (key_file_keeps (c_str (m_sCertFile s)) w2) as H1. destruct (SSL_CTX_use_PrivateKey_file _ w2) as [r2 w3].
  cbn [snd] in H1. rewrite <- H1. clear H1.
  destruct (negb _); [apply throw_ssl_error_keeps; intros; by autorewrite with tls_fds|].
  pose proof (cipher_keeps CIPHER_LIST (SSL_CTX_set_verify_and_options w3)) as H1. rewrite verify_keeps in H1.
  destruct (SSL_CTX_set_cipher_list _ _) as [r3 w4]. cbn [snd] in H1. rewrite <- H1. clear H1.
  destruct (negb _); [apply throw_ssl_error_keeps; intros; by autorewrite with tls_fds|]. by intros [= <-].
Qed.

Lemma init_statics_keeps fuel s st w x : init_statics fuel s st w = Some x -> open_fds x.2 = open_fds w.
Proof using T K.
  unfold init_statics. pose proof (init_locking_keeps st (SSL_library_init w)) as H1. rewrite library_init_keeps in H1.
  destruct (init_locking _ _) as [[[u|e] st1] w1]; cbn [snd] in H1; [|by intros [= <-]]. unfold init_context.
  destruct (s_pSslCtx _); [|by intros [= <-]..].
  destruct (InitializeCertificates _ _ _ w1) as [[[[u'|e] st2] w2]|] eqn:E; [| |done];
    apply InitializeCertificates_keeps in E; intros [= <-]; cbn [snd] in *; congruence.
Qed.

Lemma release_keeps p f w : (forall w, open_fds (f w) = open_fds w) -> open_fds (release p f w).2 = open_fds w.
Proof using. intros Hf. by destruct p; cbn. Qed.

Lemma release_statics_keeps st w : open_fds (release_statics st w).2 = open_fds w.
Proof using T K.
  unfold release_statics.
  pose proof (release_keeps (s_pSslCtx st) SSL_CTX_free w ctx_free_keeps) as H1.
  destruct (release (s_pSslCtx st) _ w) as [[p1|e] w1]; [|done]. cbn [snd] in H1.
  assert (forall w, open_fds (SslError_delete (s_bMessagesLoaded st) w) = open_fds w) as Hd
    by (intros w0; unfold SslError_delete; destruct (s_bMessagesLoaded st); by autorewrite with tls_fds).
  pose proof (release_keeps (s_pSslError st) _ w1 Hd) as H2.
  destruct (release (s_pSslError st) _ w1) as [[p2|e] w2]; cbn [snd] in H2; [|cbn; congruence].
  assert (forall w, open_fds (StaticSslLocking_delete w).2 = open_fds w) as Hs
    by (intros w0; cbn; rewrite destroy_mutexes_keeps; by autorewrite with tls_fds).
  pose proof (release_keeps (s_pStaticSslLocking st) _ (CRYPTO_EVP_cleanup w2) Hs) as H3. rewrite evp_cleanup_keeps in H3.
  destruct (release (s_pStaticSslLocking st) _ _) as [[p3|e] w3]; cbn [snd] in H3; [|cbn; congruence].
  assert (forall w, open_fds (DynamicSslLocking_delete w) = open_fds w) as Hy
    by (intros w0; unfold DynamicSslLocking_delete, set_dynlock_callbacks; by autorewrite with tls_fds).
  pose proof (release_keeps (s_pDynamicSslLocking st) _ w3 Hy) as H4.
  destruct (release (s_pDynamicSslLocking st) _ w3) as [[p4|e] w4]; cbn [snd] in *; congruence.
Qed.

(** Deleting a secure socket closes its descriptor. *)
Lemma SecureSocket_delete_closes s st w st' w' :
  SecureSocket_delete s st w = (Ret st', w') -> open_fds w' = open_fds w ∖ held (ss_base s).
Proof using T K.
  unfold SecureSocket_delete, ss_Close, Socket_delete. set (w1 := match m_pSsl s with Some _ => _ | None => _ end).
  assert (open_fds w1 = open_fds w ∖ held (ss_base s)) as H1
    by (unfold w1; destruct (m_pSsl s); rewrite ?ssl_free_keeps; apply Close_closes).
  set (x := if s_refcount _ =? 0 then _ else _).
  assert (open_fds x.2 = open_fds w1) as H2 by (unfold x; destruct (_ =? 0); [apply release_statics_keeps|done]).
  destruct x as [[st1|e] w2]; [|done]. intros [= <- <-]. cbn [snd] in H2. rewrite Close_closes, H2, H1. clear.
  apply set_eq. intros k. rewrite !elem_of_difference. tauto.
Qed.

Lemma ss_Read_keeps fuel ssl n w k d w' : ss_Read fuel ssl n w = Some (k, d, w') -> open_fds w' = open_fds w.
Proof using K.
  unfold ss_Read. destruct (0 <? n); [|by intros [= <- <- <-]]. apply retry_keeps. intros w0. apply ssl_read_keeps.
Qed.
Lemma ss_Send_keeps fuel ssl d w k w' : ss_Send fuel ssl d w = Some (k, w') -> open_fds w' = open_fds w.
Proof using K.
  unfold ss_Send. case_bool_decide; [by intros [= <- <-]|]. apply retry_keeps. intros w0. apply ssl_write_keeps.
Qed.
End keeps.

(** ** The secure sockets and the static members *)

(** The secure sockets among the objects. *)
Definition secure_part (o : net_object) : list SecureSocket := if o is Secure s then [s] else [].
Definition secures (m : gmap na_id net_object) : list SecureSocket := (map_to_list m).*2 ≫= secure_part.

(** Replacing, adding and removing an object in a list made from all of them. *)
Lemma bind_objects_lookup {B} (f : net_object -> list B) n o (m : gmap na_id net_object) :
  m !! n = Some o -> (map_to_list m).*2 ≫= f ≡ₚ f o ++ ((map_to_list (delete n m)).*2 ≫= f).
Proof. intros Hn. rewrite <- (map_to_list_delete m n o Hn). by rewrite fmap_cons, bind_cons. Qed.
Lemma bind_objects_new {B} (f : net_object -> list B) n o (m : gmap na_id net_object) :
  m !! n = None -> (map_to_list (<[n := o]> m)).*2 ≫= f ≡ₚ f o ++ ((map_to_list m).*2 ≫= f).
Proof. intros Hn. rewrite map_to_list_insert by done. by rewrite fmap_cons, bind_cons. Qed.
Lemma bind_objects_update {B} (f : net_object -> list B) n o o' (m : gmap na_id net_object) :
  m !! n = Some o -> (map_to_list (<[n := o']> m)).*2 ≫= f ≡ₚ f o' ++ ((map_to_list (delete n m)).*2 ≫= f).
Proof. intros Hn. rewrite <- insert_delete_eq. apply bind_objects_new, lookup_delete_eq. Qed.

(** The count is right, and as long as there is a secure socket no static pointer dangles
    and whoever has a descriptor has a context. *)
Definition statics_fit (l : list SecureSocket) (st : statics) : Prop :=
  s_refcount st = Z.of_nat (length l) /\ (l = [] \/ statics_ok st /\ Forall (needs_context st) l).

#[export] Instance statics_ok_dec st : Decision (statics_ok st).
Proof.
  refine (cast_if (decide (s_pDynamicSslLocking st <> SecureSocket.Dangling /\ s_pStaticSslLocking st <> SecureSocket.Dangling /\
    s_pSslError st <> SecureSocket.Dangling /\ (s_pSslCtx st = Null \/ s_pSslCtx st = Live /\ s_pSslError st = Live)))).
  - by destruct_and!.
  - intros [? ? ? ?]. tauto.
Defined.
#[export] Instance needs_context_dec st s : Decision (needs_context st s).
Proof.
  refine (cast_if (decide (m_fd (ss_base s) = INVALID_SOCKET \/ s_pSslCtx st = Live /\ s_pSslError st = Live))).
  - unfold needs_context. tauto.
  - unfold needs_context. intros ?. destruct (decide (m_fd (ss_base s) = INVALID_SOCKET)); tauto.
Defined.
#[export] Instance statics_fit_dec l st : Decision (statics_fit l st).
Proof.
  refine (cast_if (decide (s_refcount st = Z.of_nat (length l) /\ (length l = 0%nat \/ statics_ok st /\ Forall (needs_context st) l)))).
  - unfold statics_fit. by rewrite <- length_zero_iff_nil.
  - unfold statics_fit. by rewrite <- length_zero_iff_nil.
Defined.

#[export] Instance statics_fit_proper : Proper (Permutation ==> eq ==> iff) statics_fit.
Proof.
  assert (forall l l' st, l ≡ₚ l' -> statics_fit l st -> statics_fit l' st) as Hp.
  { intros l l' st Hl [H1 [->|[H2 H3]]]; (split; [by rewrite <- Hl|]); [left; by apply Permutation_nil_l in Hl|right].
    by rewrite <- Hl. }
  intros l l' Hl st st' <-. split; by apply Hp.
Qed.

Lemma statics_fit_ok s l st {W} (w : W) : statics_fit (s :: l) st <-> tls_ok (s :: l, st, w).
Proof. unfold statics_fit, tls_ok. naive_solver. Qed.

(** ** What is known of the objects *)

(** Only a connection that [Accept] has made has an SSL connection to read from. *)
Definition has_peer (o : net_object) : Prop :=
  match o with
  | Plain _ => True
  | Secure s => is_Some (m_pSsl s)
  end.
#[export] Instance has_peer_dec o : Decision (has_peer o).
Proof. destruct o; apply _. Defined.
Definition peers_of (m : gmap na_id net_object) : gset na_id := dom (filter (fun x : na_id * net_object => has_peer x.2) m).

Lemma elem_of_peers_of n m : n ∈ peers_of m <-> exists o, m !! n = Some o /\ has_peer o.
Proof.
  unfold peers_of. rewrite elem_of_dom. split.
  - intros [o [Ho Hp]%map_lookup_filter_Some]. by exists o.
  - intros (o & Ho & Hp). exists o. by apply map_lookup_filter_Some.
Qed.

Lemma peers_of_update n o o' m : m !! n = Some o -> (has_peer o' <-> has_peer o) -> peers_of (<[n := o']> m) = peers_of m.
Proof.
  intros Hn Hp. apply set_eq. intros k. rewrite !elem_of_peers_of. destruct (decide (k = n)) as [->|Hk].
  - rewrite lookup_insert_eq, Hn. naive_solver.
  - by rewrite lookup_insert_ne.
Qed.

Lemma peers_of_delete n m : peers_of m ∖ {[n]} ⊆ peers_of (delete n m).
Proof.
  intros k [(o & Ho & Hp)%elem_of_peers_of Hk]%elem_of_difference. apply elem_of_peers_of. exists o.
  rewrite lookup_delete_ne by set_solver. done.
Qed.

Lemma peers_of_new n o m : m !! n = None -> peers_of m ⊆ peers_of (<[n := o]> m).
Proof.
  intros Hn k (p & Ho & Hp)%elem_of_peers_of. apply elem_of_peers_of. exists p. rewrite lookup_insert_ne by naive_solver. done.
Qed.

Section laws.
Context {W : Type} {OS : Os W} {L : OsLaws OS} {S : Ssl W} {T : TlsLaws L S} {K : TlsKeeps L S}.
Variables (fuel : nat) (helper handler : option nat) (b : gset Z).

Definition t_fds (x : tls_net W) : list Z := fds_of (base <$> t_objects x).
Definition t_fine (x : tls_net W) : Prop := t_wrong x <> Some Dangling /\ statics_fit (secures (t_objects x)) (t_statics x).
#[local] Instance t_fine_dec x : Decision (t_fine x).
Proof using. unfold t_fine. apply _. Defined.
Definition t_nets (x : tls_net W) : nets :=
  nets_of b (peers_of (t_objects x)) (base <$> t_objects x) (open_fds (t_system x)) (t_fine x).
Definition t_orderly (x : tls_net W) : Prop := in_order b (base <$> t_objects x) (open_fds (t_system x)) (t_fine x).

Lemma t_orderly_nets x : t_orderly x -> t_nets x = MkNets (dom (t_objects x)) ∅ (peers_of (t_objects x)).
Proof using. intros Hx. unfold t_nets. rewrite in_order_nets by done. by rewrite dom_fmap_L. Qed.

Lemma t_orderly_hangs x : t_orderly x -> t_orderly (t_mark Hangs x).
Proof using.
  intros [Ho [Ht Hs]]. split; [exact Ho|]. split; [|exact Hs]. cbn. destruct (t_wrong x) as [[]|]; naive_solver.
Qed.

Lemma t_usable n x : n ∈ t_nets x -> t_orderly x /\ exists o, t_objects x !! n = Some o.
Proof using.
  intros [Hx [s Hs]]%usable_in_order. split; [exact Hx|]. rewrite lookup_fmap in Hs. destruct (t_objects x !! n); [by eexists|done].
Qed.

Lemma t_connected n x : connected n (t_nets x) -> t_orderly x /\ exists o, t_objects x !! n = Some o /\ has_peer o.
Proof using.
  intros [Hn Hp]. destruct (t_usable _ _ Hn) as [Hx _]. split; [done|]. rewrite (t_orderly_nets x Hx) in Hp.
  by apply elem_of_peers_of.
Qed.

(** What an object, the static members and the system have to do with each other, where [l]
    and [d] are the other secure sockets and the other objects' descriptors. *)
Definition fits (l : list SecureSocket) (d : list Z) (o : net_object) (st : statics) (w : W) : Prop :=
  SocketOwners.own b (held_list (base o) ++ d) (open_fds w) /\ statics_fit (secure_part o ++ l) st.

Definition others (n : na_id) (m : gmap na_id net_object) : list SecureSocket := secures (delete n m).
Definition other_fds (n : na_id) (m : gmap na_id net_object) : list Z := fds_of (base <$> delete n m).

Lemma orderly_fits n o x :
  t_objects x !! n = Some o ->
  t_orderly x <-> t_wrong x <> Some Dangling /\ fits (others n (t_objects x)) (other_fds n (t_objects x)) o (t_statics x) (t_system x).
Proof using.
  intros Hn. unfold t_orderly, in_order, t_fine, fits, others, other_fds, secures.
  rewrite (bind_objects_lookup secure_part n o) by done.
  assert (fds_of (base <$> t_objects x) ≡ₚ held_list (base o) ++ fds_of (base <$> delete n (t_objects x))) as Hp
    by (rewrite fmap_delete; apply fds_of_lookup; by rewrite lookup_fmap, Hn).
  split.
  - intros [H1 [H2 H3]]. split_and!; [done|by eapply own_perm|done].
  - intros [H2 [H1 H3]]. split_and!; [|done..]. by eapply own_perm.
Qed.

Lemma orderly_put n o' x st w :
  t_wrong x <> Some Dangling -> fits (others n (t_objects x)) (other_fds n (t_objects x)) o' st w ->
  t_orderly (x <| t_objects ::= <[n := o']> |> <| t_statics := st |> <| t_system := w |>).
Proof using.
  intros Ht Hf. apply (orderly_fits n o'); [by cbn; rewrite lookup_insert_eq|]. cbn. split; [done|].
  unfold others, other_fds in *. by rewrite delete_insert_eq.
Qed.

(** ** Methods *)

(** A method that keeps all that. *)
Definition keeps {X} (f : method X) (need : net_object -> Prop) : Prop :=
  forall l d o st w, need o -> fits l d o st w ->
    match f o st w with
    | inl (_, o', st', w') => (has_peer o' <-> has_peer o) /\ fits l d o' st' w'
    | inr t => t = Hangs
    end.

Lemma t_on_object_keeps {X} n (dflt : X) f (need : net_object -> Prop) x o :
  keeps f need -> t_orderly x -> t_objects x !! n = Some o -> need o ->
  t_nets (t_on_object n dflt f x).2 = t_nets x.
Proof using.
  intros Hf Hx Hn Ho. rewrite (t_orderly_nets x Hx). destruct (proj1 (orderly_fits n o x Hn) Hx) as [Ht Hfit].
  specialize (Hf _ _ _ _ _ Ho Hfit). unfold t_on_object. rewrite Hn.
  destruct (f o _ _) as [[[[a o'] st'] w']|t]; cbn [snd].
  - destruct Hf as [Hp Hfit']. rewrite t_orderly_nets by by apply orderly_put.
    cbn. rewrite (peers_of_update n o) by done. by rewrite dom_insert_lookup_L by eauto.
  - subst t. by rewrite t_orderly_nets by by apply t_orderly_hangs.
Qed.

(** Most methods change neither the object's descriptor nor the table of descriptors, and
    leave the static members alone. *)
Lemma fits_same l d o st (w w' : W) : open_fds w' = open_fds w -> fits l d o st w -> fits l d o st w'.
Proof using. unfold fits. by intros ->. Qed.

Lemma obj_Read_keeps size : keeps (obj_Read fuel size) has_peer.
Proof using K.
  intros l d [s|s] st w Hn Hf; cbn [obj_Read].
  - destruct (sock_Read _ _ s w) as [[[k x] w']|] eqn:E; [|done]. apply Read_keeps in E. split; [done|by eapply fits_same].
  - destruct Hn as [ssl ->]. destruct (ss_Read _ _ _ w) as [[[k x] w']|] eqn:E; [|done]. apply ss_Read_keeps in E.
    split; [done|by eapply fits_same].
Qed.

Lemma obj_Send_keeps x : keeps (obj_Send fuel x) has_peer.
Proof using K.
  intros l d [s|s] st w Hn Hf; cbn [obj_Send].
  - destruct (sock_Send _ _ _ s w) as [[k w']|] eqn:E; [|done]. apply Send_keeps in E. split; [done|by eapply fits_same].
  - destruct Hn as [ssl ->]. destruct (ss_Send _ _ _ w) as [[k w']|] eqn:E; [|done]. apply ss_Send_keeps in E.
    split; [done|by eapply fits_same].
Qed.

Lemma obj_set_keeps f : (forall s, m_fd (f s) = m_fd s) -> keeps (obj_set f) (fun _ => True).
Proof using.
  intros Hfd l d [s|s] st w _ [Ho Hs]; cbn; (split; [done|]); split; cbn [base set_base secure_part] in *.
  - unfold held_list. by rewrite Hfd.
  - done.
  - unfold held_list. cbn. by rewrite Hfd.
  - destruct Hs as [Hc [|[H1 H2]]]; [done|]. split; [done|right]. split; [done|]. apply Forall_cons in H2 as [H2 H3].
    constructor; [|done]. unfold needs_context in *. cbn. by rewrite Hfd.
Qed.

Lemma ss_Init_keeps port s st w r s' st' w' d :
  ss_Init fuel port s st w = Some (r, s', st', w') ->
  m_pSsl s' = m_pSsl s /\
  (SocketOwners.own b (held_list (ss_base s) ++ d) (open_fds w) -> SocketOwners.own b (held_list (ss_base s') ++ d) (open_fds w')).
Proof using T K.
  unfold ss_Init. destruct (init_statics fuel s st w) as [[[[u|e] st1] w1]|] eqn:E; [| |done]; apply init_statics_keeps in E; cbn in E.
  - destruct (Init port (ss_base s) w1) as [[r2 base2] w2] eqn:Ei. intros [= <- <- <- <-]. split; [done|].
    rewrite <- E. intros Ho. by eapply Init_own.
  - intros [= <- <- <- <-]. by rewrite E.
Qed.

Lemma obj_Init_keeps port : keeps (obj_Init fuel port) (fun _ => True).
Proof using T K.
  intros l d [s|s] st w _ [Ho Hs]; cbn.
  - destruct (Init port s w) as [[r s'] w'] eqn:E. split; [done|]. split; [by eapply Init_own|exact Hs].
  - destruct (ss_Init fuel port s st w) as [[[[r s'] st'] w']|] eqn:E; [|done]. cbn [waiting].
    apply (statics_fit_ok _ _ _ w) in Hs as (Hok & Hc & [Hn Hl]%Forall_cons).
    destruct (ss_Init_spec _ _ _ _ _ _ _ _ _ Hok Hn E) as (H1 & H2 & H3 & H4).
    destruct (ss_Init_keeps _ _ _ _ _ _ _ _ d E) as [H5 H6].
    assert ((has_peer (Secure s') <-> has_peer (Secure s)) /\ fits l d (Secure s') st' w') as Hgoal.
    { split; [cbn; by rewrite H5|]. split; [by apply H6|]. apply (statics_fit_ok _ _ _ w').
      split_and!; [done|rewrite (proj1 H2), Hc; done|]. constructor; [done|].
      eapply Forall_impl; [exact Hl|]. intros a. by apply needs_grown. }
    destruct r as [u|e]; [exact Hgoal|]. destruct e; try exact Hgoal. by destruct (H4 what).
Qed.

Lemma obj_ThreadCleanup_keeps : keeps obj_ThreadCleanup (fun _ => True).
Proof using K.
  intros l d [s|s] st w _ Hf; cbn; [by split|]. pose proof Hf as [_ Hs].
  apply (statics_fit_ok _ _ _ w) in Hs as (Hok & _). unfold ss_ThreadCleanup.
  destruct (s_pSslError st) eqn:E; cbn; [by split| |by destruct Hok]. split; [done|]. eapply fits_same; [|exact Hf].
  unfold ThreadCleanup. apply remove_state_keeps.
Qed.

(** [Accept] also makes an object. *)
Lemma ss_Accept_peer s st w c s' st' w' :
  ss_Accept fuel s st w = Some (Ret c, s', st', w') -> is_Some (m_pSsl c).
Proof using.
  unfold ss_Accept, throw_ssl_error, SecureSocket_connected. intros E. repeat (case_match; simplify_eq/=; try done); eauto.
Qed.

Lemma ss_Accept_ssl s st w r s' st' w' : ss_Accept fuel s st w = Some (r, s', st', w') -> m_pSsl s' = m_pSsl s.
Proof using.
  unfold ss_Accept, throw_ssl_error. intros E. repeat (case_match; simplify_eq/=; try done).
Qed.

Definition part (r : res net_object) : list net_object := if r is Ret c then [c] else [].

Lemma obj_Accept_makes l d o st w :
  fits l d o st w ->
  match obj_Accept fuel o st w with
  | inl (r, o', st', w') => (has_peer o' <-> has_peer o) /\ Forall has_peer (part r) /\
      SocketOwners.own b ((part r ≫= held_list ∘ base) ++ held_list (base o') ++ d) (open_fds w') /\
      statics_fit ((part r ≫= secure_part) ++ secure_part o' ++ l) st'
  | inr t => t = Hangs
  end.
Proof using T.
  intros [Ho Hs]. destruct o as [s|s]; cbn [obj_Accept].
  - destruct (Accept fuel s w) as [[[r s'] w']|] eqn:E; [|done]. cbn [waiting].
    destruct (Accept_own _ _ _ _ _ _ _ _ Ho E) as [Hfd Ho'].
    assert (held_list (base (Plain s)) = held_list s') as Hh by (unfold held_list; cbn; by rewrite Hfd). rewrite Hh in Ho'.
    destruct r as [c|e]; (split; [done|]); (split; [by repeat constructor|]); (split; [|exact Hs]); cbn; rewrite ?app_nil_r; exact Ho'.
  - destruct (ss_Accept fuel s st w) as [[[[r s'] st'] w']|] eqn:E; [|done]. cbn [waiting].
    apply (statics_fit_ok _ _ _ w) in Hs. pose proof (ss_Accept_ssl _ _ _ _ _ _ _ E) as Hssl.
    destruct (accept_tls_ok [] s l st w _ _ _ _ _ Hs E) as [(H1 & H2 & H3) H4].
    assert (needs_context st s) as Hn by (destruct Hs as (_ & _ & Hf); by apply Forall_cons in Hf as [? _]).
    destruct (ss_Accept_spec _ _ _ _ _ Hn E) as (Hfd & _ & Hr).
    assert (held_list (base (Secure s)) = held_list (base (Secure s'))) as Hh by (unfold held_list; cbn; by rewrite Hfd). rewrite Hh in Ho.
    destruct r as [c|e]; cbn [defined].
    + split; [cbn; by rewrite Hssl|]. split; [constructor; [by eapply ss_Accept_peer|done]|]. split.
      * cbn. rewrite app_nil_r. apply (own_opens b _ (open_fds w)); [exact Ho|apply Hr].
      * apply (statics_fit_ok _ _ _ w'). cbn. cbn in H2, H3. split_and!; [done|lia|by constructor].
    + destruct Hr as [Hr1 Hr2].
      assert ((has_peer (Secure s') <-> has_peer (Secure s)) /\ Forall has_peer [] /\
        SocketOwners.own b (held_list (base (Secure s')) ++ d) (open_fds w') /\ statics_fit (s' :: l) st') as Hg.
      { split; [cbn; by rewrite Hssl|]. split; [done|]. rewrite Hr2. split; [done|]. apply (statics_fit_ok _ _ _ w').
        cbn in H2, H3. split_and!; [done|cbn; lia|done]. }
      destruct e; try exact Hg. by destruct (Hr1 what).
Qed.

(** ** Objects come and go *)
Lemma t_new_object_makes c x :
  SocketOwners.own b (held_list (base c) ++ t_fds x) (open_fds (t_system x)) -> t_wrong x <> Some Dangling ->
  statics_fit (secure_part c ++ secures (t_objects x)) (t_statics x) ->
  let '(k, y) := t_new_object c x in
  k ∉ dom (t_objects x) /\ peers_of (t_objects x) ⊆ peers_of (t_objects y) /\ (has_peer c -> k ∈ peers_of (t_objects y)) /\
  t_nets y = MkNets ({[k]} ∪ dom (t_objects x)) ∅ (peers_of (t_objects y)).
Proof using.
  intros Ho Ht Hs. unfold t_new_object. set (k := fresh _). assert (k ∉ dom (t_objects x)) as Hk by apply is_fresh.
  assert (t_objects x !! k = None) as Hk' by by apply not_elem_of_dom.
  split_and!; [done|by apply peers_of_new| |].
  - intros Hc. apply elem_of_peers_of. exists c. cbn. by rewrite lookup_insert_eq.
  - rewrite t_orderly_nets; [by cbn; rewrite dom_insert_L|]. split; [|split; [exact Ht|]].
    + cbn. eapply own_perm; [|exact Ho]. unfold t_fds. rewrite fmap_insert. symmetry. apply fds_of_new.
      by rewrite lookup_fmap, Hk'.
    + cbn. unfold secures. by rewrite bind_objects_new.
Qed.

Lemma t_create_laws certificate x :
  certificate = None \/ statics_ok (t_statics x) -> closed (t_nets x) = ∅ -> makes t_nets x (t_create handler certificate x).
Proof using.
  intros Hm Hc. destruct (nets_in_order _ _ _ _ _ Hc) as ([Ho [Ht Hs]] & Ha & Hp).
  assert (forall c st, held_list (base c) = [] -> statics_fit (secure_part c ++ secures (t_objects x)) st ->
    let '(k, y) := t_new_object c (x <| t_statics := st |>) in makes t_nets x (Ret k, y)) as Hnew.
  { intros c st Hf Hs'. set (y := x <| t_statics := st |>). pose proof (t_new_object_makes c y) as H. rewrite Hf in H.
    specialize (H Ho Ht Hs'). destruct (t_new_object c y) as [k z]. destruct H as (H1 & H2 & _ & H4).
    unfold makes, born. rewrite H4. cbn [alive closed peers]. unfold t_nets. rewrite Ha, Hp, dom_fmap_L. done. }
  unfold t_create. destruct certificate as [certfile|].
  - destruct Hm as [|Hm]; [done|]. destruct (SecureSocket_new certfile handler (t_statics x)) as [s st] eqn:E.
    injection E as <- <-. match goal with |- context [t_new_object (Secure ?s) (_ <| t_statics := ?st |>)] =>
      specialize (Hnew (Secure s) st eq_refl) end.
    destruct (t_new_object _ _) as [k y]. apply Hnew. destruct Hs as [Hs1 Hs2]. cbn. split; [cbn; lia|right].
    split; [by destruct Hm|]. constructor; [done|]. destruct Hs2 as [->|[_ Hs2]]; [constructor|].
    exact Hs2.
  - specialize (Hnew (Plain Socket_new) (t_statics x) eq_refl Hs).
    replace (x <| t_statics := t_statics x |>) with x in Hnew by by destruct x. by destruct (t_new_object _ x).
Qed.

Lemma t_Accept_laws n x : n ∈ t_nets x -> makes_peer t_nets x (t_Accept fuel n x).
Proof using T.
  intros Hn. destruct (t_usable _ _ Hn) as [Hx [o Ho]]. destruct (proj1 (orderly_fits n o x Ho) Hx) as [Ht Hfit].
  pose proof (obj_Accept_makes _ _ _ _ _ Hfit) as Hm. unfold t_Accept, t_on_object. rewrite Ho.
  destruct (obj_Accept fuel o _ _) as [[[[r o'] st'] w']|t]; [|subst t; split; [|done]; cbn;
    by rewrite (t_orderly_nets x), t_orderly_nets by (by try apply t_orderly_hangs)].
  destruct Hm as (H1 & H2 & H3 & H4).
  set (y := x <| t_objects ::= <[n := o']> |> <| t_statics := st' |> <| t_system := w' |>).
  assert (dom (t_objects y) = dom (t_objects x)) as Hd by (cbn; apply dom_insert_lookup_L; by exists o).
  assert (peers_of (t_objects y) = peers_of (t_objects x)) as Hp by by apply (peers_of_update _ o).
  destruct r as [c|e]; cbn [part] in *.
  - assert (t_fds y ≡ₚ held_list (base o') ++ other_fds n (t_objects x)) as Hfds.
    { unfold t_fds, other_fds. cbn. rewrite fmap_insert, fmap_delete. apply (fds_of_update _ (base o)). by rewrite lookup_fmap, Ho. }
    pose proof (t_new_object_makes c y) as Hnew. destruct (t_new_object c y) as [k z]. destruct Hnew as (Hk & Hg & Hc & Hz).
    + eapply own_perm; [|exact H3]. cbn. rewrite app_nil_r. by rewrite Hfds.
    + exact Ht.
    + cbn in H4. rewrite app_nil_r in H4. unfold secures. change (t_objects y) with (<[n := o']> (t_objects x)).
      rewrite (bind_objects_update secure_part n o) by done. exact H4.
    + unfold makes_peer, makes, born. rewrite Hz, (t_orderly_nets x Hx). rewrite Hd in *. rewrite Hp in *. cbn [alive closed peers].
      split_and!; [done..|]. apply Hc. by apply Forall_cons in H2 as [? _].
  - split; [|done]. cbn [makes]. rewrite (t_orderly_nets x Hx), t_orderly_nets; [by rewrite Hd, Hp|].
    apply orderly_put; [done|]. by split.
Qed.

Lemma t_Close_laws n x :
  n ∈ t_nets x -> let y := (t_on_object n tt obj_Close x).2 in
  alive (t_nets y) = alive (t_nets x) /\ closed (t_nets y) ⊆ {[n]} /\ peers (t_nets x) ⊆ peers (t_nets y).
Proof using.
  intros Hn. destruct (t_usable _ _ Hn) as [Hx [o Ho]]. unfold t_on_object. rewrite Ho. cbn zeta. cbn [obj_Close snd].
  rewrite (t_orderly_nets x Hx). set (y := x <| t_objects ::= _ |> <| t_statics := _ |> <| t_system := _ |>).
  assert (y = x <| t_system ::= Close (base o) |>) as -> by (unfold y; destruct x; cbn in *; by rewrite insert_id).
  unfold t_nets. change (t_fine (x <| t_system ::= _ |>)) with (t_fine x).
  change (open_fds (t_system (x <| t_system ::= _ |>))) with (open_fds (Close (base o) (t_system x))). rewrite Close_closes.
  destruct (closed_nets b (peers_of (t_objects x)) (base <$> t_objects x) _ (t_fine x) n (base o) Hx) as (H1 & H2 & H3);
    [by rewrite lookup_fmap, Ho|].
  cbn [alive peers]. split_and!; [etrans; [exact H1|apply dom_fmap_L]|exact H2|apply reflexive_eq; symmetry; exact H3].
Qed.

Lemma t_delete_laws n x :
  n ∈ alive (t_nets x) -> closed (t_nets x) ⊆ {[n]} -> gone n (t_nets x) (t_nets (t_delete n x)).
Proof using T K.
  unfold t_nets at 1 2 3, nets_of. case_decide as Hx; cbn [alive closed]; [|set_solver].
  rewrite dom_fmap_L. intros [o Ho]%elem_of_dom Hc.
  assert ((base <$> t_objects x) !! n = Some (base o)) as Ho' by by rewrite lookup_fmap, Ho.
  assert (t_fine x) as [Ht Hs] by by destruct Hx as (_ & _ & _ & _ & ?). unfold secures in Hs.
  rewrite (bind_objects_lookup secure_part n o) in Hs by done.
  assert (forall y, t_objects y = delete n (t_objects x) -> open_fds (t_system y) = open_fds (t_system x) ∖ held (base o) ->
    t_fine y -> gone n (MkNets (dom (t_objects x)) (half_closed (base <$> t_objects x) (open_fds (t_system x))) (peers_of (t_objects x)))
      (t_nets y)) as Hgone.
  { intros y Hy Hf Hfine. rewrite t_orderly_nets.
    - unfold gone. cbn [alive closed peers]. rewrite Hy, dom_delete_L. split_and!; [done|done|apply peers_of_delete].
    - unfold t_orderly. rewrite Hy, Hf, fmap_delete. by eapply deleted_in_order. }
  unfold t_delete. rewrite Ho. destruct o as [s|s].
  - apply Hgone; [done| |by split]. unfold Socket_delete. apply Close_closes.
  - apply (statics_fit_ok _ _ _ (t_system x)) in Hs.
    destruct (SecureSocket_delete_ok [] s _ _ _ Hs) as (st & w & E & H1 & H2). rewrite E. cbn [app] in H1, H2.
    apply Hgone; [done|by eapply SecureSocket_delete_closes|]. split; [done|]. cbn [t_objects t_statics].
    change (statics_fit (others n (t_objects x)) st). change (_ ≫= secure_part) with (others n (t_objects x)) in H1, H2.
    destruct (others n (t_objects x)) as [|s' l]; [split; [by apply H2|by left]|].
    apply (statics_fit_ok _ _ _ w). by apply H1.
Qed.
End laws.

(** ** A server with SSL *)
Section server.
Context {W : Type} {OS : Os W} {L : OsLaws OS} {S : Ssl W} {T : TlsLaws L S} {K : TlsKeeps L S} {H : Host W} {HL : HostLaws L H}.
Variables (fuel : nat) (helper handler : option nat).

(** Objects of both kinds keep what ServerNetworks relies on.  A secure socket can be made
    as long as no static member dangles. *)
Definition tls_net_laws (b : gset Z) : NetLaws (tls_env fuel helper handler).
Proof using HL T K.
  refine {| live := t_nets b; may_create certificate x := certificate = None \/ statics_ok (t_statics x) |};
    cbn [tls_env na_Read na_Send na_Close na_Accept na_delete na_create na_RegisterBindHelper na_SetBindAddress na_Init
      rsh_OnConnect rsh_OnDisconnect rsh_OnData pthread_create pthread_cond_broadcast select].
  - intros n k w (Hx & o & Ho & Hp)%t_connected. by eapply t_on_object_keeps; [apply obj_Read_keeps|..].
  - intros n d w (Hx & o & Ho & Hp)%t_connected. by eapply t_on_object_keeps; [apply obj_Send_keeps|..].
  - apply t_Close_laws.
  - apply t_Accept_laws.
  - apply t_delete_laws.
  - apply t_create_laws.
  - intros n w (Hx & o & Ho)%t_usable. by eapply t_on_object_keeps; [apply obj_set_keeps|..].
  - intros n a w (Hx & o & Ho)%t_usable. by eapply t_on_object_keeps; [apply obj_set_keeps|..].
  - intros n port w (Hx & o & Ho)%t_usable. by eapply t_on_object_keeps; [apply obj_Init_keeps|..].
  - intros c w. unfold t_nets. cbn. by rewrite OnConnect_keeps.
  - intros c w. unfold t_nets. cbn. by rewrite OnDisconnect_keeps.
  - intros c d w. unfold t_nets, t_on_system. pose proof (OnData_keeps c d (t_system w)) as Hk.
    destruct (host_OnData c d (t_system w)). cbn in *. by rewrite Hk.
  - intros w. unfold t_nets, t_on_system. pose proof (pthread_create_keeps (t_system w)) as Hk.
    destruct (host_pthread_create (t_system w)). cbn in *. by rewrite Hk.
  - intros w. unfold t_nets. cbn. by rewrite cond_broadcast_keeps.
  - intros fds t w. unfold t_nets, t_on_system. pose proof (select_keeps fds t (t_system w)) as Hk.
    destruct (host_select fds t (t_system w)). cbn in *. by rewrite Hk.
Defined.

Lemma t_nets_read b (x : tls_net W) :
  closed (t_nets b x) = ∅ ->
  dom (t_objects x) = alive (t_nets b x) /\ SocketOwners.own b (t_fds x) (open_fds (t_system x)) /\ t_fine x.
Proof using. unfold t_nets. intros ([Ho Ht] & -> & _)%nets_in_order. by rewrite dom_fmap_L. Qed.

Lemma t_nets_none b (x : tls_net W) :
  alive (t_nets b x) = ∅ -> closed (t_nets b x) = ∅ ->
  t_objects x = ∅ /\ open_fds (t_system x) = b /\ s_refcount (t_statics x) = 0 /\ t_wrong x <> Some Dangling.
Proof using.
  intros Ha Hc. destruct (t_nets_read b x Hc) as (Hd & Ho & Ht & Hs & _). rewrite Ha in Hd. apply dom_empty_inv_L in Hd.
  unfold t_fds in Ho. rewrite Hd, fmap_empty in Ho. rewrite Hd in Hs. destruct Ho as (_ & _ & ->).
  unfold secures, fds_of in *. rewrite map_to_list_empty in *. split_and!; [done| |exact Hs|exact Ht].
  cbn. apply (right_id_L ∅ (∪)).
Qed.

Lemma t_nets_start b (x : tls_net W) :
  t_objects x = ∅ -> t_wrong x = None -> open_fds (t_system x) = b -> s_refcount (t_statics x) = 0 -> t_nets b x = MkNets ∅ ∅ ∅.
Proof using.
  intros Ho Ht Hb Hs. rewrite t_orderly_nets; [by rewrite Ho, dom_empty_L|]. unfold t_orderly, in_order, t_fine, statics_fit.
  rewrite Ho, Ht, Hb, Hs, fmap_empty. unfold secures, fds_of. rewrite map_to_list_empty. cbn.
  split; [|split; [done|split; [done|by left]]].
  split_and!; [constructor|apply disjoint_empty_r|symmetry; apply (right_id_L ∅ (∪))].
Qed.

(** ** Handshakes that fail *)

Lemma throw_ssl_error_says {X} message cleanup st w (r : res X) st' w' :
  s_pSslError st = Live -> throw_ssl_error fuel message cleanup st w = Some (r, st', w') ->
  exists text, r = Throw (Runtime_error (message text)).
Proof using.
  unfold throw_ssl_error. intros ->. destruct (GetError _ _ _ _ _) as [[[[n e] m] w1]|]; [|done].
  intros [= <- _ _]. by exists e.
Qed.

(** Once [accept] has given a descriptor, what [Accept] throws says that it is about SSL. *)
Lemma ss_Accept_says_ssl s st w fd base w1 e s' st' w' :
  needs_context st s -> accept_loop fuel (ss_base s) w = Some (fd, base, w1) -> fd <> INVALID_SOCKET ->
  ss_Accept fuel s st w = Some (Throw e, s', st', w') -> exists what n, e = Runtime_error what /\ find #"SSL" what = Some n.
Proof using T.
  intros Hn Ea Hfd. unfold ss_Accept. rewrite Ea, (proj2 (Z.eqb_neq _ _) Hfd).
  assert (m_fd (ss_base s) <> INVALID_SOCKET) as [Hc He]%Hn by (intros Hs; apply Hfd; by eapply accept_loop_invalid).
  rewrite decide_False by congruence. destruct (SSL_new _ w1) as [[ssl|] w2].
  - destruct (handshake _ _ _) as [[ret w3]|]; [|done]. destruct (ret =? 1); [by destruct (SecureSocket_connected _ _ _ _ _) as [[]]|].
    destruct (throw_ssl_error _ _ _ st w3) as [[[r st2] w4]|] eqn:Et; [|done]. intros [= -> _ _ _].
    destruct (throw_ssl_error_says _ _ _ _ _ _ _ He Et) as [t [= ->]]. eexists _, 13%nat. split; [done|].
    by apply (find_app #"SSL" #"Error during SSL handshake: ").
  - destruct (throw_ssl_error _ _ _ st w2) as [[[r st2] w4]|] eqn:Et; [|done]. intros [= -> _ _ _].
    destruct (throw_ssl_error_says _ _ _ _ _ _ _ He Et) as [t [= ->]]. eexists _, 21%nat. split; [done|].
    by apply (find_app #"SSL" #"Error while creating SSL session context: ").
Qed.

Lemma ss_Accept_gives s st w fd base w1 c s' st' w' :
  accept_loop fuel (ss_base s) w = Some (fd, base, w1) -> ss_Accept fuel s st w = Some (Ret c, s', st', w') -> m_fd (ss_base c) = fd.
Proof using L.
  unfold ss_Accept, throw_ssl_error, SecureSocket_connected. intros -> E. repeat case_match; simplify_eq/=; try done.
  match goal with E : Socket_connected _ ?p ?w = (_, _) |- _ => pose proof (Socket_connected_keeps fd p w) as [Hfd _]; by rewrite E in Hfd end.
Qed.

Context (b : gset Z) {A : App (tls_net W)} {LA : AppNetLaws (tls_net_laws b) A} {B : Boost}.
Variables (beyond stale : bytes).


(** C20: a client that the system has accepted cannot stop a server with SSL: whatever it
    sends in its handshake, and whatever OpenSSL makes of it, either the server has one more
    connection, with the client's descriptor, or it is as it was, the table of descriptors and
    the count of secure sockets included; unless the handshake does not end, when the thread
    is kept in it.  (An error of [accept] itself ends the server, with or without SSL.) *)
Theorem handshake_never_ends_server s (x : tls_net W) l fd peer w1 :
  closed (t_nets b x) = ∅ -> t_wrong x = None -> t_objects x !! srv_network s = Some (Secure l) ->
  FD_ISSET (m_fd (ss_base l)) s = true ->
  accept_loop fuel (ss_base l) (t_system x) = Some (fd, peer, w1) -> fd <> INVALID_SOCKET ->
  let '(r, s', y) := CheckAcceptSocket (E := tls_env fuel helper handler) s x in
  t_wrong y = Some Hangs \/
  r = Ret tt /\ t_wrong y = None /\
  (s' = s /\ dom (t_objects y) = dom (t_objects x) /\ open_fds (t_system y) = open_fds (t_system x) /\
     s_refcount (t_statics y) = s_refcount (t_statics x) \/
   exists n, n ∉ dom (t_objects x) /\ networks s' = networks s ++ [n] /\ dom (t_objects y) = {[n]} ∪ dom (t_objects x) /\
     na_GetFd (Env := tls_env fuel helper handler) n y = fd /\ open_fds (t_system y) = {[fd]} ∪ open_fds (t_system x) /\
     s_refcount (t_statics y) = s_refcount (t_statics x) + 1).
Proof using T.
  intros Hc Hw Hl Hs Ea Hfd. destruct (t_nets_read b x Hc) as (_ & _ & _ & Hf).
  unfold secures in Hf. rewrite (bind_objects_lookup secure_part _ _ _ Hl) in Hf.
  apply (statics_fit_ok _ _ _ (t_system x)) in Hf as (_ & _ & [Hn _]%Forall_cons).
  unfold CheckAcceptSocket. assert (na_GetFd (Env := tls_env fuel helper handler) (srv_network s) x = m_fd (ss_base l)) as ->
    by (cbn; unfold t_get; by rewrite Hl). rewrite Hs. cbn [tls_env na_Accept]. unfold t_Accept, t_on_object. rewrite Hl. cbn [obj_Accept].
  destruct (ss_Accept fuel l _ _) as [[[[r l'] st] w]|] eqn:E; [|left; cbn; by rewrite Hw].
  pose proof (ss_Accept_descriptors _ _ _ _ _ _ _ _ Hn E) as Hd. cbn [waiting].
  assert (dom (<[srv_network s := Secure l']> (t_objects x)) = dom (t_objects x)) as Hdom
    by (apply dom_insert_lookup_L; eauto).
  destruct r as [c|e]; cbn [defined].
  - unfold t_new_object. cbn. rewrite Hdom. set (n := fresh _). assert (n ∉ dom (t_objects x)) as Hfresh by apply is_fresh.
    right. split_and!; [done..|]. right. exists n. rewrite accept_connection_networks, dom_insert_L, Hdom.
    assert (m_fd (ss_base c) = fd) as Hcfd by by eapply ss_Accept_gives. destruct Hd as (Hop & _ & Hcount). rewrite Hcfd in Hop.
    destruct Hop as [[? _]|(_ & _ & Hop)]; [done|]. split_and!; [done..| |done|done].
    unfold t_get. cbn. by rewrite lookup_insert_eq.
  - destruct (ss_Accept_says_ssl _ _ _ _ _ _ _ _ _ _ Hn Ea Hfd E) as (what & n & -> & Hfind). cbn [defined].
    cbv beta iota. rewrite Hfind.
    right. split_and!; [done..|]. left. destruct Hd as (H1 & H2 & _). done.
Qed.
End server.

(** ** A concrete run *)
#[export] Instance tls_keeps : TlsKeeps tls_fd_laws tls_ssl.
Proof.
  constructor; try done; intros s n w.
  change (open_fds (tl_os (on_os (os_recv 0 n) w).2) = open_fds (tl_os w)). rewrite on_os_snd. apply recv_keeps.
Qed.

#[export] Instance tls_host : Host tls := {|
  host_OnConnect _ t := t;
  host_OnDisconnect _ t := t;
  host_OnData _ _ t := (Ret true, t);
  host_time _ := 1000;
  host_keepalive _ _ t := t;
  host_pthread_create t := (Some 5, t);
  host_cond_broadcast t := t;
  host_select fds _ t := (Sel_ready fds, t)
|}.
#[export] Instance tls_host_laws : HostLaws tls_fd_laws tls_host.
Proof. by split. Defined.

#[local] Instance tls_net_env : Env (tls_net tls) := tls_env 5 None None.
Definition tls_no_content : App (tls_net tls) := {|
  RouteRequest req x := (Ret (Error_request [] (time x) HTTPRESPONSECODE_404_NOTFOUND req), x);
  ThreadInitHandler x := (true, x);
  ThreadExitHandler x := x;
  HandleThreadException _ _ _ x := (None, x);
  has_RawSocketHandler := false
|}.
#[local] Existing Instance tls_no_content.
Lemma tls_no_content_laws : AppNetLaws (tls_net_laws 5 None None {[0; 1; 2]}) tls_no_content.
Proof. by split. Defined.
#[local] Existing Instance perl_boost.

Definition tls_before : tls_net tls := MkTlsNet ∅ statics_initial tls_system None.
Definition with_certificate : EHSServerParameters :=
  sm_set #"https" (assign_cstr #"1") (sm_set #"certificate" (assign_cstr #"server.pem") (on_port 8443)).

Definition tls_starting : res EHSServer * tls_net tls := EHSServer_new (Some with_certificate) tls_before.
Definition tls_running : EHSServer := match tls_starting.1 with Ret s => s | Throw _ => example_server end.

(** The first handshake is repeated once and succeeds, the second one fails. *)
Definition tls_with_thread : fconfig := FConfig tls_running tls_starting.2 {[5 := FCreated]}.
Definition tls_after (n : nat) : fconfig := default tls_with_thread (run [] [] (replicate n 5) tls_with_thread).
Definition tls_one : fconfig := tls_after 7.
Definition tls_two : fconfig := tls_after 14.

Lemma tls_starts : EHSServer_new (Some with_certificate) tls_before = (Ret tls_running, tls_starting.2).
Proof. by vm_compute. Qed.
Lemma tls_after_reached n : rtc (fstep [] []) (FConfig tls_running tls_starting.2 ∅) (tls_after n).
Proof.
  eapply rtc_l; [by apply (fstep_start _ _ tls_running tls_starting.2 ∅ 5)|].
  change (rtc (fstep [] []) tls_with_thread (tls_after n)). unfold tls_after.
  destruct (run [] [] (replicate n 5) tls_with_thread) as [c|] eqn:Hr; [by eapply run_steps|apply rtc_refl].
Qed.


(** The second client, whose handshake fails. *)
Definition tls_reading : EHSServer := fc_server tls_one <| m_oReadFds := [3] |>.
Definition tls_listener : SecureSocket :=
  match t_objects (fc_world tls_one) !! 0%nat with Some (Secure l) => l | _ => MkSecureSocket Socket_new None [] None end.
Lemma arrival : exists peer w1, accept_loop 5 (ss_base tls_listener) (t_system (fc_world tls_one)) = Some (5, peer, w1).
Proof. vm_compute. eauto. Qed.
Lemma handshake_never_ends_server_witness :
  let x := fc_world tls_one in
  closed (t_nets {[0; 1; 2]} x) = ∅ /\ t_wrong x = None /\
  t_objects x !! srv_network tls_reading = Some (Secure tls_listener) /\
  FD_ISSET (m_fd (ss_base tls_listener)) tls_reading = true /\
  exists peer w1, accept_loop 5 (ss_base tls_listener) (t_system x) = Some (5, peer, w1) /\
    let '(r, s', y) := CheckAcceptSocket (E := tls_env 5 None None) tls_reading x in
    r = Ret tt /\ t_wrong y = None.
Proof.
  intros x. assert (closed (t_nets {[0; 1; 2]} x) = ∅) as Hc by by vm_compute.
  assert (t_wrong x = None) as Hw by by vm_compute.
  assert (t_objects x !! srv_network tls_reading = Some (Secure tls_listener)) as Hl by by vm_compute.
  assert (FD_ISSET (m_fd (ss_base tls_listener)) tls_reading = true) as Hf by by vm_compute.
  split_and!; [exact Hc|exact Hw|exact Hl|exact Hf|].
  destruct arrival as (peer & w1 & Ea). exists peer, w1. split; [exact Ea|].
  assert (t_wrong (CheckAcceptSocket (E := tls_env 5 None None) tls_reading x).2 <> Some Hangs) as Hh by (vm_compute; discriminate).
  pose proof (handshake_never_ends_server 5 None None {[0; 1; 2]} tls_reading x tls_listener 5 peer w1 Hc Hw Hl Hf Ea ltac:(done)) as H.
  destruct (CheckAcceptSocket (E := tls_env 5 None None) tls_reading x) as [[r s'] y]. destruct H as [H|(H1 & H2 & _)]; [by destruct Hh|split; [exact H1|exact H2]].
Defined.

(** The server is deleted and another one is started: it listens as if nothing had happened, and
    uses the deleted context for the first client. *)
Definition restarted : res EHSServer * tls_net tls := EHSServer_new (Some with_certificate) (EHSServer_delete tls_running tls_starting.2).
Example https_restart :
  exists s x, restarted = (Ret s, x) /\ t_wrong x = None /\ t_wrong (CheckAcceptSocket (s <| m_oReadFds := [3] |>) x).2 = Some Dangling.
Proof.
  destruct restarted as [[s|e] x] eqn:E; [|by vm_compute in E]. exists s, x. split; [done|].
  assert (s = match restarted.1 with Ret s => s | Throw _ => example_server end) as -> by by rewrite E.
  assert (x = restarted.2) as -> by by rewrite E. split; vm_compute; reflexivity.
Qed.
