(* ===== verification/Serve.v ===== *)
(** * A request and its answer, through the whole server

    The way of one message through [EHSServer]: [select] reports the connection, the
    bytes are read and parsed, the request is queued and taken by the next call of
    [HandleData], the application answers it, and the answer is sent on the same
    connection.  The other connections are not touched. *)
From S2P Require Import Prelude Boost StdMap Datum EhsTypes HttpRequest HttpResponse Network Connection.
From S2P Require Import HttpRequestFacts HttpRequestProps HttpRender ConnectionFacts Server ServerFacts Ehs.

Local Open Scope Z_scope.

Section serve.
Context {W : Type} {E : Env W} {A : App W} {B : Boost} {L : BoostLaws B}.
Variables (beyond stale : bytes).
#[local] Existing Instance no_other_threads.

Lemma AddBuffer_keeps mode data size c p (w : W) c' p' w' :
  AddBuffer mode data size c p w = Some (Ret ADDBUFFER_OK, c', p', w') -> conn_ok c ->
  conn_ok c' /\ io_view c' = io_view c.
Proof using.
  unfold AddBuffer. destruct (_ <=? _); [by intros; simplify_eq|]. destruct (_ <? _); [by intros; simplify_eq|].
  set (c0 := c <| m_sBuffer ::= _ |>). intros Hl Hok. assert (conn_ok c0) as Hok0 by by destruct Hok; split.
  destruct (add_buffer_loop_ok _ _ _ _ _ _ _ _ _ Hl Hok0) as (H1 & _). split; [by apply H1|].
  by rewrite (add_buffer_loop_io _ _ _ _ _ _ _ _ _ Hl).
Qed.

(** ** Reading *)

(** A connection that waits for a request: nothing buffered or queued, connected. *)
Record waiting_conn (c : EHSConnection) : Prop := {
  wc_ok : conn_ok c;
  wc_between : between_requests c;
  wc_finished : finished c = [];
  wc_buffer : m_sBuffer c = [];
  wc_queue : m_oHttpRequestList c = [];
  wc_responses : m_oResponseQueue c = [];
  wc_mode : IsRaw c = false;
  wc_reading : StillReading c = true
}.

(** The connection after a message has been read: its request, which the message
    describes, is queued. *)
Definition has_read (c : EHSConnection) (m : message) (r : HttpRequest) (c' : EHSConnection) : Prop :=
  request_of m (conn_sParseContentType c) r /\ m_poSourceEHSConnection r = conn_this c /\
  m_oHttpRequestList c' = [r] /\ io_view c' = io_view c /\ m_sBuffer c' = [] /\ between_requests c' /\ conn_ok c'.

Lemma check_client_reads s c (w w1 : W) m :
  waiting_conn c -> wf_message m -> m_nServerRunningStatus s = SERVERRUNNING_SINGLETHREADED ->
  Z.of_nat (length (render m)) <= m_nMaxRequestSize c -> Z.of_nat (length (render m)) < 2 ^ 64 ->
  FD_ISSET (na_GetFd (m_poNetworkAbstraction c) w) s = true ->
  na_Read (m_poNetworkAbstraction c) read_size w = (Z.of_nat (length (render m)), render m, w1) ->
  exists c' r, check_client beyond stale s c w =
      Some (Ret tt, c', m_nRequestsPending s + 1, pthread_cond_broadcast w1) /\ has_read c m r c'.
Proof using L.
  intros [K1 K2 K3 K4 K5 K6 K7 K8] Hm Hs Hmax Hsz Hfd Hread. unfold check_client. rewrite Hfd, Hread, K7, Hs.
  pose proof (render_length m) as Hlen. rewrite (proj2 (Z.leb_gt _ 0)) by lia.
  assert (render_all [m] = render m) as Hr by (cbn; by rewrite app_nil_r).
  pose proof (AddBuffer_messages SERVERRUNNING_SINGLETHREADED [m] c (m_nRequestsPending s) w1 ltac:(by constructor)
    ltac:(done) K2 K4 ltac:(by rewrite Hr)) as Ha.
  cbv zeta in Ha. rewrite Hr, (proj2 (Z.ltb_ge _ _) Hmax) in Ha. unfold pipelined in Ha. rewrite K3, K5 in Ha.
  cbn [length app Nat.add announced mbind option_bind] in Ha. unfold announce in Ha. rewrite decide_False in Ha by done.
  destruct Ha as (c' & l & Ha & Hl & Hof & Hb & Hbet). rewrite Ha.
  destruct (AddBuffer_keeps _ _ _ _ _ _ _ _ _ Ha K1) as [Hok Hio].
  apply Forall2_cons_inv_l in Hof as (r & l' & Hreq & Hrest & Hll). apply Forall2_nil_inv_l in Hrest.
  rewrite Hll, Hrest in Hl.
  exists c', r. split; [by rewrite Z.add_0_r|].
  unfold has_read. split_and!; try done. pose proof (co_queue _ Hok) as Hq. rewrite Hl in Hq.
  apply Forall_cons in Hq as [[_ Hsrc] _]. rewrite Hsrc. unfold io_view in Hio. congruence.
Qed.

(** Connections that are not reported are passed over. *)
Lemma check_clients_skip n1 n2 i s (w : W) :
  (forall j c, (i <= j < i + n1)%nat -> m_oEHSConnectionList s !! j = Some c ->
     FD_ISSET (na_GetFd (m_poNetworkAbstraction c) w) s = false) ->
  (i + n1 <= length (m_oEHSConnectionList s))%nat ->
  check_clients beyond stale (n1 + n2) i s w = check_clients beyond stale n2 (i + n1) s w.
Proof using.
  revert i. induction n1 as [|n1 IH]; intros i Hq Hlen; [by rewrite Nat.add_0_r|]. cbn [Nat.add check_clients].
  destruct (lookup_lt_is_Some_2 (m_oEHSConnectionList s) i ltac:(lia)) as [c Hc]. rewrite Hc.
  unfold check_client. rewrite (Hq i c) by (done || lia).
  assert (s <| m_oEHSConnectionList ::= <[i := c]> |> <| m_nRequestsPending := m_nRequestsPending s |> = s) as ->.
  { cbn. rewrite list_insert_id by done. by destruct s. }
  rewrite IH; [f_equal; lia| |lia]. intros j d Hj. apply Hq. lia.
Qed.

Lemma insert_middle {X} (l1 l2 : list X) (a b : X) : <[length l1 := b]> (l1 ++ a :: l2) = l1 ++ b :: l2.
Proof using. by rewrite insert_app_r_alt, Nat.sub_diag. Qed.

(** The one connection that is reported is read; [w1] is the world when its turn comes,
    and [w3] the one after. *)
Lemma CheckClientSockets_one s l1 c l2 c' (w w3 : W) :
  m_oEHSConnectionList s = l1 ++ c :: l2 ->
  Forall (fun d => FD_ISSET (na_GetFd (m_poNetworkAbstraction d) w) s = false) l1 ->
  Forall (fun d => FD_ISSET (na_GetFd (m_poNetworkAbstraction d) w3) s = false) l2 ->
  check_client beyond stale s c w = Some (Ret tt, c', m_nRequestsPending s + 1, w3) ->
  CheckClientSockets beyond stale s w =
    Some (Ret tt, s <| m_oEHSConnectionList := l1 ++ c' :: l2 |> <| m_nRequestsPending := m_nRequestsPending s + 1 |>, w3).
Proof using.
  intros Hl H1 H2 Hc. unfold CheckClientSockets. rewrite Hl, length_app. cbn [length].
  rewrite check_clients_skip; [|intros j d Hj; rewrite Hl, lookup_app_l by lia; intros Hd|rewrite Hl, length_app; lia].
  2:{ rewrite Forall_forall in H1. apply H1. by eapply list_elem_of_lookup_2. }
  cbn [check_clients]. rewrite Hl, Nat.add_0_l, list_lookup_middle by done. rewrite Hc.
  set (s1 := _ <| m_nRequestsPending := _ |>).
  assert (s1 = s <| m_oEHSConnectionList := l1 ++ c' :: l2 |> <| m_nRequestsPending := m_nRequestsPending s + 1 |>) as ->.
  { unfold s1. cbn. by rewrite Hl, insert_middle. }
  set (s2 := s <| m_oEHSConnectionList := _ |> <| m_nRequestsPending := _ |>).
  assert (m_oEHSConnectionList s2 = l1 ++ c' :: l2) as Hl2 by done.
  replace (length l2) with (length l2 + 0)%nat by lia. rewrite check_clients_skip; [done| |].
  - intros j d Hj. rewrite Hl2. intros Hd. change (FD_ISSET ?x s2) with (FD_ISSET x s).
    rewrite Forall_forall in H2. apply H2. rewrite lookup_app_r in Hd by lia.
    replace (j - length l1)%nat with (S (j - length l1 - 1)) in Hd by lia. by eapply list_elem_of_lookup_2.
  - rewrite Hl2, length_app. cbn [length]. lia.
Qed.

(** Nothing is removed while every connection is being read and none has been idle for
    too long. *)
Definition lively (s : EHSServer) (w : W) (d : EHSConnection) : Prop :=
  StillReading d = true /\ clear_idle (m_nIdleTimeout s) w d = d.

Lemma end_accepting_lively s (w : W) :
  Forall (lively s w) (m_oEHSConnectionList s) -> end_accepting s w = Some (Ret tt, s <| m_bAccepting := false |>, w).
Proof using.
  intros Hl. unfold end_accepting, ClearIdleConnections, RemoveFinishedConnections.
  assert (s <| m_oEHSConnectionList ::= fmap (clear_idle (m_nIdleTimeout s) w) |> = s) as ->.
  { cbn. assert (clear_idle (m_nIdleTimeout s) w <$> m_oEHSConnectionList s = m_oEHSConnectionList s) as ->; [|by destruct s].
    rewrite <- (list_fmap_id (m_oEHSConnectionList s)) at 2. apply list_fmap_ext.
    intros i d Hd. rewrite Forall_forall in Hl. apply Hl. by eapply list_elem_of_lookup_2. }
  cbn [remove_finished]. pose proof (scan_done_spec (m_oEHSConnectionList s) w) as Hs.
  destruct (scan_done _ w) as [[id|] w1]; [|by destruct Hs as [-> _]].
  destruct Hs as (l1 & c & l2 & Hc & _ & Hf & _). rewrite Forall_forall in Hl.
  destruct (Hl c) as [Hr _]; [rewrite Hc; apply elem_of_app; right; left|]. unfold is_finished in Hf. by rewrite Hr in Hf.
Qed.

(** ** The two calls of [HandleData] *)

(** A single-threaded server with one connection [c] that is about to receive something,
    and others that are not. *)
Record serving (s : EHSServer) (l1 : list EHSConnection) (c : EHSConnection) (l2 : list EHSConnection) : Prop := {
  sv_list : m_oEHSConnectionList s = l1 ++ c :: l2;
  sv_mode : m_nServerRunningStatus s = SERVERRUNNING_SINGLETHREADED;
  sv_pending : m_nRequestsPending s = 0;
  sv_accepting : m_bAccepting s = false;
  sv_distinct : distinct_conns s;
  sv_waiting : waiting_conn c;
  sv_queues : Forall (fun d => m_oHttpRequestList d = []) (l1 ++ l2)
}.

(** What the system does in the first call: [select] reports the descriptor of [c]
    only, and [Read] delivers the message. *)
Record arrives (s : EHSServer) (l1 : list EHSConnection) (c : EHSConnection) (l2 : list EHSConnection)
    (m : message) (ms : Z) (w w1 w2 : W) : Prop := {
  ar_select : select (m_oReadFds (CreateFdSet s w).2) ms w = (Sel_ready [na_GetFd (m_poNetworkAbstraction c) w1], w1);
  ar_listening : na_GetFd (srv_network s) w1 <> na_GetFd (m_poNetworkAbstraction c) w1;
  ar_before : Forall (fun d => na_GetFd (m_poNetworkAbstraction d) w1 <> na_GetFd (m_poNetworkAbstraction c) w1) l1;
  ar_after : Forall (fun d => na_GetFd (m_poNetworkAbstraction d) (pthread_cond_broadcast w2) <>
                              na_GetFd (m_poNetworkAbstraction c) w1) l2;
  ar_read : na_Read (m_poNetworkAbstraction c) read_size w1 = (Z.of_nat (length (render m)), render m, w2);
  ar_max : Z.of_nat (length (render m)) <= m_nMaxRequestSize c;
  ar_size : Z.of_nat (length (render m)) < 2 ^ 64;
  ar_lively : Forall (lively s (pthread_cond_broadcast w2)) (l1 ++ l2)
}.

Lemma no_job s rnd :
  m_nRequestsPending s = 0 -> total_queued (m_oEHSConnectionList s) = 0%nat -> 0 <= rnd <= RAND_MAX ->
  (srv_GetNextRequest rnd s) = (None, s).
Proof using.
  intros Hp Ht Hr. assert (pending_ok s) as Hok by (unfold pending_ok; by rewrite Hp, Ht).
  pose proof (next_request_full rnd s Hr Hok) as Hn. destruct (srv_GetNextRequest rnd s) as [req s'].
  destruct Hn as ([_ Hnone] & Hsame & _). specialize (Hnone Hp). subst req. by rewrite Hsame.
Qed.

Lemma serving_queued s l1 c l2 c' :
  serving s l1 c l2 -> total_queued (l1 ++ c' :: l2) = length (m_oHttpRequestList c').
Proof using.
  intros [_ _ _ _ _ _ Hq]. apply Forall_app in Hq as [H1 H2]. apply total_queued_zero in H2.
  induction H1 as [|d l1 Hd H1 IH]; cbn [app total_queued]; [lia|]. rewrite Hd, IH. done.
Qed.

Lemma HandleData_reads s l1 c l2 m rnd ms tid (w w1 w2 : W) :
  serving s l1 c l2 -> wf_message m -> arrives s l1 c l2 m ms w w1 w2 -> 0 <= rnd <= RAND_MAX ->
  exists c' r s', HandleData beyond stale rnd ms tid s w = Some (Ret tt, s', pthread_cond_broadcast w2) /\
    has_read c m r c' /\ m_oEHSConnectionList s' = l1 ++ c' :: l2 /\ m_nRequestsPending s' = 1 /\
    m_nServerRunningStatus s' = SERVERRUNNING_SINGLETHREADED /\ m_bAcceptedNewConnection s' = false /\
    m_oCurrentRequest s' = delete tid (m_oCurrentRequest s).
Proof using L.
  intros Hsv Hm [A1 A2 A3 A4 A5 A6 A7 A8] Hr. pose proof Hsv as [K1 K2 K3 K4 K5 K6 K7].
  unfold HandleData, choose_job. set (s0 := s <| m_oCurrentRequest ::= delete tid |>).
  rewrite bool_decide_eq_true_2 by (cbn; congruence). cbn [orb].
  rewrite (no_job s0 rnd K3); [|cbn; rewrite K1, (serving_queued _ _ _ _ c Hsv), (wc_queue _ K6); done|done].
  change (m_bAccepting s0) with (m_bAccepting s). rewrite K4. cbv iota beta.
  unfold accept_and_read. unfold CreateFdSet in *. cbn -[select na_GetFd check_clients] in A1 |- *. rewrite A1.
  cbv iota beta. unfold CheckAcceptSocket, FD_ISSET. cbn [m_oReadFds update srv_network].
  rewrite bool_decide_eq_false_2 by set_solver.
  set (s1 := MkEHSServer _ _ _ _ _ [_] _ _ _ _ _ _ _).
  destruct (check_client_reads s1 c w1 w2 m K6 Hm K2 A6 A7) as (c' & r & Hc & Hread);
    [unfold FD_ISSET, s1; cbn; by rewrite bool_decide_eq_true_2 by set_solver|done|].
  erewrite (CheckClientSockets_one s1 l1 c l2 c' w1 _ K1); [| | |exact Hc].
  - set (s2 := s1 <| m_oEHSConnectionList := _ |> <| m_nRequestsPending := _ |>).
    rewrite end_accepting_lively.
    + do 3 eexists. split; [reflexivity|]. cbn. rewrite K3. split_and!; done.
    + cbn. apply Forall_app in A8 as [A81 A82]. apply Forall_app. split; [done|]. constructor; [|done].
      destruct Hread as (_ & _ & Hq & Hio & _). split.
      * unfold io_view in Hio. unfold StillReading. pose proof (wc_reading _ K6) as Hst. unfold StillReading in Hst. congruence.
      * unfold clear_idle. assert (RequestsPending c' = true) as -> by (unfold RequestsPending; rewrite Hq; apply orb_true_r).
        by rewrite andb_false_r.
  - eapply Forall_impl; [exact A3|]. intros d Hd. unfold FD_ISSET, s1. cbn. by rewrite bool_decide_eq_false_2 by set_solver.
  - eapply Forall_impl; [exact A4|]. intros d Hd. unfold FD_ISSET, s1. cbn. by rewrite bool_decide_eq_false_2 by set_solver.
Qed.

(** ** The answer *)
Lemma find_conn_middle l1 c l2 :
  conn_this c ∉ conn_this <$> l1 -> find_conn (conn_this c) (l1 ++ c :: l2) = Some c /\
  forall f, update_conn (conn_this c) f (l1 ++ c :: l2) = l1 ++ f c :: l2.
Proof using.
  induction l1 as [|d l1 IH]; cbn [app find_conn update_conn fmap list_fmap]; intros Hn.
  - split; [by rewrite decide_True|intros f; by rewrite decide_True].
  - apply not_elem_of_cons in Hn as [Hd Hn]. rewrite decide_False by congruence. destruct (IH Hn) as [H1 H2].
    split; [done|]. intros f. rewrite decide_False by congruence. by rewrite H2.
Qed.

Lemma the_queued s l1 c l2 k d :
  m_oEHSConnectionList s = l1 ++ c :: l2 -> Forall (fun d => m_oHttpRequestList d = []) (l1 ++ l2) ->
  m_oEHSConnectionList s !! k = Some d -> m_oHttpRequestList d <> [] -> k = length l1 /\ d = c.
Proof using.
  intros Hl Hq Hk Hd. rewrite Hl in Hk. apply Forall_app in Hq as [H1 H2]. rewrite !Forall_forall in H1, H2.
  destruct (decide (k < length l1)%nat) as [Hlt|Hge].
  - rewrite lookup_app_l in Hk by done. destruct Hd. apply H1. by eapply list_elem_of_lookup_2.
  - rewrite lookup_app_r in Hk by lia. destruct (k - length l1)%nat as [|j] eqn:Ej.
    + cbn in Hk. split; [lia|congruence].
    + cbn in Hk. destruct Hd. apply H2. by eapply list_elem_of_lookup_2.
Qed.

Lemma takes_queued s l1 c l2 r rnd :
  m_oEHSConnectionList s = l1 ++ c :: l2 -> Forall (fun d => m_oHttpRequestList d = []) (l1 ++ l2) ->
  m_oHttpRequestList c = [r] -> m_nRequestsPending s = 1 -> 0 <= rnd <= RAND_MAX ->
  srv_GetNextRequest rnd s =
    (Some r, s <| m_oEHSConnectionList := l1 ++ (conn_GetNextRequest c).2 :: l2 |> <| m_nRequestsPending := 0 |>).
Proof using.
  intros Hl Hq Hc Hp Hr. assert (total_queued (l1 ++ c :: l2) = 1%nat) as Ht.
  { clear - Hq Hc. apply Forall_app in Hq as [H1 H2]. apply total_queued_zero in H2.
    induction H1 as [|d l1 Hd H1 IH]; cbn [app total_queued]; [rewrite Hc; cbn; lia|]. by rewrite Hd, IH. }
  assert (pending_ok s) as Hok by (unfold pending_ok; by rewrite Hp, Hl, Ht).
  pose proof (next_request_full rnd s Hr Hok) as Hn. destruct (srv_GetNextRequest rnd s) as [[r'|] s'].
  - destruct Hn as (_ & _ & Hn & _). destruct (Hn r' eq_refl) as (j & d & q & _ & Hk & Hd & _ & ->).
    destruct (the_queued s l1 c l2 _ d Hl Hq Hk ltac:(congruence)) as [-> ->]. rewrite Hc in Hd. injection Hd as <- <-.
    f_equal. cbn -[Z.pred]. by rewrite Hl, insert_middle, Hp.
  - destruct Hn as ([Hn _] & _). specialize (Hn eq_refl). lia.
Qed.

Lemma HandleData_answers s l1 c l2 r rnd ms tid (w w4 : W) resp :
  m_oEHSConnectionList s = l1 ++ c :: l2 -> Forall (fun d => m_oHttpRequestList d = []) (l1 ++ l2) ->
  m_oHttpRequestList c = [r] -> m_nRequestsPending s = 1 -> distinct_conns s ->
  m_nServerRunningStatus s = SERVERRUNNING_SINGLETHREADED -> m_bAcceptedNewConnection s = false ->
  m_oResponseQueue c = [] -> 0 <= rnd <= RAND_MAX ->
  RouteRequest r w = (Ret resp, w4) -> m_poEHSConnection (hr_base resp) = Some (conn_this c) ->
  let '(c6, w5) := SendResponse has_RawSocketHandler beyond (Http resp) (conn_GetNextRequest c).2 w4 in
  exists s', HandleData beyond stale rnd ms tid s w = Some (Ret tt, s', w5) /\
    m_oEHSConnectionList s' = l1 ++ UpdateLastActivity w5 c6 :: l2 /\ m_nRequestsPending s' = 0 /\
    m_bAcceptedNewConnection s' = false.
Proof using.
  intros Hl Hq Hc Hp Hd Hmode Hacc Hresp Hr Hroute Hconn. set (c5 := (conn_GetNextRequest c).2).
  assert (m_oResponseQueue c5 = [] /\ conn_this c5 = conn_this c) as [Hq5 Ht5].
  { unfold c5, conn_GetNextRequest. by rewrite Hc. }
  unfold distinct_conns in Hd. rewrite Hl, fmap_app, fmap_cons, NoDup_app in Hd. destruct Hd as (_ & Hdisj & _).
  assert (conn_this c5 ∉ conn_this <$> l1) as Hn by (rewrite Ht5; intros Hin; apply (Hdisj _ Hin); left).
  destruct (find_conn_middle l1 c5 l2 Hn) as [Hfind Hupd].
  pose proof (conn_AddResponse_empty has_RawSocketHandler beyond (Http resp) c5 w4 Hq5) as Hsend.
  destruct (SendResponse _ _ _ c5 w4) as [c6 w5].
  unfold HandleData, choose_job. set (s0 := s <| m_oCurrentRequest ::= delete tid |>).
  rewrite bool_decide_eq_true_2 by (cbn; congruence). cbn [orb].
  rewrite (takes_queued s0 l1 c l2 r rnd Hl Hq Hc Hp Hr). cbv iota beta. unfold handle_request. rewrite Hroute.
  unfold srv_AddResponse. cbn [response_base]. rewrite Hconn, <- Ht5. fold c5.
  cbn [m_oEHSConnectionList update]. rewrite Hfind, Hsend. cbv iota beta. cbn [m_oEHSConnectionList update].
  eexists. split; [reflexivity|]. cbn. rewrite Hupd. by split_and!.
Qed.

(** C3: one request through the whole server.  A single-threaded server on which a
    message arrives on one of its connections: its two calls of [HandleData] read the
    bytes, hand the application a request that describes the message and belongs to
    the connection, and send the application's response, head and body, on that
    connection; then nothing is pending, no other connection has changed, and the loop
    ends. *)
Theorem request_is_served s l1 c l2 m rnd1 rnd2 ms tid (w w1 w2 : W) :
  serving s l1 c l2 -> wf_message m -> arrives s l1 c l2 m ms w w1 w2 ->
  0 <= rnd1 <= RAND_MAX -> 0 <= rnd2 <= RAND_MAX ->
  exists r, request_of m (conn_sParseContentType c) r /\ m_poSourceEHSConnection r = conn_this c /\
  forall resp w4 k w5,
    RouteRequest r (pthread_cond_broadcast w2) = (Ret resp, w4) -> m_poEHSConnection (hr_base resp) = Some (conn_this c) ->
    m_bDisconnected c = false -> m_nResponseCode resp <> HTTPRESPONSECODE_101_SWITCHING_PROTOCOLS -> length_ok resp ->
    na_Send (m_poNetworkAbstraction c) (response_head resp) w4 = (k, w5) -> k <> -1 ->
    exists c' s' w', handle_until_done beyond stale [rnd1; rnd2] ms tid s w = Some (Ret true, s', w') /\
      w' = (if bool_decide (gr_sBody (hr_base resp) = []) then w5
            else (na_Send (m_poNetworkAbstraction c) (gr_sBody (hr_base resp)) w5).2) /\
      m_oEHSConnectionList s' = l1 ++ c' :: l2 /\ conn_this c' = conn_this c /\ m_oHttpRequestList c' = [] /\
      m_nResponses c' = m_nResponses c + 1 /\ m_nActiveRequests c' = m_nActiveRequests c /\ m_nRequestsPending s' = 0.
Proof using L.
  intros Hsv Hm Ha H1 H2.
  destruct (HandleData_reads s l1 c l2 m rnd1 ms tid w w1 w2 Hsv Hm Ha H1)
    as (c4 & r & s4 & E4 & (Hreq & Hsrc & Hq4 & Hio & _) & Hl4 & Hp4 & Hm4 & Ha4 & _).
  exists r. split_and!; [done..|]. intros resp w4 k w5 Hroute Hconn Hdis Hcode Hlen Hsend Hk.
  unfold io_view in Hio. injection Hio as I1 I2 I3 I4 I5 I6 I7 I8. pose proof Hsv as [K1 _ _ _ K5 K6 K7].
  assert (distinct_conns s4) as Hd4.
  { unfold distinct_conns in *. rewrite Hl4, fmap_app, fmap_cons, I1. by rewrite K1, fmap_app, fmap_cons in K5. }
  pose proof (HandleData_answers s4 l1 c4 l2 r rnd2 ms tid _ w4 resp Hl4 K7 Hq4 Hp4 Hd4 Hm4 Ha4
    ltac:(by rewrite I6, (wc_responses _ K6)) H2 Hroute ltac:(by rewrite I1)) as Hans.
  set (c5 := (conn_GetNextRequest c4).2) in Hans.
  assert (conn_this c5 = conn_this c /\ m_poNetworkAbstraction c5 = m_poNetworkAbstraction c /\ m_bDisconnected c5 = false /\
    m_oHttpRequestList c5 = [] /\ m_nResponses c5 = m_nResponses c /\ m_nActiveRequests c5 = m_nActiveRequests c + 1)
    as (J1 & J2 & J3 & J4 & J5 & J6).
  { unfold c5, conn_GetNextRequest. rewrite Hq4. cbn -[Z.succ]. split_and!; try congruence. lia. }
  pose proof (SendResponse_counts has_RawSocketHandler beyond resp c5 w4) as Hcnt.
  pose proof (SendResponse_sent has_RawSocketHandler beyond resp c5 w4 J3 Hcode) as Hsent.
  rewrite J2, Hsend in Hsent. specialize (Hsent Hk Hlen). cbn [snd] in Hsent.
  destruct (SendResponse _ _ _ c5 w4) as [c6 w6]. cbn [fst snd] in *. destruct Hcnt as (M1 & M2 & _ & M4 & _ & M6).
  destruct Hans as (s5 & E5 & Hl5 & Hp5 & Ha5). exists (UpdateLastActivity w6 c6), s5, w6.
  cbn [handle_until_done]. rewrite E4. unfold srv_RequestsPending at 1. rewrite Hp4. cbn [negb Z.eqb orb].
  rewrite E5. unfold srv_RequestsPending, AcceptedNewConnection. rewrite Hp5, Ha5. cbn [negb Z.eqb orb].
  split_and!; try done; cbn; try congruence; lia.
Qed.
End serve.

(** ** A concrete run

    The second of two connections sends a request; every request is answered with an error
    page. *)
Definition serve_conn (this : conn_id) (na : na_id) : EHSConnection := EHSConnection_new (E := script_env) this na example_world.
Definition serve_world : script :=
  example_world <| sc_selects := [Sel_ready [12]] |> <| sc_incoming := [(12%nat, render example_message)] |>.
Definition serve_server : EHSServer :=
  MkEHSServer SERVERRUNNING_SINGLETHREADED [] false 0 false [] [serve_conn 1 11; serve_conn 2 12] 10 0 15 0 ∅ 3.

Lemma serve_waiting this na : waiting_conn (serve_conn this na).
Proof. split; try done. Qed.

Lemma serve_serving : serving serve_server [serve_conn 1 11] (serve_conn 2 12) [].
Proof.
  split; try done.
  - apply (bool_decide_unpack _). by vm_compute.
  - by repeat constructor.
Qed.

Definition serve_world1 : script := serve_world <| sc_selects := [] |>.
Definition serve_world2 : script := serve_world1 <| sc_incoming := [] |>.

Lemma serve_arrives : arrives (E := script_env) serve_server [serve_conn 1 11] (serve_conn 2 12) [] example_message 1000
  serve_world serve_world1 serve_world2.
Proof.
  split; try done.
  - repeat constructor. done.
  - by repeat constructor.
Qed.

Lemma request_is_served_witness :
  wf_message example_message /\
  exists r s' w', request_of (B := perl_boost) example_message [] r /\
    handle_until_done (EX := script_env) (AX := example_app) (B := perl_boost) [] [] [0; 7] 1000 5 serve_server serve_world =
      Some (Ret true, s', w') /\ m_nRequestsPending s' = 0.
Proof.
  assert (wf_message example_message) as Hm by apply example_message_wf.
  split; [exact Hm|].
  destruct (request_is_served (E := script_env) (A := example_app) (B := perl_boost) (L := perl_boost_laws) [] []
    serve_server [serve_conn 1 11] (serve_conn 2 12) [] example_message 0 7 1000 5 serve_world serve_world1 serve_world2
    serve_serving Hm serve_arrives ltac:(done) ltac:(done)) as (r & Hreq & Hsrc & H).
  set (wb := pthread_cond_broadcast serve_world2) in *.
  set (resp := Error_request [] (sc_clock wb) HTTPRESPONSECODE_404_NOTFOUND r).
  destruct (H resp wb (na_Send 12%nat (response_head resp) wb).1 (na_Send 12%nat (response_head resp) wb).2 eq_refl) as (c' & s' & w' & H1 & _ & _ & _ & _ & _ & _ & H2).
  - cbn. by rewrite Hsrc.
  - done.
  - done.
  - split; [by vm_compute|by vm_compute].
  - apply surjective_pairing.
  - vm_compute. discriminate.
  - exists r, s', w'. split_and!; [exact Hreq|exact H1|exact H2].
Defined.
