(* ===== verification/Sha1.v ===== *)
(** * SHA-1 (samples/sha1.cpp, samples/sha1.h)

    The message digest the WebSocket handshake uses: the object, its buffer and
    counters, and the compression of one block. *)
From S2P Require Import Prelude.

(** ** Data *)

(** Five 32-bit words: the array [H] and the word buffers [A] to [E]. *)
Record words : Type := Words { wA : Z; wB : Z; wC : Z; wD : Z; wE : Z }.

Record SHA1 : Type := MkSHA1 {
  sha_H : words;
  Length_Low : Z;
  Length_High : Z;
  Message_Block : list Z;        (* 64 bytes *)
  Message_Block_Index : nat;
  Computed : bool;
  Corrupted : bool
}.
#[export] Instance eta_SHA1 : Eta SHA1 := fun s =>
  MkSHA1 (sha_H s) (Length_Low s) (Length_High s) (Message_Block s) (Message_Block_Index s)
    (Computed s) (Corrupted s).

Definition sha_init : words := Words 0x67452301 0xEFCDAB89 0x98BADCFE 0x10325476 0xC3D2E1F0.

(** [Reset] keeps the contents of the block. *)
Definition Reset (s : SHA1) : SHA1 :=
  s <| Length_Low := 0%Z |> <| Length_High := 0%Z |> <| Message_Block_Index := 0 |>
    <| sha_H := sha_init |> <| Computed := false |> <| Corrupted := false |>.
Definition SHA1_new : SHA1 :=
  Reset (MkSHA1 (Words 0 0 0 0 0) 0 0 (replicate 64 0%Z) 0 false false).

(** ** Compression *)
Definition CircularShift (bits word : Z) : Z :=
  Z.lor (Z.land (u32 (Z.shiftl word bits)) 0xFFFFFFFF) (Z.shiftr (Z.land word 0xFFFFFFFF) (32 - bits)).

Definition byte_at (b : list Z) (i : nat) : Z := default 0%Z (b !! i).

(** The first 16 words of [W]. *)
Definition load_word (block : list Z) (t : nat) : Z :=
  let w := u32 (Z.shiftl (byte_at block (t * 4)) 24) in
  let w := Z.lor w (u32 (Z.shiftl (byte_at block (t * 4 + 1)) 16)) in
  let w := Z.lor w (u32 (Z.shiftl (byte_at block (t * 4 + 2)) 8)) in
  Z.lor w (byte_at block (t * 4 + 3)).

(** The loop that computes [n] more words of [W]. *)
Fixpoint extend (n : nat) (W : list Z) : list Z :=
  match n with
  | O => W
  | S n' =>
      let t := length W in
      let w := Z.lxor (Z.lxor (Z.lxor (byte_at W (t - 3)) (byte_at W (t - 8))) (byte_at W (t - 14))) (byte_at W (t - 16)) in
      extend n' (W ++ [CircularShift 1 w])
  end.
Definition word_sequence (block : list Z) : list Z := extend 64 (load_word block <$> seq 0 16).

(** The four loops of rounds, with their function of [B], [C], [D] and their constant. *)
Definition f_choose (B C D : Z) : Z := Z.lor (Z.land B C) (Z.land (u32 (Z.lnot B)) D).
Definition f_parity (B C D : Z) : Z := Z.lxor (Z.lxor B C) D.
Definition f_majority (B C D : Z) : Z := Z.lor (Z.lor (Z.land B C) (Z.land B D)) (Z.land C D).

Definition one_round (f : Z -> Z -> Z -> Z) (K : Z) (W : list Z) (x : words) (t : nat) : words :=
  let temp := u32 (CircularShift 5 (wA x) + f (wB x) (wC x) (wD x) + wE x + byte_at W t + K) in
  Words (Z.land temp 0xFFFFFFFF) (wA x) (CircularShift 30 (wB x)) (wC x) (wD x).

Definition rounds (W : list Z) (x : words) : words :=
  let x := foldl (one_round f_choose 0x5A827999 W) x (seq 0 20) in
  let x := foldl (one_round f_parity 0x6ED9EBA1 W) x (seq 20 20) in
  let x := foldl (one_round f_majority 0x8F1BBCDC W) x (seq 40 20) in
  foldl (one_round f_parity 0xCA62C1D6 W) x (seq 60 20).

Definition add_words (h x : words) : words :=
  Words (u32 (wA h + wA x)) (u32 (wB h + wB x)) (u32 (wC h + wC x)) (u32 (wD h + wD x)) (u32 (wE h + wE x)).

Definition ProcessMessageBlock (s : SHA1) : SHA1 :=
  s <| sha_H := add_words (sha_H s) (rounds (word_sequence (Message_Block s)) (sha_H s)) |>
    <| Message_Block_Index := 0 |>.

(** ** Input *)

(** [Message_Block[Message_Block_Index++] = b] *)
Definition put_byte (b : Z) (s : SHA1) : SHA1 :=
  s <| Message_Block ::= <[Message_Block_Index s := b]> |> <| Message_Block_Index ::= S |>.

(** The body of the loop of [Input]. *)
Definition input_byte (b : ascii) (s : SHA1) : SHA1 :=
  let s := put_byte (Z.land (bz b) 0xFF) s in
  let s := s <| Length_Low ::= fun n => Z.land (u32 (n + 8)) 0xFFFFFFFF |> in
  let s :=
    if (Length_Low s =? 0)%Z then
      let s := s <| Length_High ::= fun n => Z.land (u32 (n + 1)) 0xFFFFFFFF |> in
      if (Length_High s =? 0)%Z then s <| Corrupted := true |> else s
    else s in
  if decide (Message_Block_Index s = 64) then ProcessMessageBlock s else s.

Fixpoint input_loop (data : bytes) (s : SHA1) : SHA1 :=
  match data with
  | [] => s
  | b :: data' => if Corrupted s then s else input_loop data' (input_byte b s)
  end.

(** [Input(array, length)]; the other overloads pass one byte or a C string on. *)
Definition Input (data : bytes) (s : SHA1) : SHA1 :=
  if decide (data = []) then s
  else if Computed s || Corrupted s then s <| Corrupted := true |>
  else input_loop data s.

(** [operator<<] of a character, and of a C string, byte by byte. *)
Definition stream_char (message_element : ascii) (s : SHA1) : SHA1 := Input [message_element] s.
Definition stream_in (text : bytes) (s : SHA1) : SHA1 := foldl (fun s b => Input [b] s) s (c_str text).

(** ** The digest *)

(** [while (Message_Block_Index < n) Message_Block[Message_Block_Index++] = 0] *)
Fixpoint zero_fill (k : nat) (s : SHA1) : SHA1 :=
  match k with
  | O => s
  | S k' => zero_fill k' (put_byte 0 s)
  end.
Definition fill_to (n : nat) (s : SHA1) : SHA1 := zero_fill (n - Message_Block_Index s) s.

Definition store_length (s : SHA1) : SHA1 :=
  let put i w n s := s <| Message_Block ::= <[i := Z.land (Z.shiftr w n) 0xFF]> |> in
  let hi := Length_High s in let lo := Length_Low s in
  put 63 lo 0%Z (put 62 lo 8%Z (put 61 lo 16%Z (put 60 lo 24%Z
    (put 59 hi 0%Z (put 58 hi 8%Z (put 57 hi 16%Z (put 56 hi 24%Z s))))))).

Definition PadMessage (s : SHA1) : SHA1 :=
  let s :=
    if decide (55 < Message_Block_Index s) then
      fill_to 56 (ProcessMessageBlock (fill_to 64 (put_byte 0x80 s)))
    else fill_to 56 (put_byte 0x80 s) in
  ProcessMessageBlock (store_length s).

(** [Result]: the five words, unless the object is corrupted. *)
Definition Result (s : SHA1) : option words * SHA1 :=
  if Corrupted s then (None, s)
  else
    let s := if Computed s then s else PadMessage s <| Computed := true |> in
    (Some (sha_H s), s).

(** ** Test vectors *)
Definition sha1 (data : bytes) : option words := (Result (Input data SHA1_new)).1.

Example sha1_abc :
  sha1 #"abc" = Some (Words 0xA9993E36 0x4706816A 0xBA3E2571 0x7850C26C 0x9CD0D89D).
Proof. vm_compute. reflexivity. Qed.
Example sha1_448_bits :
  sha1 #"abcdbcdecdefdefgefghfghighijhijkijkljklmklmnlmnomnopnopq" =
    Some (Words 0x84983E44 0x1C3BD26E 0xBAAE4AA1 0xF95129E5 0xE54670F1).
Proof. vm_compute. reflexivity. Qed.
