(* ===== verification/Sha1Facts.v ===== *)
(** * SHA-1 is the function of the standard

    [Fips] is a direct transcription of FIPS 180: padding of the whole message,
    blocks, message schedule, rounds.  The object of the code, fed the message in any
    pieces, computes the same digest. *)
From S2P Require Import Prelude Sha1.

Local Open Scope Z_scope.

(** ** Definitions *)
Module Fips.

Definition rotl (n x : Z) : Z := Z.lor (u32 (x * 2 ^ n)) (x / 2 ^ (32 - n)).
Definition ch (x y z : Z) : Z := Z.lxor (Z.land x y) (Z.ldiff z x).
Definition parity (x y z : Z) : Z := Z.lxor (Z.lxor x y) z.
Definition maj (x y z : Z) : Z := Z.lxor (Z.lxor (Z.land x y) (Z.land x z)) (Z.land y z).

Definition f (t : nat) : Z -> Z -> Z -> Z :=
  if decide (t < 20)%nat then ch else if decide (t < 40)%nat then parity
  else if decide (t < 60)%nat then maj else parity.
Definition K (t : nat) : Z :=
  if decide (t < 20)%nat then 0x5A827999 else if decide (t < 40)%nat then 0x6ED9EBA1
  else if decide (t < 60)%nat then 0x8F1BBCDC else 0xCA62C1D6.

(** The message schedule, for [t] up to the fuel. *)
Definition word (block : list Z) (t : nat) : Z :=
  let b i := byte_at block (4 * t + i) in
  b 0%nat * 2 ^ 24 + b 1%nat * 2 ^ 16 + b 2%nat * 2 ^ 8 + b 3%nat.
Fixpoint W (fuel : nat) (block : list Z) (t : nat) : Z :=
  match fuel with
  | O => 0
  | S n =>
      if decide (t < 16)%nat then word block t
      else rotl 1 (Z.lxor (Z.lxor (Z.lxor (W n block (t - 3)) (W n block (t - 8))) (W n block (t - 14))) (W n block (t - 16)))
  end.

(** The schedule of a block. *)
Definition schedule (block : list Z) (t : nat) : Z := W 80 block t.

Definition round (block : list Z) (x : words) (t : nat) : words :=
  Words (u32 (rotl 5 (wA x) + f t (wB x) (wC x) (wD x) + wE x + K t + schedule block t))
    (wA x) (rotl 30 (wB x)) (wC x) (wD x).

Definition compress (h : words) (block : list Z) : words :=
  add_words h (foldl (round block) h (seq 0 80)).

(** The octets of a number, most significant first. *)
Fixpoint octets (n : nat) (x : Z) : list Z :=
  match n with
  | O => []
  | S n' => octets n' (x / 256) ++ [x mod 256]
  end.

(** The message, the bit 1, zeros, and the length in bits. *)
Definition pad (m : list Z) : list Z :=
  m ++ [0x80] ++ replicate (Z.to_nat ((55 - Z.of_nat (length m)) mod 64)) 0 ++ octets 8 (8 * Z.of_nat (length m)).

Definition blocks (m : list Z) : list (list Z) :=
  (fun i => take 64 (drop (64 * i) m)) <$> seq 0 (length m / 64).

Definition digest (m : bytes) : words := foldl compress sha_init (blocks (pad (bz <$> m))).

End Fips.

(** ** The functions of one round *)
Definition word_ok (x : Z) : Prop := 0 <= x < 2 ^ 32.
Definition words_ok (x : words) : Prop :=
  word_ok (wA x) /\ word_ok (wB x) /\ word_ok (wC x) /\ word_ok (wD x) /\ word_ok (wE x).

Lemma u32_range x : word_ok (u32 x).
Proof. unfold word_ok, u32. apply Z.mod_pos_bound. lia. Qed.

Lemma u32_id x : word_ok x -> u32 x = x.
Proof. intros. by apply Z.mod_small. Qed.

Lemma word_bits x n : word_ok x -> 32 <= n -> Z.testbit x n = false.
Proof.
  intros Hx Hn. rewrite <- (u32_id x Hx). unfold u32. rewrite Z.testbit_mod_pow2 by lia.
  by rewrite (proj2 (Z.ltb_ge n 32)) by lia.
Qed.

(** A non-negative number whose high bits are clear. *)
Lemma word_ok_bits x : 0 <= x -> (forall n, 32 <= n -> Z.testbit x n = false) -> word_ok x.
Proof.
  intros Hx Hb. enough (u32 x = x) as <- by apply u32_range.
  unfold u32. apply Z.bits_inj'. intros n Hn. rewrite Z.testbit_mod_pow2 by lia.
  destruct (Z.ltb_spec n 32); [done|]. by rewrite Hb.
Qed.

Lemma land_mask x : word_ok x -> Z.land x 0xFFFFFFFF = x.
Proof. intros Hx. change 0xFFFFFFFF with (Z.ones 32). rewrite Z.land_ones by lia. by apply u32_id. Qed.

Lemma land_mask_u32 x : Z.land (u32 x) 0xFFFFFFFF = u32 x.
Proof. apply land_mask, u32_range. Qed.

Lemma lor_ok x y : word_ok x -> word_ok y -> word_ok (Z.lor x y).
Proof.
  intros Hx Hy. apply word_ok_bits; [apply Z.lor_nonneg; split; [apply Hx|apply Hy]|].
  intros n Hn. by rewrite Z.lor_spec, !word_bits.
Qed.

Lemma lxor_ok x y : word_ok x -> word_ok y -> word_ok (Z.lxor x y).
Proof.
  intros Hx Hy. apply word_ok_bits; [apply Z.lxor_nonneg; split; intros; [apply Hy|apply Hx]|].
  intros n Hn. by rewrite Z.lxor_spec, !word_bits.
Qed.

Lemma shift_right_ok n x : 0 <= n -> word_ok x -> word_ok (x / 2 ^ n).
Proof.
  intros Hn [Hx1 Hx2]. split; [apply Z.div_pos; lia|].
  apply Z.le_lt_trans with x; [|done]. apply Z.div_le_upper_bound; [lia|].
  assert (1 <= 2 ^ n) by (apply (Z.pow_le_mono_r 2 0 n); lia). nia.
Qed.

Lemma rotl_ok n x : 0 <= n <= 32 -> word_ok x -> word_ok (Fips.rotl n x).
Proof.
  intros Hn Hx. unfold Fips.rotl. apply lor_ok; [apply u32_range|]. apply shift_right_ok; [lia|done].
Qed.

Lemma CircularShift_rotl n x : 0 <= n <= 32 -> word_ok x -> CircularShift n x = Fips.rotl n x.
Proof.
  intros Hn Hx. unfold CircularShift, Fips.rotl. rewrite land_mask_u32, land_mask by done.
  by rewrite Z.shiftl_mul_pow2, Z.shiftr_div_pow2 by lia.
Qed.

Lemma f_choose_ch x y z : word_ok z -> f_choose x y z = Fips.ch x y z.
Proof.
  intros Hz. unfold f_choose, Fips.ch, u32. apply Z.bits_inj'. intros n Hn.
  rewrite Z.lor_spec, Z.lxor_spec, !Z.land_spec, Z.ldiff_spec, Z.testbit_mod_pow2, Z.lnot_spec by lia.
  destruct (Z.ltb_spec n 32).
  - by destruct (Z.testbit x n), (Z.testbit y n), (Z.testbit z n).
  - rewrite (word_bits z) by done. by destruct (Z.testbit x n), (Z.testbit y n).
Qed.

Lemma f_majority_maj x y z : f_majority x y z = Fips.maj x y z.
Proof.
  unfold f_majority, Fips.maj. apply Z.bits_inj'. intros n Hn.
  rewrite !Z.lor_spec, !Z.lxor_spec, !Z.land_spec.
  by destruct (Z.testbit x n), (Z.testbit y n), (Z.testbit z n).
Qed.

(** ** The message schedule *)
Definition bytes_ok (b : list Z) : Prop := Forall (fun x => 0 <= x < 256) b.

Lemma byte_at_ok b i : bytes_ok b -> 0 <= byte_at b i < 256.
Proof.
  intros Hb. unfold byte_at. destruct (b !! i) eqn:E; [|simpl; lia]. by apply (Forall_lookup_1 _ _ _ _ Hb E).
Qed.

Lemma load_word_spec block t : bytes_ok block -> load_word block t = Fips.word block t.
Proof.
  intros Hb. unfold load_word, Fips.word. replace (4 * t)%nat with (t * 4)%nat by lia.
  rewrite Nat.add_0_r.
  pose proof (byte_at_ok block (t * 4) Hb) as H0. pose proof (byte_at_ok block (t * 4 + 1) Hb) as H1.
  pose proof (byte_at_ok block (t * 4 + 2) Hb) as H2. pose proof (byte_at_ok block (t * 4 + 3) Hb) as H3.
  revert H0 H1 H2 H3. generalize (byte_at block (t * 4)) (byte_at block (t * 4 + 1))
    (byte_at block (t * 4 + 2)) (byte_at block (t * 4 + 3)). intros b0 b1 b2 b3 H0 H1 H2 H3.
  rewrite !Z.shiftl_mul_pow2 by lia. rewrite !u32_id by (unfold word_ok; lia).
  rewrite lor_add by lia.
  replace (b0 * 2 ^ 24 + b1 * 2 ^ 16) with ((b0 * 256 + b1) * 2 ^ 16) by lia.
  rewrite lor_add by lia.
  replace ((b0 * 256 + b1) * 2 ^ 16 + b2 * 2 ^ 8) with (((b0 * 256 + b1) * 256 + b2) * 2 ^ 8) by lia.
  rewrite lor_add by lia. lia.
Qed.

Lemma word_ok_word block t : bytes_ok block -> word_ok (Fips.word block t).
Proof.
  intros Hb. unfold Fips.word, word_ok.
  pose proof (byte_at_ok block (4 * t + 0) Hb). pose proof (byte_at_ok block (4 * t + 1) Hb).
  pose proof (byte_at_ok block (4 * t + 2) Hb). pose proof (byte_at_ok block (4 * t + 3) Hb). lia.
Qed.

Lemma W_ok n block t : bytes_ok block -> word_ok (Fips.W n block t).
Proof.
  intros Hb. revert t. induction n as [|n IH]; intros t; cbn [Fips.W]; [unfold word_ok; lia|].
  case_decide; [by apply word_ok_word|]. apply rotl_ok; [lia|]. by repeat apply lxor_ok.
Qed.

Lemma W_fuel n m block t : (t < n)%nat -> (t < m)%nat -> Fips.W n block t = Fips.W m block t.
Proof.
  revert m t. induction n as [|n IH]; intros [|m] t Hn Hm; try lia. cbn [Fips.W].
  case_decide; [done|]. by rewrite !(IH m) by lia.
Qed.

Lemma W_S n block t :
  Fips.W (S n) block t =
    if decide (t < 16)%nat then Fips.word block t
    else Fips.rotl 1 (Z.lxor (Z.lxor (Z.lxor (Fips.W n block (t - 3)) (Fips.W n block (t - 8)))
      (Fips.W n block (t - 14))) (Fips.W n block (t - 16))).
Proof. done. Qed.

Lemma schedule_first block t : (t < 16)%nat -> Fips.schedule block t = Fips.word block t.
Proof. intros Ht. unfold Fips.schedule. rewrite (W_S 79). by rewrite decide_True. Qed.
Lemma schedule_next block t : (16 <= t < 80)%nat ->
  Fips.schedule block t = Fips.rotl 1 (Z.lxor (Z.lxor (Z.lxor (Fips.schedule block (t - 3)) (Fips.schedule block (t - 8)))
    (Fips.schedule block (t - 14))) (Fips.schedule block (t - 16))).
Proof.
  intros Ht. unfold Fips.schedule. rewrite (W_S 79 block t), decide_False by lia. by rewrite !(W_fuel 79 80) by lia.
Qed.
Lemma schedule_ok block t : bytes_ok block -> word_ok (Fips.schedule block t).
Proof. apply W_ok. Qed.
#[local] Opaque Fips.schedule.

Lemma byte_at_app l x i :
  byte_at (l ++ [x]) i = if decide (i = length l) then x else byte_at l i.
Proof.
  unfold byte_at. case_decide as Hi.
  - subst. by rewrite lookup_app_r, Nat.sub_diag by lia.
  - destruct (decide (i < length l)%nat).
    + by rewrite lookup_app_l by lia.
    + rewrite !lookup_ge_None_2; [done|lia|rewrite length_app; simpl; lia].
Qed.

Lemma extend_spec n block l :
  bytes_ok block -> (16 <= length l)%nat -> (length l + n <= 80)%nat ->
  (forall t, (t < length l)%nat -> byte_at l t = Fips.schedule block t) ->
  length (extend n l) = (length l + n)%nat /\
  forall t, (t < length l + n)%nat -> byte_at (extend n l) t = Fips.schedule block t.
Proof.
  intros Hb. revert l. induction n as [|n IH]; intros l H16 H80 Hl; cbn [extend].
  { rewrite Nat.add_0_r. by split. }
  set (x := CircularShift 1 _).
  assert (x = Fips.schedule block (length l)) as Hx.
  { unfold x. rewrite !Hl by lia.
    rewrite CircularShift_rotl by (lia || (repeat apply lxor_ok; by apply schedule_ok)).
    by rewrite (schedule_next block (length l)) by lia. }
  destruct (IH (l ++ [x])) as [H1 H2].
  - rewrite length_app. simpl. lia.
  - rewrite length_app. simpl. lia.
  - intros t Ht. rewrite length_app in Ht. simpl in Ht. rewrite byte_at_app. case_decide; [by subst|].
    apply Hl. lia.
  - rewrite length_app in H1, H2. simpl in H1, H2. split; [lia|]. intros t Ht. apply H2. lia.
Qed.

Lemma word_sequence_spec block t : bytes_ok block -> (t < 80)%nat ->
  byte_at (word_sequence block) t = Fips.schedule block t.
Proof.
  intros Hb Ht. unfold word_sequence.
  destruct (extend_spec 64 block (load_word block <$> seq 0 16) Hb) as [_ H]; [done|done| |by apply H].
  intros i Hi. rewrite length_fmap, length_seq in Hi. unfold byte_at. rewrite list_lookup_fmap.
  rewrite lookup_seq_lt by done. cbn [fmap option_fmap option_map default]. rewrite load_word_spec by done.
  by rewrite schedule_first.
Qed.

(** ** The rounds *)
Lemma one_round_spec f K block x t :
  bytes_ok block -> words_ok x -> (t < 80)%nat ->
  f (wB x) (wC x) (wD x) = Fips.f t (wB x) (wC x) (wD x) -> K = Fips.K t ->
  one_round f K (word_sequence block) x t = Fips.round block x t /\ words_ok (Fips.round block x t).
Proof.
  intros Hb (HA & HB & HC & HD & HE) Ht Hf ->. split.
  - unfold one_round, Fips.round. rewrite land_mask_u32, word_sequence_spec, !CircularShift_rotl, Hf by (done || lia).
    f_equal. f_equal. lia.
  - unfold Fips.round, words_ok. cbn [wA wB wC wD wE].
    split_and!; [apply u32_range|done|apply rotl_ok; [lia|done]|done|done].
Qed.

Lemma fold_rounds f K block x a n :
  bytes_ok block -> words_ok x -> (a + n <= 80)%nat ->
  (forall t, (a <= t < a + n)%nat -> K = Fips.K t /\
     forall y, words_ok y -> f (wB y) (wC y) (wD y) = Fips.f t (wB y) (wC y) (wD y)) ->
  foldl (one_round f K (word_sequence block)) x (seq a n) = foldl (Fips.round block) x (seq a n) /\
  words_ok (foldl (Fips.round block) x (seq a n)).
Proof.
  intros Hb. revert x a. induction n as [|n IH]; intros x a Hx Hn Hf; [by split|]. cbn [seq foldl].
  destruct (Hf a ltac:(lia)) as [HK Hfa].
  destruct (one_round_spec f K block x a Hb Hx ltac:(lia) (Hfa x Hx) HK) as [-> Hok].
  apply IH; [done|lia|]. intros t Ht. apply Hf. lia.
Qed.

Lemma compress_spec h block :
  bytes_ok block -> words_ok h ->
  add_words h (rounds (word_sequence block) h) = Fips.compress h block /\ words_ok (Fips.compress h block).
Proof.
  intros Hb Hh. unfold rounds, Fips.compress. rewrite (seq_app 20 60), (seq_app 20 40), (seq_app 20 20).
  rewrite !foldl_app. cbn [Nat.add].
  assert (forall t, (0 <= t < 20)%nat -> 0x5A827999 = Fips.K t /\
    forall y, words_ok y -> f_choose (wB y) (wC y) (wD y) = Fips.f t (wB y) (wC y) (wD y)) as H0.
  { intros t Ht. unfold Fips.K, Fips.f. rewrite !decide_True by lia. split; [done|].
    intros y (_ & _ & _ & HD & _). by apply f_choose_ch. }
  assert (forall t, (20 <= t < 20 + 20)%nat -> 0x6ED9EBA1 = Fips.K t /\
    forall y, words_ok y -> f_parity (wB y) (wC y) (wD y) = Fips.f t (wB y) (wC y) (wD y)) as H1.
  { intros t Ht. unfold Fips.K, Fips.f. by rewrite !(decide_False (P := (t < 20)%nat)), !decide_True by lia. }
  assert (forall t, (40 <= t < 40 + 20)%nat -> 0x8F1BBCDC = Fips.K t /\
    forall y, words_ok y -> f_majority (wB y) (wC y) (wD y) = Fips.f t (wB y) (wC y) (wD y)) as H2.
  { intros t Ht. unfold Fips.K, Fips.f.
    rewrite !(decide_False (P := (t < 20)%nat)), !(decide_False (P := (t < 40)%nat)), !decide_True by lia.
    split; [done|]. intros y _. apply f_majority_maj. }
  assert (forall t, (60 <= t < 60 + 20)%nat -> 0xCA62C1D6 = Fips.K t /\
    forall y, words_ok y -> f_parity (wB y) (wC y) (wD y) = Fips.f t (wB y) (wC y) (wD y)) as H3.
  { intros t Ht. unfold Fips.K, Fips.f. by rewrite !decide_False by lia. }
  destruct (fold_rounds _ _ block h 0 20 Hb Hh ltac:(lia) H0) as [-> Hx0].
  destruct (fold_rounds _ _ block _ 20 20 Hb Hx0 ltac:(lia) H1) as [-> Hx1].
  destruct (fold_rounds _ _ block _ 40 20 Hb Hx1 ltac:(lia) H2) as [-> Hx2].
  destruct (fold_rounds _ _ block _ 60 20 Hb Hx2 ltac:(lia) H3) as [-> Hx3].
  split; [done|]. unfold add_words, words_ok. split_and!; apply u32_range.
Qed.

#[local] Opaque rounds word_sequence Fips.compress.

(** ** The buffer *)

(** The first bytes of the block are [r]. *)
Definition filled (s : SHA1) (r : list Z) : Prop :=
  Message_Block_Index s = length r /\ length (Message_Block s) = 64%nat /\
  take (length r) (Message_Block s) = r /\ bytes_ok (Message_Block s).

Definition same_counters (s s' : SHA1) : Prop :=
  sha_H s' = sha_H s /\ Length_Low s' = Length_Low s /\ Length_High s' = Length_High s /\
  Computed s' = Computed s /\ Corrupted s' = Corrupted s.

Lemma put_byte_filled b s r :
  filled s r -> (length r < 64)%nat -> 0 <= b < 256 ->
  filled (put_byte b s) (r ++ [b]) /\ same_counters s (put_byte b s).
Proof.
  intros (Hi & Hl & Ht & Hok) Hr Hb. split; [|done]. unfold filled, put_byte. cbn. rewrite Hi.
  rewrite length_app, length_insert. simpl. split_and!; [lia|done| |by apply Forall_insert].
  rewrite Nat.add_1_r. erewrite take_S_r by (apply list_lookup_insert_eq; lia).
  rewrite take_insert_ge by lia. by rewrite Ht.
Qed.

Lemma zero_fill_filled k s r :
  filled s r -> (length r + k <= 64)%nat ->
  filled (zero_fill k s) (r ++ replicate k 0) /\ same_counters s (zero_fill k s).
Proof.
  revert s r. induction k as [|k IH]; intros s r Hs Hk; cbn [zero_fill replicate]; [by rewrite app_nil_r|].
  destruct (put_byte_filled 0 s r Hs) as [Hs1 Hc1]; [lia|lia|].
  destruct (IH _ _ Hs1) as [Hs2 Hc2]; [rewrite length_app; simpl; lia|].
  rewrite <- app_assoc in Hs2. split; [exact Hs2|]. unfold same_counters in *. intuition congruence.
Qed.

Lemma filled_full s r : filled s r -> length r = 64%nat -> Message_Block s = r.
Proof. intros (_ & Hl & Ht & _) Hr. rewrite <- Ht. symmetry. apply take_ge. lia. Qed.

Lemma octet_of x n : 0 <= n -> Z.land (Z.shiftr x n) 0xFF = (x / 2 ^ n) mod 256.
Proof.
  intros Hn. change 0xFF with (Z.ones 8). rewrite Z.land_ones by lia. by rewrite Z.shiftr_div_pow2.
Qed.

Lemma octets_8 x :
  Fips.octets 8 x = (fun k => (x / 2 ^ k) mod 256) <$> [56; 48; 40; 32; 24; 16; 8; 0].
Proof. cbn [Fips.octets app]. rewrite !Z.div_div by lia. cbn. by rewrite Z.div_1_r. Qed.

Lemma high_octet hi lo k : 0 <= k -> word_ok lo -> (hi * 2 ^ 32 + lo) / 2 ^ (32 + k) = hi / 2 ^ k.
Proof.
  intros Hk Hl. rewrite Z.pow_add_r by lia. rewrite <- Z.div_div by lia.
  rewrite Z.div_add_l by lia. by rewrite (Z.div_small lo), Z.add_0_r.
Qed.

Lemma low_octet hi lo k : 0 <= k <= 24 -> ((hi * 2 ^ 32 + lo) / 2 ^ k) mod 256 = (lo / 2 ^ k) mod 256.
Proof.
  intros Hk. replace (hi * 2 ^ 32) with (hi * 2 ^ (24 - k) * 256 * 2 ^ k).
  - rewrite Z.div_add_l by lia. rewrite Z.add_comm. apply Z.mod_add. lia.
  - rewrite <- (Z.mul_assoc _ 256). change 256 with (2 ^ 8). rewrite <- Z.mul_assoc, <- !Z.pow_add_r by lia. f_equal. f_equal. lia.
Qed.

Lemma length_octets_spec hi lo :
  word_ok lo ->
  Fips.octets 8 (hi * 2 ^ 32 + lo) =
    [Z.land (Z.shiftr hi 24) 0xFF; Z.land (Z.shiftr hi 16) 0xFF; Z.land (Z.shiftr hi 8) 0xFF; Z.land (Z.shiftr hi 0) 0xFF;
     Z.land (Z.shiftr lo 24) 0xFF; Z.land (Z.shiftr lo 16) 0xFF; Z.land (Z.shiftr lo 8) 0xFF; Z.land (Z.shiftr lo 0) 0xFF].
Proof.
  intros Hl. rewrite octets_8, !octet_of by lia. cbn [fmap list_fmap].
  rewrite <- (high_octet hi lo 24), <- (high_octet hi lo 16), <- (high_octet hi lo 8), <- (high_octet hi lo 0) by (done || lia).
  rewrite <- (low_octet hi lo 24), <- (low_octet hi lo 16), <- (low_octet hi lo 8), <- (low_octet hi lo 0) by lia.
  reflexivity.
Qed.

Lemma store_length_block s r :
  filled s r -> length r = 56%nat -> word_ok (Length_Low s) ->
  Message_Block (store_length s) = r ++ Fips.octets 8 (Length_High s * 2 ^ 32 + Length_Low s) /\
  same_counters s (store_length s).
Proof.
  intros (Hi & Hl & Ht & _) Hr Hlo. split; [|done]. rewrite length_octets_spec by done.
  rewrite Hr in Ht. unfold store_length. cbn -[Z.land Z.shiftr].
  rewrite <- (take_drop 56 (Message_Block s)) at 1. rewrite Ht.
  assert (length (drop 56 (Message_Block s)) = 8%nat) as Hd by (rewrite length_drop, Hl; done).
  destruct (drop 56 (Message_Block s)) as [|d0 [|d1 [|d2 [|d3 [|d4 [|d5 [|d6 [|d7 [|]]]]]]]]]; try done.
  rewrite !insert_app_r_alt by lia. by rewrite Hr.
Qed.

(** ** Blocks *)
Definition full (bs : list (list Z)) : Prop := Forall (fun b => length b = 64%nat) bs.

Lemma concat_length bs : full bs -> length (concat bs) = (64 * length bs)%nat.
Proof. induction 1 as [|b bs Hb Hbs IH]; [done|]. cbn [concat length]. rewrite length_app. lia. Qed.

Lemma blocks_concat bs : full bs -> Fips.blocks (concat bs) = bs.
Proof.
  intros Hbs. unfold Fips.blocks. rewrite concat_length by done.
  rewrite Nat.mul_comm, Nat.div_mul by lia.
  induction Hbs as [|b bs Hb Hbs IH]; [done|]. cbn [length seq fmap list_fmap concat].
  rewrite Nat.mul_0_r, drop_0, take_app_length' by done. f_equal.
  rewrite <- IH at 2. rewrite <- (fmap_S_seq 0), <- list_fmap_compose. apply list_fmap_ext. intros i x _.
  unfold compose. f_equal. replace (64 * S x)%nat with (length b + 64 * x)%nat by lia.
  rewrite <- drop_drop. by rewrite drop_app_length.
Qed.

(** ** Streaming *)

(** The object has been fed the message [m]. *)
Record represents (s : SHA1) (m : list Z) : Prop := Represents {
  rp_state : exists bs r, m = concat bs ++ r /\ full bs /\ Forall bytes_ok bs /\ (length r < 64)%nat /\ filled s r /\
    sha_H s = foldl Fips.compress sha_init bs /\ words_ok (sha_H s);
  rp_length : 8 * Z.of_nat (length m) = Length_High s * 2 ^ 32 + Length_Low s;
  rp_low : word_ok (Length_Low s);
  rp_high : word_ok (Length_High s);
  rp_flags : Computed s = false /\ Corrupted s = false
}.

Lemma process_full s b :
  filled s b -> length b = 64%nat -> words_ok (sha_H s) -> bytes_ok b ->
  filled (ProcessMessageBlock s) [] /\
  sha_H (ProcessMessageBlock s) = Fips.compress (sha_H s) b /\ words_ok (Fips.compress (sha_H s) b).
Proof.
  intros Hs Hb Hw Hok. pose proof (filled_full s b Hs Hb) as Hm. destruct Hs as (Hi & Hl & Ht & Hbk).
  destruct (compress_spec (sha_H s) b Hok Hw) as [H1 H2].
  split; [|split; [|done]].
  - split; [done|]. split; [exact Hl|]. split; [done|exact Hbk].
  - unfold ProcessMessageBlock. cbn. rewrite Hm. exact H1.
Qed.

Lemma represents_new : represents SHA1_new [].
Proof.
  split; [|done|unfold word_ok; simpl; lia|unfold word_ok; simpl; lia|done].
  exists [], []. split_and!; [done|constructor|constructor|simpl; lia| |done|].
  - unfold filled. split_and!; [done|done|done|].
    change (bytes_ok (replicate 64 0)). apply Forall_replicate. lia.
  - unfold words_ok, word_ok. cbn. lia.
Qed.

(** The length counter after one more byte. *)
Definition count_byte (s : SHA1) : SHA1 :=
  let s := s <| Length_Low ::= fun n => Z.land (u32 (n + 8)) 0xFFFFFFFF |> in
  if Length_Low s =? 0 then
    let s := s <| Length_High ::= fun n => Z.land (u32 (n + 1)) 0xFFFFFFFF |> in
    if Length_High s =? 0 then s <| Corrupted := true |> else s
  else s.

Lemma count_byte_spec s n :
  8 * n = Length_High s * 2 ^ 32 + Length_Low s -> 8 * (n + 1) < 2 ^ 64 ->
  word_ok (Length_Low s) -> word_ok (Length_High s) ->
  exists lo hi, count_byte s = s <| Length_Low := lo |> <| Length_High := hi |> /\
    word_ok lo /\ word_ok hi /\ 8 * (n + 1) = hi * 2 ^ 32 + lo.
Proof.
  intros Hn Hmax Hlo Hhi. unfold count_byte. cbn -[Z.land Z.pow Z.mul Z.add]. rewrite !land_mask_u32.
  unfold word_ok in *. destruct (Z.eq_dec (Length_Low s + 8) (2 ^ 32)) as [He|He].
  - rewrite He. change (u32 (2 ^ 32)) with 0. cbn -[Z.pow Z.mul Z.add].
    assert (Length_High s + 1 < 2 ^ 32) as Hh by lia.
    rewrite u32_id by (unfold word_ok; lia).
    rewrite (proj2 (Z.eqb_neq (Length_High s + 1) 0)) by lia.
    exists 0, (Length_High s + 1). split; [by destruct s|]. lia.
  - assert (Length_Low s + 8 < 2 ^ 32) as Hl by lia.
    rewrite u32_id by (unfold word_ok; lia). rewrite (proj2 (Z.eqb_neq _ 0)) by lia.
    exists (Length_Low s + 8), (Length_High s). split; [by destruct s|]. lia.
Qed.

Lemma represents_byte s m b :
  represents s m -> 8 * (Z.of_nat (length m) + 1) < 2 ^ 64 -> represents (input_byte b s) (m ++ [bz b]).
Proof.
  intros [(bs & r & -> & Hbs & Hbb & Hr & Hs & HH & Hw) Hlen Hlo Hhi [Hcp Hcr]] Hmax.
  pose proof (bz_range b) as Hb.
  change (input_byte b s) with
    (let s' := count_byte (put_byte (Z.land (bz b) 0xFF) s) in
     if decide (Message_Block_Index s' = 64%nat) then ProcessMessageBlock s' else s').
  assert (Z.land (bz b) 0xFF = bz b) as ->.
  { change 0xFF with (Z.ones 8). rewrite Z.land_ones by lia. apply Z.mod_small. lia. }
  destruct (put_byte_filled (bz b) s r Hs Hr Hb) as [Hs1 (C1 & C2 & C3 & C4 & C5)].
  set (s1 := put_byte (bz b) s) in *.
  destruct (count_byte_spec s1 (Z.of_nat (length (concat bs ++ r)))) as (lo & hi & -> & G1 & G2 & G3);
    [by rewrite C2, C3|done|by rewrite C2|by rewrite C3|]. cbv zeta.
  set (s2 := s1 <| Length_Low := lo |> <| Length_High := hi |>).
  assert (filled s2 (r ++ [bz b])) as Hs2 by exact Hs1.
  assert (Z.of_nat (length ((concat bs ++ r) ++ [bz b])) = Z.of_nat (length (concat bs ++ r)) + 1) as Hlen2.
  { rewrite (length_app _ [_]). simpl. lia. }
  assert (Message_Block_Index s2 = S (length r)) as Hi2.
  { destruct Hs2 as [-> _]. rewrite length_app. simpl. lia. }
  assert (bytes_ok (r ++ [bz b])) as Hrb.
  { destruct Hs2 as (_ & _ & <- & Hk). by apply Forall_take. }
  rewrite Hi2. case_decide as H64.
  - destruct (process_full s2 (r ++ [bz b]) Hs2) as (P1 & P2 & P3); [rewrite length_app; simpl; lia|by rewrite <- C1 in Hw|done|].
    split; [|by rewrite Hlen2|done|done|by rewrite <- C4, <- C5 in *].
    exists (bs ++ [r ++ [bz b]]), []. split_and!.
    + by rewrite concat_app, app_nil_r, <- app_assoc; simpl; rewrite app_nil_r.
    + apply Forall_app. split; [done|]. constructor; [rewrite length_app; simpl; lia|constructor].
    + apply Forall_app. split; [done|]. by constructor.
    + simpl. lia.
    + exact P1.
    + rewrite P2, foldl_app. cbn [foldl]. f_equal. by rewrite <- HH, <- C1.
    + by rewrite P2.
  - split; [|by rewrite Hlen2|done|done|by rewrite <- C4, <- C5 in *].
    exists bs, (r ++ [bz b]). split_and!; [by rewrite app_assoc|done|done|rewrite length_app; simpl; lia|exact Hs2| |].
    + rewrite <- HH, <- C1. done.
    + by rewrite <- C1 in Hw.
Qed.

Lemma represents_loop data s m :
  represents s m -> 8 * (Z.of_nat (length m) + Z.of_nat (length data)) < 2 ^ 64 ->
  represents (input_loop data s) (m ++ (bz <$> data)).
Proof.
  revert s m. induction data as [|b data IH]; intros s m Hs Hmax; cbn [input_loop fmap list_fmap].
  - by rewrite app_nil_r.
  - destruct (rp_flags s m Hs) as [_ ->]. cbn [length] in Hmax.
    change (bz b :: (bz <$> data)) with ([bz b] ++ (bz <$> data)). rewrite app_assoc. apply IH.
    + apply represents_byte; [done|lia].
    + rewrite length_app. simpl. lia.
Qed.

Lemma represents_Input data s m :
  represents s m -> 8 * (Z.of_nat (length m) + Z.of_nat (length data)) < 2 ^ 64 ->
  represents (Input data s) (m ++ (bz <$> data)).
Proof.
  intros Hs Hmax. unfold Input. case_decide as Hd; [subst; by rewrite app_nil_r|].
  destruct (rp_flags s m Hs) as [-> ->]. by apply represents_loop.
Qed.

Lemma fill_to_filled n s r :
  filled s r -> (length r <= n <= 64)%nat ->
  filled (fill_to n s) (r ++ replicate (n - length r) 0) /\ same_counters s (fill_to n s).
Proof. intros Hs Hn. unfold fill_to. destruct Hs as [Hi ?] eqn:E. rewrite Hi. apply zero_fill_filled; [done|lia]. Qed.

Lemma filled_bytes s r : filled s r -> bytes_ok r.
Proof. intros (_ & _ & <- & Hk). by apply Forall_take. Qed.

(** The end of the padding: the length, and the last block. *)
Lemma store_length_digest s r hi lo :
  filled s r -> length r = 56%nat -> Length_High s = hi -> Length_Low s = lo -> word_ok lo -> words_ok (sha_H s) ->
  sha_H (ProcessMessageBlock (store_length s)) =
    Fips.compress (sha_H s) (r ++ Fips.octets 8 (hi * 2 ^ 32 + lo)).
Proof.
  intros Hs Hr <- <- Hlo Hw. destruct (store_length_block s r Hs Hr Hlo) as [Hb (C1 & _)].
  assert (bytes_ok (r ++ Fips.octets 8 (Length_High s * 2 ^ 32 + Length_Low s))) as Hok.
  { apply Forall_app. split; [by eapply filled_bytes|]. rewrite octets_8. apply Forall_fmap, Forall_forall.
    intros k _. apply Z.mod_pos_bound. lia. }
  unfold ProcessMessageBlock. cbn [sha_H update]. rewrite Hb, C1.
  by apply compress_spec.
Qed.

Lemma pad_split bs r :
  full bs -> (length r < 64)%nat ->
  Fips.pad (concat bs ++ r) =
    concat bs ++ r ++ [0x80] ++ replicate (if decide (55 < length r)%nat then 119 - length r else 55 - length r) 0 ++
      Fips.octets 8 (8 * Z.of_nat (length (concat bs ++ r))).
Proof.
  intros Hbs Hr. unfold Fips.pad. rewrite <- app_assoc. do 4 f_equal. f_equal.
  rewrite length_app, concat_length by done. case_decide as Hd.
  - replace (55 - Z.of_nat (64 * length bs + length r)) with
      (Z.of_nat (119 - length r) + (-1 - Z.of_nat (length bs)) * 64) by lia.
    rewrite Z.mod_add, Z.mod_small by lia. lia.
  - replace (55 - Z.of_nat (64 * length bs + length r)) with
      (Z.of_nat (55 - length r) + (- Z.of_nat (length bs)) * 64) by lia.
    rewrite Z.mod_add, Z.mod_small by lia. lia.
Qed.

Lemma PadMessage_digest s m :
  represents s (bz <$> m) -> sha_H (PadMessage s) = Fips.digest m.
Proof.
  intros [(bs & r & Hm & Hbs & Hbb & Hr & Hs & HH & Hw) Hlen Hlo Hhi _].
  unfold Fips.digest. rewrite Hm, pad_split by done. rewrite <- Hm, Hlen.
  unfold PadMessage. pose proof Hs as [Hi _]. rewrite Hi.
  destruct (put_byte_filled 0x80 s r Hs Hr) as [Hs1 (C1 & C2 & C3 & _)]; [lia|].
  assert (length (r ++ [0x80]) = S (length r)) as Hl1 by (rewrite length_app; simpl; lia).
  case_decide as Hd.
  - destruct (fill_to_filled 64 _ _ Hs1) as [Hs2 (D1 & D2 & D3 & _)]; [lia|].
    rewrite Hl1 in Hs2. set (b1 := (r ++ [0x80]) ++ replicate (64 - S (length r)) 0) in *.
    assert (length b1 = 64%nat) as Hb1 by (unfold b1; rewrite length_app, Hl1, length_replicate; lia).
    destruct (process_full _ b1 Hs2 Hb1) as (Hs3 & P2 & P3); [by rewrite D1, C1|by eapply filled_bytes|].
    destruct (fill_to_filled 56 _ _ Hs3) as [Hs4 (E1 & E2 & E3 & _)]; [simpl; lia|].
    rewrite (store_length_digest _ _ (Length_High s) (Length_Low s) Hs4);
      [|rewrite length_app, length_replicate; simpl; lia|by rewrite E3, <- C3, <- D3|by rewrite E2, <- C2, <- D2|done|by rewrite E1, P2].
    rewrite E1, P2, D1, C1, HH. change ([] ++ replicate (56 - length (@nil Z)) 0) with (replicate 56 0).
    replace (concat bs ++ r ++ [0x80] ++ replicate (119 - length r) 0 ++ Fips.octets 8 (Length_High s * 2 ^ 32 + Length_Low s))
      with (concat (bs ++ [b1; replicate 56 0 ++ Fips.octets 8 (Length_High s * 2 ^ 32 + Length_Low s)])).
    + rewrite blocks_concat; [by rewrite foldl_app|].
      apply Forall_app. split; [done|]. constructor; [done|constructor; [|constructor]].
      rewrite length_app, length_replicate, octets_8. done.
    + rewrite concat_app. f_equal. unfold b1. cbn [concat]. rewrite app_nil_r, <- !app_assoc. do 2 f_equal.
      rewrite app_assoc, <- replicate_add. do 2 f_equal. lia.
  - destruct (fill_to_filled 56 _ _ Hs1) as [Hs2 (D1 & D2 & D3 & _)]; [lia|]. rewrite Hl1 in Hs2.
    rewrite (store_length_digest _ _ (Length_High s) (Length_Low s) Hs2);
      [|rewrite length_app, Hl1, length_replicate; lia|by rewrite D3, C3|by rewrite D2, C2|done|by rewrite D1, C1].
    rewrite D1, C1, HH.
    replace (concat bs ++ r ++ [0x80] ++ replicate (55 - length r) 0 ++ Fips.octets 8 (Length_High s * 2 ^ 32 + Length_Low s))
      with (concat (bs ++ [((r ++ [0x80]) ++ replicate (56 - S (length r)) 0) ++ Fips.octets 8 (Length_High s * 2 ^ 32 + Length_Low s)])).
    + rewrite blocks_concat; [by rewrite foldl_app|].
      apply Forall_app. split; [done|]. constructor; [|constructor].
      rewrite length_app, length_app, Hl1, length_replicate, octets_8. simpl. lia.
    + rewrite concat_app. f_equal. cbn [concat]. rewrite app_nil_r, <- !app_assoc. do 2 f_equal.
Qed.

#[local] Opaque PadMessage.

Lemma Result_fresh s : Computed s = false -> Corrupted s = false -> (Result s).1 = Some (sha_H (PadMessage s)).
Proof.
  intros H1 H2. unfold Result. rewrite H1, H2. generalize (PadMessage s). intros x. by destruct x.
Qed.

Lemma represents_pieces l s m :
  represents s (bz <$> m) -> 8 * (Z.of_nat (length m) + Z.of_nat (length (concat l))) < 2 ^ 64 ->
  represents (foldl (fun s data => Input data s) s l) (bz <$> (m ++ concat l)).
Proof.
  revert s m. induction l as [|d l IH]; intros s m Hs Hmax; cbn [foldl concat]; [by rewrite app_nil_r|].
  cbn [concat] in Hmax. rewrite length_app in Hmax. rewrite app_assoc. apply IH.
  - rewrite fmap_app. apply represents_Input; [done|]. rewrite length_fmap. lia.
  - rewrite length_app. lia.
Qed.

Lemma pieces_digest (pieces : list bytes) :
  8 * Z.of_nat (length (concat pieces)) < 2 ^ 64 ->
  (Result (foldl (fun s data => Input data s) SHA1_new pieces)).1 = Some (Fips.digest (concat pieces)).
Proof.
  intros Hmax.
  pose proof (represents_pieces pieces SHA1_new [] represents_new Hmax) as Hall. cbn [app] in Hall.
  destruct (rp_flags _ _ Hall) as [H1 H2]. rewrite (Result_fresh _ H1 H2). f_equal. exact (PadMessage_digest _ _ Hall).
Qed.

(** C11: the digest of a message that is fed to the object in any pieces is the one
    of FIPS 180, for every message of fewer than 2^64 bits. *)
Theorem sha1_refines_fips (pieces : list bytes) :
  8 * Z.of_nat (length (concat pieces)) < 2 ^ 64 ->
  (Result (foldl (fun s data => Input data s) SHA1_new pieces)).1 = Some (Fips.digest (concat pieces)).
Proof. exact (pieces_digest pieces). Qed.

Lemma sha1_refines_fips_witness :
  8 * Z.of_nat (length (concat [ #"ab"; []; #"c" ])) < 2 ^ 64 /\
  (Result (foldl (fun s data => Input data s) SHA1_new [ #"ab"; []; #"c" ])).1 =
    Some (Fips.digest (concat [ #"ab"; []; #"c" ])).
Proof.
  assert (8 * Z.of_nat (length (concat [ #"ab"; []; #"c" ])) < 2 ^ 64) as H by reflexivity.
  split; [exact H|]. exact (sha1_refines_fips [ #"ab"; []; #"c" ] H).
Defined.

Lemma zero_fill_corrupted k s : Corrupted (zero_fill k s) = Corrupted s.
Proof. revert s. induction k as [|k IH]; intros s; cbn [zero_fill]; [done|]. by rewrite IH. Qed.

Transparent PadMessage.
Lemma PadMessage_corrupted s : Corrupted (PadMessage s) = Corrupted s.
Proof.
  unfold PadMessage.
  assert (forall x, Corrupted (ProcessMessageBlock x) = Corrupted x) as Hp by done.
  assert (forall x, Corrupted (store_length x) = Corrupted x) as Hl by done.
  rewrite Hp, Hl. case_decide; unfold fill_to; rewrite zero_fill_corrupted; [|done].
  rewrite Hp, zero_fill_corrupted. done.
Qed.
Opaque PadMessage.

(** The digest can be asked for again and stays the same; any input after it
    makes the object corrupted, and then no digest is returned any more. *)
Theorem Result_final (s : SHA1) (data : bytes) (Hs : Corrupted s = false) :
  let s' := (Result s).2 in
  Result s' = Result s /\ (data <> [] -> (Result (Input data s')).1 = None).
Proof.
  assert (exists s', Result s = (Some (sha_H s'), s') /\ Computed s' = true /\ Corrupted s' = false) as (s' & -> & H1 & H2).
  { unfold Result. rewrite Hs. destruct (Computed s) eqn:Hc; [by exists s|].
    pose proof (PadMessage_corrupted s) as Hp. rewrite Hs in Hp. revert Hp. generalize (PadMessage s). intros x Hx.
    exists (x <| Computed := true |>). split; [done|]. by split. }
  cbv zeta. cbn [snd]. split.
  - unfold Result. by rewrite H1, H2.
  - intros Hd. unfold Input. rewrite decide_False, H1 by done. done.
Qed.

Lemma Result_final_witness :
  (Result (Input #"x" (Result SHA1_new).2)).1 = None.
Proof. apply (Result_final SHA1_new #"x" eq_refl). discriminate. Defined.
