(* ===== verification/Base64.v ===== *)
(** * Base 64 (samples/base64.cpp)

    The encoder and decoder used by the WebSocket handshake and by basic
    authentication, with the round trip. *)
From S2P Require Import Prelude.

(** ** Definitions *)
Definition base64_chars : bytes :=
  #"ABCDEFGHIJKLMNOPQRSTUVWXYZabcdefghijklmnopqrstuvwxyz0123456789+/".

Definition is_base64 (c : ascii) : bool := is_alnum c || bool_decide (c = "+"%char) || bool_decide (c = "/"%char).

(** [base64_chars[x]], and [base64_chars.find(c)] stored in an [unsigned char]. *)
Definition base64_char (x : Z) : ascii := default NUL (base64_chars !! Z.to_nat x).
Definition base64_index (c : Z) : Z :=
  match find [zb c] base64_chars with
  | Some n => u8 (Z.of_nat n)
  | None => u8 (2 ^ 64 - 1)        (* std::string::npos *)
  end.

(** The four indices made of three bytes. *)
Definition char_array_4_of (c0 c1 c2 : Z) : list Z :=
  [ Z.shiftr (Z.land c0 0xfc) 2;
    u8 (Z.shiftl (Z.land c0 0x03) 4 + Z.shiftr (Z.land c1 0xf0) 4);
    u8 (Z.shiftl (Z.land c1 0x0f) 2 + Z.shiftr (Z.land c2 0xc0) 6);
    Z.land c2 0x3f ].

(** The loop of the encoder; [arr] is [char_array_3] up to [i]. *)
Fixpoint encode_loop (data : bytes) (arr : list Z) (ret : bytes) : bytes * list Z :=
  match data with
  | [] => (ret, arr)
  | b :: data' =>
      match arr ++ [bz b] with
      | [c0; c1; c2] => encode_loop data' [] (ret ++ (base64_char <$> char_array_4_of c0 c1 c2))
      | arr => encode_loop data' arr ret
      end
  end.

Definition base64_encode (data : bytes) : bytes :=
  let '(ret, arr) := encode_loop data [] [] in
  let i := length arr in
  if decide (i = 0) then ret
  else
    let at_ j := default 0%Z (arr !! j) in
    let four := char_array_4_of (at_ 0) (at_ 1) (at_ 2) in
    ret ++ (base64_char <$> take (i + 1) four) ++ replicate (3 - i) "="%char.

(** The three bytes made of four indices. *)
Definition char_array_3_of (c0 c1 c2 c3 : Z) : list Z :=
  [ u8 (Z.shiftl c0 2 + Z.shiftr (Z.land c1 0x30) 4);
    u8 (Z.shiftl (Z.land c1 0xf) 4 + Z.shiftr (Z.land c2 0x3c) 2);
    u8 (Z.shiftl (Z.land c2 0x3) 6 + c3) ].

(** The loop of the decoder, which ends at the first byte that is not of the
    alphabet; [arr] is [char_array_4] up to [i]. *)
Fixpoint decode_loop (s : bytes) (arr : list Z) (ret : bytes) : bytes * list Z :=
  match s with
  | [] => (ret, arr)
  | c :: s' =>
      if bool_decide (c <> "="%char) && is_base64 c then
        match arr ++ [bz c] with
        | [c0; c1; c2; c3] =>
            decode_loop s' [] (ret ++ (zb <$> char_array_3_of (base64_index c0) (base64_index c1)
                                                 (base64_index c2) (base64_index c3)))
        | arr => decode_loop s' arr ret
        end
      else (ret, arr)
  end.

(** The decoder: the loop from a point where [r] has been output, and the rest of an
    incomplete group. *)
Definition decode_from (s r : bytes) : bytes :=
  let '(ret, arr) := decode_loop s [] r in
  let i := length arr in
  if decide (i = 0) then ret
  else
    let at_ j := base64_index (default 0%Z (arr !! j)) in
    ret ++ (zb <$> take (i - 1) (char_array_3_of (at_ 0) (at_ 1) (at_ 2) (at_ 3))).
Definition base64_decode (s : bytes) : bytes := decode_from s [].

Example base64_rfc4648 :
  base64_encode #"foobar" = #"Zm9vYmFy" /\ base64_encode #"fooba" = #"Zm9vYmE=" /\
  base64_encode #"foob" = #"Zm9vYg==".
Proof. by vm_compute. Qed.

(** ** The bit operations as arithmetic *)
Lemma encode_masks x : (0 <= x < 256)%Z ->
  (Z.shiftr (Z.land x 0xfc) 2 = x / 4 /\ Z.shiftl (Z.land x 0x03) 4 = x mod 4 * 16 /\
   Z.shiftr (Z.land x 0xf0) 4 = x / 16 /\ Z.shiftl (Z.land x 0x0f) 2 = x mod 16 * 4 /\
   Z.shiftr (Z.land x 0xc0) 6 = x / 64 /\ Z.land x 0x3f = x mod 64)%Z.
Proof.
  intros Hx. pose proof (below_Z 256 (fun x =>
    (Z.shiftr (Z.land x 0xfc) 2 =? x / 4) && (Z.shiftl (Z.land x 0x03) 4 =? x mod 4 * 16) &&
    (Z.shiftr (Z.land x 0xf0) 4 =? x / 16) && (Z.shiftl (Z.land x 0x0f) 2 =? x mod 16 * 4) &&
    (Z.shiftr (Z.land x 0xc0) 6 =? x / 64) && (Z.land x 0x3f =? x mod 64))%Z ltac:(by vm_compute) x Hx) as H.
  cbv beta in H. bool_facts. by split_and!.
Qed.

Lemma decode_masks x : (0 <= x < 64)%Z ->
  (Z.shiftl x 2 = x * 4 /\ Z.shiftr (Z.land x 0x30) 4 = x / 16 /\ Z.shiftl (Z.land x 0xf) 4 = x mod 16 * 16 /\
   Z.shiftr (Z.land x 0x3c) 2 = x / 4 /\ Z.shiftl (Z.land x 0x3) 6 = x mod 4 * 64)%Z.
Proof.
  intros Hx. pose proof (below_Z 64 (fun x =>
    (Z.shiftl x 2 =? x * 4) && (Z.shiftr (Z.land x 0x30) 4 =? x / 16) &&
    (Z.shiftl (Z.land x 0xf) 4 =? x mod 16 * 16) && (Z.shiftr (Z.land x 0x3c) 2 =? x / 4) &&
    (Z.shiftl (Z.land x 0x3) 6 =? x mod 4 * 64))%Z ltac:(by vm_compute) x Hx) as H.
  cbv beta in H. bool_facts. by split_and!.
Qed.

(** The alphabet. *)
Lemma base64_char_spec x : (0 <= x < 64)%Z ->
  bool_decide (base64_char x <> "="%char) && is_base64 (base64_char x) = true /\
  base64_index (bz (base64_char x)) = x.
Proof.
  intros Hx. pose proof (below_Z 64 (fun x =>
    bool_decide (base64_char x <> "="%char) && is_base64 (base64_char x) &&
    (base64_index (bz (base64_char x)) =? x)%Z) ltac:(by vm_compute) x Hx) as H.
  cbv beta in H. apply andb_true_iff in H as [H1 H2%Z.eqb_eq]. by split.
Qed.

Lemma char_array_4_spec a b c :
  (0 <= a < 256 -> 0 <= b < 256 -> 0 <= c < 256 ->
   char_array_4_of a b c = [a / 4; a mod 4 * 16 + b / 16; b mod 16 * 4 + c / 64; c mod 64])%Z.
Proof.
  intros Ha Hb Hc. unfold char_array_4_of.
  destruct (encode_masks a Ha) as (-> & -> & _). destruct (encode_masks b Hb) as (_ & _ & -> & -> & _).
  destruct (encode_masks c Hc) as (_ & _ & _ & _ & -> & ->). unfold u8.
  by rewrite (Z.mod_small (a mod 4 * 16 + b / 16)), (Z.mod_small (b mod 16 * 4 + c / 64)) by dlia.
Qed.

Lemma char_array_3_spec a b c d :
  (0 <= a < 64 -> 0 <= b < 64 -> 0 <= c < 64 ->
   char_array_3_of a b c d = [u8 (a * 4 + b / 16); u8 (b mod 16 * 16 + c / 4); u8 (c mod 4 * 64 + d)])%Z.
Proof.
  intros Ha Hb Hc. unfold char_array_3_of.
  destruct (decode_masks a Ha) as (-> & _). destruct (decode_masks b Hb) as (_ & -> & -> & _).
  by destruct (decode_masks c Hc) as (_ & _ & _ & -> & ->).
Qed.

(** Three bytes through four indices and back. *)
Lemma three_bytes a b c :
  (0 <= a < 256 -> 0 <= b < 256 -> 0 <= c < 256 ->
   char_array_3_of (a / 4) (a mod 4 * 16 + b / 16) (b mod 16 * 4 + c / 64) (c mod 64) = [a; b; c])%Z.
Proof.
  intros Ha Hb Hc. rewrite char_array_3_spec by dlia. unfold u8. repeat f_equal; dlia.
Qed.

(** The index that stands for a missing character does not reach the bytes that are
    output. *)
Lemma two_bytes a b x :
  (0 <= a < 256 -> 0 <= b < 256 ->
   take 2 (char_array_3_of (a / 4) (a mod 4 * 16 + b / 16) (b mod 16 * 4) x) = [a; b])%Z.
Proof.
  intros Ha Hb. rewrite char_array_3_spec by dlia. unfold u8. cbn [take]. repeat f_equal; dlia.
Qed.

Lemma one_byte a x y :
  (0 <= a < 256 -> take 1 (char_array_3_of (a / 4) (a mod 4 * 16) x y) = [a])%Z.
Proof.
  intros Ha. unfold char_array_3_of. cbn [take].
  destruct (decode_masks (a / 4) ltac:(dlia)) as (-> & _).
  destruct (decode_masks (a mod 4 * 16) ltac:(dlia)) as (_ & -> & _). unfold u8. f_equal. dlia.
Qed.

(** ** The loops *)
Lemma encode_loop_ret data arr r :
  encode_loop data arr r = (r ++ (encode_loop data arr []).1, (encode_loop data arr []).2).
Proof.
  revert arr r. induction data as [|b data IH]; intros arr r; cbn [encode_loop]; [by rewrite app_nil_r|].
  destruct (arr ++ [bz b]) as [|c0 [|c1 [|c2 [|]]]]; [apply IH|apply IH|apply IH| |apply IH].
  rewrite (IH [] (r ++ _)), (IH [] ([] ++ _)). cbn [fst snd]. by rewrite app_assoc.
Qed.

Lemma decode_char x s arr r :
  (0 <= x < 64)%Z -> length arr < 3 ->
  decode_loop (base64_char x :: s) arr r = decode_loop s (arr ++ [bz (base64_char x)]) r.
Proof.
  intros Hx Ha. cbn [decode_loop]. destruct (base64_char_spec x Hx) as [-> _].
  by destruct arr as [|? [|? [|]]]; cbn in *; try lia.
Qed.

Lemma decode_four x0 x1 x2 x3 s r :
  Forall (fun x => 0 <= x < 64)%Z [x0; x1; x2; x3] ->
  decode_loop ((base64_char <$> [x0; x1; x2; x3]) ++ s) [] r =
  decode_loop s [] (r ++ (zb <$> char_array_3_of x0 x1 x2 x3)).
Proof.
  rewrite !Forall_cons. intros (H0 & H1 & H2 & H3 & _). cbn [fmap list_fmap app].
  rewrite !decode_char by (done || (simpl; lia)). cbn [app decode_loop].
  destruct (base64_char_spec x3 H3) as [-> ->]. cbn [app].
  destruct (base64_char_spec x0 H0) as [_ ->]. destruct (base64_char_spec x1 H1) as [_ ->].
  by destruct (base64_char_spec x2 H2) as [_ ->].
Qed.

Lemma encode_three a b c data :
  base64_encode (a :: b :: c :: data) =
    (base64_char <$> char_array_4_of (bz a) (bz b) (bz c)) ++ base64_encode data.
Proof.
  unfold base64_encode. cbn [encode_loop app]. rewrite encode_loop_ret.
  destruct (encode_loop data [] []) as [ret arr]. cbn [fst snd].
  case_decide; [done|]. by rewrite <- app_assoc.
Qed.

Lemma indices_ok a b c :
  Forall (fun x => 0 <= x < 64)%Z [bz a / 4; bz a mod 4 * 16 + bz b / 16; bz b mod 16 * 4 + bz c / 64; bz c mod 64]%Z.
Proof.
  pose proof (bz_range a). pose proof (bz_range b). pose proof (bz_range c). repeat constructor; dlia.
Qed.

Lemma decode_from_three x0 x1 x2 x3 s r :
  Forall (fun x => 0 <= x < 64)%Z [x0; x1; x2; x3] ->
  decode_from ((base64_char <$> [x0; x1; x2; x3]) ++ s) r = decode_from s (r ++ (zb <$> char_array_3_of x0 x1 x2 x3)).
Proof. intros H. unfold decode_from. by rewrite decode_four. Qed.

Lemma not_alphabet s r arr : decode_loop ("="%char :: s) arr r = (r, arr).
Proof. done. Qed.

Lemma decode_two_left a b r : decode_from (base64_encode [a; b]) r = r ++ [a; b].
Proof.
  pose proof (indices_ok a b NUL) as Hi. pose proof (bz_range a). pose proof (bz_range b).
  unfold base64_encode. cbn [encode_loop app length]. rewrite decide_False by done.
  cbn [lookup list_lookup default Nat.add take Nat.sub replicate].
  change (default 0%Z (Some (bz a))) with (bz a). change (default 0%Z (Some (bz b))) with (bz b).
  change (default 0%Z None) with (bz NUL). rewrite char_array_4_spec by (done || apply bz_range).
  rewrite !Forall_cons in Hi. destruct Hi as (G0 & G1 & G2 & _).
  unfold decode_from. cbn [take fmap list_fmap app].
  rewrite !decode_char by (done || (simpl; lia)). rewrite not_alphabet. cbn [app length].
  rewrite decide_False by done. cbn [lookup list_lookup default Nat.sub].
  unfold id. change (bz NUL / 64)%Z with 0%Z in G2. change (0 / 64)%Z with 0%Z. rewrite Z.add_0_r in *.
  destruct (base64_char_spec _ G0) as [_ ->]. destruct (base64_char_spec _ G1) as [_ ->].
  destruct (base64_char_spec _ G2) as [_ ->]. rewrite two_bytes by done.
  cbn [fmap list_fmap]. by rewrite !zb_bz.
Qed.

Lemma decode_one_left a r : decode_from (base64_encode [a]) r = r ++ [a].
Proof.
  pose proof (indices_ok a NUL NUL) as Hi. pose proof (bz_range a).
  unfold base64_encode. cbn [encode_loop app length]. rewrite decide_False by done.
  cbn [lookup list_lookup default Nat.add take Nat.sub replicate].
  change (default 0%Z (Some (bz a))) with (bz a).
  change (default 0%Z None) with (bz NUL). rewrite char_array_4_spec by (done || apply bz_range).
  rewrite !Forall_cons in Hi. destruct Hi as (G0 & G1 & _).
  unfold decode_from. cbn [take fmap list_fmap app].
  rewrite !decode_char by (done || (simpl; lia)). rewrite not_alphabet. cbn [app length].
  rewrite decide_False by done. cbn [lookup list_lookup default Nat.sub].
  unfold id. change (bz NUL / 16)%Z with 0%Z in G1. change (0 / 16)%Z with 0%Z. rewrite Z.add_0_r in *.
  destruct (base64_char_spec _ G0) as [_ ->]. destruct (base64_char_spec _ G1) as [_ ->].
  rewrite one_byte by done. cbn [fmap list_fmap]. by rewrite zb_bz.
Qed.

Lemma decode_encoded data r : decode_from (base64_encode data) r = r ++ data.
Proof.
  remember (length data) as n eqn:Hn. revert data r Hn.
  induction n as [n IH] using lt_wf_ind. intros data r ->.
  destruct data as [|a [|b [|c data]]].
  - cbn. by rewrite app_nil_r.
  - apply decode_one_left.
  - apply decode_two_left.
  - pose proof (bz_range a). pose proof (bz_range b). pose proof (bz_range c).
    rewrite encode_three, char_array_4_spec by done. rewrite decode_from_three by apply indices_ok.
    rewrite three_bytes by done. rewrite (IH (length data)); [|simpl; lia|done].
    rewrite <- app_assoc. cbn [fmap list_fmap app]. by rewrite !zb_bz.
Qed.

(** C35: what [base64_encode] writes, [base64_decode] reads back, for every sequence of
    bytes; the text has four characters for every three bytes begun. *)
Theorem base64_roundtrip (data : bytes) :
  base64_decode (base64_encode data) = data /\
  length (base64_encode data) = 4 * ((length data + 2) / 3).
Proof.
  split; [exact (decode_encoded data [])|].
  remember (length data) as n eqn:Hn. revert data Hn. induction n as [n IH] using lt_wf_ind.
  intros data ->. destruct data as [|a [|b [|c data]]]; [done|done|done|].
  rewrite encode_three, length_app, length_fmap. rewrite (IH (length data)) by (done || (simpl; lia)).
  change (length (char_array_4_of (bz a) (bz b) (bz c))) with 4. cbn [length].
  replace (S (S (S (length data))) + 2) with (length data + 2 + 1 * 3) by lia.
  rewrite Nat.div_add by lia. lia.
Qed.
