(* ===== verification/SampleHandlers.v ===== *)
(** * Handlers of the samples (samples/ehs_basicauth.cpp, samples/ehs_uploader.cpp)

    What two of the sample servers answer: basic authentication, on top of the base 64
    decoder, and the upload of files, on top of multipart forms.  Their [main] functions
    and what they print to the console are left out. *)
From S2P Require Import Prelude Boost StdMap Datum EhsTypes HttpRequest HttpResponse Base64.

(** [endl], and a line of a page. *)
Definition endl : bytes := [LF].

(** ** Basic authentication *)
Module BasicAuth.
Definition correct_user : bytes := #"tester".
Definition correct_pass : bytes := #"12345".

(** What an [Authorization] header holds: user and password. *)
Definition credentials (value : bytes) : option (bytes * bytes) :=
  if bool_decide (take 6 value = #"Basic ") then
    let decoded := base64_decode (drop 6 value) in
    p ← find #":" decoded; Some (take p decoded, drop (S p) decoded)
  else None.

(** The loop over the headers: the first that matches. *)
Fixpoint auth_header (l : StringCaseMap) : option (bytes * bytes) :=
  match l with
  | [] => None
  | (k, v) :: l =>
      if bool_decide (k = #"Authorization") then
        match credentials v with
        | Some c => Some c
        | None => auth_header l
        end
      else auth_header l
  end.

Definition CheckAuthHeader (r : HttpRequest) : bool * HttpRequest :=
  match auth_header (m_oRequestHeaders r) with
  | Some (user, pass) => (true, SetHeader #"HTTP_AUTH_PASS" pass (SetHeader #"HTTP_AUTH_USER" user r))
  | None => (false, r)
  end.

Definition forbidden_page : bytes :=
  #"<html><head><title>Forbidden</title></head><body>" ++ endl ++
  #"<h1>403 Forbidden</h1>" ++ endl ++
  #"<p>You obviously specified a wrong user and/or password</p>" ++ endl ++
  #"<p>The correct User is '" ++ correct_user ++ #"'</p>" ++ endl ++
  #"<p>The correct Password is '" ++ correct_pass ++ #"'</p>" ++ endl ++
  #"</body></html>" ++ endl.

(** The number of an enumerator, as [operator<<] prints it. *)
Definition method_value (m : RequestMethod) : Z :=
  match m with
  | REQUESTMETHOD_OPTIONS => 0
  | REQUESTMETHOD_GET => 1
  | REQUESTMETHOD_HEAD => 2
  | REQUESTMETHOD_POST => 3
  | REQUESTMETHOD_PUT => 4
  | REQUESTMETHOD_DELETE => 5
  | REQUESTMETHOD_TRACE => 6
  | REQUESTMETHOD_CONNECT => 7
  | REQUESTMETHOD_UNKNOWN => 8
  end.

Definition size_of {A} (l : list A) : bytes := print_Z (Z.of_nat (length l)).
Definition row (name value : bytes) : bytes := #"<tr><td>" ++ name ++ #"</td><td>" ++ value ++ #"</td></tr>" ++ endl.
Fixpoint rows (name : bytes) (l : list (bytes * bytes)) : bytes :=
  match l with
  | [] => []
  | (k, v) :: l => row name (k ++ #" => " ++ v) ++ rows name l
  end.

(** [remote] is the address and port of the client's connection. *)
Definition info_page (remote : bytes * Z) (r : HttpRequest) : bytes :=
  #"<html><head><title>BasicAuth</title></head><body><table><tr>" ++
  row #"request-method:" (print_Z (method_value (m_nRequestMethod r))) ++
  row #"uri:" (m_sUri r) ++
  row #"http-version:" (m_sHttpVersionNumber r) ++
  row #"body-length:" (size_of (m_sBody r)) ++
  row #"request-headers #:" (size_of (m_oRequestHeaders r)) ++
  row #"formvalue-maps #:" (size_of (m_oFormValueMap r)) ++
  row #"client-address:" remote.1 ++
  row #"client-port:" (print_Z remote.2) ++
  rows #"Request Header:" (m_oRequestHeaders r) ++
  rows #"Cookie:" (m_oCookieMap r) ++
  #"</table></body></html>" ++ endl.

(** The code, the response, and the request, to which the credentials have been added. *)
Definition HandleRequest (remote : bytes * Z) (request : HttpRequest) (response : HttpResponse) :
    ResponseCode * HttpResponse * HttpRequest :=
  let '(ok, request) := CheckAuthHeader request in
  if negb ok then
    (HTTPRESPONSECODE_401_UNAUTHORIZED,
     resp_SetHeader #"WWW-Authenticate" (lit "Basic realm=" ++ DQ :: lit "Password required please use tester and 12345" ++ [DQ]) response,
     request)
  else if bool_decide (Headers request #"HTTP_AUTH_USER" <> correct_user) ||
          bool_decide (Headers request #"HTTP_AUTH_PASS" <> correct_pass) then
    (HTTPRESPONSECODE_403_FORBIDDEN, SetBody forbidden_page (length forbidden_page) response, request)
  else
    let page := info_page remote request in
    (HTTPRESPONSECODE_200_OK, SetBody page (length page) response, request).
End BasicAuth.

(** ** Uploads *)
Module Uploader.

(** The working directory: the names that exist, with the contents of the files (a link that
    leads nowhere is left out: [access] denies that it exists, and [ofstream] follows it). *)
Abbreviation files := (gmap bytes bytes).

(** [s.find_last_of(set)]. *)
Fixpoint find_last_of (set : bytes) (s : bytes) : option nat :=
  match s with
  | [] => None
  | a :: s =>
      match find_last_of set s with
      | Some n => Some (S n)
      | None => if bool_decide (a ∈ set) then Some 0 else None
      end
  end.

(** The name without the directories. *)
Definition base_name (sFileName : bytes) : bytes :=
  match find_last_of #"/\" sFileName with
  | Some lastSlash => drop (S lastSlash) sFileName
  | None => sFileName
  end.

Definition form_page (sMsg : bytes) : bytes :=
  #"<html><head><title>ehs uploader</title></head>" ++ endl ++ #"<body>" ++ endl ++
  lit "  <form method=" ++ DQ :: lit "POST" ++ DQ :: lit " action=" ++ DQ :: lit "/upload.html" ++ DQ ::
    lit " enctype=" ++ DQ :: lit "multipart/form-data" ++ DQ :: lit ">" ++ endl ++
  #"    Upload file:<br />" ++ endl ++
  lit "    <input type=" ++ DQ :: lit "file" ++ DQ :: lit " name=" ++ DQ :: lit "file" ++ DQ :: lit "><br />" ++ endl ++
  lit "    <input type=" ++ DQ :: lit "submit" ++ DQ :: lit " value=" ++ DQ :: lit "submit" ++ DQ :: lit ">" ++ endl ++
  #"  </form>" ++ endl ++
  (if bool_decide (sMsg = []) then [] else #"  <p>Status: " ++ sMsg ++ #"<br />" ++ endl) ++
  #"</body></html>" ++ endl.

(** Storing an upload: the status, and the files.  [writable] tells whether the file can be
    created; the code does not look at it. *)
Definition store (writable : bytes -> bool) (sFileName sBody : bytes) (fs : files) : bytes * files :=
  if bool_decide (i32 (Z.of_nat (length sBody)) <> 0%Z) then
    let sFileName := base_name sFileName in
    if bool_decide (sFileName <> []) then
      let path := c_str sFileName in
      if bool_decide (fs !! path = None) then
        (#"Uploaded file successfully.",
         if writable path then <[path := take (Z.to_nat (i32 (Z.of_nat (length sBody)))) sBody]> fs else fs)
      else (#"No permission to overwrite a file.", fs)
    else (#"No filename received.", fs)
  else (#"No content received.", fs).

Definition HandleRequest (writable : bytes -> bool) (request : HttpRequest) (response : HttpResponse) (fs : files) :
    ResponseCode * HttpResponse * HttpRequest * files :=
  let sUri := m_sUri request in
  if bool_decide (sUri = #"/") then
    let page := form_page (Cookies request #"ehs_upload_status") in
    (HTTPRESPONSECODE_200_OK, SetBody page (length page) response, request, fs)
  else if bool_decide (sUri = #"/upload.html") then
    let '(file, request) := FormValues request #"file" in
    let cd := m_oContentDisposition file in
    let '(sFileName, headers) := scm_ref [] #"filename" (m_oContentDispositionHeaders cd) in
    let file := file <| m_oContentDisposition := MkContentDisposition headers (m_sContentDisposition cd) |> in
    let request := request <| m_oFormValueMap ::= sm_set #"file" file |> in
    let '(status, fs) := store writable sFileName (fv_sBody file) fs in
    let statusCookie := sm_set #"value" (assign_cstr status) (sm_set #"name" (assign_cstr #"ehs_upload_status") []) in
    let '(response, _) := SetCookie statusCookie response in
    let response := resp_SetHeader #"Location" #"/" (SetBody [] 0 response) in
    (HTTPRESPONSECODE_301_MOVEDPERMANENTLY, response, request, fs)
  else (HTTPRESPONSECODE_404_NOTFOUND, response, request, fs).
End Uploader.

(** ** Properties *)
Lemma find_char (a : ascii) s t : a ∉ s -> find [a] (s ++ a :: t) = Some (length s).
Proof.
  induction s as [|b s IH]; intros Hn.
  - cbn [app find]. rewrite (proj2 (is_prefix_spec [a] (a :: t))); [done|by exists t].
  - apply not_elem_of_cons in Hn as [Hb Hn]. cbn [app find].
    destruct (is_prefix [a] (b :: s ++ a :: t)) eqn:E; [|by rewrite IH].
    apply is_prefix_spec in E as [u Hu]. by injection Hu as -> _.
Qed.

Lemma credentials_sent user pass :
  ":"%char ∉ user ->
  BasicAuth.credentials (#"Basic " ++ base64_encode (user ++ ":"%char :: pass)) = Some (user, pass).
Proof.
  intros Hu. unfold BasicAuth.credentials. rewrite bool_decide_eq_true_2 by done.
  change (drop 6 (#"Basic " ++ base64_encode (user ++ ":"%char :: pass))) with (base64_encode (user ++ ":"%char :: pass)).
  unfold base64_decode. rewrite decode_encoded. cbn [app]. change #":" with [":"%char]. rewrite find_char by done. cbn.
  rewrite take_app_length. do 2 f_equal. rewrite drop_app_ge by lia. by replace (S (length user) - length user) with 1 by lia.
Qed.

(** A map holds one value for a key. *)
Lemma auth_header_found l v c :
  scm_sorted l -> (#"Authorization", v) ∈ l -> BasicAuth.credentials v = Some c -> BasicAuth.auth_header l = Some c.
Proof.
  intros Hs Hin Hc. induction l as [|[k v'] l IH]; [by apply not_elem_of_nil in Hin|]. cbn [BasicAuth.auth_header].
  apply elem_of_cons in Hin as [[= <- <-]|Hin]; [by rewrite bool_decide_eq_true_2, Hc by done|].
  pose proof (m_sorted_lb _ _ _ _ _ _ Hs Hin) as Hlt. rewrite bool_decide_eq_false_2.
  - apply IH; [by destruct Hs|done].
  - intros ->. unfold kcmp in Hlt. by rewrite bytes_compare_refl in Hlt.
Qed.

Lemma auth_header_missing l : (forall v, (#"Authorization", v) ∉ l) -> BasicAuth.auth_header l = None.
Proof.
  induction l as [|[k v] l IH]; intros Hn; [done|]. cbn [BasicAuth.auth_header].
  rewrite bool_decide_eq_false_2; [|intros ->; apply (Hn v); left]. apply IH. intros v' Hv'. apply (Hn v'). by right.
Qed.

(** Basic authentication: a client that sends a user (without a colon) and a password, base
    64 encoded in the [Authorization] header, is served if both are right and gets 403 if
    not, whatever other headers it sends, headers named like the ones in which the code
    stores the credentials included; without a header of exactly that name the answer is
    401, and the request is not touched. *)
Theorem basic_auth_decides remote (r : HttpRequest) (response : HttpResponse) user pass :
  scm_sorted (m_oRequestHeaders r) -> ":"%char ∉ user ->
  (#"Authorization", #"Basic " ++ base64_encode (user ++ ":"%char :: pass)) ∈ m_oRequestHeaders r \/
    (forall v, (#"Authorization", v) ∉ m_oRequestHeaders r) ->
  let '(code, _, r') := BasicAuth.HandleRequest remote r response in
  ((#"Authorization", #"Basic " ++ base64_encode (user ++ ":"%char :: pass)) ∈ m_oRequestHeaders r ->
     code = (if decide (user = BasicAuth.correct_user /\ pass = BasicAuth.correct_pass)
             then HTTPRESPONSECODE_200_OK else HTTPRESPONSECODE_403_FORBIDDEN) /\
     Headers r' #"HTTP_AUTH_USER" = user /\ Headers r' #"HTTP_AUTH_PASS" = pass) /\
  ((forall v, (#"Authorization", v) ∉ m_oRequestHeaders r) -> code = HTTPRESPONSECODE_401_UNAUTHORIZED /\ r' = r).
Proof.
  intros Hs Hu Hor. unfold BasicAuth.HandleRequest, BasicAuth.CheckAuthHeader. destruct Hor as [Hin|Hno].
  - rewrite (auth_header_found _ _ _ Hs Hin (credentials_sent user pass Hu)). cbn [negb].
    set (r' := SetHeader _ pass _).
    assert (Headers r' #"HTTP_AUTH_USER" = user /\ Headers r' #"HTTP_AUTH_PASS" = pass) as [H1 H2].
    { unfold Headers, r', SetHeader. cbn [m_oRequestHeaders update]. rewrite m_find_set.
      rewrite m_find_set_ne, m_find_set by (by vm_compute). done. }
    rewrite H1, H2. destruct (decide (user = BasicAuth.correct_user /\ pass = BasicAuth.correct_pass)) as [[-> ->]|Hne].
    + rewrite !bool_decide_eq_false_2 by auto. cbn [orb]. split; [done|]. intros Hno. by destruct (Hno _ Hin).
    + assert (bool_decide (user <> BasicAuth.correct_user) || bool_decide (pass <> BasicAuth.correct_pass) = true) as ->.
      { apply orb_true_iff. rewrite !bool_decide_eq_true. destruct (decide (user = BasicAuth.correct_user)); [right|by left].
        intros ->. by apply Hne. }
      split; [done|]. intros Hno. by destruct (Hno _ Hin).
  - rewrite (auth_header_missing _ Hno). cbn [negb]. split; [|done]. intros Hin. by destruct (Hno _ Hin).
Qed.

Lemma find_last_of_None set s : Uploader.find_last_of set s = None -> Forall (.∉ set) s.
Proof.
  induction s as [|a s IH]; [done|]. cbn [Uploader.find_last_of].
  destruct (Uploader.find_last_of set s); [done|]. case_bool_decide; [done|]. by constructor; [|apply IH].
Qed.

Lemma find_last_of_Some set s n : Uploader.find_last_of set s = Some n -> Forall (.∉ set) (drop (S n) s).
Proof.
  revert n. induction s as [|a s IH]; intros n; [done|]. cbn [Uploader.find_last_of].
  destruct (Uploader.find_last_of set s) as [m|] eqn:E.
  - intros [= <-]. by apply IH.
  - case_bool_decide; [|done]. intros [= <-]. by apply find_last_of_None.
Qed.

Lemma base_name_local s : Forall (.∉ #"/\") (Uploader.base_name s).
Proof.
  unfold Uploader.base_name. destruct (Uploader.find_last_of _ s) eqn:E.
  - by apply find_last_of_Some in E.
  - by apply find_last_of_None in E.
Qed.

Lemma Forall_c_str (P : ascii -> Prop) s : Forall P s -> Forall P (c_str s).
Proof. induction 1 as [|a s Ha Hs IH]; [constructor|]. cbn. case_match; by try constructor. Qed.

(** Storing an upload leaves every file that exists as it is, and adds at most one: in the
    working directory, whatever directories the client put before the name, with what the
    client sent.  The status the client sees says that it was stored if it was, and also if
    it could not be written. *)
Theorem uploads_are_contained writable sFileName sBody fs :
  (Z.of_nat (length sBody) < 2 ^ 31)%Z ->
  let '(status, fs') := Uploader.store writable sFileName sBody fs in
  fs ⊆ fs' /\
  (fs' = fs \/
   exists name, fs' = <[name := sBody]> fs /\ fs !! name = None /\ Forall (.∉ #"/\") name /\ sBody <> [] /\
     writable name = true /\ status = #"Uploaded file successfully.").
Proof.
  intros Hlen. unfold Uploader.store. rewrite i32_id by lia. rewrite Nat2Z.id, firstn_all.
  case_bool_decide as Hz; [|by split; [|left]]. case_bool_decide as Hn; [|by split; [|left]].
  case_bool_decide as Hf; [|by split; [|left]].
  destruct (writable _) eqn:Hw; [|by split; [|left]]. split; [by apply insert_subseteq|]. right.
  eexists. split_and!; [done|done|apply Forall_c_str, base_name_local| |done|done]. by intros ->.
Qed.
