(* ===== verification/Console.v ===== *)
(** * The keyboard of the samples (samples/common.h)

    [kbdio] reads the keyboard without waiting: its constructor changes the settings of the
    terminal, its destructor brings them back.  The terminal is the class [Tty]. *)
From S2P Require Import Prelude.

Local Open Scope Z_scope.

(** [struct termios]: the local modes, the control characters, and the rest, which is only
    copied. *)
Record termios : Type := MkTermios { c_lflag : Z; c_cc : list Z; c_rest : list Z }.
#[export] Instance eta_termios : Eta termios := fun t => MkTermios (c_lflag t) (c_cc t) (c_rest t).

(** On Linux. *)
Definition ICANON : Z := 2.
Definition VTIME : nat := 5.
Definition VMIN : nat := 6.
Definition NCCS : nat := 32.
Definition termios_zero : termios := MkTermios 0 (replicate NCCS 0) [0; 0; 0; 0; 0; 0].

(** [tcgetattr(0, ...)] puts the settings in place of those it is given, if it succeeds. *)
Class Tty (W : Type) : Type := {
  tcgetattr : termios -> W -> Z * termios * W;
  tcsetattr : termios -> W -> Z * W;
  read_char : W -> Z * ascii * W
}.

Record kbdio : Type := MkKbdio { st : termios; stsave : termios }.

Section kbdio.
Context {W : Type} {T : Tty W}.

Definition kbdio_new (w : W) : kbdio * W :=
  let '(_, stsave, w) := tcgetattr termios_zero w in
  let st := stsave <| c_lflag ::= fun f => Z.land f (Z.lnot ICANON) |>
                   <| c_cc ::= fun cc => <[VMIN := 0]> (<[VTIME := 0]> cc) |> in
  let '(_, w) := tcsetattr st w in
  (MkKbdio st stsave, w).

Definition kbdio_delete (k : kbdio) (w : W) : W := (tcsetattr (stsave k) w).2.

(** [while (1 == read(0, &c, 1))]; [None] is a keyboard that never pauses. *)
Fixpoint qpressed_loop (fuel : nat) (ret : bool) (w : W) : option (bool * W) :=
  match fuel with
  | O => None
  | S fuel =>
      let '(n, c, w) := read_char w in
      if n =? 1 then qpressed_loop fuel (ret || bool_decide (c = "q"%char)) w else Some (ret, w)
  end.
Definition qpressed (fuel : nat) (w : W) : option (bool * W) := qpressed_loop fuel false w.
End kbdio.

(** A terminal has settings, and keys that have been pressed.  While a [read] in non-canonical
    mode with [VMIN] and [VTIME] zero does not wait, one in canonical mode may. *)
Class TtyLaws {W : Type} (T : Tty W) : Type := {
  tty_settings : W -> termios;
  tty_keys : W -> list ascii;
  tcgetattr_gets t w : (tcgetattr t w).1.2 = tty_settings w /\ (tcgetattr t w).2 = w;
  tcsetattr_sets t w : tty_settings (tcsetattr t w).2 = t /\ tty_keys (tcsetattr t w).2 = tty_keys w;
  read_char_takes w :
    Z.land (c_lflag (tty_settings w)) ICANON = 0 -> c_cc (tty_settings w) !! VMIN = Some 0 ->
    tty_settings (read_char w).2 = tty_settings w /\ tty_keys (read_char w).2 = tail (tty_keys w) /\
    ((read_char w).1.1 = 1 <-> tty_keys w <> []) /\ (forall c l, tty_keys w = c :: l -> (read_char w).1.2 = c)
}.

Section facts.
Context {W : Type} {T : Tty W} {L : TtyLaws T}.

(** Reading does not wait. *)
Definition immediate (t : termios) : Prop := Z.land (c_lflag t) ICANON = 0 /\ c_cc t !! VMIN = Some 0.

Lemma qpressed_loop_spec fuel ret (w : W) :
  immediate (tty_settings w) -> (length (tty_keys w) < fuel)%nat ->
  exists w', qpressed_loop fuel ret w = Some (ret || bool_decide ("q"%char ∈ tty_keys w), w') /\
    tty_keys w' = [] /\ tty_settings w' = tty_settings w.
Proof using.
  intros Hi. revert ret w Hi. induction fuel as [|fuel IH]; intros ret w Hi Hf; [lia|]. cbn [qpressed_loop].
  destruct (read_char_takes w (proj1 Hi) (proj2 Hi)) as (H1 & H2 & H3 & H4).
  destruct (read_char w) as [[n c] w1]. cbn [fst snd] in *. destruct (tty_keys w) as [|k l] eqn:Hk.
  - destruct (Z.eqb_spec n 1) as [Hn|Hn]; [by destruct (proj1 H3 Hn)|]. exists w1. by rewrite orb_false_r.
  - rewrite (proj2 (Z.eqb_eq n 1)) by by apply H3. rewrite (H4 k l eq_refl).
    destruct (IH (ret || bool_decide (k = "q"%char)) w1) as (w2 & -> & H5 & H6); [by rewrite H1|rewrite H2; cbn in *; lia|].
    exists w2. rewrite H2, H6, H1. split; [|done]. do 2 f_equal. rewrite <- orb_assoc. f_equal. cbn [tail].
    case_bool_decide; case_bool_decide; case_bool_decide; set_solver.
Qed.

(** Between construction and destruction [qpressed] takes all keys that have been pressed and
    says whether "q" was among them; the destructor brings the settings back that the
    constructor has found. *)
Theorem kbdio_scope fuel (w : W) :
  length (c_cc (tty_settings w)) = NCCS -> (length (tty_keys w) < fuel)%nat ->
  let '(k, w1) := kbdio_new w in
  exists w2, qpressed fuel w1 = Some (bool_decide ("q"%char ∈ tty_keys w), w2) /\ tty_keys w2 = [] /\
    tty_settings (kbdio_delete k w2) = tty_settings w.
Proof using.
  intros Hcc Hf. unfold kbdio_new. destruct (tcgetattr_gets termios_zero w) as [Hg1 Hg2].
  destruct (tcgetattr termios_zero w) as [[r saved] w0]. cbn [fst snd] in *. subst saved w0.
  set (t := tty_settings w <| c_lflag ::= _ |> <| c_cc ::= _ |>). destruct (tcsetattr_sets t w) as [Hs1 Hs2].
  destruct (tcsetattr t w) as [r1 w1]. cbn [fst snd] in *.
  destruct (qpressed_loop_spec fuel false w1) as (w2 & Hq & Hk & _).
  - rewrite Hs1. split; cbn; [rewrite <- Z.land_assoc, (Z.land_comm (Z.lnot _)), Z.land_lnot_diag; apply Z.land_0_r|].
    apply list_lookup_insert_eq. rewrite length_insert, Hcc. unfold VMIN, NCCS. lia.
  - by rewrite Hs2.
  - exists w2. rewrite Hs2 in Hq. split_and!; [exact Hq|exact Hk|]. unfold kbdio_delete. cbn [stsave]. by apply tcsetattr_sets.
Qed.
End facts.

(** ** A concrete terminal *)
#[export] Instance plain_tty : Tty (termios * list ascii) := {|
  tcgetattr _ w := (0, w.1, w);
  tcsetattr t w := (0, (t, w.2));
  read_char w := match w.2 with c :: l => (1, c, (w.1, l)) | [] => (0, NUL, w) end
|}.
#[export] Instance plain_tty_laws : TtyLaws plain_tty.
Proof.
  refine {| tty_settings w := w.1; tty_keys w := w.2 |}; [done|done|]. intros [t [|c l]] _ _; cbn; naive_solver.
Defined.

Lemma kbdio_scope_witness :
  let w := (termios_zero <| c_lflag := 0x8A3B |>, #"aqb") in
  length (c_cc (tty_settings w)) = NCCS /\ (length (tty_keys w) < 5)%nat /\
  exists k w1 w2, kbdio_new w = (k, w1) /\ c_lflag (tty_settings w1) = 0x8A39 /\ qpressed 5 w1 = Some (true, w2).
Proof.
  intros w. split; [done|]. split; [cbn; lia|]. pose proof (kbdio_scope 5 w eq_refl ltac:(cbn; lia)) as H.
  destruct (kbdio_new w) as [k w1] eqn:E. destruct H as (w2 & Hq & _). exists k, w1, w2. split_and!; [done| |exact Hq].
  unfold kbdio_new in E. cbn in E. by injection E as <- <-.
Defined.
