(* ===== verification/Samples.v ===== *)
(** * The other samples (samples/)

    The request handlers of ehs_testharness.cpp, ehs_privport.cpp, ehs_formtest.cpp,
    ehs_mirror.cpp, ehs_chunktest.cpp, ehs_exception.cpp and ehs_test.cpp, the parameters with
    which the [main] functions start their servers, the objects of ehs_test, and the helpers of common.h.  The console
    output is left out; the keyboard is in Console.  [remote] is the address and port of the client. *)
From S2P Require Import Prelude Boost StdMap Datum EhsTypes HttpRequest HttpResponse Network Connection.
From S2P Require Import ConnectionFacts Server ServerFacts Ehs EhsFacts SampleHandlers.

(** ** Pages that show a request *)
Module TestHarness.
Import BasicAuth.

(** The pages of the two samples differ in two labels. *)
Definition page (headers_label forms_label : bytes) (remote : bytes * Z) (r : HttpRequest) : bytes :=
  #"<html><head><title>TestHarness</title></head><body><table><tr>" ++
  row #"request-method:" (print_Z (method_value (m_nRequestMethod r))) ++
  row #"uri:" (m_sUri r) ++
  row #"http-version:" (m_sHttpVersionNumber r) ++
  row #"body-length:" (size_of (m_sBody r)) ++
  row headers_label (size_of (m_oRequestHeaders r)) ++
  row forms_label (size_of (m_oFormValueMap r)) ++
  row #"client-address:" remote.1 ++
  row #"client-port:" (print_Z remote.2) ++
  rows #"Request Header:" (m_oRequestHeaders r) ++
  rows #"Cookie:" (m_oCookieMap r) ++
  #"</table></body></html>" ++ endl.

Definition HandleRequest (remote : bytes * Z) (request : HttpRequest) (response : HttpResponse) : ResponseCode * HttpResponse :=
  let body := page #"request-headers #:" #"formvalue-maps #:" remote request in
  (HTTPRESPONSECODE_200_OK, SetBody body (length body) response).
Definition privport_HandleRequest (remote : bytes * Z) (request : HttpRequest) (response : HttpResponse) :
    ResponseCode * HttpResponse :=
  let body := page #"number-request-headers:" #"number-form-value-maps:" remote request in
  (HTTPRESPONSECODE_200_OK, SetBody body (length body) response).
End TestHarness.

(** ** ehs_formtest: names that have logged in *)
Module FormTester.
Definition greeting (sName : bytes) : bytes :=
  #"Hi " ++ sName ++ lit "<p><a href=" ++ DQ :: lit "/" ++ DQ :: lit ">Back to login form</a></body></html>".

Fixpoint options (names : list bytes) : bytes :=
  match names with
  | [] => []
  | n :: names => #"<option>" ++ take 150 n ++ endl ++ options names
  end.

Definition login_form (names : list bytes) : bytes :=
  #"<p>Please log in</p>" ++ endl ++
  lit "<form action = " ++ DQ :: lit "/" ++ DQ :: lit " method=" ++ DQ :: lit "POST" ++ DQ :: lit ">" ++ endl ++
  lit "User name: <input type=" ++ DQ :: lit "text" ++ DQ :: lit " name=" ++ DQ :: lit "user" ++ DQ :: lit "><br />" ++ endl ++
  lit "<select name=" ++ DQ :: lit "existinguser" ++ DQ :: lit " width=" ++ DQ :: lit "20" ++ DQ :: lit ">" ++ endl ++
  options names ++
  lit "</select> <input type=" ++ DQ :: lit "submit" ++ DQ :: lit ">" ++ endl ++ #"</form>" ++ endl.

Definition header : bytes := #"<html><head><title>StringList</title></head>" ++ endl ++ #"<body>" ++ endl.

(** [FormValues] adds the field it is asked for. *)
Definition HandleRequest (request : HttpRequest) (response : HttpResponse) (m_oNameList : list bytes) :
    ResponseCode * HttpResponse * HttpRequest * list bytes :=
  let '(user, request) := FormValues request #"user" in
  let '(got, request) :=
    if bool_decide (fv_sBody user <> []) then (true, request)
    else let '(existing, request) := FormValues request #"existinguser" in
         (bool_decide (fv_sBody existing <> []), request) in
  if got then
    let '(existing, request) := FormValues request #"existinguser" in
    let '(user, request) := FormValues request #"user" in
    let sName := if bool_decide (fv_sBody user <> []) then fv_sBody user else fv_sBody existing in
    let body := header ++ greeting sName in
    (HTTPRESPONSECODE_200_OK, SetBody body (length body) response, request, m_oNameList ++ [sName])
  else
    let body := header ++ login_form m_oNameList ++ #"</body>" ++ endl ++ #"</html>" in
    (HTTPRESPONSECODE_200_OK, SetBody body (length body) response, request, m_oNameList).
End FormTester.

(** ** ehs_mirror *)
Module Mirror.
Definition HandleRequest (remote : bytes * Z) (secure : bool) (response : HttpResponse) : ResponseCode * HttpResponse :=
  let body := #"ehs_mirror: Secure - " ++ (if secure then #"yes" else #"no") ++ endl ++
    remote.1 ++ #":" ++ print_Z remote.2 ++ endl in
  (HTTPRESPONSECODE_200_OK, SetBody body (length body) response).
End Mirror.

(** ** ehs_chunktest: the body comes back *)
Module ChunkTest.
Definition HandleRequest (request : HttpRequest) (response : HttpResponse) : ResponseCode * HttpResponse :=
  (HTTPRESPONSECODE_200_OK,
   resp_SetHeader #"Content-Type" #"text/plain" (SetBody (m_sBody request) (length (m_sBody request)) response)).
End ChunkTest.

(** ** ehs_exception *)
Module TestException.
Definition page : bytes :=
  #"<html><head><title>TestException</title></head><body>" ++
  #"<h2>Regular output</h2>" ++
  #"Try the following:" ++
  lit "<ul><li><a href=" ++ DQ :: lit "/nonfatal" ++ DQ :: lit ">Show an exception an continue</a>" ++ LF ::
  lit "<li><a href=" ++ DQ :: lit "/fatal" ++ DQ :: lit ">Backtrace in console and terminate</a>" ++ LF ::
  lit "<li><a href=" ++ DQ :: lit "/runtime" ++ DQ :: lit ">Runtime error in console and terminate</a>" ++ LF ::
  lit "</ul></body></html>".

Definition HandleRequest (request : HttpRequest) (response : HttpResponse) : res (ResponseCode * HttpResponse) :=
  if bool_decide (m_sUri request = #"/runtime") then Throw (Runtime_error #"test exception")
  else if bool_decide (m_sUri request = #"/nonfatal") then Throw (Tracing_error #"regular")
  else if bool_decide (m_sUri request = #"/fatal") then Throw (Tracing_error #"fatal")
  else Ret (HTTPRESPONSECODE_200_OK, SetBody page (length page) response).

(** [body.insert(body.find("</body>"), text)] *)
Definition insert_trace (trace body : bytes) : res bytes :=
  let text := #"<br>" ++ LF :: lit "<pre>" ++ trace ++ lit "</pre><p><a href=" ++ DQ :: lit "/" ++ DQ :: lit ">Back to main page</a>" in
  match find #"</body>" body with
  | Some n => Ret (take n body ++ text ++ drop n body)
  | None => Throw Out_of_range
  end.

(** [where_] is the backtrace the exception carries, [t] the time, [stale] what [strftime] leaves
    of the buffer it cannot fill. *)
Definition HandleThreadException (where_ stale : bytes) (t : Z) (request : option HttpRequest) (ex : exn) : res (option HttpResponse) :=
  match ex with
  | Tracing_error msg =>
      if bool_decide (c_str msg <> #"fatal") then
        match request with
        | None => Throw (Undefined #"null request")
        | Some request =>
            let ret := Error_request stale t HTTPRESPONSECODE_500_INTERNALSERVERERROR request in
            match insert_trace where_ (gr_sBody (hr_base ret)) with
            | Ret body => Ret (Some (SetBody body (length body) ret))
            | Throw e => Throw e
            end
        end
      else Ret None
  | _ => Ret None
  end.
End TestException.

(** ** ehs_test: a file, line by line *)
Module Tester.

(** [ifstream]: the file, the position, and the two flags. *)
Record ifstream : Type := MkIfstream { if_data : bytes; if_pos : nat; if_eof : bool; if_fail : bool }.
Definition if_open (data : bytes) : ifstream := MkIfstream data 0 false false.

Definition not_newline (a : ascii) : bool := negb (bool_decide (a = LF)).

(** [getline(buf, n)]: at most [n - 1] characters up to the end of the line, which is taken
    too; [failbit] is set when nothing has been taken or the line goes on. *)
Definition getline (n : nat) (f : ifstream) : bytes * ifstream :=
  if if_eof f || if_fail f then ([], MkIfstream (if_data f) (if_pos f) (if_eof f) true)
  else
    let rest := drop (if_pos f) (if_data f) in
    let line := (span not_newline rest).1 in
    if decide (length line <= n - 1) then
      if bool_decide (line = rest) then
        (line, MkIfstream (if_data f) (if_pos f + length line) true (bool_decide (line = [])))
      else (line, MkIfstream (if_data f) (S (if_pos f + length line)) false false)
    else (take (n - 1) line, MkIfstream (if_data f) (if_pos f + (n - 1)) false true).

(** [seekg(0)] clears [eofbit], and does nothing else when the stream has failed. *)
Definition rewind (f : ifstream) : ifstream :=
  MkIfstream (if_data f) (if if_fail f then if_pos f else 0) false (if_fail f).

(** The line for the next request. *)
Definition next_line (f : ifstream) : bytes * ifstream :=
  let '(buf, f) := getline 4999 f in
  (c_str buf, if if_eof f then rewind f else f).

Definition HandleRequest (m_sRegisteredAs : bytes) (request : HttpRequest) (response : HttpResponse) (m_oInfile : ifstream) :
    ResponseCode * HttpResponse * ifstream :=
  let '(line, m_oInfile) := next_line m_oInfile in
  let sBody := line ++ #"<br>previous line: " ++ Cookies request #"ehs_test_cookie" in
  let response := SetBody sBody (length sBody) response in
  let oCP := sm_set #"value" (assign_string line) (sm_set #"name" (assign_string (#"ehs_test_cookie_" ++ m_sRegisteredAs)) []) in
  let '(response, _) := SetCookie oCP response in
  (HTTPRESPONSECODE_200_OK, response, m_oInfile).
End Tester.

(** ** The objects of ehs_test *)
Module TesterTree.
Definition srv : ehs_id := 0.
Definition a : ehs_id := 1.
Definition b : ehs_id := 2.
Definition aa : ehs_id := 3.
Definition ab : ehs_id := 4.

(** An object is made and registered with another. *)
Definition add (parent child : ehs_id) (path : bytes) (t : store) : res unit * store :=
  RegisterEHS parent child path (<[child := EHS_new None []]> t).

Definition andthen (f : store -> res unit * store) (x : res unit * store) : res unit * store :=
  match x with
  | (Ret _, t) => f t
  | (Throw e, t) => (Throw e, t)
  end.
Definition register : res unit * store :=
  andthen (add a ab #"b") (andthen (add a aa #"a") (andthen (add srv b #"b") (add srv a #"a" {[srv := EHS_new None []]}))).

(** At the end of the block the objects go in the opposite order. *)
Definition unregister {W} {E : Env W} {H : Handlers W} {B : Boost} (stale : bytes) (reread : bytes -> bytes -> nat -> nat -> bytes)
    (t : store) (w : W) : res unit * store * W :=
  foldl (fun x id => match x with (Ret _, t, w) => EHS_delete stale reread id t w | _ => x end) (Ret tt, t, w) [ab; aa; b; a].
End TesterTree.

(** ** The [main] functions *)
Module Mains.

(** common.h *)
Fixpoint rfind (a : ascii) (s : bytes) : option nat :=
  match s with
  | [] => None
  | b :: s => match rfind a s with Some n => Some (S n) | None => if decide (b = a) then Some 0 else None end
  end.
Definition basename (s : bytes) : bytes :=
  match rfind "/"%char s with Some pos => drop pos s | None => s end.

(** What the loop of [main] does between two looks at the keyboard. *)
Inductive pump : Type :=
| Sleeps        (* usleep *)
| Handles.      (* srv.HandleData(1000) *)

Definition text (k v : bytes) (p : EHSServerParameters) : EHSServerParameters := sm_set k (assign_cstr v) p.
Definition number (k : bytes) (v : Z) (p : EHSServerParameters) : EHSServerParameters := sm_set k (assign_int v) p.

(** [None]: the usage is printed and nothing is started. *)
Definition start : Type := option (EHSServerParameters * pump).

(** ehs_chunktest; ehs_testharness, ehs_privport and ehs_basicauth are started in the same way. *)
Definition chunktest_main (argv : list bytes) : start :=
  match argv with
  | [_; port] => Some (text #"mode" #"threadpool" (text #"port" port []), Sleeps)
  | _ => None
  end.

Definition testharness_main : list bytes -> start := chunktest_main.
Definition privport_main : list bytes -> start := chunktest_main.

Definition basicauth_main : list bytes -> start := chunktest_main.

Definition uploader_main (argv : list bytes) : start :=
  match argv with
  | _ :: port :: _ =>
      Some (number #"maxrequestsize" (1024 * 1024 * 10) (text #"mode" #"threadpool" (text #"port" port [])), Sleeps)
  | _ => None
  end.

Definition exception_main (argv : list bytes) : start :=
  match argv with
  | [_; port] => Some (number #"threadcount" 10 (text #"mode" #"threadpool" (text #"port" port [])), Sleeps)
  | _ => None
  end.

Definition formtest_main (argv : list bytes) : start :=
  match argv with
  | _ :: port :: rest =>
      let oSP := text #"mode" #"threadpool" (text #"port" port []) in
      match rest with
      | [] => Some (oSP, Sleeps)
      | [certificate; passphrase] =>
          Some (text #"passphrase" passphrase (text #"certificate" certificate (number #"https" 1 oSP)), Sleeps)
      | _ => None
      end
  | _ => None
  end.

Definition https_main (argv : list bytes) : start :=
  match argv with
  | [_; port; certificate; passphrase] =>
      Some (text #"mode" #"threadpool" (text #"passphrase" passphrase (text #"certificate" certificate
        (number #"https" 1 (text #"port" port [])))), Sleeps)
  | _ => None
  end.

(** The plain server and, with five arguments, the one for HTTPS. *)
Definition mirror_main (argv : list bytes) : option (EHSServerParameters * option EHSServerParameters) :=
  match argv with
  | _ :: port :: rest =>
      let oSP := text #"mode" #"threadpool" (text #"port" port []) in
      match rest with
      | [] => Some (oSP, None)
      | [sslport; certificate; passphrase] =>
          Some (oSP, Some (text #"passphrase" passphrase (text #"certificate" certificate
            (text #"mode" #"threadpool" (number #"https" 1 (text #"port" sslport oSP))))))
      | _ => None
      end
  | _ => None
  end.

(** The test for five arguments comes after the usage has been printed for more than three. *)
Definition simple_main (argv : list bytes) : start :=
  let argc := length argv in
  match argv with
  | _ :: port :: rest =>
      if negb (bool_decide (argc = 2)) && negb (bool_decide (argc = 3)) then None
      else
        let oSP := text #"port" port [] in
        let oSP :=
          match rest with
          | kind :: _ =>
              let oSP := text #"mode" #"threadpool" oSP in
              let oSP := if bool_decide (c_str kind = #"pool")
                         then number #"threadcount" 200 (text #"mode" #"threadpool" oSP) else oSP in
              let oSP := if bool_decide (c_str kind = #"single") then text #"mode" #"singlethreaded" oSP else oSP in
              if bool_decide (c_str kind = #"perrequest") then text #"mode" #"onethreadperrequest" oSP else oSP
          | [] => text #"mode" #"singlethreaded" oSP
          end in
        let oSP :=
          match argv with
          | [_; _; _; certificate; passphrase] =>
              text #"passphrase" passphrase (text #"certificate" certificate (number #"https" 1 oSP))
          | _ => oSP
          end in
        Some (oSP, if bool_decide (2 < argc) then Sleeps else Handles)
  | _ => None
  end.

Definition test_main (argv : list bytes) : start :=
  match argv with
  | _ :: mode :: port :: _ :: rest =>
      let nMode := atoi mode in
      let nThreadCount := match rest with _ :: n :: _ => atoi n | _ => 1%Z end in
      let oSP := text #"port" port [] in
      let oSP := match rest with _ :: _ :: _ :: _ => number #"norouterequest" 1 oSP | _ => oSP end in
      let pump := if (nMode =? 1)%Z then Handles else Sleeps in
      if (nMode =? 1)%Z then Some (text #"mode" #"singlethreaded" oSP, pump)
      else if (nMode =? 2)%Z then Some (number #"threadcount" nThreadCount (text #"mode" #"threadpool" oSP), pump)
      else if (nMode =? 3)%Z then Some (text #"mode" #"onethreadperrequest" oSP, pump)
      else None
  | _ => None
  end.

(** The gateway. *)
Definition wsgate_main (argv : list bytes) : start :=
  match argv with
  | [_; port] => Some (text #"mode" #"onethreadperrequest" (text #"port" port []), Handles)
  | _ => None
  end.
End Mains.

Example basename_keeps_the_slash : Mains.basename #"/usr/bin/ehs_simple" = #"/ehs_simple".
Proof. reflexivity. Qed.

(** ** The file of ehs_test *)
Section lines.
Import Tester.

(** What the next [k] requests get. *)
Fixpoint serves (k : nat) (f : ifstream) : list bytes * ifstream :=
  match k with
  | O => ([], f)
  | S k => let '(l, f) := next_line f in let '(ls, f) := serves k f in (l :: ls, f)
  end.

Definition plain_line (l : bytes) : Prop := Forall (fun a => a <> LF /\ a <> NUL) l /\ length l <= 4998.
Definition lines_text (ls : list bytes) : bytes := concat ((fun l => l ++ [LF]) <$> ls).

Lemma plain_span l r : plain_line l -> span not_newline (l ++ LF :: r) = (l, LF :: r) /\ span not_newline l = (l, []).
Proof.
  intros [Hl _]. assert (Forall (fun a => not_newline a = true) l) as Hn.
  { eapply Forall_impl; [exact Hl|]. intros a [Ha _]. unfold not_newline. by rewrite bool_decide_eq_false_2. }
  split; [by rewrite span_all by (try done; by intros a [= <-])|].
  pose proof (span_all not_newline l [] Hn) as H. rewrite app_nil_r in H. by apply H.
Qed.

Lemma plain_c_str l : plain_line l -> c_str l = l.
Proof. intros [Hl _]. apply c_str_id. eapply Forall_impl; [exact Hl|]. by intros a []. Qed.

Lemma next_line_terminated pre l post :
  plain_line l ->
  next_line (MkIfstream (pre ++ l ++ LF :: post) (length pre) false false) =
    (l, MkIfstream (pre ++ l ++ LF :: post) (length (pre ++ l ++ [LF])) false false).
Proof.
  intros Hl. unfold next_line, getline. cbn [if_eof if_fail orb if_pos if_data]. rewrite drop_app_length.
  rewrite (proj1 (plain_span l post Hl)). cbn [fst]. rewrite decide_True by (destruct Hl; lia).
  rewrite bool_decide_eq_false_2 by (intros H; apply (f_equal length) in H; rewrite length_app in H; cbn in H; lia).
  rewrite (plain_c_str l Hl). cbn [if_eof]. do 2 f_equal. rewrite !length_app. cbn. lia.
Qed.

Lemma next_line_unterminated pre l :
  plain_line l -> l <> [] ->
  next_line (MkIfstream (pre ++ l) (length pre) false false) = (l, if_open (pre ++ l)).
Proof.
  intros Hl Hne. unfold next_line, getline. cbn [if_eof if_fail orb if_pos if_data]. rewrite drop_app_length.
  rewrite (proj2 (plain_span l [] Hl)). cbn [fst]. rewrite decide_True by (destruct Hl; lia).
  rewrite bool_decide_eq_true_2 by done. rewrite (plain_c_str l Hl). cbn [if_eof]. unfold rewind. cbn [if_fail if_data if_pos].
  by rewrite bool_decide_eq_false_2.
Qed.

Lemma serves_failed k f : if_fail f = true -> (serves k f).1 = replicate k [].
Proof.
  revert f. induction k as [|k IH]; intros f Hf; [done|]. cbn [serves]. unfold next_line, getline. rewrite Hf, orb_true_r.
  cbn [if_eof]. set (f1 := if if_eof f then _ else _). assert (if_fail f1 = true) as H1 by (unfold f1; by destruct (if_eof f)).
  specialize (IH f1 H1). destruct (serves k f1). cbn in *. by rewrite IH.
Qed.

Lemma serves_end k data : (serves k (MkIfstream data (length data) false false)).1 = replicate k [].
Proof.
  destruct k as [|k]; [done|]. cbn [serves]. unfold next_line, getline. cbn [if_eof if_fail orb if_pos if_data].
  rewrite drop_all. cbn [span fst length]. rewrite decide_True by lia. rewrite !bool_decide_eq_true_2 by done. cbn [if_eof rewind]. match goal with |- context [serves k ?f] => pose proof (serves_failed k f eq_refl) as H; destruct (serves k f) end.
  cbn in *. by rewrite H.
Qed.

Lemma serves_lines ls pre post k :
  Forall plain_line ls ->
  serves (length ls + k) (MkIfstream (pre ++ lines_text ls ++ post) (length pre) false false) =
    let '(r, f) := serves k (MkIfstream (pre ++ lines_text ls ++ post) (length (pre ++ lines_text ls)) false false) in (ls ++ r, f).
Proof.
  intros Hls. revert pre. induction Hls as [|l ls Hl Hls IH]; intros pre.
  - cbn. rewrite app_nil_r. by destruct (serves k _).
  - cbn [length Nat.add serves]. unfold lines_text. cbn [fmap list_fmap concat]. fold (lines_text ls).
    assert (pre ++ ((l ++ [LF]) ++ lines_text ls) ++ post = pre ++ l ++ LF :: (lines_text ls ++ post)) as Hd by (rewrite <- !app_assoc; reflexivity).
    rewrite Hd, next_line_terminated by done. specialize (IH (pre ++ l ++ [LF])).
    assert ((pre ++ l ++ [LF]) ++ lines_text ls ++ post = pre ++ l ++ LF :: (lines_text ls ++ post)) as Hd2 by (rewrite <- !app_assoc; reflexivity).
    rewrite Hd2 in IH. rewrite IH.
    assert ((pre ++ l ++ [LF]) ++ lines_text ls = pre ++ (l ++ [LF]) ++ lines_text ls) as -> by (rewrite <- !app_assoc; reflexivity).
    clear IH. by destruct (serves k _).
Qed.

(** The requests to ehs_test get the lines of its file, one after the other.  When the last
    line has no newline they start again from the first line; when it has one, the stream has
    failed at the end and every further request gets an empty line, for ever. *)
Theorem tester_lines ls last k :
  Forall plain_line ls -> plain_line last -> last <> [] ->
  (serves (length ls + k) (if_open (lines_text ls))).1 = ls ++ replicate k [] /\
  serves (S (length ls)) (if_open (lines_text ls ++ last)) = (ls ++ [last], if_open (lines_text ls ++ last)).
Proof.
  intros Hls Hlast Hne. split.
  - pose proof (serves_lines ls [] [] k Hls) as H. cbn [app length] in H. rewrite app_nil_r in H. unfold if_open. rewrite H.
    pose proof (serves_end k (lines_text ls)) as He. destruct (serves k _). cbn in *. by rewrite He.
  - pose proof (serves_lines ls [] last 1 Hls) as H. cbn [app length] in H. rewrite <- Nat.add_1_r. unfold if_open at 1. rewrite H.
    cbn [serves]. by rewrite next_line_unterminated.
Qed.
End lines.

Definition sample_lines : list bytes := [ #"first"; #"second" ].
Lemma sample_lines_plain : Forall plain_line sample_lines /\ plain_line #"last".
Proof. by repeat constructor. Qed.

Lemma tester_lines_witness :
  (serves 4 (Tester.if_open (lines_text sample_lines))).1 = [ #"first"; #"second"; []; [] ] /\
  serves 3 (Tester.if_open (lines_text sample_lines ++ #"last")) =
    ([ #"first"; #"second"; #"last" ], Tester.if_open (lines_text sample_lines ++ #"last")).
Proof. destruct sample_lines_plain as [H1 H2]. exact (tester_lines sample_lines #"last" 2 H1 H2 ltac:(done)). Defined.

(** ** The tree of ehs_test *)
Section tester_tree.
Context {W : Type} {E : Env W} {H : Handlers W} {B : Boost} {L : BoostLaws B}.
Variables (stale : bytes) (reread : bytes -> bytes -> nat -> nat -> bytes).
Hypothesis Hreread : keeps_match reread.

(** The paths under which an object is reached. *)
Definition tester_paths : list (list bytes * ehs_id) :=
  [([], TesterTree.srv); ([ #"a" ], TesterTree.a); ([ #"b" ], TesterTree.b); ([ #"a"; #"a" ], TesterTree.aa); ([ #"a"; #"b" ], TesterTree.ab)].

Lemma tester_walk ps id : (ps, id) ∈ tester_paths -> walk TesterTree.register.2 TesterTree.srv ps = Some id /\ Forall name_ok ps.
Proof using.
  intros Hp. assert (Forall (fun x => walk TesterTree.register.2 TesterTree.srv x.1 = Some x.2 /\ Forall name_ok x.1) tester_paths) as Hall.
  { by repeat (constructor; [split; [by vm_compute|by repeat constructor]|]). }
  exact (proj1 (Forall_forall _ _) Hall _ Hp).
Qed.

(** Nothing is registered twice; a page below one of the paths is served by the object of the
    path, which gets the name of the page as its URI; at the end the objects have left the
    tree of the server, which is as it was. *)
Theorem tester_objects ps id page request (w : W) :
  (ps, id) ∈ tester_paths -> next_part page = None -> m_sUri request = render_path ps page ->
  TesterTree.register.1 = Ret tt /\
  Route stale reread (length ps + 1) TesterTree.srv request TesterTree.register.2 w =
    handle_here stale (S (size TesterTree.register.2)) id (request <| m_sUri := page |>) TesterTree.register.2 w /\
  TesterTree.unregister stale reread TesterTree.register.2 w = (Ret tt, {[TesterTree.srv := EHS_new None []]}, w).
Proof using Hreread L.
  intros Hp Hn Hu. destruct (tester_walk ps id Hp) as [Hw Hok]. split_and!; [by vm_compute| |by vm_compute].
  assert (parts_read reread [] ps page = ps) as Hparts by (apply parts_kept; [exact Hreread|by left|done]).
  rewrite (Route_walk stale reread ps [] page 1 _ id); [|by left|done| | |done].
  2: { rewrite Hparts. eapply Forall_impl; [exact Hok|by intros q [? _]]. }
  2: { by rewrite Hparts. }
  assert (left_over ps [] page = page) as -> by by destruct ps.
  apply Route_stop; [|by left]. clear - Hp. unfold tester_paths in Hp. set_unfold in Hp.
  destruct_or! Hp; try done; injection Hp as -> ->; by vm_compute; eexists.
Qed.
End tester_tree.

Definition tester_page : HttpRequest := HttpRequest_init 1 1 [] <| m_sUri := #"a/b/page" |>.
Lemma tester_objects_witness :
  ([ #"a"; #"b" ], TesterTree.ab) ∈ tester_paths /\ next_part #"page" = None /\
  Route (E := script_env) (H := no_handlers) (B := perl_boost) [] reread_shared 3 TesterTree.srv tester_page TesterTree.register.2 example_world =
    handle_here (H := no_handlers) [] 6 TesterTree.ab (tester_page <| m_sUri := #"page" |>) TesterTree.register.2 example_world.
Proof.
  assert (([ #"a"; #"b" ], TesterTree.ab) ∈ tester_paths) as Hp by (unfold tester_paths; set_solver).
  split_and!; [exact Hp|by vm_compute|].
  exact (proj1 (proj2 (tester_objects (L := perl_boost_laws) [] reread_shared (fun _ _ _ _ => eq_refl) _ _ #"page" tester_page
    example_world Hp eq_refl eq_refl))).
Defined.

(** ** The application of ehs_exception *)
Section exceptions.
Context {W : Type} {E : Env W} {B : Boost}.
Variables (beyond stale where_ : bytes) (reread : bytes -> bytes -> nat -> nat -> bytes).

(** What its object overrides. *)
Definition exception_handlers : Handlers W := {|
  HandleRequest_override _ := Some (fun request response w => (TestException.HandleRequest request response, w));
  ThreadInitHandler_override _ := None;
  ThreadExitHandler_override _ := None;
  HandleThreadException_override _ := Some (fun _ request ex w =>
    (match TestException.HandleThreadException where_ stale (time w) request ex with
     | Ret (Some h) => Some (Http h)
     | _ => None
     end, w))
|}.
Abbreviation exception_app top := (tree_app (H := exception_handlers) stale reread top false).

Definition traced_body : bytes :=
  #"<html><head><title>500 Internal Server Error</title><body>500 Internal Server Error<br>" ++ LF :: lit "<pre>" ++ where_ ++
  lit "</pre><p><a href=" ++ DQ :: lit "/" ++ DQ :: lit ">Back to main page</a>" ++ lit "</body></html>".

(** The error page has the place the backtrace goes to. *)
Lemma insert_trace_error :
  TestException.insert_trace where_ (error_page HTTPRESPONSECODE_500_INTERNALSERVERERROR) = Ret traced_body.
Proof using.
  unfold TestException.insert_trace, traced_body.
  assert (find #"</body>" (error_page HTTPRESPONSECODE_500_INTERNALSERVERERROR) = Some 83) as -> by (vm_compute; reflexivity).
  assert (take 83 (error_page HTTPRESPONSECODE_500_INTERNALSERVERERROR) =
    #"<html><head><title>500 Internal Server Error</title><body>500 Internal Server Error") as -> by (vm_compute; reflexivity).
  assert (drop 83 (error_page HTTPRESPONSECODE_500_INTERNALSERVERERROR) = #"</body></html>") as -> by (vm_compute; reflexivity).
  match goal with |- context [lit "<pre>" ++ where_ ++ ?x] =>
    change (#"<br>" ++ LF :: lit "<pre>" ++ where_ ++ x) with ((#"<br>" ++ LF :: lit "<pre>") ++ where_ ++ x) end.
  rewrite <- !app_assoc. vm_compute. reflexivity.
Qed.

(** ehs_exception.  The request for /nonfatal ends in an exception that is answered on its
    connection with status 500 and the backtrace, and the server goes on; /fatal and /runtime
    end in exceptions that are not answered: the server is told to terminate, the thread
    leaves its loop, and nothing is sent. *)
Theorem exception_outcome tid top request response ex s (x : store * W) c :
  TestException.HandleRequest request response = Throw ex -> (tid <> 0)%Z ->
  m_oCurrentRequest s !! tid = Some request ->
  find_conn (m_poSourceEHSConnection request) (m_oEHSConnectionList s) = Some c ->
  let '(o, s', x') := thread_exception (A := exception_app top) beyond tid ex s x in
  o = Ret tt /\ m_oCurrentRequest s' !! tid = None /\
  if bool_decide (m_sUri request = #"/nonfatal") then
    m_nServerRunningStatus s' = m_nServerRunningStatus s /\
    exists h c', m_nResponseCode h = HTTPRESPONSECODE_500_INTERNALSERVERERROR /\ gr_sBody (hr_base h) = traced_body /\
      conn_AddResponse false beyond (Http h) c x = (c', x') /\
      m_oEHSConnectionList s' = update_conn (m_poSourceEHSConnection request) (fun _ => c') (m_oEHSConnectionList s)
  else
    m_nServerRunningStatus s' = SERVERRUNNING_SHOULDTERMINATE /\ keep_running tid s' = false /\
    m_oEHSConnectionList s' = m_oEHSConnectionList s /\ x' = x.
Proof using.
  intros Hh Htid Hcur Hc. unfold thread_exception. cbn [HandleThreadException tree_app HandleThreadException_override exception_handlers from_option id].
  rewrite Hcur. unfold TestException.HandleRequest in Hh. destruct x as [t w]. cbn [fst snd].
  revert Hh. case_bool_decide as Hrun; [|case_bool_decide as Hnon; [|case_bool_decide as Hfat; [|done]]]; intros [= <-].
  - rewrite (bool_decide_eq_false_2 (m_sUri request = _)) by (rewrite Hrun; done). cbn.
    split_and!; try done; [by rewrite lookup_delete_eq|]. unfold keep_running. cbn. by rewrite !bool_decide_eq_false_2.
  - unfold TestException.HandleThreadException. rewrite bool_decide_eq_true_2 by done.
    assert (gr_sBody (hr_base (Error_request stale (time w) HTTPRESPONSECODE_500_INTERNALSERVERERROR request)) =
      error_page HTTPRESPONSECODE_500_INTERNALSERVERERROR) as -> by (vm_compute; reflexivity).
    rewrite insert_trace_error. set (h := SetBody _ _ _). unfold srv_AddResponse.
    assert (m_poEHSConnection (response_base (Http h)) = Some (m_poSourceEHSConnection request)) as -> by done. rewrite Hc.
    cbn [has_RawSocketHandler tree_app]. destruct (conn_AddResponse false beyond (Http h) c (t, w)) as [c' x'] eqn:Ea.
    split_and!; [done|by cbn; rewrite lookup_delete_eq|done|]. exists h, c'. split_and!; try done.
    unfold h. cbn [hr_base SetBody resp_SetHeader]. cbn. by rewrite firstn_all.
  - unfold TestException.HandleThreadException. rewrite bool_decide_eq_false_2 by (intros Hn; by apply Hn). cbn.
    split_and!; try done; [by rewrite lookup_delete_eq|]. unfold keep_running. cbn. by rewrite !bool_decide_eq_false_2.
Qed.
End exceptions.

Definition failing_request : HttpRequest := HttpRequest_init 1 1 [] <| m_sUri := #"/nonfatal" |>.
Definition failing_server : EHSServer := example_server <| m_oCurrentRequest := {[1%Z := failing_request]} |>.

Lemma exception_outcome_witness :
  exists s' x', thread_exception (E := store_env (E := script_env)) (A := tree_app (E := script_env) (H := exception_handlers (E := script_env) [] #"trace")
      (B := perl_boost) [] (fun _ _ _ _ => []) 1 false) [] 1%Z (Tracing_error #"regular") failing_server (∅, example_world) = (Ret tt, s', x') /\
    m_nServerRunningStatus s' = SERVERRUNNING_SINGLETHREADED.
Proof.
  pose proof (exception_outcome (E := script_env) (B := perl_boost) [] [] #"trace" (fun _ _ _ _ => []) 1%Z 1 failing_request
    (HttpResponse_new [] 0 1 None) (Tracing_error #"regular") failing_server (∅, example_world) idle_conn) as H.
  specialize (H eq_refl ltac:(done) ltac:(unfold failing_server; cbn; by rewrite lookup_singleton_eq) eq_refl).
  destruct (thread_exception _ _ _ _ _) as [[o s'] x']. destruct H as (-> & _ & H). cbn in H. destruct H as [H _].
  exists s', x'. by split.
Defined.

(** ** Who handles the data *)
Section mains.
Context {W : Type} {E : Env W}.
Import Mains.

Lemma start_threads_status n s (w : W) s' w' :
  start_threads n s w = (Ret tt, s', w') -> m_nServerRunningStatus s' = m_nServerRunningStatus s.
Proof using.
  revert s w. induction n as [|n IH]; intros s w; cbn [start_threads]; [by intros [= <- _]|].
  destruct (pthread_create w) as [[t|] w1]; [|done]. intros H. by rewrite (IH _ _ H).
Qed.

Lemma start_mode_single s (w : W) s' w' :
  start_mode s w = (Ret tt, s', w') ->
  m_nServerRunningStatus s' = SERVERRUNNING_SINGLETHREADED <-> sDatum (param #"mode" s) = #"singlethreaded".
Proof using.
  unfold start_mode, datum_eq. generalize (param #"mode" s) as m. intros m.
  case_bool_decide as H1; [|case_bool_decide as H2; [|case_bool_decide as H3; [|done]]].
  - intros H%start_threads_status. rewrite H, H1. by split.
  - destruct (pthread_create w) as [[t|] w1]; [|done]. intros [= <- _]. rewrite H2. by split.
  - intros [= <- _]. rewrite H3. by split.
Qed.

(** ehs_simple: the mode "single" is started without a loop that handles its data, so that no
    client is ever served; the other modes are served, by the loop or by threads.  The
    parameters for HTTPS are never set, although the code has a place for it. *)
Theorem simple_modes argv k s (w : W) s' w' :
  simple_main argv = Some (m_oParams s, k) -> start_mode s w = (Ret tt, s', w') ->
  (m_nServerRunningStatus s' = SERVERRUNNING_SINGLETHREADED /\ k = Sleeps <->
     exists prog port kind, argv = [prog; port; kind] /\ c_str kind = #"single") /\
  sm_find #"https" (m_oParams s) = None.
Proof using.
  intros Hm Hs. rewrite (start_mode_single s w s' w' Hs). clear Hs. unfold param. revert Hm.
  destruct argv as [|prog [|port [|kind [|x rest]]]]; try done; unfold simple_main; cbn [length].
  - intros [= <- <-]. split; [|done]. split; [by intros [_ ?]|by intros (? & ? & ? & ? & _)].
  - repeat case_bool_decide; try congruence; try lia; intros [= <- <-]; (split; [|done]);
      (split; [intros [Hmode _]; try done; by do 3 eexists|]);
      intros (? & ? & ? & [= <- <- <-] & Hk);
      first [by split | congruence | match goal with H : c_str kind = _ |- _ => by rewrite H in Hk end].
Qed.

(** The gateway's loop handles the data of a server that handles its data itself, in which
    [EHS::HandleData] returns at once: the loop never rests. *)
Theorem gateway_spins argv k s (w : W) s' w' {B : Boost} {H : Handlers W} beyond stale reread rnds ms tid this t e :
  wsgate_main argv = Some (m_oParams s, k) -> start_mode s w = (Ret tt, s', w') ->
  t !! this = Some e -> m_poParent e = None -> m_poEHSServer e = Some s' ->
  k = Handles /\ ehs_HandleData beyond stale reread rnds ms tid this t w' = Some (Ret true, t, w').
Proof using.
  intros Hm Hs Ht Hp He. pose proof (start_mode_single s w s' w' Hs) as Hmode. clear Hs. unfold param in Hmode.
  destruct argv as [|prog [|port [|x rest]]]; try done. injection Hm as Hpar <-. split; [done|]. rewrite <- Hpar in Hmode.
  unfold ehs_HandleData. cbn [top_of]. rewrite Ht, Hp, He. rewrite Ht, He. rewrite bool_decide_eq_false_2; [done|].
  unfold RunningStatus. rewrite Hmode. by vm_compute.
Qed.
End mains.
