(* ===== verification/BackTrace.v ===== *)
(** * Exceptions with a backtrace (samples/btexception.cpp, samples/btexception.h)

    [tracing::exception] records the addresses of the stack when it is made; [where] turns
    them into text with the help of libbfd or of libdw, or not at all, whichever the build
    has.  The libraries are the classes [Bfd] and [Dwfl].  The text is kept in a string that is
    static in [trace], and [where] returns a pointer into it. *)
From S2P Require Import Prelude.

Local Open Scope Z_scope.

(** ** Text *)
Definition endl : bytes := [LF].
(** [std::setw(n)] with [std::setfill(c)], the text to the right. *)
Definition setw (n : nat) (c : ascii) (s : bytes) : bytes := replicate (n - length s) c ++ s.

(** [std::hex << std::internal << std::setfill('0') << std::setw(10)] and a pointer: the zeros
    come after "0x", which the null pointer does not have. *)
Definition print_pointer (p : Z) : bytes :=
  if p =? 0 then setw 10 "0"%char #"0" else #"0x" ++ setw 8 "0"%char (print_nat_base 16 p).

(** The beginning of the line for frame [k], and the line without information. *)
Definition frame_head (k : nat) (addr : Z) : bytes := setw 3 " "%char (print_Z (Z.of_nat k)) ++ #" " ++ print_pointer addr.
Definition plain_frame (k : nat) (addr : Z) : bytes := frame_head k addr ++ #" [no debug info]" ++ endl.

(** [for (int i = skip; i < frames; i++)] over the addresses that are left. *)
Fixpoint frame_lines (k : nat) (addrs : list Z) : bytes :=
  match addrs with
  | [] => []
  | a :: addrs => plain_frame k a ++ frame_lines (S k) addrs
  end.

(** ** Tracers

    [tbuf] is an array of [maxframes] addresses, of which [frames] are filled.  [backtrace] fills an
    array and returns the number. *)
Record tracer : Type := MkTracer { maxframes : nat; frames : nat; tbuf : list Z }.

Class Backtrace (W : Type) : Type := {
  backtrace : list Z -> W -> nat * list Z * W;
  new_buffer : nat -> W -> list Z;             (* what [new void*[n]] leaves in the array *)
  demangle : bytes -> W -> option bytes        (* bfd_demangle, cplus_demangle *)
}.

Definition tracer_new {W} {BT : Backtrace W} (_maxframes : nat) (w : W) : tracer * W :=
  let '(n, tbuf, w) := backtrace (new_buffer _maxframes w) w in (MkTracer _maxframes n tbuf, w).
(** The copy constructor. *)
Definition tracer_copy (other : tracer) : tracer := MkTracer (maxframes other) (frames other) (take (maxframes other) (tbuf other)).
Definition traced (skip : nat) (t : tracer) : list Z := drop skip (take (frames t) (tbuf t)).

(** ** libbfd *)
Module Bfd.

Record asection : Type := MkSection { sec_alloc : bool; sec_vma : Z; sec_size : Z }.

(** What is known of an address: the file, the function and the line. *)
Record place : Type := MkPlace { filename : option bytes; functionname : option bytes; line : Z }.

Class Bfd (W : Type) : Type := {
  bfd_init : W -> W;
  bfd_set_default_target : bytes -> W -> bool * W;
  bfd_openr : bytes -> W -> option nat * W;
  bfd_check_archive : nat -> W -> bool * W;          (* bfd_check_format(abfd, bfd_archive) *)
  bfd_check_format_matches : nat -> W -> bool * W;   (* with bfd_object *)
  bfd_has_syms : nat -> W -> bool;                   (* bfd_get_file_flags(abfd) & HAS_SYMS *)
  bfd_read_minisymbols : nat -> bool -> W -> Z * option nat * W;
  bfd_sections : nat -> W -> list asection;          (* in the order of bfd_map_over_sections *)
  bfd_find_nearest_line : nat -> asection -> option nat -> Z -> W -> option place * W;
  bfd_find_inliner_info : nat -> W -> option place * W;
  bfd_close : nat -> W -> W;
  bfd_free_syms : nat -> W -> W
}.

(** The static variables of the file and of [init_backtrace], and whether [exit_backtrace] is
    registered. *)
Record statics : Type := MkStatics { init : bool; sret : bool; abfd : option nat; syms : option nat; at_exit : bool }.
#[export] Instance eta_statics : Eta statics := fun s => MkStatics (init s) (sret s) (abfd s) (syms s) (at_exit s).
Definition statics_initial : statics := MkStatics true false None None false.

Section bfd.
Context {W : Type} {BT : Backtrace W} {BF : Bfd W}.

Definition fetchsyms (b : nat) (st : statics) (w : W) : statics * W :=
  if bfd_has_syms b w then
    let '(symcount, s, w) := bfd_read_minisymbols b false w in
    let st := st <| syms := s |> in
    if symcount =? 0 then let '(_, s, w) := bfd_read_minisymbols b true w in (st <| syms := s |>, w) else (st, w)
  else (st, w).

Definition exit_backtrace (st : statics) (w : W) : statics * W :=
  let w := match syms st with Some s => bfd_free_syms s w | None => w end in
  let w := match abfd st with Some b => bfd_close b w | None => w end in
  (st <| abfd := None |> <| syms := None |>, w).

Definition init_backtrace (st : statics) (w : W) : bool * statics * W :=
  if init st then
    let st := st <| init := false |> in
    let '(ok, w) := bfd_set_default_target #"i686-redhat-linux-gnu" (bfd_init w) in
    if negb ok then (false, st, w)
    else
      let '(b, w) := bfd_openr #"/proc/self/exe" w in
      let st := st <| abfd := b |> in
      match b with
      | None => (false, st, w)
      | Some b =>
          let '(archive, w) := bfd_check_archive b w in
          if archive : bool then (false, st, w)
          else
            let '(matches, w) := bfd_check_format_matches b w in
            if negb matches then (false, st, w)
            else
              let '(st, w) := fetchsyms b st w in
              (true, st <| at_exit := true |> <| sret := true |>, w)
      end
  else (sret st, st, w).

(** The callback for one section: [found] is the state. *)
Definition findit (b : nat) (symbols : option nat) (pc : Z) (x : option place * W) (section : asection) : option place * W :=
  let '(found, w) := x in
  match found with
  | Some p => (Some p, w)
  | None =>
      if negb (sec_alloc section) then (None, w)
      else if pc <? sec_vma section then (None, w)
      else if u64 (sec_vma section + sec_size section) <=? pc then (None, w)
      else bfd_find_nearest_line b section symbols (pc - sec_vma section) w
  end.
Definition bfd_map_over_sections (b : nat) (symbols : option nat) (pc : Z) (w : W) : option place * W :=
  foldl (findit b symbols pc) (None, w) (bfd_sections b w).

(** One place of the chain of inlined functions. *)
Definition function_text (p : place) (w : W) : bytes :=
  match functionname p with
  | None => #"??"
  | Some name => if bool_decide (c_str name = []) then #"??" else c_str (default name (demangle (c_str name) w))
  end.
Definition place_text (p : place) (w : W) : bytes :=
  function_text p w ++ #" [" ++
  match filename p with
  | Some f => c_str f ++ #", line " ++ print_Z (line p)
  | None => #"no debug info"
  end ++ #"]" ++ endl.

Fixpoint inlined (fuel : nat) (b : nat) (p : place) (w : W) : option (bytes * W) :=
  match fuel with
  | O => None
  | S fuel =>
      let text := place_text p w in
      let '(found, w) := bfd_find_inliner_info b w in
      match found with
      | None => Some (text, w)
      | Some p => '(more, w) ← inlined fuel b p w; Some (text ++ #"    inlined at " ++ more, w)
      end
  end.

Definition frame (fuel : nat) (b : nat) (symbols : option nat) (k : nat) (addr : Z) (w : W) : option (bytes * W) :=
  let '(found, w) := bfd_map_over_sections b symbols addr w in
  let head := frame_head k addr ++ #" " in
  match found with
  | None => Some (head ++ #"[no debug info]" ++ endl, w)
  | Some p => '(text, w) ← inlined fuel b p w; Some (head ++ text, w)
  end.

Fixpoint frames_text (fuel : nat) (b : nat) (symbols : option nat) (k : nat) (addrs : list Z) (w : W) : option (bytes * W) :=
  match addrs with
  | [] => Some ([], w)
  | a :: addrs =>
      '(text, w) ← frame fuel b symbols k a w;
      '(more, w) ← frames_text fuel b symbols (S k) addrs w;
      Some (text ++ more, w)
  end.

(** [bfd_tracer::trace]; the result is what [ret] holds then. *)
Definition bfd_trace (fuel skip : nat) (t : tracer) (st : statics) (w : W) : option (bytes * statics * W) :=
  let '(ok, st, w) := init_backtrace st w in
  match ok, abfd st with
  | true, Some b => '(ret, w) ← frames_text fuel b (syms st) 0 (traced skip t) w; Some (ret, st, w)
  | _, _ => Some (frame_lines 0 (traced skip t), st, w)
  end.
End bfd.
End Bfd.

(** ** libdw *)
Module Dwarf.

Inductive dw_tag : Type :=
| DW_TAG_subprogram
| DW_TAG_inlined_subroutine
| DW_TAG_other.

(** A scope with the attributes that are asked for, as far as they are there. *)
Record Dwarf_Die : Type := MkDie {
  dwarf_tag : dw_tag;
  dwarf_diename : option bytes;
  call_file : option Z;
  call_line : option Z;
  call_column : option Z
}.

Class Dwfl (W : Type) : Type := {
  dwfl_begin : W -> option nat * W;
  dwfl_linux_proc_report : option nat -> W -> Z * W;
  dwfl_end : nat -> W -> W;
  dwfl_addrmodule : option nat -> Z -> W -> option nat;
  dwfl_module_addrdie : option nat -> Z -> W -> option nat * Z;           (* the unit and the bias *)
  dwarf_getscopes : option nat -> Z -> W -> Z * list Dwarf_Die;
  dwarf_getsrcfiles : option nat -> W -> Z;
  dwarf_filesrc : option nat -> Z -> W -> option bytes;
  dwfl_module_addrname : option nat -> Z -> W -> option bytes;
  dwfl_module_lineinfo : option nat -> Z -> W -> option (bytes * Z * Z)   (* dwfl_module_getsrc, dwfl_lineinfo *)
}.

Record statics : Type := MkStatics { init : bool; sret : bool; dwfl : option nat; at_exit : bool }.
Definition statics_initial : statics := MkStatics true false None false.

Section dwarf.
Context {W : Type} {BT : Backtrace W} {DW : Dwfl W}.

Definition init_backtrace (st : statics) (w : W) : bool * statics * W :=
  if init st then
    let '(d, w) := dwfl_begin w in
    let '(r, w) := dwfl_linux_proc_report d w in
    (r =? 0, MkStatics false (r =? 0) d true, w)
  else (sret st, st, w).
Definition exit_backtrace (st : statics) (w : W) : W := match dwfl st with Some d => dwfl_end d w | None => w end.

(** Where an inlined function was called. *)
Definition call_site (cudie : option nat) (scope : Dwarf_Die) (w : W) : bytes :=
  if dwarf_getsrcfiles cudie w =? 0 then
    match call_file scope with
    | None => []
    | Some val =>
        let file := default #"???" (dwarf_filesrc cudie val w) in
        let lnr := u32 (default 0 (call_line scope)) in
        let col := u32 (default 0 (call_column scope)) in
        if lnr =? 0 then #" from " ++ c_str file
        else #" at " ++ c_str file ++ #", line " ++ print_Z lnr ++ (if col =? 0 then [] else #":" ++ print_Z col)
    end
  else [].

(** The loop over the scopes, from the innermost: whether a function was found, and the text. *)
Fixpoint print_scopes (cudie : option nat) (scopes : list Dwarf_Die) (w : W) : bool * bytes :=
  match scopes with
  | [] => (false, [])
  | scope :: scopes =>
      match dwarf_tag scope with
      | DW_TAG_subprogram =>
          match dwarf_diename scope with
          | None => (false, [])
          | Some name => (true, c_str name ++ #" ")
          end
      | DW_TAG_inlined_subroutine =>
          match dwarf_diename scope with
          | None => (false, [])
          | Some name =>
              let '(found, text) := print_scopes cudie scopes w in
              (found, c_str name ++ #" inlined" ++ call_site cudie scope w ++ #" in " ++ text)
          end
      | DW_TAG_other => print_scopes cudie scopes w
      end
  end.

Definition print_dwarf_function (m : option nat) (addr : Z) (w : W) : bool * bytes :=
  let '(cudie, bias) := dwfl_module_addrdie m addr w in
  let '(nscopes, scopes) := dwarf_getscopes cudie (u64 (addr - bias)) w in
  if nscopes <=? 0 then (false, []) else print_scopes cudie (take (Z.to_nat nscopes) scopes) w.

(** One frame; without libiberty names are printed as they are. *)
Definition frame (d : option nat) (libiberty : bool) (k : nat) (addr : Z) (w : W) : bytes :=
  let m := dwfl_addrmodule d addr w in
  let '(found, text) := print_dwarf_function m addr w in
  frame_head k addr ++ #" " ++ text ++
  (if found : bool then [] else
   match dwfl_module_addrname m addr w with
   | Some mname => c_str (if libiberty then default mname (demangle (c_str mname) w) else mname) ++ #" "
   | None => #"?? "
   end) ++
  match dwfl_module_lineinfo m addr w with
  | Some (src, lineno, linecol) =>
      c_str src ++ #", line " ++ print_Z lineno ++ (if linecol =? 0 then [] else #":" ++ print_Z linecol) ++ endl
  | None => #"[no debug info]" ++ endl
  end.

Fixpoint frames_text (d : option nat) (libiberty : bool) (k : nat) (addrs : list Z) (w : W) : bytes :=
  match addrs with
  | [] => []
  | a :: addrs => frame d libiberty k a w ++ frames_text d libiberty (S k) addrs w
  end.

(** [dwarf_tracer::trace] *)
Definition dwarf_trace (libiberty : bool) (skip : nat) (t : tracer) (st : statics) (w : W) : bytes * statics * W :=
  let '(ok, st, w) := init_backtrace st w in
  (if ok : bool then frames_text (dwfl st) libiberty 0 (traced skip t) w else frame_lines 0 (traced skip t), st, w).
End dwarf.
End Dwarf.

(** ** [tracing::exception]

    [where] returns a pointer: into the static string of [trace], or, when tracing is disabled,
    into a string that is gone when the expression has been evaluated. *)
Module Exception.

Inductive c_pointer : Type :=
| Into_ret
| Into_temporary.

(** What the characters behind a pointer are now; [None] is undefined. *)
Definition points_to (p : c_pointer) (ret : bytes) : option bytes :=
  match p with
  | Into_ret => Some (c_str ret)
  | Into_temporary => None
  end.

Record exception : Type := MkException { its_tracer : tracer }.
Definition exception_new {W} {BT : Backtrace W} (w : W) : exception * W := let '(t, w) := tracer_new 100 w in (MkException t, w).

(** With libbfd: the static string, the other static variables and the world. *)
Definition where_bfd {W} {BT : Backtrace W} {BF : Bfd.Bfd W} (fuel : nat) (e : exception) (st : Bfd.statics) (w : W) :
    option (c_pointer * bytes * Bfd.statics * W) :=
  '(ret, st, w) ← Bfd.bfd_trace fuel 2 (its_tracer e) st w; Some (Into_ret, ret, st, w).
Definition where_dwarf {W} {BT : Backtrace W} {DW : Dwarf.Dwfl W} (libiberty : bool) (e : exception) (st : Dwarf.statics) (w : W) :
    c_pointer * bytes * Dwarf.statics * W :=
  let '(ret, st, w) := Dwarf.dwarf_trace libiberty 2 (its_tracer e) st w in (Into_ret, ret, st, w).

(** [dummy_tracer::trace] returns a string, not a reference. *)
Definition dummy_trace : bytes := #"Tracing disabled".
Definition where_dummy : c_pointer := Into_temporary.
End Exception.

(** ** Lemmas *)

(** How many lines a text has. *)
Definition lines (s : bytes) : nat := length (filter (fun a => a = LF) s).
Lemma lines_app s t : lines (s ++ t) = (lines s + lines t)%nat.
Proof. unfold lines. by rewrite filter_app, length_app. Qed.

Lemma no_line s : Forall (fun a => a <> LF) s -> lines s = 0%nat.
Proof.
  unfold lines. induction 1 as [|a s Ha _ IH]; [done|]. by rewrite filter_cons_False.
Qed.

Lemma digits_no_line fuel base n acc :
  0 < base <= 16 -> 0 <= n -> Forall (fun a => a <> LF) acc -> Forall (fun a => a <> LF) (digits fuel base n acc).
Proof.
  intros Hb. revert n acc. induction fuel as [|fuel IH]; intros n acc Hn Hacc; [done|]. cbn [digits].
  assert (digit_char (n `mod` base) <> LF) as Hd.
  { pose proof (Z.mod_pos_bound n base ltac:(lia)). assert (n `mod` base ∈ seqZ 0 16) as Hin by (apply elem_of_seqZ; lia).
    revert Hin. generalize (n `mod` base). intros k. apply (proj1 (Forall_forall (fun k => digit_char k <> LF) (seqZ 0 16))).
    by repeat constructor. }
  destruct (n <? base); [by constructor|]. apply IH; [apply Z.div_pos; lia|by constructor].
Qed.

Lemma print_nat_no_line base n : 0 < base <= 16 -> 0 <= n -> Forall (fun a => a <> LF) (print_nat_base base n).
Proof. intros Hb Hn. by apply digits_no_line. Qed.
Lemma setw_no_line n c s : c <> LF -> Forall (fun a => a <> LF) s -> Forall (fun a => a <> LF) (setw n c s).
Proof. intros Hc Hs. unfold setw. apply Forall_app. split; [by apply Forall_replicate|done]. Qed.

Lemma frame_head_no_line k a : 0 <= a -> Forall (fun a => a <> LF) (frame_head k a).
Proof.
  intros Ha. unfold frame_head, print_pointer, print_Z. rewrite (proj2 (Z.ltb_ge _ _)) by lia.
  apply Forall_app. split; [apply setw_no_line; [done|]; apply print_nat_no_line; lia|]. constructor; [done|].
  destruct (a =? 0); [by repeat constructor|]. do 2 (constructor; [done|]). apply setw_no_line; [done|]. apply print_nat_no_line; lia.
Qed.

(** Without information there is one line for each frame that is not skipped. *)
Lemma frame_lines_count k addrs : Forall (fun a => 0 <= a) addrs -> lines (frame_lines k addrs) = length addrs.
Proof.
  intros Ha. revert k. induction Ha as [|a addrs Ha _ IH]; intros k; [done|]. cbn [frame_lines length].
  unfold plain_frame. rewrite !lines_app, IH, (no_line _ (frame_head_no_line k a Ha)). reflexivity.
Qed.

Section bfd_facts.
Context {W : Type} {BT : Backtrace W} {BF : Bfd.Bfd W}.
Import Bfd.

(** Whether an address lies in a section that is loaded. *)
Definition covers (pc : Z) (s : asection) : bool :=
  sec_alloc s && (sec_vma s <=? pc) && (pc <? u64 (sec_vma s + sec_size s)).

(** Asking for the line in one section after the other, until one knows it. *)
Fixpoint search (b : nat) (symbols : option nat) (pc : Z) (l : list asection) (w : W) : option place * W :=
  match l with
  | [] => (None, w)
  | s :: l =>
      let '(found, w) := bfd_find_nearest_line b s symbols (pc - sec_vma s) w in
      match found with
      | Some p => (Some p, w)
      | None => search b symbols pc l w
      end
  end.

Lemma findit_found b symbols pc p l (w : W) : foldl (findit b symbols pc) (Some p, w) l = (Some p, w).
Proof using. by induction l. Qed.

(** Going over all sections with the callback asks only in those that cover the address, in
    order, and stops asking at the first that knows it. *)
Theorem map_over_sections_searches b symbols pc (w : W) :
  bfd_map_over_sections b symbols pc w = search b symbols pc (filter (fun s => covers pc s) (bfd_sections b w)) w.
Proof using.
  unfold bfd_map_over_sections. generalize (bfd_sections b w) as l. intros l. revert w.
  induction l as [|s l IH]; intros w; [done|]. cbn [foldl]. unfold findit at 2.
  assert (negb (sec_alloc s) || (pc <? sec_vma s) || (u64 (sec_vma s + sec_size s) <=? pc) = negb (covers pc s)) as Hc
    by (unfold covers; destruct (sec_alloc s), (Z.ltb_spec pc (sec_vma s)), (Z.leb_spec (sec_vma s) pc),
      (Z.leb_spec (u64 (sec_vma s + sec_size s)) pc), (Z.ltb_spec pc (u64 (sec_vma s + sec_size s))); (done || lia)).
  destruct (covers pc s) eqn:Ec; cbn [negb] in Hc.
  2: { rewrite filter_cons_False by (cbn beta; rewrite Ec; by intros []). apply orb_true_iff in Hc as [[Hc|Hc]%orb_true_iff|Hc]; rewrite Hc; [apply IH| |];
       (destruct (negb (sec_alloc s)); [apply IH|]); [apply IH|]. by destruct (pc <? sec_vma s). }
  rewrite filter_cons_True by (cbn beta; by rewrite Ec). apply orb_false_iff in Hc as [[H1 H2]%orb_false_iff H3]. rewrite H1, H2, H3.
  cbn [search]. destruct (bfd_find_nearest_line b s symbols _ w) as [[p|] w1]; [apply findit_found|apply IH].
Qed.

(** The initialization is tried once.  When it fails after the file has been opened, nobody
    closes it: [exit_backtrace] is registered only in the end. *)
Theorem init_backtrace_once (w : W) :
  let '(ok, st, w1) := init_backtrace statics_initial w in
  (forall w2, init_backtrace st w2 = (ok, st, w2)) /\ (ok = true -> is_Some (abfd st)) /\ at_exit st = ok.
Proof using.
  unfold init_backtrace. cbn [init statics_initial]. destruct (bfd_set_default_target _ _) as [[] w1]; cbn [negb]; [|done].
  destruct (bfd_openr _ w1) as [[b|] w2]; [|done]. destruct (bfd_check_archive b w2) as [[] w3]; [done|].
  destruct (bfd_check_format_matches b w3) as [[] w4]; cbn [negb]; [|done]. unfold fetchsyms.
  destruct (bfd_has_syms b w4); [|by split_and!]. destruct (bfd_read_minisymbols b false w4) as [[k s] w5].
  destruct (k =? 0); [|by split_and!]. destruct (bfd_read_minisymbols b true w5) as [[k2 s2] w6]. by split_and!.
Qed.

(** The places an address is inlined from, of which each call gives the next. *)
Class BfdLaws : Type := {
  bfd_inliners : W -> list place;
  find_inliner_info_next b w :
    (bfd_find_inliner_info b w).1 = head (bfd_inliners w) /\ bfd_inliners (bfd_find_inliner_info b w).2 = tail (bfd_inliners w)
}.

(** The loop over the inlined functions ends. *)
Lemma inlined_returns {L : BfdLaws} fuel b p (w : W) : (length (bfd_inliners w) < fuel)%nat -> is_Some (inlined fuel b p w).
Proof using.
  revert p w. induction fuel as [|fuel IH]; intros p w Hf; [lia|]. cbn [inlined].
  destruct (find_inliner_info_next b w) as [H1 H2]. destruct (bfd_find_inliner_info b w) as [found w1]. cbn [fst snd] in *.
  destruct found as [q|]; [|by eexists]. destruct (bfd_inliners w) as [|x l]; [done|].
  destruct (IH q w1) as [[more w2] E]; [rewrite H2; cbn in *; lia|]. rewrite E. by eexists.
Qed.

(** So does [trace], and when nothing is known of the program it gives one line for each frame
    that is not skipped. *)
Theorem bfd_trace_returns {L : BfdLaws} fuel skip t st (w : W) :
  (forall w, length (bfd_inliners w) < fuel)%nat ->
  exists ret st' w', bfd_trace fuel skip t st w = Some (ret, st', w') /\
    ((init_backtrace st w).1.1 = false -> Forall (fun a => 0 <= a) (traced skip t) -> lines ret = length (traced skip t)).
Proof using.
  intros Hf. assert (forall b symbols k addrs w, is_Some (frames_text fuel b symbols k addrs w)) as Hframes.
  { intros b symbols k addrs. revert k. induction addrs as [|a addrs IH]; intros k w0; cbn [frames_text]; [by eexists|]. unfold frame.
    destruct (bfd_map_over_sections b symbols a w0) as [[p|] w1]; cbn.
    - destruct (inlined_returns fuel b p w1 (Hf w1)) as [[text w2] ->]. cbn. destruct (IH (S k) w2) as [[more w3] ->]. by eexists.
    - destruct (IH (S k) w1) as [[more w3] ->]. by eexists. }
  unfold bfd_trace. destruct (init_backtrace st w) as [[ok st1] w1]. cbn [fst].
  destruct ok, (abfd st1) as [b|]; try (by do 3 eexists; split; [done|]; intros; by apply frame_lines_count).
  destruct (Hframes b (syms st1) 0%nat (traced skip t) w1) as [[text w2] ->]. by do 3 eexists.
Qed.
End bfd_facts.

Section dwarf_facts.
Context {W : Type} {DW : Dwarf.Dwfl W}.
Import Dwarf.

(** The function around an address is found when a function is the first scope that is one or
    has no name. *)
Theorem print_scopes_found cudie scopes (w : W) :
  (print_scopes cudie scopes w).1 = true <->
  exists l scope rest name, scopes = l ++ scope :: rest /\ dwarf_tag scope = DW_TAG_subprogram /\ dwarf_diename scope = Some name /\
    Forall (fun s => dwarf_tag s = DW_TAG_other \/ dwarf_tag s = DW_TAG_inlined_subroutine /\ is_Some (dwarf_diename s)) l.
Proof using.
  induction scopes as [|s scopes IH]; cbn [print_scopes].
  { split; [done|]. intros (l & x & rest & name & H & _). by destruct l. }
  assert (forall P : Prop, (dwarf_tag s <> DW_TAG_subprogram) ->
    (P <-> exists l scope rest name, scopes = l ++ scope :: rest /\ dwarf_tag scope = DW_TAG_subprogram /\ dwarf_diename scope = Some name /\
      Forall (fun s => dwarf_tag s = DW_TAG_other \/ dwarf_tag s = DW_TAG_inlined_subroutine /\ is_Some (dwarf_diename s)) l) ->
    (dwarf_tag s = DW_TAG_other \/ dwarf_tag s = DW_TAG_inlined_subroutine /\ is_Some (dwarf_diename s)) ->
    (P <-> exists l scope rest name, s :: scopes = l ++ scope :: rest /\ dwarf_tag scope = DW_TAG_subprogram /\ dwarf_diename scope = Some name /\
      Forall (fun s => dwarf_tag s = DW_TAG_other \/ dwarf_tag s = DW_TAG_inlined_subroutine /\ is_Some (dwarf_diename s)) l)) as Hskip.
  { intros P Hn -> Hs. split.
    - intros (l & x & rest & name & -> & H1 & H2 & H3). exists (s :: l), x, rest, name. split_and!; [done..|by constructor].
    - intros (l & x & rest & name & H & H1 & H2 & H3). destruct l as [|y l]; simplify_eq/=.
      apply Forall_cons in H3 as [_ H3]. by exists l, x, rest, name. }
  destruct (dwarf_tag s) eqn:Ht; destruct (dwarf_diename s) as [name|] eqn:Hn.
  - split; [|done]. intros _. exists [], s, scopes, name. by split_and!.
  - split; [done|]. intros (l & x & rest & name & H & H1 & H2 & H3). destruct l as [|y l]; simplify_eq/=.
    apply Forall_cons in H3 as [[?|[? _]] _]; congruence.
  - destruct (print_scopes cudie scopes w) as [found text]. apply Hskip; [congruence|exact IH|right; by split; [|eexists]].
  - split; [done|]. intros (l & x & rest & name & H & H1 & H2 & H3). destruct l as [|y l]; simplify_eq/=.
    apply Forall_cons in H3 as [[?|[_ [? ?]]] _]; congruence.
  - apply Hskip; [congruence|exact IH|by left].
  - apply Hskip; [congruence|exact IH|by left].
Qed.
End dwarf_facts.

(** ** Concrete exceptions

    A stack of four frames; the third is in a function that is inlined into the one it is
    called from, nothing is known of the fourth. *)
Record machine : Type := MkMachine { stack : list Z; inliners : list Bfd.place }.

#[export] Instance machine_backtrace : Backtrace machine := {|
  backtrace buf m := (length (take (length buf) (stack m)), take (length buf) (stack m) ++ drop (length (stack m)) buf, m);
  new_buffer n _ := replicate n 0;
  demangle name _ := if bool_decide (name = #"_Z4workv") then Some #"work()" else None
|}.
#[export] Instance machine_bfd : Bfd.Bfd machine := {|
  Bfd.bfd_init m := m;
  Bfd.bfd_set_default_target _ m := (true, m);
  Bfd.bfd_openr _ m := (Some 0%nat, m);
  Bfd.bfd_check_archive _ m := (false, m);
  Bfd.bfd_check_format_matches _ m := (true, m);
  Bfd.bfd_has_syms _ _ := true;
  Bfd.bfd_read_minisymbols _ _ m := (7, Some 0%nat, m);
  Bfd.bfd_sections _ _ := [Bfd.MkSection false 0 0x9000; Bfd.MkSection true 0x8000 0x100];
  Bfd.bfd_find_nearest_line _ _ _ off m :=
    (Some (Bfd.MkPlace (Some #"a.cpp") (Some #"_Z4workv") off), MkMachine (stack m) [Bfd.MkPlace (Some #"b.cpp") (Some #"main") 12]);
  Bfd.bfd_find_inliner_info _ m := (head (inliners m), MkMachine (stack m) (tail (inliners m)));
  Bfd.bfd_close _ m := m;
  Bfd.bfd_free_syms _ m := m
|}.
#[export] Instance machine_laws : BfdLaws (W := machine).
Proof. by refine {| bfd_inliners := inliners |}. Defined.

Definition first_stack : machine := MkMachine [0x8010; 0x8020; 0x8030; 0xF7701234] [].
Definition second_stack : machine := MkMachine [0x8010; 0x8020; 0] [].
Definition thrown (m : machine) : Exception.exception := (Exception.exception_new m).1.

Definition first_where : option (Exception.c_pointer * bytes * Bfd.statics * machine) :=
  Exception.where_bfd 5 (thrown first_stack) Bfd.statics_initial first_stack.
Definition first_text : bytes :=
  #"  0 0x00008030 work() [a.cpp, line 48]" ++ endl ++ #"    inlined at main [b.cpp, line 12]" ++ endl ++
  #"  1 0xf7701234 [no debug info]" ++ endl.

Example where_shows_frames : exists st m, first_where = Some (Exception.Into_ret, first_text, st, m).
Proof. vm_compute. eauto. Qed.

(** What the pointer of one exception points to changes when another exception is asked. *)
Example where_is_shared :
  exists p ret st m p' ret' st' m', first_where = Some (p, ret, st, m) /\
    Exception.where_bfd 5 (thrown second_stack) st m = Some (p', ret', st', m') /\
    Exception.points_to p ret = Some first_text /\ Exception.points_to p ret' = Some (#"  0 0000000000 [no debug info]" ++ endl).
Proof. vm_compute. do 8 eexists. split; [reflexivity|]. split; [reflexivity|]. split; reflexivity. Qed.

(** Without a library the pointer is of no use at all. *)
Example where_dangles ret : Exception.points_to Exception.where_dummy ret = None.
Proof. reflexivity. Qed.
