(* ===== verification/Utf8.v ===== *)
(** * UTF-8 validation (samples/wsutf8.h)

    The table-driven decoder with its class [validator], and the proof that it
    accepts exactly the encodings of sequences of Unicode scalar values. *)
From S2P Require Import Prelude.

Local Open Scope Z_scope.

(** ** The decoder *)
Definition UTF8_ACCEPT : Z := 0.
Definition UTF8_REJECT : Z := 1.

(** The table: the type of each byte, then one row of 16 types per state. *)
Definition utf8d : list Z :=
  [0;0;0;0;0;0;0;0;0;0;0;0;0;0;0;0;0;0;0;0;0;0;0;0;0;0;0;0;0;0;0;0;
   0;0;0;0;0;0;0;0;0;0;0;0;0;0;0;0;0;0;0;0;0;0;0;0;0;0;0;0;0;0;0;0;
   0;0;0;0;0;0;0;0;0;0;0;0;0;0;0;0;0;0;0;0;0;0;0;0;0;0;0;0;0;0;0;0;
   0;0;0;0;0;0;0;0;0;0;0;0;0;0;0;0;0;0;0;0;0;0;0;0;0;0;0;0;0;0;0;0;
   1;1;1;1;1;1;1;1;1;1;1;1;1;1;1;1;9;9;9;9;9;9;9;9;9;9;9;9;9;9;9;9;
   7;7;7;7;7;7;7;7;7;7;7;7;7;7;7;7;7;7;7;7;7;7;7;7;7;7;7;7;7;7;7;7;
   8;8;2;2;2;2;2;2;2;2;2;2;2;2;2;2;2;2;2;2;2;2;2;2;2;2;2;2;2;2;2;2;
   0xa;0x3;0x3;0x3;0x3;0x3;0x3;0x3;0x3;0x3;0x3;0x3;0x3;0x4;0x3;0x3;
   0xb;0x6;0x6;0x6;0x5;0x8;0x8;0x8;0x8;0x8;0x8;0x8;0x8;0x8;0x8;0x8;
   0x0;0x1;0x2;0x3;0x5;0x8;0x7;0x1;0x1;0x1;0x4;0x6;0x1;0x1;0x1;0x1;
   1;1;1;1;1;1;1;1;1;1;1;1;1;1;1;1;1;0;1;1;1;1;1;0;1;0;1;1;1;1;1;1;
   1;2;1;1;1;1;1;2;1;2;1;1;1;1;1;1;1;1;1;1;1;1;1;2;1;1;1;1;1;1;1;1;
   1;2;1;1;1;1;1;1;1;2;1;1;1;1;1;1;1;1;1;1;1;1;1;3;1;3;1;1;1;1;1;1;
   1;3;1;1;1;1;1;3;1;3;1;1;1;1;1;1;1;3;1;1;1;1;1;1;1;1;1;1;1;1;1;1].

Definition utf8d_at (i : Z) : Z := nth (Z.to_nat i) utf8d 0.

(** [decode(&state, &codep, byte)] *)
Definition decode (state codep byte : Z) : Z * Z :=
  let type := utf8d_at byte in
  let codep :=
    if negb (state =? UTF8_ACCEPT) then Z.lor (Z.land byte 0x3f) (u32 (Z.shiftl codep 6))
    else Z.land (Z.shiftr 0xff type) byte in
  (utf8d_at (256 + u32 (state * 16) + type), codep).

(** ** [class validator] *)
Record validator : Type := MkValidator { v_state : Z; v_codepoint : Z }.

Definition validator_new : validator := MkValidator UTF8_ACCEPT 0.
Definition validator_reset (v : validator) : validator := MkValidator UTF8_ACCEPT 0.

Definition validator_consume (byte : Z) (v : validator) : bool * validator :=
  let '(st, cp) := decode (v_state v) (v_codepoint v) (u8 byte) in
  (negb (st =? UTF8_REJECT), MkValidator st cp).

Fixpoint validator_decode (s : bytes) (v : validator) : bool * validator :=
  match s with
  | [] => (true, v)
  | b :: s' =>
      let '(st, cp) := decode (v_state v) (v_codepoint v) (bz b) in
      if st =? UTF8_REJECT then (false, MkValidator st cp) else validator_decode s' (MkValidator st cp)
  end.

Definition validator_complete (v : validator) : bool := v_state v =? UTF8_ACCEPT.

Definition validate (s : bytes) : bool :=
  let '(ok, v) := validator_decode s validator_new in
  if negb ok then false else validator_complete v.

(** ** The encoding form UTF-8 (Unicode, table 3-6) *)
Definition scalar (cp : Z) : Prop := 0 <= cp <= 0x10FFFF /\ ~ 0xD800 <= cp <= 0xDFFF.

Definition utf8_encode (cp : Z) : bytes :=
  zb <$>
  if cp <? 0x80 then [cp]
  else if cp <? 0x800 then [0xC0 + cp / 64; 0x80 + cp mod 64]
  else if cp <? 0x10000 then [0xE0 + cp / 4096; 0x80 + cp / 64 mod 64; 0x80 + cp mod 64]
  else [0xF0 + cp / 262144; 0x80 + cp / 4096 mod 64; 0x80 + cp / 64 mod 64; 0x80 + cp mod 64].

Definition utf8_text (cps : list Z) : bytes := concat (utf8_encode <$> cps).

(** ** The automaton *)

(** The transitions as ranges of bytes. *)
Definition in_range (lo hi b : Z) : bool := (lo <=? b) && (b <=? hi).
Definition transition (q b : Z) : Z :=
  if q =? 0 then
    if in_range 0 0x7f b then 0
    else if in_range 0xc2 0xdf b then 2
    else if in_range 0xe0 0xe0 b then 4
    else if in_range 0xed 0xed b then 5
    else if in_range 0xe1 0xef b then 3
    else if in_range 0xf0 0xf0 b then 6
    else if in_range 0xf1 0xf3 b then 7
    else if in_range 0xf4 0xf4 b then 8
    else 1
  else if q =? 2 then if in_range 0x80 0xbf b then 0 else 1
  else if q =? 3 then if in_range 0x80 0xbf b then 2 else 1
  else if q =? 4 then if in_range 0xa0 0xbf b then 2 else 1
  else if q =? 5 then if in_range 0x80 0x9f b then 2 else 1
  else if q =? 6 then if in_range 0x90 0xbf b then 3 else 1
  else if q =? 7 then if in_range 0x80 0xbf b then 3 else 1
  else if q =? 8 then if in_range 0x80 0x8f b then 3 else 1
  else 1.

(** The bits of the code point in the first byte of a sequence. *)
Definition first_bits (b : Z) : Z :=
  if b <? 0x80 then b else if b <? 0xe0 then b mod 32 else if b <? 0xf0 then b mod 16 else b mod 8.

Lemma decode_state q cp b : 0 <= q < 9 -> 0 <= b < 256 -> (decode q cp b).1 = transition q b.
Proof.
  intros Hq Hb. unfold decode. cbn [fst]. apply Z.eqb_eq. revert b Hb.
  pose proof (below_Z 9 (fun q => forallb (fun b =>
    utf8d_at (256 + u32 (q * 16) + utf8d_at (Z.of_nat b)) =? transition q (Z.of_nat b)) (seq 0 256)) ltac:(by vm_compute) q Hq) as H. cbv beta in H. intros b Hb.
  exact (below_Z 256 (fun b => utf8d_at (256 + u32 (q * 16) + utf8d_at b) =? transition q b) H b Hb).
Qed.

Lemma decode_first cp b : 0 <= b < 256 -> transition 0 b <> 1 -> (decode 0 cp b).2 = first_bits b.
Proof.
  intros Hb. pose proof (below_Z 256 (fun b => (transition 0 b =? 1) ||
    (Z.land (Z.shiftr 0xff (utf8d_at b)) b =? first_bits b)) ltac:(by vm_compute) b Hb) as H.
  cbv beta in H. intros Hne. unfold decode. cbn [snd]. change (0 =? UTF8_ACCEPT) with true. cbn [negb].
  apply orb_true_iff in H as [H|H]; apply Z.eqb_eq in H; done.
Qed.

Lemma decode_more q cp b :
  q <> 0 -> 0 <= b < 256 -> 0 <= cp < 2 ^ 26 -> (decode q cp b).2 = cp * 64 + b mod 64.
Proof.
  intros Hq Hb Hc. unfold decode. cbn [snd]. destruct (Z.eqb_spec q UTF8_ACCEPT) as [->|]; [done|]. cbn [negb].
  change 0x3f with (Z.ones 6). rewrite Z.land_ones, Z.shiftl_mul_pow2 by lia.
  unfold u32. rewrite (Z.mod_small (cp * _)) by lia. rewrite Z.lor_comm, lor_add; [done|lia|apply Z.mod_pos_bound; lia].
Qed.

Lemma decode_first_eq cp b q :
  0 <= b < 256 -> transition 0 b = q -> q <> 1 -> decode 0 cp b = (q, first_bits b).
Proof.
  intros Hb <- Hq. rewrite (surjective_pairing (decode 0 cp b)).
  by rewrite decode_state, decode_first by lia.
Qed.
Lemma decode_more_eq q cp b q' :
  0 < q < 9 -> 0 <= b < 256 -> 0 <= cp < 2 ^ 26 -> transition q b = q' -> decode q cp b = (q', cp * 64 + b mod 64).
Proof.
  intros Hq Hb Hc <-. rewrite (surjective_pairing (decode q cp b)).
  by rewrite decode_state, decode_more by lia.
Qed.

(** One byte of the validator. *)
Lemma validator_step b q q' c c' s :
  decode q c (bz b) = (q', c') -> q' <> 1 ->
  validator_decode (b :: s) (MkValidator q c) = validator_decode s (MkValidator q' c').
Proof.
  intros H Hq. cbn [validator_decode v_state v_codepoint]. rewrite H.
  destruct (Z.eqb_spec q' UTF8_REJECT); [by destruct Hq|done].
Qed.

(** A transition, evaluated by comparing the byte with the bounds. *)
Ltac ranges :=
  unfold transition, in_range, first_bits; cbn [Z.eqb Pos.eqb];
  repeat match goal with
    | |- context [?a <=? ?b] => destruct (Z.leb_spec a b); try lia
    | |- context [?a <? ?b] => destruct (Z.ltb_spec a b); try lia
    end; cbn [andb]; try done.

Lemma validator_first b q s c :
  transition 0 (bz b) = q -> q <> 1 ->
  validator_decode (b :: s) (MkValidator 0 c) = validator_decode s (MkValidator q (first_bits (bz b))).
Proof. intros Ht Hq. apply validator_step; [|done]. apply decode_first_eq; [apply bz_range|done..]. Qed.

Lemma validator_more b q q' s c :
  0 < q < 9 -> 0 <= c < 2 ^ 26 -> transition q (bz b) = q' -> q' <> 1 ->
  validator_decode (b :: s) (MkValidator q c) =
    validator_decode s (MkValidator q' (c * 64 + bz b mod 64)).
Proof.
  intros Hq Hc Ht Hq'. apply validator_step; [|done]. apply decode_more_eq; [done|apply bz_range|done..].
Qed.

(** The last bytes of a sequence. *)
Lemma validator_last x s c :
  0 <= c < 2 ^ 26 -> 0 <= x < 64 ->
  validator_decode (zb (0x80 + x) :: s) (MkValidator 2 c) = validator_decode s (MkValidator 0 (c * 64 + x)).
Proof.
  intros Hc Hx. rewrite (validator_more _ 2 0); rewrite ?bz_zb_small by lia; [|lia|done|ranges|done].
  do 2 f_equal. dlia.
Qed.

Lemma validator_last_two q x y s c :
  0 < q < 9 -> 0 <= c < 2 ^ 20 -> 0 <= x < 64 -> 0 <= y < 64 -> transition q (0x80 + x) = 2 ->
  validator_decode (zb (0x80 + x) :: zb (0x80 + y) :: s) (MkValidator q c) =
    validator_decode s (MkValidator 0 (c * 4096 + x * 64 + y)).
Proof.
  intros Hq Hc Hx Hy Ht. rewrite (validator_more _ q 2); rewrite ?bz_zb_small by lia; [|lia|lia|done..].
  rewrite validator_last by dlia. do 2 f_equal. dlia.
Qed.

Lemma validator_last_three q x y z s c :
  0 < q < 9 -> 0 <= c < 2 ^ 14 -> 0 <= x < 64 -> 0 <= y < 64 -> 0 <= z < 64 -> transition q (0x80 + x) = 3 ->
  validator_decode (zb (0x80 + x) :: zb (0x80 + y) :: zb (0x80 + z) :: s) (MkValidator q c) =
    validator_decode s (MkValidator 0 (c * 262144 + x * 4096 + y * 64 + z)).
Proof.
  intros Hq Hc Hx Hy Hz Ht. rewrite (validator_more _ q 3); rewrite ?bz_zb_small by lia; [|lia|lia|done..].
  rewrite validator_last_two; [do 2 f_equal; dlia|lia|dlia|lia|lia|ranges].
Qed.

(** ** Every encoding is accepted *)
Lemma validator_encode cp s c :
  scalar cp ->
  validator_decode (utf8_encode cp ++ s) (MkValidator 0 c) = validator_decode s (MkValidator 0 cp).
Proof.
  intros [Hcp Hs]. unfold utf8_encode.
  destruct (Z.ltb_spec cp 0x80); [|destruct (Z.ltb_spec cp 0x800); [|destruct (Z.ltb_spec cp 0x10000)]];
    cbn [fmap list_fmap app].
  - rewrite (validator_first _ 0); rewrite ?bz_zb_small by lia; [|ranges|done].
    by replace (first_bits cp) with cp by ranges.
  - rewrite (validator_first _ 2); rewrite ?bz_zb_small by dlia; [|ranges; dlia|done].
    replace (first_bits _) with (cp / 64) by (ranges; dlia).
    rewrite validator_last by dlia. do 2 f_equal. dlia.
  - assert (exists q, transition 0 (0xE0 + cp / 4096) = q /\ 1 < q < 9 /\
      transition q (0x80 + cp / 64 mod 64) = 2) as (q & Hq & Hlt & Ht).
    { destruct (decide (cp / 4096 = 0)) as [E|]; [exists 4|destruct (decide (cp / 4096 = 13)); [exists 5|exists 3]];
        (split_and!; [ranges; dlia|lia|lia|ranges; dlia]). }
    rewrite (validator_first _ q); rewrite ?bz_zb_small by dlia; [|done|lia].
    replace (first_bits _) with (cp / 4096) by (ranges; dlia).
    rewrite validator_last_two by (done || dlia). do 2 f_equal. dlia.
  - assert (exists q, transition 0 (0xF0 + cp / 262144) = q /\ 1 < q < 9 /\
      transition q (0x80 + cp / 4096 mod 64) = 3) as (q & Hq & Hlt & Ht).
    { destruct (decide (cp / 262144 = 0)) as [E|]; [exists 6|destruct (decide (cp / 262144 = 4)); [exists 8|exists 7]];
        (split_and!; [ranges; dlia|lia|lia|ranges; dlia]). }
    rewrite (validator_first _ q); rewrite ?bz_zb_small by dlia; [|done|lia].
    replace (first_bits _) with (cp / 262144) by (ranges; dlia).
    rewrite validator_last_three by (done || dlia). do 2 f_equal. dlia.
Qed.

Lemma validator_text cps s c :
  Forall scalar cps ->
  exists c', validator_decode (utf8_text cps ++ s) (MkValidator 0 c) = validator_decode s (MkValidator 0 c').
Proof.
  intros H. revert c. induction H as [|cp cps Hcp _ IH]; intros c; [by exists c|].
  unfold utf8_text. cbn [fmap list_fmap concat]. rewrite <- app_assoc, validator_encode by done. apply IH.
Qed.

(** ** Only encodings are accepted *)
Definition accepts (q : Z) (s : bytes) : Prop :=
  exists c v, validator_decode s (MkValidator q c) = (true, v) /\ v_state v = 0.

Lemma accepts_nil q : accepts q [] -> q = 0.
Proof. by intros (c & v & [= <-] & H). Qed.

Lemma accepts_cons q b s :
  0 <= q < 9 -> accepts q (b :: s) -> transition q (bz b) <> 1 /\ accepts (transition q (bz b)) s.
Proof.
  intros Hq (c & v & H & Hv). cbn [validator_decode v_state v_codepoint] in H.
  pose proof (decode_state q c (bz b) Hq (bz_range b)) as E.
  destruct (decode q c (bz b)) as [q' c']. cbn [fst] in E. subst q'.
  destruct (Z.eqb_spec (transition q (bz b)) UTF8_REJECT); [done|]. split; [done|]. by exists c', v.
Qed.

(** In every state but the first one a continuation byte follows. *)
Lemma accepts_more q s :
  1 < q < 9 -> accepts q s ->
  exists x s', s = zb (0x80 + x) :: s' /\ 0 <= x < 64 /\
    transition q (0x80 + x) <> 1 /\ accepts (transition q (0x80 + x)) s'.
Proof.
  intros Hq Ha. destruct s as [|b s']; [apply accepts_nil in Ha; lia|].
  apply accepts_cons in Ha as [Ht Ha]; [|lia]. exists (bz b - 0x80), s'.
  assert (0x80 <= bz b < 0xc0) as Hb.
  { pose proof (bz_range b). revert Ht. unfold transition, in_range.
    destruct (Z.eqb_spec q 0); [lia|]. repeat case_match; bool_facts; try done; lia. }
  replace (0x80 + (bz b - 0x80)) with (bz b) by lia. rewrite zb_bz. by split_and!; [|lia..| |].
Qed.

(** Where the transitions of each state lead, and from which second bytes. *)
Lemma transition_two q x :
  0 <= x < 64 -> transition q (0x80 + x) <> 1 -> q = 3 \/ q = 4 \/ q = 5 ->
  transition q (0x80 + x) = 2 /\ (q = 4 -> 32 <= x) /\ (q = 5 -> x < 32).
Proof. intros Hx Ht [->|[->| ->]]; revert Ht; ranges; intros; split_and!; lia. Qed.
Lemma transition_three q x :
  0 <= x < 64 -> transition q (0x80 + x) <> 1 -> q = 6 \/ q = 7 \/ q = 8 ->
  transition q (0x80 + x) = 3 /\ (q = 6 -> 16 <= x) /\ (q = 8 -> x < 16).
Proof. intros Hx Ht [->|[->| ->]]; revert Ht; ranges; intros; split_and!; lia. Qed.

Lemma accepts_last s :
  accepts 2 s -> exists x s', s = zb (0x80 + x) :: s' /\ 0 <= x < 64 /\ accepts 0 s'.
Proof.
  intros Ha. apply accepts_more in Ha as (x & s' & -> & Hx & Ht & Ha); [|lia].
  exists x, s'. split_and!; [done|lia..|]. revert Ht Ha. ranges.
Qed.

Lemma accepts_last_two q s :
  q = 3 \/ q = 4 \/ q = 5 -> accepts q s ->
  exists x y s', s = zb (0x80 + x) :: zb (0x80 + y) :: s' /\ 0 <= x < 64 /\ 0 <= y < 64 /\
    (q = 4 -> 32 <= x) /\ (q = 5 -> x < 32) /\ accepts 0 s'.
Proof.
  intros Hq Ha. apply accepts_more in Ha as (x & s' & -> & Hx & Ht & Ha); [|lia].
  destruct (transition_two q x Hx Ht Hq) as (E & H4 & H5). rewrite E in Ha.
  apply accepts_last in Ha as (y & s'' & -> & Hy & Ha). by exists x, y, s''.
Qed.

Lemma accepts_last_three q s :
  q = 6 \/ q = 7 \/ q = 8 -> accepts q s ->
  exists x y z s', s = zb (0x80 + x) :: zb (0x80 + y) :: zb (0x80 + z) :: s' /\
    0 <= x < 64 /\ 0 <= y < 64 /\ 0 <= z < 64 /\ (q = 6 -> 16 <= x) /\ (q = 8 -> x < 16) /\ accepts 0 s'.
Proof.
  intros Hq Ha. apply accepts_more in Ha as (x & s' & -> & Hx & Ht & Ha); [|lia].
  destruct (transition_three q x Hx Ht Hq) as (E & H6 & H8). rewrite E in Ha.
  apply accepts_last_two in Ha as (y & z & s'' & -> & Hy & Hz & _ & _ & Ha); [|by left].
  by exists x, y, z, s''.
Qed.

(** The ranges of the first byte. *)
Lemma first_byte b :
  0 <= b < 256 -> transition 0 b <> 1 ->
  (transition 0 b = 0 /\ b < 0x80) \/ (transition 0 b = 2 /\ 0xc2 <= b <= 0xdf) \/
  (exists q, transition 0 b = q /\ (q = 3 \/ q = 4 \/ q = 5) /\ 0xe0 <= b <= 0xef /\
     (b = 0xe0 -> q = 4) /\ (b = 0xed -> q = 5)) \/
  (exists q, transition 0 b = q /\ (q = 6 \/ q = 7 \/ q = 8) /\ 0xf0 <= b <= 0xf4 /\
     (b = 0xf0 -> q = 6) /\ (b = 0xf4 -> q = 8)).
Proof.
  intros Hb. unfold transition, in_range. cbn [Z.eqb].
  repeat match goal with
    | |- context [?a <=? ?b] => destruct (Z.leb_spec a b); cbn [andb]; try lia
    end; intros Hne; try done; try lia;
    first [left; lia|right; left; lia|right; right; left; eexists; split; [done|]; lia
          |right; right; right; eexists; split; [done|]; lia].
Qed.

Lemma encode_one b : 0 <= b < 0x80 -> utf8_encode b = [zb b].
Proof. intros H. unfold utf8_encode. ranges. Qed.

Lemma accepts_split b s :
  accepts 0 (b :: s) -> exists cp s', b :: s = utf8_encode cp ++ s' /\ scalar cp /\ accepts 0 s'.
Proof.
  intros Ha. apply accepts_cons in Ha as [Ht Ha]; [|lia]. pose proof (bz_range b) as Hb.
  destruct (first_byte (bz b) Hb Ht) as [[E H]|[[E H]|[(q & E & Hq & H & H4 & H5)|(q & E & Hq & H & H6 & H8)]]];
    rewrite E in Ha.
  - exists (bz b), s. rewrite encode_one by lia. rewrite zb_bz. split_and!; [done|unfold scalar; lia|done].
  - apply accepts_last in Ha as (x & s' & -> & Hx & Ha).
    exists ((bz b - 0xc0) * 64 + x), s'. split_and!; [|unfold scalar; lia|done].
    unfold utf8_encode. ranges. cbn [fmap list_fmap app].
    replace (0xC0 + _ / 64) with (bz b) by dlia. replace (0x80 + _ mod 64) with (0x80 + x) by dlia. by rewrite zb_bz.
  - apply accepts_last_two in Ha as (x & y & s' & -> & Hx & Hy & G4 & G5 & Ha); [|done].
    exists ((bz b - 0xe0) * 4096 + x * 64 + y), s'. split_and!; [|unfold scalar; lia|done].
    unfold utf8_encode. ranges. cbn [fmap list_fmap app].
    replace (0xE0 + _ / 4096) with (bz b) by dlia. replace (0x80 + _ / 64 mod 64) with (0x80 + x) by dlia.
    replace (0x80 + (_ + y) mod 64) with (0x80 + y) by dlia. by rewrite zb_bz.
  - apply accepts_last_three in Ha as (x & y & z & s' & -> & Hx & Hy & Hz & G6 & G8 & Ha); [|done].
    exists ((bz b - 0xf0) * 262144 + x * 4096 + y * 64 + z), s'. split_and!; [|unfold scalar; lia|done].
    unfold utf8_encode. ranges. cbn [fmap list_fmap app].
    replace (0xF0 + _ / 262144) with (bz b) by dlia. replace (0x80 + _ / 4096 mod 64) with (0x80 + x) by dlia.
    replace (0x80 + _ / 64 mod 64) with (0x80 + y) by dlia.
    replace (0x80 + (_ + z) mod 64) with (0x80 + z) by dlia. by rewrite zb_bz.
Qed.

Lemma accepts_text s : accepts 0 s -> exists cps, Forall scalar cps /\ s = utf8_text cps.
Proof.
  remember (length s) as n eqn:Hn. revert s Hn. induction n as [n IH] using lt_wf_ind. intros s -> Ha.
  destruct s as [|b s]; [by exists []|].
  destruct (accepts_split b s Ha) as (cp & s' & E & Hcp & Ha').
  assert (length s' < length (b :: s))%nat as Hl.
  { rewrite E, length_app. unfold utf8_encode. rewrite length_fmap. repeat case_match; simpl; lia. }
  destruct (IH _ Hl s' eq_refl Ha') as (cps & Hcps & ->).
  exists (cp :: cps). split; [by constructor|]. by rewrite E.
Qed.

Lemma validate_accepts s : validate s = true <-> accepts 0 s.
Proof.
  unfold validate, validator_new. split.
  - destruct (validator_decode s _) as [ok v] eqn:E. destruct ok; [|done]. cbn [negb].
    intros H%Z.eqb_eq. by exists 0, v.
  - intros (cps & Hcps & ->)%accepts_text. destruct (validator_text cps [] UTF8_ACCEPT Hcps) as [c' H].
    rewrite app_nil_r in H. unfold UTF8_ACCEPT in *. by rewrite H.
Qed.

(** C34: [validate] accepts exactly the texts made of the UTF-8 encodings of Unicode
    scalar values: no overlong form, no surrogate, nothing above U+10FFFF, nothing
    truncated. *)
Theorem validate_utf8_text (s : bytes) :
  validate s = true <-> exists cps, Forall scalar cps /\ s = utf8_text cps.
Proof.
  rewrite validate_accepts. split; [apply accepts_text|].
  intros (cps & Hcps & ->). apply validate_accepts. unfold validate, validator_new.
  destruct (validator_text cps [] UTF8_ACCEPT Hcps) as [c' H].
  rewrite app_nil_r in H. unfold UTF8_ACCEPT in *. by rewrite H.
Qed.
