(* ===== verification/WsFrame.v ===== *)
(** * WebSocket frames (samples/wscommon.h, samples/wsframe.h)

    The constants of the protocol and the class [parser]: the header accessors, the
    construction of a frame to send, and the incremental parser [consume].  Bytes of
    the header are read through [bz]: the signedness of [char] only matters in [print_frame]. *)
From S2P Require Import Prelude Utf8.

(** ** Constants (wscommon.h)

    Opcodes and close codes are enumerations that are cast from integers read off the
    wire: they are integers here. *)
Module opcode.
Definition CONTINUATION : Z := 0x0.
Definition TEXT : Z := 0x1.
Definition BINARY : Z := 0x2.
Definition RSV3 : Z := 0x3.
Definition RSV7 : Z := 0x7.
Definition CLOSE : Z := 0x8.
Definition PING : Z := 0x9.
Definition PONG : Z := 0xA.
Definition CONTROL_RSVB : Z := 0xB.
Definition CONTROL_RSVF : Z := 0xF.

Definition reserved (v : Z) : bool :=
  ((RSV3 <=? v) && (v <=? RSV7) || (CONTROL_RSVB <=? v) && (v <=? CONTROL_RSVF))%Z.
Definition invalid (v : Z) : bool := ((0xF <? v) || (v <? 0))%Z.
Definition is_control (v : Z) : bool := (0x8 <=? v)%Z.
End opcode.

Module status.
Definition INVALID_END : Z := 999.
Definition NORMAL : Z := 1000.
Definition PROTOCOL_ERROR : Z := 1002.
Definition RSV_ADHOC_1 : Z := 1004.
Definition NO_STATUS : Z := 1005.
Definition ABNORMAL_CLOSE : Z := 1006.
Definition INVALID_PAYLOAD : Z := 1007.
Definition MESSAGE_TOO_BIG : Z := 1009.
Definition INTERNAL_ENDPOINT_ERROR : Z := 1011.
Definition RSV_ADHOC_2 : Z := 1012.
Definition RSV_ADHOC_3 : Z := 1013.
Definition RSV_ADHOC_4 : Z := 1014.
Definition TLS_HANDSHAKE : Z := 1015.
Definition RSV_START : Z := 1016.
Definition RSV_END : Z := 2999.
Definition INVALID_START : Z := 5000.

Definition reserved (s : Z) : bool :=
  ((RSV_START <=? s) && (s <=? RSV_END) || (s =? RSV_ADHOC_1) || (s =? RSV_ADHOC_2) ||
   (s =? RSV_ADHOC_3) || (s =? RSV_ADHOC_4))%Z.
Definition invalid (s : Z) : bool :=
  ((s <=? INVALID_END) || (INVALID_START <=? s) || (s =? NO_STATUS) || (s =? ABNORMAL_CLOSE) ||
   (s =? TLS_HANDSHAKE))%Z.
End status.

Module limits.
Definition PAYLOAD_SIZE_BASIC : Z := 125.
Definition PAYLOAD_SIZE_EXTENDED : Z := 0xFFFF.
Definition PAYLOAD_SIZE_JUMBO : Z := 0x7FFFFFFFFFFFFFFF.
End limits.

(** The codes of [tracing::wserror]. *)
Module wserror.
Definition FATAL_ERROR : Z := 0.
Definition SOFT_ERROR : Z := 1.
Definition PROTOCOL_VIOLATION : Z := 2.
Definition PAYLOAD_VIOLATION : Z := 3.
Definition INTERNAL_ENDPOINT_ERROR : Z := 4.
Definition MESSAGE_TOO_BIG : Z := 5.
Definition OUT_OF_MESSAGES : Z := 6.
End wserror.

Definition BPB0_OPCODE : Z := 0x0F.
Definition BPB0_RSV3 : Z := 0x10.
Definition BPB0_RSV2 : Z := 0x20.
Definition BPB0_RSV1 : Z := 0x40.
Definition BPB0_FIN : Z := 0x80.
Definition BPB1_PAYLOAD : Z := 0x7F.
Definition BPB1_MASK : Z := 0x80.
Definition BASIC_PAYLOAD_16BIT_CODE : Z := 0x7E.
Definition BASIC_PAYLOAD_64BIT_CODE : Z := 0x7F.
Definition BASIC_HEADER_LENGTH : Z := 2.
Definition MAX_HEADER_LENGTH : nat := 14.
Definition max_payload_size : Z := 100000000.

(** ** Data *)
Inductive parser_state : Type :=
| STATE_BASIC_HEADER
| STATE_EXTENDED_HEADER
| STATE_PAYLOAD
| STATE_READY
| STATE_RECOVERY.
#[export] Instance parser_state_eq_dec : EqDecision parser_state.
Proof. solve_decision. Defined.

Record parser : Type := MkParser {
  m_state : parser_state;
  m_bytes_needed : Z;
  m_degraded : bool;
  m_header : bytes;              (* 14 bytes *)
  m_payload : bytes
}.
#[export] Instance eta_parser : Eta parser := fun p =>
  MkParser (m_state p) (m_bytes_needed p) (m_degraded p) (m_header p) (m_payload p).

(** The constructor and [reset] leave the same state. *)
Definition parser_new : parser :=
  MkParser STATE_BASIC_HEADER BASIC_HEADER_LENGTH false (replicate MAX_HEADER_LENGTH NUL) [].
Definition reset (p : parser) : parser :=
  p <| m_state := STATE_BASIC_HEADER |> <| m_bytes_needed := BASIC_HEADER_LENGTH |>
    <| m_degraded := false |> <| m_payload := [] |> <| m_header := replicate MAX_HEADER_LENGTH NUL |>.
Definition ready (p : parser) : bool := bool_decide (m_state p = STATE_READY).

(** ** Memory *)

(** The byte of a buffer at an index, and bytes stored from an index on. *)
Definition char_at (b : bytes) (i : nat) : Z := bz (nth i b NUL).
Definition store_at (i : nat) (d b : bytes) : bytes := take i b ++ d ++ drop (i + length d) b.
Definition resize (n : nat) (v : bytes) : bytes := take n v ++ replicate (n - length v) NUL.

(** Integers in network byte order. *)
Definition htons (n : Z) : bytes := [zb (n / 2 ^ 8); zb n].
Definition htonll (n : Z) : bytes :=
  [zb (n / 2 ^ 56); zb (n / 2 ^ 48); zb (n / 2 ^ 40); zb (n / 2 ^ 32);
   zb (n / 2 ^ 24); zb (n / 2 ^ 16); zb (n / 2 ^ 8); zb n].
Definition ntoh (b : bytes) : Z := fold_left (fun acc a => acc * 256 + bz a)%Z b 0%Z.

(** [s.read(buffer, n)]: the bytes read ([gcount] of them) and the rest. *)
Definition stream_read (n : Z) (s : bytes) : bytes * bytes :=
  let k := Z.to_nat (Z.min n (Z.of_nat (length s))) in (take k s, drop k s).

(** ** The header *)
Definition header_bit (i : nat) (m : Z) (p : parser) : bool := (Z.land (char_at (m_header p) i) m =? m)%Z.
Definition get_fin : parser -> bool := header_bit 0 BPB0_FIN.
Definition get_rsv1 : parser -> bool := header_bit 0 BPB0_RSV1.
Definition get_rsv2 : parser -> bool := header_bit 0 BPB0_RSV2.
Definition get_rsv3 : parser -> bool := header_bit 0 BPB0_RSV3.
Definition get_masked : parser -> bool := header_bit 1 BPB1_MASK.
Definition get_basic_size (p : parser) : Z := Z.land (char_at (m_header p) 1) BPB1_PAYLOAD.
Definition get_opcode (p : parser) : Z := Z.land (char_at (m_header p) 0) BPB0_OPCODE.
Definition is_control (p : parser) : bool := opcode.is_control (get_opcode p).

Definition get_header_len (p : parser) : Z :=
  let temp := 2%Z in
  let temp := if get_masked p then (temp + 4)%Z else temp in
  if (get_basic_size p =? 126)%Z then (temp + 2)%Z
  else if (get_basic_size p =? 127)%Z then (temp + 8)%Z
  else temp.
Definition get_header_str (p : parser) : bytes := take (Z.to_nat (get_header_len p)) (m_header p).
Definition get_payload_str (p : parser) : bytes := m_payload p.
Definition get_masking_key (p : parser) : bytes :=
  take 4 (drop (Z.to_nat (get_header_len p - 4)) (m_header p)).

Definition set_header (i : nat) (f : Z -> Z) (p : parser) : parser :=
  p <| m_header ::= fun h => <[i := zb (f (bz (nth i h NUL)))]> h |>.
Definition set_bit (i : nat) (m : Z) (b : bool) : parser -> parser :=
  set_header i (fun x => if b then Z.lor x m else Z.land x (Z.lxor 0xFF m)).
Definition set_fin : bool -> parser -> parser := set_bit 0 BPB0_FIN.

(** ** Building a frame *)
Definition set_opcode (op : Z) (p : parser) : res parser :=
  if opcode.reserved op then Throw (Ws_error #"reserved opcode" wserror.PROTOCOL_VIOLATION)
  else if opcode.invalid op then Throw (Ws_error #"invalid opcode" wserror.PROTOCOL_VIOLATION)
  else if is_control p && (limits.PAYLOAD_SIZE_BASIC <? get_basic_size p)%Z then
    Throw (Ws_error #"control frames can't have large payloads" wserror.PROTOCOL_VIOLATION)
  else Ret (set_header 0 (fun x => Z.lor (Z.land x (Z.lxor 0xFF BPB0_OPCODE)) op) p).

(** [generate_masking_key]; [key] is the generated integer as it lies in memory. *)
Definition generate_masking_key (key : bytes) (p : parser) : parser :=
  p <| m_header ::= store_at (Z.to_nat (get_header_len p - 4)) key |>.
Definition set_masked (masked : bool) (key : bytes) (p : parser) : parser :=
  if masked then generate_masking_key key (set_bit 1 BPB1_MASK true p)
  else set_bit 1 BPB1_MASK false p.

Definition set_payload_helper (s : Z) (p : parser) : res parser :=
  if (max_payload_size <? s)%Z then
    Throw (Ws_error #"requested payload is over implementation defined limit" wserror.MESSAGE_TOO_BIG)
  else if is_control p && (limits.PAYLOAD_SIZE_BASIC <? s)%Z then
    Throw (Ws_error #"control frames can't have large payloads" wserror.PROTOCOL_VIOLATION)
  else
    let masked := get_masked p in
    let remask p := if masked then set_bit 1 BPB1_MASK true p else p in
    let resized p := p <| m_payload ::= resize (Z.to_nat s) |> in
    if (s <=? limits.PAYLOAD_SIZE_BASIC)%Z then
      Ret (resized (remask (set_header 1 (fun _ => s) p)))
    else if (s <=? limits.PAYLOAD_SIZE_EXTENDED)%Z then
      Ret (resized (remask (set_header 1 (fun _ => BASIC_PAYLOAD_16BIT_CODE) p <| m_header ::= store_at 2 (htons s) |>)))
    else if (s <=? limits.PAYLOAD_SIZE_JUMBO)%Z then
      Ret (resized (remask (set_header 1 (fun _ => BASIC_PAYLOAD_64BIT_CODE) p <| m_header ::= store_at 2 (htonll s) |>)))
    else Throw (Ws_error #"payload size limit is 63 bits" wserror.PROTOCOL_VIOLATION).

Definition set_payload (source : bytes) (p : parser) : res parser :=
  match set_payload_helper (Z.of_nat (length source)) p with
  | Throw e => Throw e
  | Ret p => Ret (p <| m_payload ::= store_at 0 source |>)
  end.

Definition set_status (st : Z) (message : bytes) (p : parser) : res parser :=
  if status.invalid st then
    Throw (Ws_error (#"Status code " ++ print_Z st ++ #" is invalid") wserror.FATAL_ERROR)
  else if status.reserved st then
    Throw (Ws_error (#"Status code " ++ print_Z st ++ #" is reserved") wserror.FATAL_ERROR)
  else
    let masked := get_masked p in
    let p := set_header 1 (fun _ => Z.of_nat (length message) + 2)%Z p in
    let p := if masked then set_bit 1 BPB1_MASK true p else p in
    Ret (p <| m_payload := htons st ++ message |>).

(** ** Reading a frame *)
Definition get_raw_close_code (p : parser) : res Z :=
  if decide (length (m_payload p) <= 1) then
    Throw (Ws_error #"get_raw_close_code called with invalid size" wserror.FATAL_ERROR)
  else Ret (ntoh (take 2 (m_payload p))).
Definition get_close_code (p : parser) : res Z :=
  if decide (length (m_payload p) = 0) then Ret status.NO_STATUS else get_raw_close_code p.
Definition get_close_reason (p : parser) : bytes :=
  if decide (2 < length (m_payload p)) then drop 2 (m_payload p) else [].

Definition get_payload_size (p : parser) : res nat :=
  match m_state p with
  | STATE_READY | STATE_PAYLOAD => Ret (length (m_payload p))
  | _ => Throw (C_string #"attempted to get payload size before reading full header")
  end.
Definition get_close_status (p : parser) : res Z :=
  match get_payload_size p with
  | Throw e => Throw e
  | Ret 0 => Ret status.NO_STATUS
  | Ret 1 => Ret status.PROTOCOL_ERROR
  | Ret _ => Ret (ntoh (take 2 (m_payload p)))
  end.

(** [validate_utf8(&state, &codep, offset)] *)
Definition validate_utf8 (v : validator) (offset : nat) (p : parser) : res validator :=
  match validator_decode (drop offset (m_payload p)) v with
  | (false, _) => Throw (Ws_error #"Invalid UTF-8 Data" wserror.PAYLOAD_VIOLATION)
  | (true, v) => Ret v
  end.
Definition get_close_msg (p : parser) : res bytes :=
  match get_payload_size p with
  | Throw e => Throw e
  | Ret n =>
      if decide (2 < n) then
        match validate_utf8 validator_new 2 p with
        | Throw e => Throw e
        | Ret v =>
            if validator_complete v then Ret (drop 2 (m_payload p))
            else Throw (Ws_error #"Invalid UTF-8 Data" wserror.PAYLOAD_VIOLATION)
        end
      else Ret []
  end.

Definition process_basic_header (p : parser) : parser :=
  p <| m_bytes_needed := (get_header_len p - BASIC_HEADER_LENGTH)%Z |>.

Definition validate_basic_header (p : parser) : res unit :=
  if is_control p && (limits.PAYLOAD_SIZE_BASIC <? get_basic_size p)%Z then
    Throw (Ws_error #"Control Frame is too large" wserror.PROTOCOL_VIOLATION)
  else if get_rsv1 p || get_rsv2 p || get_rsv3 p then
    Throw (Ws_error #"Reserved bit used" wserror.PROTOCOL_VIOLATION)
  else if opcode.reserved (get_opcode p) then
    Throw (Ws_error #"Reserved opcode used" wserror.PROTOCOL_VIOLATION)
  else if is_control p && negb (get_fin p) then
    Throw (Ws_error #"Fragmented control message" wserror.PROTOCOL_VIOLATION)
  else Ret tt.

(** The end of [process_extended_header], once the size of the payload is known. *)
Definition expect_payload (payload_size : Z) (p : parser) : res unit * parser :=
  if (max_payload_size <? payload_size)%Z then
    (Throw (C_string #"Got frame with payload greater than maximum frame buffer size."), p)
  else (Ret tt, p <| m_payload ::= resize (Z.to_nat payload_size) |> <| m_bytes_needed := payload_size |>).

Definition process_extended_header (p : parser) : res unit * parser :=
  let s := get_basic_size p in
  if (s <=? limits.PAYLOAD_SIZE_BASIC)%Z then expect_payload s p
  else if (s =? BASIC_PAYLOAD_16BIT_CODE)%Z then
    let payload_size := ntoh (take 2 (drop 2 (m_header p))) in
    if (payload_size <? s)%Z then
      (Throw (Ws_error (#"payload length not minimally encoded. Using 16 bit form for payload size: " ++
                          print_Z payload_size) wserror.PROTOCOL_VIOLATION),
       p <| m_bytes_needed := payload_size |>)
    else expect_payload payload_size p
  else if (s =? BASIC_PAYLOAD_64BIT_CODE)%Z then
    let payload_size := ntoh (take 8 (drop 2 (m_header p))) in
    if (payload_size <=? limits.PAYLOAD_SIZE_EXTENDED)%Z then
      (Throw (Ws_error #"payload length not minimally encoded" wserror.PROTOCOL_VIOLATION),
       p <| m_bytes_needed := payload_size |>)
    else expect_payload payload_size p
  else (Throw (Ws_error #"invalid get_basic_size in process_extended_header" wserror.FATAL_ERROR), p).

(** The payload with the masking key applied, from index [i] on. *)
Fixpoint apply_mask (key : bytes) (i : nat) (d : bytes) : bytes :=
  match d with
  | [] => []
  | b :: d' => zb (Z.lxor (bz b) (char_at key (i mod 4))) :: apply_mask key (S i) d'
  end.
Definition process_payload (p : parser) : parser :=
  if get_masked p then p <| m_payload ::= apply_mask (get_masking_key p) 0 |> else p.

(** The body of [process_payload2] is commented out. *)
Definition process_payload2 (p : parser) : parser := p.

(** ** Output for debugging

    [char] is signed, and [std::hex] stays in force for the size. *)
Definition print_header_byte (a : ascii) : bytes := print_nat_base 16 (u16 (signed 8 (bz a))) ++ #" ".
Definition print_frame (p : parser) : bytes :=
  #"frame: " ++ concat (print_header_byte <$> get_header_str p) ++
  (if decide (50 < length (m_payload p))
   then #"[payload of " ++ print_nat_base 16 (Z.of_nat (length (m_payload p))) ++ #" bytes]" else m_payload p).

(** ** [consume] *)

(** The header is complete: its end in the first two states. *)
Definition header_done (p : parser) : res unit * parser :=
  match process_extended_header p with
  | (Throw e, p) => (Throw e, p)
  | (Ret _, p) =>
      (Ret tt,
       if (m_bytes_needed p =? 0)%Z then process_payload (p <| m_state := STATE_READY |>)
       else p <| m_state := STATE_PAYLOAD |>)
  end.

(** [s.read(&buffer[size - m_bytes_needed], m_bytes_needed)] for the header. *)
Definition read_header (size : Z) (p : parser) (s : bytes) : parser * bytes :=
  let '(d, s) := stream_read (m_bytes_needed p) s in
  (p <| m_header ::= store_at (Z.to_nat (size - m_bytes_needed p)) d |>
     <| m_bytes_needed ::= fun n => (n - Z.of_nat (length d))%Z |>, s).

(** The loop that looks for the first byte of a close frame.  At the end of the
    stream the byte read last is looked at again. *)
Fixpoint recover (p : parser) (s : bytes) : parser * bytes :=
  let found p := p <| m_bytes_needed ::= fun n => u64 (n - 1) |> <| m_state := STATE_BASIC_HEADER |> in
  match s with
  | [] => (if (char_at (m_header p) 0 =? 0x88)%Z then found p else p, [])
  | b :: s' =>
      let p := p <| m_header ::= <[0 := b]> |> in
      if (char_at (m_header p) 0 =? 0x88)%Z then (found p, s') else recover p s'
  end.

Definition consume_body (p : parser) (s : bytes) : res unit * parser * bytes :=
  match m_state p with
  | STATE_BASIC_HEADER =>
      let '(p, s) := read_header BASIC_HEADER_LENGTH p s in
      if (m_bytes_needed p =? 0)%Z then
        let p := process_basic_header p in
        match validate_basic_header p with
        | Throw e => (Throw e, p, s)
        | Ret _ =>
            if (0 <? m_bytes_needed p)%Z then (Ret tt, p <| m_state := STATE_EXTENDED_HEADER |>, s)
            else let '(r, p) := header_done p in (r, p, s)
        end
      else (Ret tt, p, s)
  | STATE_EXTENDED_HEADER =>
      let '(p, s) := read_header (get_header_len p) p s in
      if (m_bytes_needed p =? 0)%Z then let '(r, p) := header_done p in (r, p, s)
      else (Ret tt, p, s)
  | STATE_PAYLOAD =>
      let '(d, s) := stream_read (m_bytes_needed p) s in
      let size := Z.of_nat (length (m_payload p)) in
      let p := p <| m_payload ::= store_at (Z.to_nat (size - m_bytes_needed p)) d |>
                 <| m_bytes_needed ::= fun n => (n - Z.of_nat (length d))%Z |> in
      if (m_bytes_needed p =? 0)%Z then (Ret tt, process_payload (p <| m_state := STATE_READY |>), s)
      else (Ret tt, p, s)
  | STATE_RECOVERY => let '(p, s) := recover p s in (Ret tt, p, s)
  | STATE_READY => (Ret tt, p, s)
  end.

(** [catch (const std::exception &)]: thrown strings are not caught. *)
Definition is_std_exception (e : exn) : bool :=
  match e with C_string _ | Undefined _ => false | _ => true end.

(** [throw e] in the handler throws a copy of the static type [std::exception]. *)
Definition consume (p : parser) (s : bytes) : res unit * parser * bytes :=
  match consume_body p s with
  | (Ret _, p, s) => (Ret tt, p, s)
  | (Throw e, p, s) =>
      if is_std_exception e then
        if m_degraded p then
          (Throw (Ws_error #"An error occurred while trying to gracefully recover from a less serious frame error."
                    wserror.FATAL_ERROR), p, s)
        else (Throw Std_exception, reset p <| m_state := STATE_RECOVERY |> <| m_degraded := true |>, s)
      else (Throw e, p, s)
  end.

(** A masked text frame, the example of RFC 6455, section 5.7. *)
Definition hello_masked : bytes :=
  zb <$> [0x81; 0x85; 0x37; 0xfa; 0x21; 0x3d; 0x7f; 0x9f; 0x4d; 0x51; 0x58]%Z.
Example consume_hello :
  let '(_, p1, s1) := consume parser_new hello_masked in
  let '(_, p2, s2) := consume p1 s1 in
  let '(_, p3, s3) := consume p2 s2 in
  ready p3 = true /\ get_payload_str p3 = #"Hello" /\ s3 = [].
Proof. by vm_compute. Qed.
