(* ===== verification/WsFrameFacts.v ===== *)
(** * Facts about the frame parser

    The state of the parser between calls and the bounds of its memory, the independence of
    [consume] from the way the bytes arrive, the wire format of RFC 6455 as a specification,
    and the round trip between the frames that are built and the frames that are parsed. *)
From S2P Require Import Prelude Utf8 WsFrame.

Local Open Scope Z_scope.

#[local] Arguments stream_read : simpl never.
#[local] Arguments store_at : simpl never.

(** ** Memory *)
Lemma stream_read_length n s :
  0 <= n -> Z.of_nat (length (stream_read n s).1) = Z.min n (Z.of_nat (length s)).
Proof. intros Hn. unfold stream_read. cbn [fst]. rewrite length_take. lia. Qed.

Lemma stream_read_enough n a b :
  0 <= n <= Z.of_nat (length a) -> stream_read n (a ++ b) = ((stream_read n a).1, (stream_read n a).2 ++ b).
Proof.
  intros Hn. unfold stream_read. cbn [fst snd]. rewrite length_app.
  replace (Z.min n (Z.of_nat (length a + length b))) with n by lia.
  replace (Z.min n (Z.of_nat (length a))) with n by lia.
  rewrite take_app_le, drop_app_le by lia. done.
Qed.

Lemma stream_read_short n a :
  Z.of_nat (length a) <= n -> stream_read n a = (a, []).
Proof.
  intros Hn. unfold stream_read. replace (Z.to_nat _) with (length a) by lia.
  by rewrite firstn_all, drop_all.
Qed.

Lemma stream_read_across n a b :
  Z.of_nat (length a) <= n ->
  stream_read n (a ++ b) =
    (a ++ (stream_read (n - Z.of_nat (length a)) b).1, (stream_read (n - Z.of_nat (length a)) b).2).
Proof.
  intros Hn. unfold stream_read. cbn [fst snd]. rewrite length_app.
  replace (Z.to_nat (Z.min n (Z.of_nat (length a + length b)))) with
    (length a + Z.to_nat (Z.min (n - Z.of_nat (length a)) (Z.of_nat (length b))))%nat by lia.
  by rewrite take_app_add, drop_app_add.
Qed.

Lemma stream_read_app n s : (stream_read n s).1 ++ (stream_read n s).2 = s.
Proof. apply take_drop. Qed.

Lemma store_at_length i d h : (i + length d <= length h)%nat -> length (store_at i d h) = length h.
Proof. intros Hl. unfold store_at. rewrite !length_app, length_take, length_drop. lia. Qed.

Lemma store_at_nil i h : store_at i [] h = h.
Proof. unfold store_at. rewrite Nat.add_0_r. apply take_drop. Qed.

Lemma store_at_app i d1 d2 h :
  (i + length d1 + length d2 <= length h)%nat ->
  store_at i (d1 ++ d2) h = store_at (i + length d1) d2 (store_at i d1 h).
Proof.
  intros Hl. unfold store_at. rewrite length_app.
  assert (length (take i h) = i) as Hi by (rewrite length_take; lia).
  rewrite take_app_ge by lia. rewrite Hi. replace (i + length d1 - i)%nat with (length d1) by lia.
  rewrite take_app_length. rewrite drop_app_ge by lia. rewrite Hi.
  rewrite drop_app_ge by lia. rewrite drop_drop, <- !app_assoc. do 4 f_equal. lia.
Qed.

(** A store beyond an index leaves it alone. *)
Lemma char_at_store i j d h :
  (j < i)%nat -> (i <= length h)%nat -> char_at (store_at i d h) j = char_at h j.
Proof.
  intros Hj Hl. unfold char_at, store_at. rewrite !nth_lookup.
  rewrite lookup_app_l by (rewrite length_take; lia). by rewrite lookup_take_lt by lia.
Qed.

(** ** The state between calls *)
Definition header_need (p : parser) : Z := (get_header_len p - BASIC_HEADER_LENGTH)%Z.

(** What the first two bytes of the header fix. *)
Lemma header_len_range p : 2 <= get_header_len p <= 14.
Proof. unfold get_header_len. repeat case_match; lia. Qed.

Lemma header_len_ext p q :
  char_at (m_header p) 1 = char_at (m_header q) 1 -> get_header_len p = get_header_len q.
Proof. intros E. unfold get_header_len, get_masked, header_bit, get_basic_size. by rewrite E. Qed.

(** A frame announced larger than the limit: the parser is left in the extended header
    with nothing to read. *)
Definition stuck (p : parser) : Prop :=
  length (m_header p) = MAX_HEADER_LENGTH /\ m_state p = STATE_EXTENDED_HEADER /\ m_bytes_needed p = 0 /\
  get_basic_size p = BASIC_PAYLOAD_64BIT_CODE /\
  max_payload_size < ntoh (take 8 (drop 2 (m_header p))).

Definition parser_ok (p : parser) : Prop :=
  length (m_header p) = MAX_HEADER_LENGTH /\
  match m_state p with
  | STATE_BASIC_HEADER => 0 < m_bytes_needed p <= 2 /\ m_payload p = []
  | STATE_EXTENDED_HEADER => 0 < m_bytes_needed p <= header_need p /\ m_payload p = []
  | STATE_PAYLOAD => 0 < m_bytes_needed p <= Z.of_nat (length (m_payload p))
  | STATE_READY => True
  | STATE_RECOVERY => m_bytes_needed p = 2 /\ char_at (m_header p) 0 <> 0x88 /\ m_payload p = []
  end.

Lemma parser_new_ok : parser_ok parser_new.
Proof. by split. Qed.
Lemma reset_new p : reset p = parser_new.
Proof. done. Qed.
Lemma recovery_ok p : parser_ok (reset p <| m_state := STATE_RECOVERY |> <| m_degraded := true |>).
Proof. by split. Qed.

(** ** Reading the header *)
Lemma read_header_spec size p s :
  length (m_header p) = MAX_HEADER_LENGTH -> 0 <= m_bytes_needed p <= size -> size <= 14 ->
  let '(p', s') := read_header size p s in
  m_state p' = m_state p /\ m_degraded p' = m_degraded p /\ m_payload p' = m_payload p /\
  length (m_header p') = MAX_HEADER_LENGTH /\
  m_bytes_needed p' = Z.max 0 (m_bytes_needed p - Z.of_nat (length s)) /\
  (2 <= size - m_bytes_needed p -> char_at (m_header p') 1 = char_at (m_header p) 1) /\
  s' = (stream_read (m_bytes_needed p) s).2.
Proof.
  intros Hl Hn Hs. unfold read_header. pose proof (stream_read_length (m_bytes_needed p) s ltac:(lia)) as Hd.
  destruct (stream_read (m_bytes_needed p) s) as [d s']. cbn [fst] in Hd. cbn.
  unfold MAX_HEADER_LENGTH in *. split_and!; [done..| |lia| |done].
  - rewrite store_at_length; lia.
  - intros H2. apply char_at_store; lia.
Qed.

Lemma read_header_enough size p a b :
  0 <= m_bytes_needed p <= Z.of_nat (length a) ->
  read_header size p (a ++ b) = ((read_header size p a).1, (read_header size p a).2 ++ b).
Proof.
  intros Hn. unfold read_header. rewrite stream_read_enough by done.
  by destruct (stream_read (m_bytes_needed p) a).
Qed.

Lemma read_header_short size p a :
  Z.of_nat (length a) <= m_bytes_needed p -> (read_header size p a).2 = [].
Proof. intros Hn. unfold read_header. by rewrite stream_read_short. Qed.

(** Reading in two steps. *)
Lemma read_header_across size p a b :
  length (m_header p) = MAX_HEADER_LENGTH -> m_bytes_needed p <= size <= 14 ->
  Z.of_nat (length a) <= m_bytes_needed p ->
  read_header size p (a ++ b) = read_header size (read_header size p a).1 b.
Proof.
  intros Hl Hs Hn. unfold read_header. rewrite stream_read_across, (stream_read_short _ a) by done. cbn.
  set (n := m_bytes_needed p) in *.
  pose proof (stream_read_length (n - Z.of_nat (length a)) b ltac:(lia)) as Hd.
  destruct (stream_read _ b) as [d s']. cbn [fst snd] in *. f_equal.
  destruct p as [st nd dg h pl]; cbn in *. subst n. unfold MAX_HEADER_LENGTH in Hl.
  rewrite store_at_app by lia. f_equal; [rewrite length_app; lia|]. f_equal. lia.
Qed.

(** ** The complete header *)
Lemma ntoh_app a b : ntoh (a ++ [b]) = ntoh a * 256 + bz b.
Proof. unfold ntoh. by rewrite fold_left_app. Qed.

Lemma ntoh_bound b : 0 <= ntoh b < 256 ^ Z.of_nat (length b).
Proof.
  induction b as [|x b IH] using rev_ind; [done|].
  rewrite ntoh_app, length_app. cbn [length]. rewrite Nat2Z.inj_add, Z.pow_add_r by lia.
  pose proof (bz_range x). change (256 ^ Z.of_nat 1) with 256. nia.
Qed.

Lemma basic_size_range p : 0 <= get_basic_size p < 128.
Proof.
  unfold get_basic_size, BPB1_PAYLOAD. change 0x7f with (Z.ones 7). rewrite Z.land_ones by lia.
  apply Z.mod_pos_bound. lia.
Qed.

Lemma resize_length n v : length (resize n v) = n.
Proof. unfold resize. rewrite length_app, length_take, length_replicate. lia. Qed.

Lemma process_payload_state p :
  m_state (process_payload p) = m_state p /\ m_header (process_payload p) = m_header p /\
  m_bytes_needed (process_payload p) = m_bytes_needed p /\ m_degraded (process_payload p) = m_degraded p.
Proof. unfold process_payload. by destruct (get_masked p). Qed.

Lemma expect_payload_spec n p :
  0 <= n ->
  expect_payload n p =
    if decide (max_payload_size < n)
    then (Throw (C_string #"Got frame with payload greater than maximum frame buffer size."), p)
    else (Ret tt, p <| m_payload ::= resize (Z.to_nat n) |> <| m_bytes_needed := n |>).
Proof.
  intros Hn. unfold expect_payload. destruct (Z.ltb_spec max_payload_size n); case_decide; (done || lia).
Qed.

(** The three outcomes of [process_extended_header]: a payload to read, an error of
    the encoding of the size, a payload beyond the limit. *)
Lemma extended_header_cases p :
  length (m_header p) = MAX_HEADER_LENGTH ->
  (exists n, 0 <= n <= max_payload_size /\
     process_extended_header p =
       (Ret tt, p <| m_payload ::= resize (Z.to_nat n) |> <| m_bytes_needed := n |>)) \/
  (exists what n, 125 < get_basic_size p /\ process_extended_header p =
     (Throw (Ws_error what wserror.PROTOCOL_VIOLATION), p <| m_bytes_needed := n |>)) \/
  (get_basic_size p = BASIC_PAYLOAD_64BIT_CODE /\ max_payload_size < ntoh (take 8 (drop 2 (m_header p))) /\
   process_extended_header p =
     (Throw (C_string #"Got frame with payload greater than maximum frame buffer size."), p)).
Proof.
  intros Hl. unfold process_extended_header. pose proof (basic_size_range p) as Hb.
  assert (forall k, (k <= 12)%nat -> 0 <= ntoh (take k (drop 2 (m_header p))) < 256 ^ Z.of_nat k) as Hr.
  { intros k Hk. pose proof (ntoh_bound (take k (drop 2 (m_header p)))) as H.
    rewrite length_take, length_drop, Hl in H. unfold MAX_HEADER_LENGTH in H.
    by replace (k `min` (14 - 2))%nat with k in H by lia. }
  pose proof (Hr 2%nat ltac:(lia)) as H2. pose proof (Hr 8%nat ltac:(lia)) as H8.
  destruct (Z.leb_spec (get_basic_size p) limits.PAYLOAD_SIZE_BASIC) as [Hs|Hs].
  { left. exists (get_basic_size p). unfold limits.PAYLOAD_SIZE_BASIC, max_payload_size in *.
    split; [lia|]. rewrite expect_payload_spec by lia. unfold max_payload_size. by rewrite decide_False by lia. }
  unfold limits.PAYLOAD_SIZE_BASIC in Hs.
  destruct (Z.eqb_spec (get_basic_size p) BASIC_PAYLOAD_16BIT_CODE) as [E|E].
  { destruct (Z.ltb_spec (ntoh (take 2 (drop 2 (m_header p)))) (get_basic_size p)).
    { right. left. by do 2 eexists. }
    left. eexists. change (256 ^ Z.of_nat 2) with 65536 in H2. unfold max_payload_size.
    split; [|rewrite expect_payload_spec by lia; unfold max_payload_size; by rewrite decide_False by lia]. lia. }
  destruct (Z.eqb_spec (get_basic_size p) BASIC_PAYLOAD_64BIT_CODE) as [E'|E'].
  2: { unfold BASIC_PAYLOAD_16BIT_CODE, BASIC_PAYLOAD_64BIT_CODE in *. lia. }
  destruct (Z.leb_spec (ntoh (take 8 (drop 2 (m_header p)))) limits.PAYLOAD_SIZE_EXTENDED).
  { right. left. by do 2 eexists. }
  rewrite expect_payload_spec by lia. case_decide as Hm; [by right; right|].
  left. eexists. split; [|done]. lia.
Qed.

Lemma header_done_ok p :
  length (m_header p) = MAX_HEADER_LENGTH ->
  match header_done p with
  | (Ret _, p') => parser_ok p' /\ (m_state p' = STATE_READY \/ m_state p' = STATE_PAYLOAD)
  | (Throw e, p') =>
      125 < get_basic_size p /\ m_degraded p' = m_degraded p /\ m_state p' = m_state p /\
      (is_std_exception e = true \/ (exists what, e = C_string what) /\ p' = p /\
         get_basic_size p = BASIC_PAYLOAD_64BIT_CODE /\ max_payload_size < ntoh (take 8 (drop 2 (m_header p))))
  end.
Proof.
  intros Hl. unfold header_done.
  destruct (extended_header_cases p Hl) as [(n & Hn & ->)|[(what & n & Hs & ->)|(E & Hm & ->)]].
  - cbn. destruct (Z.eqb_spec n 0).
    + destruct (process_payload_state (p <| m_payload ::= resize (Z.to_nat n) |> <| m_bytes_needed := n |>
                  <| m_state := STATE_READY |>)) as (H1 & H2 & _). cbn in *.
      unfold parser_ok. rewrite H1, H2. split; [by split|by left].
    + unfold parser_ok. cbn. rewrite resize_length. split; [split; [done|lia]|by right].
  - cbn. split_and!; [done..|by left].
  - split_and!; [rewrite E; done|done..|]. right. split_and!; [by eexists|done..].
Qed.

(** ** Recovery *)
Lemma char_at_insert0 b h : (0 < length h)%nat -> char_at (<[0%nat := b]> h) 0 = bz b.
Proof. destruct h; cbn; [lia|done]. Qed.

Lemma recover_cases p s :
  parser_ok p -> m_state p = STATE_RECOVERY ->
  (exists u v, s = u ++ zb 0x88 :: v /\ Forall (fun b => bz b <> 0x88) u /\
     recover p s = (p <| m_header ::= <[0%nat := zb 0x88]> |> <| m_bytes_needed := 1 |>
                      <| m_state := STATE_BASIC_HEADER |>, v)) \/
  (Forall (fun b => bz b <> 0x88) s /\
   exists h, recover p s = (p <| m_header := h |>, []) /\ parser_ok (p <| m_header := h |>)).
Proof.
  intros Hok Hst. assert (m_bytes_needed p = 2 /\ char_at (m_header p) 0 <> 0x88 /\ m_payload p = [] /\
    length (m_header p) = MAX_HEADER_LENGTH) as (Hn & Hc & Hp & Hl).
  { unfold parser_ok in Hok. rewrite Hst in Hok. naive_solver. }
  revert p Hok Hst Hn Hc Hp Hl. induction s as [|b s IH]; intros p Hok Hst Hn Hc Hp Hl; cbn [recover].
  - right. split; [done|]. exists (m_header p). destruct (Z.eqb_spec (char_at (m_header p) 0) 0x88); [done|].
    by destruct p.
  - cbn. rewrite char_at_insert0 by (rewrite Hl; unfold MAX_HEADER_LENGTH; lia).
    destruct (Z.eqb_spec (bz b) 0x88) as [E|E].
    { left. exists [], s.
      assert (b = zb 0x88) as -> by (apply bz_inj; by rewrite E).
      split_and!; [done..|]. destruct p; cbn in *. by rewrite Hn. }
    set (p1 := p <| m_header ::= <[0%nat := b]> |>).
    assert (length (m_header p1) = MAX_HEADER_LENGTH) as Hl1 by (cbn; by rewrite length_insert).
    assert (char_at (m_header p1) 0 <> 0x88) as Hc1
      by (cbn; rewrite char_at_insert0; [done|rewrite Hl; unfold MAX_HEADER_LENGTH; lia]).
    assert (parser_ok p1) as Hok1 by (split; [done|]; cbn; by rewrite Hst).
    match goal with |- context [recover ?q s] => change q with p1 end.
    destruct (IH p1 Hok1 Hst Hn Hc1 Hp Hl1) as [(u & v & -> & Hu & ->)|(Hs & h & -> & Hh)].
    + left. exists (b :: u), v. split_and!; [done|by constructor|]. subst p1. destruct p; cbn.
      by rewrite list_insert_insert_eq.
    + right. split; [by constructor|]. exists h. split; [by destruct p|by destruct p].
Qed.

Lemma recover_found p u v :
  m_state p = STATE_RECOVERY -> parser_ok p -> Forall (fun b => bz b <> 0x88) u ->
  recover p (u ++ zb 0x88 :: v) =
    (p <| m_header ::= <[0%nat := zb 0x88]> |> <| m_bytes_needed := 1 |> <| m_state := STATE_BASIC_HEADER |>, v).
Proof.
  intros Hst Hok Hu. destruct (recover_cases p (u ++ zb 0x88 :: v) Hok Hst) as [(u' & v' & E & Hu' & ->)|[Hs _]].
  - assert (u = u' /\ v = v') as [-> ->]; [|done]. clear Hok Hst.
    revert u' E Hu'. induction Hu as [|b u Hb Hu IH]; intros u' E Hu'; destruct Hu' as [|b' u' Hb' Hu'];
      simplify_eq/=; try done.
    by edestruct IH as [-> ->].
  - apply Forall_app in Hs as [_ H%Forall_inv]. done.
Qed.

(** ** One call of [consume] *)
Lemma header_need_size p : header_need p = 0 -> get_basic_size p <= 125.
Proof.
  unfold header_need, BASIC_HEADER_LENGTH, get_header_len. pose proof (basic_size_range p).
  destruct (Z.eqb_spec (get_basic_size p) 126), (Z.eqb_spec (get_basic_size p) 127), (get_masked p); lia.
Qed.

Lemma validate_throws p e : validate_basic_header p = Throw e -> is_std_exception e = true.
Proof. unfold validate_basic_header. intros H. by case_all. Qed.

(** What a step of [consume_body] leaves: progress, and a state that is in order or an
    exception. *)
Definition step_ok (p : parser) (s : bytes) (x : res unit * parser * bytes) : Prop :=
  let '(r, p', s') := x in
  ((length s' < length s)%nat \/ m_state p = STATE_READY /\ s' = s /\ p' = p) /\
  match r with
  | Ret _ => parser_ok p'
  | Throw e => m_state p' <> STATE_READY /\
      (is_std_exception e = true /\ m_degraded p' = m_degraded p \/ (exists what, e = C_string what) /\ stuck p')
  end.

Lemma stream_read_progress n s : 0 < n -> s <> [] -> (length (stream_read n s).2 < length s)%nat.
Proof.
  intros Hn Hs. pose proof (length_pos s Hs). unfold stream_read. cbn [snd]. rewrite length_drop. lia.
Qed.

Lemma step_ok_header_done p0 p s0 s :
  length (m_header p) = MAX_HEADER_LENGTH -> m_degraded p = m_degraded p0 -> (length s < length s0)%nat ->
  m_state p <> STATE_READY ->
  (get_basic_size p <= 125 \/ m_state p = STATE_EXTENDED_HEADER /\ m_bytes_needed p = 0) ->
  step_ok p0 s0 (let '(r, p') := header_done p in (r, p', s)).
Proof.
  intros Hl Hd Hs Hr Hc. pose proof (header_done_ok p Hl) as H. destruct (header_done p) as [[[]|e] p'].
  - split; [by left|apply H].
  - destruct H as (Hb & Hdg & Hst & H). split; [by left|]. rewrite Hst. split; [done|].
    destruct H as [H|(Hw & -> & H1 & H2)]; [left; by rewrite Hdg|right]. split; [done|].
    destruct Hc as [Hc|[Hc1 Hc2]]; [lia|]. by unfold stuck.
Qed.

Lemma consume_body_ok p s : parser_ok p -> s <> [] -> step_ok p s (consume_body p s).
Proof.
  intros Hok Hs. pose proof Hok as [Hl Hst]. unfold consume_body. destruct (m_state p) eqn:E.
  - destruct Hst as [Hn Hp]. pose proof (read_header_spec BASIC_HEADER_LENGTH p s Hl) as H.
    unfold BASIC_HEADER_LENGTH in H at 1 2. specialize (H ltac:(lia) ltac:(lia)).
    destruct (read_header _ p s) as [p1 s1]. destruct H as (H1 & H2 & H3 & H4 & H5 & _ & H6).
    assert (length s1 < length s)%nat as Hlt by (rewrite H6; apply stream_read_progress; [lia|done]).
    destruct (Z.eqb_spec (m_bytes_needed p1) 0) as [E0|E0].
    2: { split; [by left|]. split; [done|]. rewrite H1, E, H3. split; [lia|done]. }
    destruct (validate_basic_header (process_basic_header p1)) as [[]|e] eqn:V.
    2: { split; [by left|]. cbn. rewrite H1, E. split; [done|]. left. split; [by eapply validate_throws|done]. }
    destruct (Z.ltb_spec 0 (m_bytes_needed (process_basic_header p1))) as [Hx|Hx].
    { split; [by left|]. split; [done|]. cbn in *. unfold header_need. cbn. by rewrite H3. }
    apply step_ok_header_done; [done..|cbn; by rewrite H1, E|]. left. apply header_need_size.
    cbn in Hx. unfold header_need. pose proof (header_len_range p1).
    change (get_header_len (process_basic_header p1)) with (get_header_len p1).
    unfold BASIC_HEADER_LENGTH in *. lia.
  - destruct Hst as [Hn Hp]. pose proof (header_len_range p) as Hr. unfold header_need, BASIC_HEADER_LENGTH in Hn.
    pose proof (read_header_spec (get_header_len p) p s Hl ltac:(lia) ltac:(lia)) as H.
    destruct (read_header _ p s) as [p1 s1]. destruct H as (H1 & H2 & H3 & H4 & H5 & H7 & H6).
    assert (length s1 < length s)%nat as Hlt by (rewrite H6; apply stream_read_progress; [lia|done]).
    destruct (Z.eqb_spec (m_bytes_needed p1) 0) as [E0|E0].
    + apply step_ok_header_done; [done..|by rewrite H1, E|]. right. by rewrite H1.
    + split; [by left|]. split; [done|]. rewrite H1, E, H3. split; [|done]. unfold header_need.
      rewrite (header_len_ext p1 p) by (apply H7; lia). unfold BASIC_HEADER_LENGTH. lia.
  - pose proof (stream_read_length (m_bytes_needed p) s ltac:(lia)) as Hd.
    pose proof (stream_read_progress (m_bytes_needed p) s ltac:(lia) Hs) as Hlt.
    destruct (stream_read (m_bytes_needed p) s) as [d s1]. cbn [fst snd] in Hd, Hlt. cbn.
    destruct (Z.eqb_spec (m_bytes_needed p - Z.of_nat (length d)) 0) as [E0|E0].
    + split; [by left|]. unfold parser_ok. match goal with |- context [process_payload ?q] =>
        destruct (process_payload_state q) as (H1 & H2 & _) end. by rewrite H1, H2.
    + split; [by left|]. split; [done|]. cbn. rewrite E, store_at_length by lia. lia.
  - split; [by right|done].
  - destruct (recover_cases p s Hok E) as [(u & v & -> & Hu & ->)|(_ & h & -> & Hh)].
    + split; [left; rewrite length_app; cbn; lia|]. split; [cbn; by rewrite length_insert|]. cbn.
      split; [lia|apply Hst].
    + split; [left; cbn; pose proof (length_pos s Hs); lia|done].
Qed.

Lemma consume_ok p s :
  parser_ok p -> s <> [] ->
  let '(r, p', s') := consume p s in
  ((length s' < length s)%nat \/ m_state p = STATE_READY /\ s' = s /\ p' = p) /\
  match r with
  | Ret _ => parser_ok p'
  | Throw Std_exception => parser_ok p' /\ m_state p' = STATE_RECOVERY
  | Throw (C_string _) => stuck p'
  | Throw (Ws_error _ code) => code = wserror.FATAL_ERROR /\ m_degraded p = true /\ m_state p' <> STATE_READY
  | Throw _ => False
  end.
Proof.
  intros Hok Hs. pose proof (consume_body_ok p s Hok Hs) as H. unfold consume.
  destruct (consume_body p s) as [[[[]|e] p'] s']; destruct H as [Hp H]; [by split|].
  assert (m_state p' <> STATE_READY) as Hr by apply H.
  destruct H as [_ [[He Hd]|[(what & ->) H]]].
  - rewrite He, Hd. destruct (m_degraded p).
    + by split.
    + split; [|by split; [apply recovery_ok|]].
      destruct Hp as [Hp|(H1 & H2 & ->)]; [by left|done].
  - by split.
Qed.

(** Once stuck, every later call throws the same exception and reads nothing. *)
Lemma consume_stuck p s :
  stuck p ->
  consume p s = (Throw (C_string #"Got frame with payload greater than maximum frame buffer size."), p, s).
Proof.
  intros (Hl & Hst & Hn & Hb & Hm). unfold consume, consume_body. rewrite Hst.
  assert (read_header (get_header_len p) p s = (p, s)) as ->.
  { unfold read_header. rewrite Hn. unfold stream_read. cbn. rewrite Z.min_l by lia. cbn.
    rewrite store_at_nil. destruct p; cbn in *. by subst. }
  rewrite Hn, Z.eqb_refl. unfold header_done.
  destruct (extended_header_cases p Hl) as [(n & Hx & H)|[(what & n & Hs & H)|(_ & _ & ->)]]; [| |done].
  all: exfalso; unfold process_extended_header in H; rewrite Hb in H; cbn in H.
  all: destruct (Z.leb_spec (ntoh (take 8 (drop 2 (m_header p)))) limits.PAYLOAD_SIZE_EXTENDED);
    [unfold max_payload_size, limits.PAYLOAD_SIZE_EXTENDED in *; lia|].
  all: unfold expect_payload in H; destruct (Z.ltb_spec max_payload_size (ntoh (take 8 (drop 2 (m_header p)))));
    [done|lia].
Qed.

(** ** Independence of the way the bytes arrive *)
Lemma recover_app p a b :
  (0 < length (m_header p))%nat -> char_at (m_header p) 0 <> 0x88 -> Forall (fun x => bz x <> 0x88) a ->
  recover p (a ++ b) = recover (recover p a).1 b.
Proof.
  intros Hl Hc Ha. revert p Hl Hc. induction Ha as [|x a Hx Ha IH]; intros p Hl Hc; cbn [app recover].
  - by destruct (Z.eqb_spec (char_at (m_header p) 0) 0x88).
  - cbn. rewrite char_at_insert0 by done. destruct (Z.eqb_spec (bz x) 0x88); [done|]. apply IH.
    + cbn. by rewrite length_insert.
    + cbn. by rewrite char_at_insert0.
Qed.

Lemma consume_body_split p a b :
  parser_ok p -> a <> [] ->
  (let '(r, p1, s1) := consume_body p a in consume_body p (a ++ b) = (r, p1, s1 ++ b)) \/
  (exists p1, consume_body p a = (Ret tt, p1, []) /\ m_state p1 <> STATE_READY /\
     m_degraded p1 = m_degraded p /\ consume_body p1 b = consume_body p (a ++ b)).
Proof.
  intros Hok Ha. pose proof Hok as [Hl Hst]. unfold consume_body at 1 2 3. destruct (m_state p) eqn:E.
  - destruct Hst as [Hn Hp]. destruct (Z.le_gt_cases (m_bytes_needed p) (Z.of_nat (length a))) as [Hle|Hgt].
    + left. rewrite (read_header_enough _ _ a b) by lia. destruct (read_header _ p a) as [p1 s1]. cbn [fst snd].
      destruct (_ =? _); [|done]. destruct (validate_basic_header _); [|done]. destruct (_ <? _); [done|].
      by destruct (header_done _).
    + right. pose proof (read_header_spec BASIC_HEADER_LENGTH p a Hl ltac:(unfold BASIC_HEADER_LENGTH; lia) ltac:(unfold BASIC_HEADER_LENGTH; lia)) as H.
      pose proof (read_header_across BASIC_HEADER_LENGTH p a b Hl ltac:(unfold BASIC_HEADER_LENGTH; lia) ltac:(lia)) as Hx.
      pose proof (read_header_short BASIC_HEADER_LENGTH p a ltac:(lia)) as Hs.
      destruct (read_header _ p a) as [p1 s1]. cbn [fst snd] in *. subst s1.
      destruct H as (H1 & H2 & H3 & H4 & H5 & _). exists p1.
      destruct (Z.eqb_spec (m_bytes_needed p1) 0); [lia|]. split_and!; [done|by rewrite H1, E|done|].
      unfold consume_body. rewrite H1, E. by rewrite Hx.
  - destruct Hst as [Hn Hp]. pose proof (header_len_range p) as Hr. unfold header_need, BASIC_HEADER_LENGTH in Hn.
    destruct (Z.le_gt_cases (m_bytes_needed p) (Z.of_nat (length a))) as [Hle|Hgt].
    + left. rewrite (read_header_enough _ _ a b) by lia. destruct (read_header _ p a) as [p1 s1]. cbn [fst snd].
      destruct (_ =? _); [|done]. by destruct (header_done _).
    + right. pose proof (read_header_spec (get_header_len p) p a Hl ltac:(lia) ltac:(lia)) as H.
      pose proof (read_header_across (get_header_len p) p a b Hl ltac:(lia) ltac:(lia)) as Hx.
      pose proof (read_header_short (get_header_len p) p a ltac:(lia)) as Hs.
      destruct (read_header _ p a) as [p1 s1]. cbn [fst snd] in *. subst s1.
      destruct H as (H1 & H2 & H3 & H4 & H5 & H7 & _). exists p1.
      destruct (Z.eqb_spec (m_bytes_needed p1) 0); [lia|]. split_and!; [done|by rewrite H1, E|done|].
      unfold consume_body. rewrite H1, E. rewrite (header_len_ext p1 p) by (apply H7; lia). by rewrite Hx.
  - destruct (Z.le_gt_cases (m_bytes_needed p) (Z.of_nat (length a))) as [Hle|Hgt].
    + left. rewrite (stream_read_enough _ a b) by lia. destruct (stream_read _ a) as [d s1]. cbn.
      by destruct (_ =? _).
    + right. rewrite (stream_read_short _ a) by lia. cbn.
      destruct (Z.eqb_spec (m_bytes_needed p - Z.of_nat (length a)) 0); [lia|]. eexists.
      split_and!; [done|by cbn; rewrite E|done|].
      unfold consume_body. cbn. rewrite E. rewrite (stream_read_across _ a b) by lia. cbn.
      pose proof (stream_read_length (m_bytes_needed p - Z.of_nat (length a)) b ltac:(lia)) as Hd.
      destruct (stream_read (m_bytes_needed p - Z.of_nat (length a)) b) as [d s1]. cbn [fst snd] in *.
      destruct p as [st nd dg h pl]; cbn in *. subst st.
      rewrite store_at_length by lia. rewrite store_at_app by lia. rewrite length_app.
      replace (Z.to_nat (Z.of_nat (length pl) - (nd - Z.of_nat (length a))))
        with (Z.to_nat (Z.of_nat (length pl) - nd) + length a)%nat by lia.
      by replace (nd - Z.of_nat (length a + length d)) with (nd - Z.of_nat (length a) - Z.of_nat (length d)) by lia.
  - by left.
  - destruct Hst as (Hn & Hc & Hp).
    destruct (recover_cases p a Hok E) as [(u & v & -> & Hu & ->)|(Hs & h & Hr & Hh)].
    + left. rewrite <- app_assoc. cbn [app]. by rewrite recover_found.
    + right. rewrite Hr. eexists. split_and!; [done|by cbn; rewrite E|done|].
      unfold consume_body. cbn. rewrite E. rewrite recover_app; [|rewrite Hl; unfold MAX_HEADER_LENGTH; lia|done..].
      rewrite Hr. cbn. by rewrite E.
Qed.

Lemma consume_split p a b :
  parser_ok p -> a <> [] ->
  (let '(r, p1, s1) := consume p a in consume p (a ++ b) = (r, p1, s1 ++ b)) \/
  (exists p1, consume p a = (Ret tt, p1, []) /\ ready p1 = false /\ consume p1 b = consume p (a ++ b)).
Proof.
  intros Hok Ha. destruct (consume_body_split p a b Hok Ha) as [H|(p1 & H1 & H2 & H3 & H4)].
  - left. unfold consume. destruct (consume_body p a) as [[[[]|e] p1] s1]; rewrite H; [done|].
    cbv beta iota. destruct (is_std_exception e); [|done]. by destruct (m_degraded p1).
  - right. exists p1. unfold consume. rewrite H1, H4.
    split_and!; [done|by unfold ready; rewrite bool_decide_eq_false_2|done].
Qed.

(** ** The wire format (RFC 6455, section 5.2) *)
Record frame : Type := Frame {
  fr_fin : bool;
  fr_op : Z;
  fr_key : bytes;              (* the masking key, empty in an unmasked frame *)
  fr_payload : bytes
}.
Definition fr_masked (f : frame) : bool := negb (bool_decide (fr_key f = [])).
Definition fr_size (f : frame) : Z := Z.of_nat (length (fr_payload f)).

(** Octet i of the transformed data is octet i of the original data XOR octet
    i mod 4 of the masking key. *)
Definition masked_data (key d : bytes) : bytes :=
  imap (fun i b => zb (Z.lxor (bz b) (bz (nth (i mod 4) key NUL)))) d.

Definition length_code (n : Z) : Z := if n <=? 125 then n else if n <=? 65535 then 126 else 127.
Definition extended_length (n : Z) : bytes :=
  if n <=? 125 then [] else if n <=? 65535 then htons n else htonll n.
Definition wire_head (f : frame) : bytes :=
  zb ((if fr_fin f then 128 else 0) + fr_op f) ::
  zb ((if fr_masked f then 128 else 0) + length_code (fr_size f)) ::
  extended_length (fr_size f) ++ fr_key f.
Definition wire_data (f : frame) : bytes :=
  if fr_masked f then masked_data (fr_key f) (fr_payload f) else fr_payload f.
Definition wire (f : frame) : bytes := wire_head f ++ wire_data f.

(** The frames an endpoint may send: control frames are short and not fragmented. *)
Record frame_ok (f : frame) : Prop := {
  ok_op : 0 <= fr_op f < 16;
  ok_reserved : opcode.reserved (fr_op f) = false;
  ok_control : 8 <= fr_op f -> fr_fin f = true /\ fr_size f <= 125;
  ok_size : fr_size f <= max_payload_size;
  ok_key : fr_key f = [] \/ length (fr_key f) = 4%nat
}.

(** The parser with the frame read. *)
Definition parsed (degraded : bool) (f : frame) : parser :=
  MkParser STATE_READY 0 degraded
    (wire_head f ++ replicate (MAX_HEADER_LENGTH - length (wire_head f)) NUL) (fr_payload f).

(** ** Masking *)
Lemma apply_mask_imap key i d :
  apply_mask key i d = imap (fun j b => zb (Z.lxor (bz b) (char_at key ((i + j) mod 4)))) d.
Proof.
  revert i. induction d as [|b d IH]; intros i; [done|]. cbn [apply_mask imap].
  f_equal; [by rewrite Nat.add_0_r|]. rewrite IH. apply imap_ext. intros j x _. cbn.
  by rewrite Nat.add_succ_r.
Qed.

Lemma apply_mask_data key d : apply_mask key 0 d = masked_data key d.
Proof. rewrite apply_mask_imap. by apply imap_ext. Qed.

Lemma lxor_byte x y : 0 <= x < 256 -> 0 <= y < 256 -> Z.lxor (bz (zb (Z.lxor x y))) y = x.
Proof.
  intros Hx Hy. rewrite bz_zb. change 256 with (2 ^ 8). rewrite <- Z.land_ones by lia.
  apply Z.bits_inj'. intros n Hn. rewrite Z.lxor_spec, Z.land_spec, Z.lxor_spec.
  destruct (Z.lt_ge_cases n 8).
  - rewrite Z.ones_spec_low by lia. rewrite andb_true_r, xorb_assoc, xorb_nilpotent. apply xorb_false_r.
  - rewrite Z.ones_spec_high, andb_false_r by lia.
    rewrite <- (Z.mod_small x (2 ^ 8)), <- (Z.mod_small y (2 ^ 8)) by lia.
    by rewrite !Z.mod_pow2_bits_high by lia.
Qed.

Lemma apply_mask_twice key i d : apply_mask key i (apply_mask key i d) = d.
Proof.
  revert i. induction d as [|b d IH]; intros i; [done|]. cbn [apply_mask].
  rewrite IH. f_equal. rewrite lxor_byte by (apply bz_range). apply zb_bz.
Qed.

Lemma apply_mask_length key i d : length (apply_mask key i d) = length d.
Proof. rewrite apply_mask_imap. apply length_imap. Qed.

(** ** The header as it is read back *)
Lemma basic_bits p (fin m : bool) op n t :
  0 <= op < 16 -> 0 <= n < 128 ->
  m_header p = zb ((if fin then 128 else 0) + op) :: zb ((if m then 128 else 0) + n) :: t ->
  get_fin p = fin /\ get_rsv1 p || get_rsv2 p || get_rsv3 p = false /\ get_opcode p = op /\
  get_masked p = m /\ get_basic_size p = n.
Proof.
  intros Hop Hn E. unfold get_fin, get_rsv1, get_rsv2, get_rsv3, get_opcode, get_masked, get_basic_size,
    header_bit, char_at. rewrite E. cbn [nth].
  rewrite !bz_zb_small by (destruct fin, m; lia).
  pose proof (below_Z 16 (fun op => let b := ((if fin then 128 else 0) + op) in
    Bool.eqb (Z.land b BPB0_FIN =? BPB0_FIN) fin && negb ((Z.land b BPB0_RSV1 =? BPB0_RSV1) ||
      (Z.land b BPB0_RSV2 =? BPB0_RSV2) || (Z.land b BPB0_RSV3 =? BPB0_RSV3)) &&
    (Z.land b BPB0_OPCODE =? op)) ltac:(destruct fin; by vm_compute) op Hop) as H0.
  pose proof (below_Z 128 (fun n => let b := ((if m then 128 else 0) + n) in
    Bool.eqb (Z.land b BPB1_MASK =? BPB1_MASK) m && (Z.land b BPB1_PAYLOAD =? n))
    ltac:(destruct m; by vm_compute) n Hn) as H1.
  cbv beta zeta in H0, H1. apply andb_true_iff in H0 as [[H2 H3]%andb_true_iff H4].
  apply andb_true_iff in H1 as [H5 H6].
  split_and!; [by apply Bool.eqb_prop|by apply negb_true_iff|by apply Z.eqb_eq|by apply Bool.eqb_prop|by apply Z.eqb_eq].
Qed.

Lemma ntoh_htons n : 0 <= n < 2 ^ 16 -> ntoh (htons n) = n.
Proof. intros Hn. unfold ntoh, htons. cbn [fold_left]. rewrite !bz_zb. dlia. Qed.
Lemma ntoh_htonll n : 0 <= n < 2 ^ 64 -> ntoh (htonll n) = n.
Proof.
  intros Hn. unfold ntoh, htonll. cbn [fold_left]. rewrite !bz_zb.
  change (2 ^ 8) with 256. change (2 ^ 16) with (256 * 256). change (2 ^ 24) with (256 * 256 * 256).
  change (2 ^ 32) with (256 * 256 * 256 * 256). change (2 ^ 40) with (256 * 256 * 256 * 256 * 256).
  change (2 ^ 48) with (256 * 256 * 256 * 256 * 256 * 256).
  change (2 ^ 56) with (256 * 256 * 256 * 256 * 256 * 256 * 256).
  rewrite <- !Z.div_div by lia. change (2 ^ 64) with 18446744073709551616 in Hn.
  set (a := n / 256). assert (n = 256 * a + n mod 256) as E0 by (apply Z.div_mod; lia).
  set (b := a / 256). assert (a = 256 * b + a mod 256) as E1 by (apply Z.div_mod; lia).
  set (c := b / 256). assert (b = 256 * c + b mod 256) as E2 by (apply Z.div_mod; lia).
  set (d := c / 256). assert (c = 256 * d + c mod 256) as E3 by (apply Z.div_mod; lia).
  set (e := d / 256). assert (d = 256 * e + d mod 256) as E4 by (apply Z.div_mod; lia).
  set (g := e / 256). assert (e = 256 * g + e mod 256) as E5 by (apply Z.div_mod; lia).
  set (h := g / 256). assert (g = 256 * h + g mod 256) as E6 by (apply Z.div_mod; lia).
  assert (0 <= h < 256) by (pose proof (Z.mod_pos_bound n 256); pose proof (Z.mod_pos_bound a 256);
    pose proof (Z.mod_pos_bound b 256); pose proof (Z.mod_pos_bound c 256); pose proof (Z.mod_pos_bound d 256);
    pose proof (Z.mod_pos_bound e 256); pose proof (Z.mod_pos_bound g 256); lia).
  rewrite (Z.mod_small h) by lia. lia.
Qed.

Lemma extended_length_size n : 0 <= n <= max_payload_size ->
  (length (extended_length n) = if length_code n =? 126 then 2%nat else if length_code n =? 127 then 8%nat else 0%nat) /\
  0 <= length_code n < 128.
Proof.
  intros Hn. unfold extended_length, length_code.
  destruct (Z.leb_spec n 125); [|destruct (Z.leb_spec n 65535); [done|done]].
  destruct (Z.eqb_spec n 126); [lia|]. destruct (Z.eqb_spec n 127); [lia|]. by split; [|lia].
Qed.

Lemma key_length f : frame_ok f -> length (fr_key f) = if fr_masked f then 4%nat else 0%nat.
Proof.
  intros Hf. unfold fr_masked. destruct (ok_key f Hf) as [E|E].
  - by rewrite E.
  - rewrite bool_decide_eq_false_2; [done|]. intros E'. by rewrite E' in E.
Qed.

Section header.
Context (f : frame) (Hf : frame_ok f).

Lemma size_ok : 0 <= fr_size f <= max_payload_size.
Proof using Hf. split; [unfold fr_size; lia|apply (ok_size f Hf)]. Qed.

Lemma wire_bits p t :
  m_header p = zb ((if fr_fin f then 128 else 0) + fr_op f) ::
               zb ((if fr_masked f then 128 else 0) + length_code (fr_size f)) :: t ->
  get_fin p = fr_fin f /\ get_rsv1 p || get_rsv2 p || get_rsv3 p = false /\ get_opcode p = fr_op f /\
  get_masked p = fr_masked f /\ get_basic_size p = length_code (fr_size f).
Proof using Hf. apply basic_bits; [apply (ok_op f Hf)|apply extended_length_size, size_ok]. Qed.

Lemma wire_header_len p t :
  m_header p = zb ((if fr_fin f then 128 else 0) + fr_op f) ::
               zb ((if fr_masked f then 128 else 0) + length_code (fr_size f)) :: t ->
  get_header_len p = Z.of_nat (length (wire_head f)) /\ (length (wire_head f) <= MAX_HEADER_LENGTH)%nat.
Proof using Hf.
  intros E. destruct (wire_bits p t E) as (_ & _ & _ & Hm & Hs). unfold get_header_len, wire_head.
  cbn [length]. rewrite length_app, (key_length f Hf), Hm, Hs.
  destruct (extended_length_size _ size_ok) as [-> _]. unfold MAX_HEADER_LENGTH.
  destruct (length_code (fr_size f) =? 126), (length_code (fr_size f) =? 127), (fr_masked f); cbn; lia.
Qed.

Lemma wire_validates p t :
  m_header p = zb ((if fr_fin f then 128 else 0) + fr_op f) ::
               zb ((if fr_masked f then 128 else 0) + length_code (fr_size f)) :: t ->
  validate_basic_header p = Ret tt.
Proof using Hf.
  intros E. destruct (wire_bits p t E) as (Hfin & Hr & Ho & _ & Hs). unfold validate_basic_header, is_control.
  rewrite Hr, Ho, Hs, Hfin, (ok_reserved f Hf). unfold opcode.is_control.
  destruct (Z.leb_spec 8 (fr_op f)) as [Hc|]; [|done]. destruct (ok_control f Hf Hc) as [-> Hsz].
  unfold length_code, limits.PAYLOAD_SIZE_BASIC. destruct (Z.leb_spec (fr_size f) 125); [|lia].
  by destruct (Z.ltb_spec 125 (fr_size f)); [lia|].
Qed.

(** [process_extended_header] finds the size. *)
Lemma wire_extended p t :
  m_header p = wire_head f ++ t ->
  process_extended_header p =
    (Ret tt, p <| m_payload ::= resize (length (fr_payload f)) |> <| m_bytes_needed := fr_size f |>).
Proof using Hf.
  intros E. pose proof size_ok as Hsz. pose proof (wire_bits p (extended_length (fr_size f) ++ fr_key f ++ t)) as Hb.
  rewrite E in Hb. unfold wire_head in Hb. cbn [app] in Hb. rewrite <- app_assoc in Hb. specialize (Hb eq_refl).
  destruct Hb as (_ & _ & _ & _ & Hs). unfold process_extended_header. rewrite Hs, E.
  unfold wire_head. cbn [app drop]. rewrite <- app_assoc.
  assert (expect_payload (fr_size f) p =
    (Ret tt, p <| m_payload ::= resize (length (fr_payload f)) |> <| m_bytes_needed := fr_size f |>)) as Hx.
  { rewrite expect_payload_spec by lia. rewrite decide_False by lia. unfold fr_size. by rewrite Nat2Z.id. }
  unfold max_payload_size in Hsz. unfold length_code, extended_length, limits.PAYLOAD_SIZE_BASIC.
  destruct (Z.leb_spec (fr_size f) 125).
  { destruct (Z.leb_spec (fr_size f) 125); [done|lia]. }
  destruct (Z.leb_spec (fr_size f) 65535).
  - cbn [Z.leb Z.compare Pos.compare Pos.compare_cont Z.eqb Pos.eqb BASIC_PAYLOAD_16BIT_CODE].
    rewrite drop_0, (take_app_length' (htons _)) by done. rewrite ntoh_htons by lia.
    by destruct (Z.ltb_spec (fr_size f) 126); [lia|].
  - cbn [Z.leb Z.compare Pos.compare Pos.compare_cont Z.eqb Pos.eqb BASIC_PAYLOAD_16BIT_CODE BASIC_PAYLOAD_64BIT_CODE].
    rewrite drop_0, (take_app_length' (htonll _)) by done. rewrite ntoh_htonll by lia.
    unfold limits.PAYLOAD_SIZE_EXTENDED. by destruct (Z.leb_spec (fr_size f) 65535); [lia|].
Qed.

End header.

(** ** A whole frame *)
Lemma stream_read_exact d s : stream_read (Z.of_nat (length d)) (d ++ s) = (d, s).
Proof.
  unfold stream_read. rewrite length_app. replace (Z.to_nat _) with (length d) by lia.
  by rewrite take_app_length, drop_app_length.
Qed.

Lemma read_header_exact size p d s :
  m_bytes_needed p = Z.of_nat (length d) ->
  read_header size p (d ++ s) =
    (p <| m_header ::= store_at (Z.to_nat (size - Z.of_nat (length d))) d |> <| m_bytes_needed := 0 |>, s).
Proof.
  intros Hn. unfold read_header. rewrite Hn, stream_read_exact. destruct p; cbn in *.
  by rewrite Hn, Z.sub_diag.
Qed.

Lemma store_at_pad h n d :
  (length d <= n)%nat -> store_at (length h) d (h ++ replicate n NUL) = h ++ d ++ replicate (n - length d) NUL.
Proof.
  intros Hn. unfold store_at. rewrite take_app_length. rewrite drop_app_ge by lia.
  replace (length h + length d - length h)%nat with (length d) by lia. by rewrite drop_replicate.
Qed.

#[local] Arguments wire_head : simpl never.

Section whole.
Context (f : frame) (Hf : frame_ok f) (degraded : bool).

Definition first_two : bytes := take 2 (wire_head f).
Definition rest_head : bytes := extended_length (fr_size f) ++ fr_key f.
Lemma wire_head_split : wire_head f = first_two ++ rest_head.
Proof using. done. Qed.

Definition full_header : bytes := wire_head f ++ replicate (MAX_HEADER_LENGTH - length (wire_head f)) NUL.

(** The parser after the header. *)
Definition after_header : parser :=
  if decide (fr_payload f = []) then parsed degraded f
  else MkParser STATE_PAYLOAD (fr_size f) degraded full_header (replicate (length (fr_payload f)) NUL).

Lemma header_done_wire st n :
  header_done (MkParser st n degraded full_header []) = (Ret tt, after_header).
Proof using Hf.
  unfold header_done. rewrite (wire_extended f Hf (MkParser st n degraded full_header []) _ eq_refl).
  change (_ <| m_payload ::= _ |> <| m_bytes_needed := _ |>) with
    (MkParser st (fr_size f) degraded full_header (resize (length (fr_payload f)) [])).
  unfold after_header, parsed. cbn [m_bytes_needed]. destruct (decide (fr_payload f = [])) as [E|E].
  - assert (fr_size f = 0) as Hz by (unfold fr_size; by rewrite E). rewrite Hz, E. cbn [Z.eqb].
    unfold process_payload. by destruct (get_masked _).
  - assert (fr_size f <> 0) as Hz by (unfold fr_size; pose proof (length_pos _ E); lia).
    destruct (Z.eqb_spec (fr_size f) 0); [done|]. unfold resize. by rewrite take_nil, Nat.sub_0_r.
Qed.

(** The masking key is found, and unmasking restores the data. *)
Lemma wire_masking_key p t :
  m_header p = wire_head f ++ t -> get_masked p = fr_masked f /\ (fr_masked f = true -> get_masking_key p = fr_key f).
Proof using Hf.
  intros E. assert (m_header p = first_two ++ extended_length (fr_size f) ++ fr_key f ++ t) as E'
    by (rewrite E, wire_head_split; unfold rest_head; by rewrite <- !app_assoc).
  destruct (wire_bits f Hf p _ E') as (_ & _ & _ & Hm & _). split; [done|]. intros Ht.
  destruct (wire_header_len f Hf p _ E') as [Hlen _]. pose proof (key_length f Hf) as Hk. rewrite Ht in Hk.
  assert (length (wire_head f) = 2 + length (extended_length (fr_size f)) + 4)%nat as Hw
    by (unfold wire_head; cbn [length]; rewrite length_app, Hk; lia).
  unfold get_masking_key. rewrite Hlen, Hw, E'.
  replace (Z.to_nat _) with (length first_two + length (extended_length (fr_size f)))%nat
    by (unfold first_two; rewrite length_take, Hw; lia).
  rewrite drop_app_add, drop_app_length. by rewrite take_app_length'.
Qed.

Lemma process_wire_data n :
  process_payload (MkParser STATE_READY n degraded full_header (wire_data f)) =
    MkParser STATE_READY n degraded full_header (fr_payload f).
Proof using Hf.
  destruct (wire_masking_key (MkParser STATE_READY n degraded full_header (wire_data f)) _ eq_refl) as [Hm Hk].
  unfold process_payload. rewrite Hm. unfold wire_data in *. destruct (fr_masked f); [|done].
  rewrite Hk by done. cbn [update m_payload]. rewrite <- apply_mask_data. by rewrite apply_mask_twice.
Qed.

Lemma after_header_data s :
  fr_payload f <> [] -> consume after_header (wire_data f ++ s) = (Ret tt, parsed degraded f, s).
Proof using Hf.
  intros Hne. assert (length (wire_data f) = length (fr_payload f)) as Hl.
  { unfold wire_data. destruct (fr_masked f); [|done]. by rewrite <- apply_mask_data, apply_mask_length. }
  unfold consume, consume_body, after_header. rewrite decide_False by done. cbn.
  unfold fr_size. rewrite <- Hl, stream_read_exact. cbn. rewrite length_replicate, !Z.sub_diag. cbn. change (Z.to_nat 0) with 0%nat.
  assert (store_at 0 (wire_data f) (replicate (length (wire_data f)) NUL) = wire_data f) as ->.
  { pose proof (store_at_pad [] (length (wire_data f)) (wire_data f) ltac:(lia)) as H.
    cbn [app length] in H. rewrite H, Nat.sub_diag. by rewrite app_nil_r. }
  by rewrite process_wire_data.
Qed.

(** The header arrives: its first two bytes, then the others. *)
Definition head_read : parser :=
  MkParser STATE_BASIC_HEADER 0 degraded (first_two ++ replicate 12 NUL) [].

Lemma first_two_length : length first_two = 2%nat.
Proof using. done. Qed.
Lemma rest_head_length : (length rest_head = length (wire_head f) - 2 /\ length (wire_head f) <= 14)%nat.
Proof using Hf.
  split; [rewrite wire_head_split, length_app, first_two_length; lia|].
  apply (wire_header_len f Hf (MkParser STATE_READY 0 false (first_two ++ replicate 12 NUL) []) (replicate 12 NUL) eq_refl).
Qed.

Lemma read_first_two s :
  read_header BASIC_HEADER_LENGTH (parser_new <| m_degraded := degraded |>) (first_two ++ s) = (head_read, s).
Proof using. rewrite read_header_exact by done. reflexivity. Qed.

Lemma process_head :
  process_basic_header head_read =
    MkParser STATE_BASIC_HEADER (Z.of_nat (length rest_head)) degraded (first_two ++ replicate 12 NUL) [].
Proof using Hf.
  change (process_basic_header head_read) with (MkParser STATE_BASIC_HEADER
    (get_header_len head_read - BASIC_HEADER_LENGTH) degraded (first_two ++ replicate 12 NUL) []).
  destruct (wire_header_len f Hf head_read (replicate 12 NUL) eq_refl) as [-> _].
  destruct rest_head_length as [-> _]. rewrite wire_head_split, length_app, first_two_length.
  unfold BASIC_HEADER_LENGTH. f_equal. lia.
Qed.

Lemma consume_head s :
  consume (parser_new <| m_degraded := degraded |>) (first_two ++ s) =
    if decide (rest_head = []) then (Ret tt, after_header, s)
    else (Ret tt, MkParser STATE_EXTENDED_HEADER (Z.of_nat (length rest_head)) degraded
                    (first_two ++ replicate 12 NUL) [], s).
Proof using Hf.
  unfold consume, consume_body. cbn [parser_new m_state update]. rewrite read_first_two.
  change (m_bytes_needed head_read =? 0) with true. cbv beta iota zeta.
  rewrite process_head, (wire_validates f Hf _ (replicate 12 NUL)) by done. cbn [m_bytes_needed].
  destruct (decide (rest_head = [])) as [E|E].
  - rewrite E. cbn [length Z.of_nat Z.ltb Z.compare].
    assert (first_two ++ replicate 12 NUL = full_header) as ->
      by (unfold full_header; by rewrite wire_head_split, E, app_nil_r).
    by rewrite header_done_wire.
  - destruct (Z.ltb_spec 0 (Z.of_nat (length rest_head))) as [|Hx]; [done|].
    pose proof (length_pos _ E). lia.
Qed.

Lemma consume_rest s :
  consume (MkParser STATE_EXTENDED_HEADER (Z.of_nat (length rest_head)) degraded
             (first_two ++ replicate 12 NUL) []) (rest_head ++ s) = (Ret tt, after_header, s).
Proof using Hf.
  unfold consume, consume_body. cbn [m_state]. rewrite read_header_exact by done.
  match goal with |- context [get_header_len ?q] =>
    destruct (wire_header_len f Hf q (replicate 12 NUL) eq_refl) as [-> _] end.
  destruct rest_head_length as [Hr Hm].
  replace (Z.to_nat _) with (length first_two)
    by (rewrite wire_head_split, length_app; lia).
  cbn [update m_header m_state m_bytes_needed m_degraded m_payload Z.eqb]. rewrite store_at_pad by lia.
  assert (first_two ++ rest_head ++ replicate (12 - length rest_head) NUL = full_header) as ->.
  { unfold full_header. rewrite wire_head_split, <- app_assoc. do 2 f_equal. }
  by rewrite header_done_wire.
Qed.
End whole.

(** The calls of [consume] the loop of [AddRxData] makes for one frame. *)
Fixpoint consume_frame (fuel : nat) (p : parser) (s : bytes) : option (res unit * parser * bytes) :=
  match fuel with
  | O => None
  | S n =>
      match consume p s with
      | (Throw e, p, s) => Some (Throw e, p, s)
      | (Ret _, p, s) => if ready p || bool_decide (s = []) then Some (Ret tt, p, s) else consume_frame n p s
      end
  end.

Lemma consume_frame_wire f degraded s :
  frame_ok f ->
  consume_frame 3 (parser_new <| m_degraded := degraded |>) (wire f ++ s) = Some (Ret tt, parsed degraded f, s).
Proof.
  intros Hf. unfold wire. rewrite (wire_head_split f), <- !app_assoc. cbn [consume_frame].
  assert (forall t, fr_payload f = [] -> wire_data f ++ t = t) as Hnil.
  { intros t E. unfold wire_data. rewrite E. by destruct (fr_masked f). }
  assert (fr_payload f <> [] -> bool_decide (wire_data f ++ s = []) = false) as Hdata.
  { intros E. apply bool_decide_eq_false_2. intros [E' _]%app_eq_nil. apply E.
    apply length_zero_iff_nil. apply (f_equal length) in E'. unfold wire_data in E'.
    destruct (fr_masked f); [|done]. rewrite <- apply_mask_data, apply_mask_length in E'. done. }
  rewrite (consume_head f Hf degraded). destruct (decide (rest_head f = [])) as [E|E].
  - rewrite E. cbn [app]. destruct (decide (fr_payload f = [])) as [Ep|Ep].
    + rewrite Hnil by done. unfold after_header. by rewrite decide_True.
    + rewrite Hdata by done. unfold after_header at 1. rewrite decide_False by done. cbn [ready m_state].
      change (ready (MkParser STATE_PAYLOAD _ _ _ _)) with false. cbn [orb].
      by rewrite (after_header_data f Hf degraded).
  - assert (bool_decide (rest_head f ++ wire_data f ++ s = []) = false) as ->
      by (apply bool_decide_eq_false_2; by intros [? _]%app_eq_nil).
    change (ready (MkParser STATE_EXTENDED_HEADER _ _ _ _)) with false. cbn [orb].
    rewrite (consume_rest f Hf degraded). destruct (decide (fr_payload f = [])) as [Ep|Ep].
    + rewrite Hnil by done. unfold after_header. by rewrite decide_True.
    + rewrite Hdata by done. unfold after_header at 1. rewrite decide_False by done.
      change (ready (MkParser STATE_PAYLOAD _ _ _ _)) with false. cbn [orb].
      by rewrite (after_header_data f Hf degraded).
Qed.

(** ** Bounds *)

(** Where the next read stores its bytes, and the buffer it stores them in. *)
Definition read_window (p : parser) : Z * Z * nat :=
  match m_state p with
  | STATE_BASIC_HEADER => (BASIC_HEADER_LENGTH - m_bytes_needed p, m_bytes_needed p, length (m_header p))
  | STATE_EXTENDED_HEADER => (get_header_len p - m_bytes_needed p, m_bytes_needed p, length (m_header p))
  | STATE_PAYLOAD => (Z.of_nat (length (m_payload p)) - m_bytes_needed p, m_bytes_needed p, length (m_payload p))
  | STATE_READY => (0, 0, 0%nat)
  | STATE_RECOVERY => (0, 1, length (m_header p))
  end.

Definition in_window (p : parser) : Prop :=
  let '(offset, n, size) := read_window p in 0 <= offset /\ 0 <= n /\ offset + n <= Z.of_nat size.

Lemma parser_ok_window p : parser_ok p \/ stuck p -> in_window p.
Proof.
  pose proof (header_len_range p) as Hr. unfold in_window, read_window, BASIC_HEADER_LENGTH.
  intros [[Hl Hst]|(Hl & E & Hn & _)].
  - destruct (m_state p); rewrite ?Hl; unfold header_need, BASIC_HEADER_LENGTH, MAX_HEADER_LENGTH in *; lia.
  - rewrite E, Hn, Hl. unfold MAX_HEADER_LENGTH. lia.
Qed.

Definition small (p : parser) : Prop := Z.of_nat (length (m_payload p)) <= max_payload_size.

Lemma process_payload_length p : length (m_payload (process_payload p)) = length (m_payload p).
Proof. unfold process_payload. destruct (get_masked p); [|done]. cbn. apply apply_mask_length. Qed.

Lemma header_done_small p : length (m_header p) = MAX_HEADER_LENGTH -> small p -> small (header_done p).2.
Proof.
  intros Hl Hs. unfold header_done.
  destruct (extended_header_cases p Hl) as [(n & Hn & ->)|[(what & n & _ & ->)|(_ & _ & ->)]]; [|done|done].
  cbn [snd]. match goal with |- context [m_bytes_needed ?q =? 0] => set (p1 := q) end.
  assert (length (m_payload p1) = Z.to_nat n) as E by apply resize_length.
  unfold small. destruct (_ =? _).
  - rewrite process_payload_length. change (length (m_payload (p1 <| m_state := STATE_READY |>))) with (length (m_payload p1)). lia.
  - change (length (m_payload (p1 <| m_state := STATE_PAYLOAD |>))) with (length (m_payload p1)). lia.
Qed.

Lemma consume_small p s : parser_ok p -> small p -> small (consume p s).1.2.
Proof.
  intros Hok Hs. assert (small (consume_body p s).1.2) as Hb; [|unfold consume; destruct (consume_body p s) as [[[|e] q] t];
    [done|]; destruct (is_std_exception e), (m_degraded q); done].
  pose proof Hok as [Hl Hst]. unfold consume_body. destruct (m_state p) eqn:E.
  - pose proof (read_header_spec BASIC_HEADER_LENGTH p s Hl ltac:(unfold BASIC_HEADER_LENGTH; lia)
      ltac:(unfold BASIC_HEADER_LENGTH; lia)) as H.
    destruct (read_header _ p s) as [p1 s1]. destruct H as (_ & _ & Hp & Hl1 & _).
    assert (small p1) as Hs1 by (unfold small; by rewrite Hp).
    destruct (_ =? _); [|done]. destruct (validate_basic_header _); [|done]. destruct (_ <? _); [done|].
    pose proof (header_done_small (process_basic_header p1) Hl1 Hs1) as Hd. by destruct (header_done _).
  - pose proof (header_len_range p) as Hr. unfold header_need, BASIC_HEADER_LENGTH in Hst.
    pose proof (read_header_spec (get_header_len p) p s Hl ltac:(lia) ltac:(lia)) as H.
    destruct (read_header _ p s) as [p1 s1]. destruct H as (_ & _ & Hp & Hl1 & _).
    assert (small p1) as Hs1 by (unfold small; by rewrite Hp). destruct (_ =? _); [|done].
    pose proof (header_done_small p1 Hl1 Hs1) as Hd. by destruct (header_done _).
  - pose proof (stream_read_length (m_bytes_needed p) s ltac:(lia)) as Hd.
    destruct (stream_read (m_bytes_needed p) s) as [d s1]. cbn [fst] in Hd.
    cbn [fst snd]. match goal with |- context [if ?b then (Ret tt, process_payload (?q <| m_state := STATE_READY |>), s1) else _] =>
      set (p1 := q) end.
    assert (length (m_payload p1) = length (m_payload p)) as E1 by (apply store_at_length; lia).
    unfold small in *. destruct (_ =? _); cbn [fst snd]; [rewrite process_payload_length|by rewrite E1].
    change (length (m_payload (p1 <| m_state := STATE_READY |>))) with (length (m_payload p1)). by rewrite E1.
  - done.
  - destruct (recover_cases p s Hok E) as [(u & v & -> & Hu & ->)|(_ & h & -> & Hh)]; done.
Qed.

(** C7: whatever bytes arrive, the parser stays within its memory: the bytes the next
    read needs lie inside the header array of 14 bytes or inside the payload vector,
    and the payload vector never exceeds 100,000,000 bytes, whatever size the frame
    announces.  The exception is a second error while recovering, after which
    the endpoint is shut down. *)
Theorem consume_bounds p s :
  parser_ok p -> small p -> s <> [] ->
  in_window p /\
  let '(r, p', _) := consume p s in
  small p' /\ (in_window p' \/ exists what, r = Throw (Ws_error what wserror.FATAL_ERROR)).
Proof.
  intros Hok Hs Hne. split; [apply parser_ok_window; by left|].
  pose proof (consume_small p s Hok Hs) as Hsm. pose proof (consume_ok p s Hok Hne) as H.
  destruct (consume p s) as [[r p'] s']. destruct H as [_ H]. split; [done|].
  destruct r as [|[]]; try done; [left; apply parser_ok_window; by left|left..|].
  - apply parser_ok_window. left. apply H.
  - apply parser_ok_window. by right.
  - right. destruct H as [-> _]. by eexists.
Qed.

Lemma consume_bounds_witness :
  parser_ok parser_new /\ small parser_new /\ hello_masked <> [] /\
  let '(r, p', _) := consume parser_new hello_masked in
  small p' /\ (in_window p' \/ exists what, r = Throw (Ws_error what wserror.FATAL_ERROR)).
Proof.
  assert (small parser_new) as Hs by (by vm_compute).
  assert (hello_masked <> []) as Hn by done.
  split; [apply parser_new_ok|]. split; [exact Hs|]. split; [exact Hn|].
  exact (proj2 (consume_bounds parser_new hello_masked parser_new_ok Hs Hn)).
Defined.

(** ** [print_frame] *)
Lemma print_high_byte a : (128 <= bz a)%Z -> print_header_byte a = #"ff" ++ print_nat_base 16 (bz a) ++ #" ".
Proof. destruct a as [[] [] [] [] [] [] [] []]; intros Ha; try (by vm_compute in Ha); by vm_compute. Qed.

(** The first byte of the last frame of a message, and of every control frame, has its
    highest bit set: it is printed with two more digits than it has, ["ff81"] for a text
    frame.  A long payload is announced with its size in hexadecimal. *)
Theorem print_frame_fin a h p :
  m_header p = a :: h -> get_fin p = true ->
  exists rest, print_frame p = #"frame: ff" ++ print_nat_base 16 (bz a) ++ #" " ++ rest ++
    (if decide (50 < length (m_payload p))%nat
     then #"[payload of " ++ print_nat_base 16 (Z.of_nat (length (m_payload p))) ++ #" bytes]" else m_payload p).
Proof.
  intros Hh Hf. assert (128 <= bz a)%Z as Ha.
  { unfold get_fin, header_bit, char_at in Hf. rewrite Hh in Hf. cbn [nth] in Hf. clear Hh.
    destruct a as [[] [] [] [] [] [] [] []]; try (by vm_compute in Hf); by vm_compute. }
  assert (exists h', get_header_str p = a :: h') as [h' Hs].
  { unfold get_header_str. rewrite Hh. assert (Z.to_nat (get_header_len p) <> 0%nat) as Hl.
    { unfold get_header_len. repeat case_match; lia. }
    destruct (Z.to_nat (get_header_len p)); [done|]. cbn [take]. by eexists. }
  exists (concat (print_header_byte <$> h')). unfold print_frame. rewrite Hs. cbn [fmap list_fmap concat].
  rewrite print_high_byte by done. by rewrite <- !app_assoc.
Qed.

Definition text_frame : parser := MkParser STATE_READY 0 false (zb <$> [0x81; 0x02]%Z) #"Hi".
Lemma print_frame_fin_witness :
  get_fin text_frame = true /\ print_frame text_frame = #"frame: ff81 2 Hi" /\ exists rest, print_frame text_frame = #"frame: ff" ++ rest.
Proof.
  split_and!; [by vm_compute..|]. destruct (print_frame_fin (zb 0x81) [zb 0x02] text_frame eq_refl eq_refl) as [rest ->]. by eexists.
Defined.
