(* ===== verification/WsEndpoint.v ===== *)
(** * The WebSocket endpoint (samples/wsendpoint.h)

    The class [wsendpoint]: the session state, the handling of complete frames and the
    frames it sends.  The application's [wshandler] is a class of operations on its
    own state [W], which may throw. *)
From S2P Require Import Prelude WsFrame.

(** ** Data *)
Inductive session_state : Type := CONNECTING | OPEN | CLOSING | CLOSED.
#[export] Instance session_state_eq_dec : EqDecision session_state.
Proof. solve_decision. Defined.

Record wsendpoint : Type := MkEndpoint { ep_parser : parser; ep_state : session_state }.
#[export] Instance eta_wsendpoint : Eta wsendpoint := fun e => MkEndpoint (ep_parser e) (ep_state e).

(** The constructor. *)
Definition wsendpoint_new : wsendpoint := MkEndpoint parser_new OPEN.

(** [class wshandler] *)
Class WsHandler (W : Type) : Type := {
  on_message : bytes -> bytes -> W -> res unit * W;
  on_close : W -> res unit * W;
  on_ping : bytes -> W -> res bool * W;
  on_pong : bytes -> W -> res unit * W;
  do_response : bytes -> W -> res unit * W
}.

(** ** The frames the endpoint builds

    The same calls open [send], [pong], [send_close] and [send_close_ack]. *)
Definition build_frame (op : Z) (payload : bytes) : res bytes :=
  match set_opcode op parser_new with
  | Throw e => Throw e
  | Ret control =>
      match set_payload payload (set_masked false [] (set_fin true control)) with
      | Throw e => Throw e
      | Ret control => Ret (get_header_str control ++ get_payload_str control)
      end
  end.

Section endpoint.
Context {W : Type} {H : WsHandler W}.

(** ** Effects: the endpoint, the application's state, exceptions *)
Definition ws (A : Type) : Type := wsendpoint -> W -> res A * wsendpoint * W.
Definition ret {A} (a : A) : ws A := fun e w => (Ret a, e, w).
Definition throw {A} (x : exn) : ws A := fun e w => (Throw x, e, w).
Definition bind {A B} (m : ws A) (k : A -> ws B) : ws B := fun e w =>
  match m e w with
  | (Ret a, e, w) => k a e w
  | (Throw x, e, w) => (Throw x, e, w)
  end.
Definition get_state : ws session_state := fun e w => (Ret (ep_state e), e, w).
Definition get_parser : ws parser := fun e w => (Ret (ep_parser e), e, w).
Definition set_state (s : session_state) : ws unit := fun e w => (Ret tt, e <| ep_state := s |>, w).
Definition reset_parser : ws unit := fun e w => (Ret tt, e <| ep_parser ::= reset |>, w).
Definition handler {A} (f : W -> res A * W) : ws A := fun e w => let '(r, w) := f w in (r, e, w).
Definition lift {A} (r : res A) : ws A := fun e w => (r, e, w).

Local Notation "x <- m ;; k" := (bind m (fun x => k)) (at level 100, m at next level, right associativity).
Local Notation "m ;;; k" := (bind m (fun _ => k)) (at level 100, right associativity).

(** ** Operations *)

(** [send(payload, op)], also behind [wshandler::send_text] and [send_binary]. *)
Definition send (payload : bytes) (op : Z) : ws unit :=
  tmp <- lift (build_frame op payload) ;;
  handler (do_response tmp).

Definition process_data : ws unit :=
  p <- get_parser ;;
  handler (on_message (get_header_str p) (get_payload_str p)).

Definition shutdown : ws unit :=
  st <- get_state ;;
  if decide (st = CLOSED) then ret tt
  else set_state CLOSED ;;; handler on_close.

Definition pong (payload : bytes) : ws unit :=
  st <- get_state ;;
  if decide (st <> OPEN) then ret tt
  else
    tmp <- lift (build_frame opcode.PONG payload) ;;
    handler (do_response tmp).

Definition send_close (code : Z) (reason : bytes) : ws unit :=
  st <- get_state ;;
  if decide (st <> OPEN) then ret tt
  else if status.invalid code then ret tt
  else if status.reserved code then ret tt
  else
    set_state CLOSING ;;;
    tmp <- lift (build_frame opcode.CLOSE
                   (if (code =? status.NO_STATUS)%Z then [] else htons code ++ reason)) ;;
    handler (do_response tmp).

(** The code and reason that answer the code and reason of the other end. *)
Definition local_close (remote_close_code : Z) (remote_close_reason : bytes) : res (Z * bytes) :=
  if (remote_close_code =? status.NO_STATUS)%Z then Ret (status.NORMAL, [])
  else if (remote_close_code =? status.ABNORMAL_CLOSE)%Z then Throw (C_string #"shouldn't be here")
  else if status.invalid remote_close_code then Ret (status.PROTOCOL_ERROR, #"Status code is invalid")
  else if status.reserved remote_close_code then Ret (status.PROTOCOL_ERROR, #"Status code is reserved")
  else Ret (remote_close_code, remote_close_reason).

Definition send_close_ack (remote_close_code : Z) (remote_close_reason : bytes) : ws unit :=
  local <- lift (local_close remote_close_code remote_close_reason) ;;
  tmp <- lift (build_frame opcode.CLOSE
                 (if (local.1 =? status.NO_STATUS)%Z then [] else htons local.1 ++ local.2)) ;;
  handler (do_response tmp) ;;;
  shutdown.

Definition process_control : ws unit :=
  p <- get_parser ;;
  if (get_opcode p =? opcode.PING)%Z then
    b <- handler (on_ping (get_payload_str p)) ;;
    if (b : bool) then pong (get_payload_str p) else ret tt
  else if (get_opcode p =? opcode.PONG)%Z then handler (on_pong (get_payload_str p))
  else if (get_opcode p =? opcode.CLOSE)%Z then
    st <- get_state ;;
    if decide (st = OPEN) then
      code <- lift (get_close_code p) ;;
      send_close_ack code (get_close_reason p)
    else if decide (st = CLOSING) then shutdown
    else ret tt
  else throw (Ws_error #"Invalid Opcode" wserror.PROTOCOL_VIOLATION).

(** ** [AddRxData] *)

(** The body of the [try] block, with the stream [s]. *)
Definition frame_ready : ws unit :=
  p <- get_parser ;;
  if ready p then
    (if is_control p then process_control else process_data) ;;;
    reset_parser
  else ret tt.

Definition rx_body (s : bytes) (e : wsendpoint) (w : W) : res unit * bytes * wsendpoint * W :=
  let '(r, p, s) := consume (ep_parser e) s in
  let e := e <| ep_parser := p |> in
  match r with
  | Throw x => (Throw x, s, e, w)
  | Ret _ => let '(r, e, w) := frame_ready e w in (r, s, e, w)
  end.

(** What the [catch] block does next. *)
Inductive after_error : Type := Leave_loop | Continue_loop.

Definition rx_error (what : bytes) (code : Z) : ws after_error :=
  p <- get_parser ;;
  (if ready p then reset_parser else ret tt) ;;;
  if (code =? wserror.PROTOCOL_VIOLATION)%Z then send_close status.PROTOCOL_ERROR what ;;; ret Leave_loop
  else if (code =? wserror.PAYLOAD_VIOLATION)%Z then send_close status.INVALID_PAYLOAD what ;;; ret Leave_loop
  else if (code =? wserror.INTERNAL_ENDPOINT_ERROR)%Z then
    send_close status.INTERNAL_ENDPOINT_ERROR what ;;; ret Leave_loop
  else if (code =? wserror.SOFT_ERROR)%Z then ret Continue_loop
  else if (code =? wserror.MESSAGE_TOO_BIG)%Z then send_close status.MESSAGE_TOO_BIG what ;;; ret Leave_loop
  else if (code =? wserror.OUT_OF_MESSAGES)%Z then ret Leave_loop
  else shutdown ;;; ret Leave_loop.

(** The loop: [None] is an exhausted fuel, an exception that is not a [wserror]
    escapes. *)
Fixpoint rx_loop (fuel : nat) (s : bytes) (e : wsendpoint) (w : W) : option (res unit * wsendpoint * W) :=
  match fuel with
  | O => None
  | S n =>
      if decide (ep_state e = CLOSED \/ s = []) then Some (Ret tt, e, w)
      else
        match rx_body s e w with
        | (Ret _, s, e, w) => rx_loop n s e w
        | (Throw (Ws_error what code), s, e, w) =>
            match rx_error what code e w with
            | (Ret Continue_loop, e, w) => rx_loop n s e w
            | (Ret Leave_loop, e, w) => Some (Ret tt, e, w)
            | (Throw x, e, w) => Some (Throw x, e, w)
            end
        | (Throw x, s, e, w) => Some (Throw x, e, w)
        end
  end.

(** Every iteration reads at least one byte, except that a frame left over by an
    exception of the handler is looked at again first. *)
Definition rx_fuel (data : bytes) : nat := S (S (length data)).
Definition AddRxData (data : bytes) (e : wsendpoint) (w : W) : option (res unit * wsendpoint * W) :=
  rx_loop (rx_fuel data) data e w.

End endpoint.

(** A concrete handler for examples: it records what is called, most recent first,
    and answers pings. *)
Inductive ws_event : Type :=
| EvMessage (header data : bytes)
| EvClosed
| EvPing (data : bytes)
| EvPong (data : bytes)
| EvResponse (data : bytes).

#[export] Instance log_handler : WsHandler (list ws_event) := {|
  on_message h d w := (Ret tt, EvMessage h d :: w);
  on_close w := (Ret tt, EvClosed :: w);
  on_ping d w := (Ret true, EvPing d :: w);
  on_pong d w := (Ret tt, EvPong d :: w);
  do_response d w := (Ret tt, EvResponse d :: w)
|}.
