(* ===== verification/WsLock.v ===== *)
(** * The mutex of a WebSocket endpoint (samples/wsendpoint.h)

    [shutdown] looks at the state, changes it and calls [on_close] under the mutex of the
    endpoint.  Built with Boost it holds the mutex until it returns; without, the statement
    [MutexHelper((pthread_mutex_t * )&m_lock);] makes an object that is gone at the end of
    the statement.  Here any number of threads call [shutdown], and each access is a step. *)
From S2P Require Import Prelude Locking.

(** How [shutdown] takes the mutex. *)
Inductive guard : Type :=
| Lock_guard    (* boost::lock_guard<boost::recursive_mutex> lock(m_lock); *)
| Temporary.    (* MutexHelper((pthread_mutex_t * )&m_lock); *)

Inductive place : Type :=
| Taking                     (* about to construct the guard *)
| Dropping (h : MutexHelper) (* about to destroy the temporary object *)
| Checking                   (* about to look at m_state *)
| Closing                    (* about to set m_state *)
| Notifying                  (* about to call on_close *)
| Leaving                    (* about to return *)
| Returned.

#[export] Instance MutexHelper_eq_dec : EqDecision MutexHelper.
Proof. solve_decision. Defined.
#[export] Instance place_eq_dec : EqDecision place.
Proof. solve_decision. Defined.

Record endpoint : Type := MkEndpoint {
  m_lock : mutex;
  is_closed : bool;          (* m_state = session::state::CLOSED *)
  on_closes : nat;           (* how often on_close has been called *)
  callers : gmap Z place
}.
#[export] Instance eta_endpoint : Eta endpoint := fun e => MkEndpoint (m_lock e) (is_closed e) (on_closes e) (callers e).

Definition at_place (t : Z) (p : place) (e : endpoint) : endpoint := e <| callers ::= <[t := p]> |>.

(** [m_state = session::state::CLOSED;] and [m_handler->on_close();] *)
Definition set_closed (e : endpoint) : endpoint := e <| is_closed := true |>.
Definition call_on_close (e : endpoint) : endpoint := e <| on_closes ::= S |>.

(** One step of thread [t] in [shutdown]; [None] when it has to wait, or has returned. *)
Definition shutdown_step (g : guard) (t : Z) (e : endpoint) : option endpoint :=
  p ← callers e !! t;
  match p with
  | Taking =>
      '(h, m) ← MutexHelper_new true t (m_lock e);
      Some (at_place t (if g is Temporary then Dropping h else Checking) (e <| m_lock := m |>))
  | Dropping h => m ← MutexHelper_delete h (m_lock e); Some (at_place t Checking (e <| m_lock := m |>))
  | Checking => Some (at_place t (if is_closed e then Leaving else Closing) e)
  | Closing => Some (at_place t Notifying (set_closed e))
  | Notifying => Some (at_place t Leaving (call_on_close e))
  | Leaving =>
      match g with
      | Lock_guard => m ← MutexHelper_delete (MkMutexHelper true) (m_lock e); Some (at_place t Returned (e <| m_lock := m |>))
      | Temporary => Some (at_place t Returned e)
      end
  | Returned => None
  end.

Definition shutdowns (g : guard) (e e' : endpoint) : Prop := exists t, shutdown_step g t e = Some e'.

(** The threads that are about to call [shutdown] on an open endpoint. *)
Definition called_by (ts : gset Z) : endpoint := MkEndpoint Free false 0 (gset_to_gmap Taking ts).

(** ** With a guard that lasts *)

Definition inside (p : place) : bool := match p with Checking | Closing | Notifying | Leaving => true | _ => false end.

(** A thread that does not hold the mutex; it has not returned before the endpoint was closed. *)
Definition outside (e : endpoint) (p : place) : Prop := p = Taking \/ p = Returned /\ is_closed e = true.

(** What the state and the calls of [on_close] have to do with the place of the thread inside. *)
Definition books (p : place) (e : endpoint) : Prop :=
  match p with
  | Checking => on_closes e = if is_closed e then 1 else 0
  | Closing => is_closed e = false /\ on_closes e = 0
  | Notifying => is_closed e = true /\ on_closes e = 0
  | _ => is_closed e = true /\ on_closes e = 1
  end.

(** The mutex is free and nobody is inside, or it is held by the one thread inside. *)
Inductive guarded (e : endpoint) : Prop :=
| nobody_inside :
    m_lock e = Free -> (forall u q, callers e !! u = Some q -> outside e q) -> books Checking e -> guarded e
| one_inside t p :
    m_lock e = Held t -> callers e !! t = Some p -> inside p = true ->
    (forall u q, u <> t -> callers e !! u = Some q -> outside e q) -> books p e -> guarded e.

Lemma called_by_guarded ts : guarded (called_by ts).
Proof. apply nobody_inside; [done| |done]. intros u q [_ <-]%lookup_gset_to_gmap_Some. by left. Qed.

(** The thread inside goes on to another place inside. *)
Lemma moves_inside e t p f :
  m_lock e = Held t -> (forall u q, u <> t -> callers e !! u = Some q -> outside e q) ->
  m_lock (f e) = m_lock e -> callers (f e) = callers e -> (is_closed e = true -> is_closed (f e) = true) ->
  inside p = true -> books p (f e) -> guarded (at_place t p (f e)).
Proof.
  intros Hl Ho Hl' Hc' Hcl Hp Hb. apply (one_inside _ t p); cbn; [by rewrite Hl'|by rewrite lookup_insert_eq|done| |].
  - intros u q Hu. rewrite lookup_insert_ne, Hc' by done. intros Hq.
    destruct (Ho _ _ Hu Hq) as [->|[-> Hc]]; [by left|right; split; [done|by apply Hcl]].
  - by destruct p.
Qed.

Lemma shutdown_step_guarded t e e' : guarded e -> shutdown_step Lock_guard t e = Some e' -> guarded e'.
Proof.
  intros Hg. unfold shutdown_step. destruct (callers e !! t) as [p|] eqn:Ht; [|done]. cbn [mbind option_bind].
  destruct Hg as [Hl Ho Hb|u q Hl Hu Hq Ho Hb].
  - destruct (Ho _ _ Ht) as [->|[-> _]]; [|done]. rewrite Hl. cbn. intros [= <-].
    apply (one_inside _ t Checking); cbn; [done|by rewrite lookup_insert_eq|done| |exact Hb].
    intros v r Hv. rewrite lookup_insert_ne by done. apply Ho.
  - destruct (decide (t = u)) as [->|Hne]; cycle 1.
    { destruct (Ho _ _ Hne Ht) as [->|[-> _]]; [|done]. by rewrite Hl. }
    rewrite Hu in Ht. injection Ht as ->. destruct p; try done; cbn in Hb.
    + intros [= <-]. refine (moves_inside e u _ id Hl Ho eq_refl eq_refl (fun H => H) _ _); by destruct (is_closed e) eqn:Hc; cbn; rewrite ?Hc.
    + intros [= <-]. refine (moves_inside e u Notifying set_closed Hl Ho eq_refl eq_refl (fun _ => eq_refl) eq_refl _).
      by destruct Hb.
    + intros [= <-]. refine (moves_inside e u Leaving call_on_close Hl Ho eq_refl eq_refl (fun H => H) eq_refl _).
      destruct Hb as [Hc Hn]. cbn. by rewrite Hn.
    + rewrite Hl. cbn. intros [= <-]. apply nobody_inside; cbn; [done| |by rewrite (proj1 Hb), (proj2 Hb)].
      intros v r. destruct (decide (v = u)) as [->|Hv]; [rewrite lookup_insert_eq; intros [= <-]; right; by split; [|apply Hb]|].
      rewrite lookup_insert_ne by done. by apply Ho.
Qed.

Lemma shutdown_step_callers g t e e' : shutdown_step g t e = Some e' -> dom (callers e') = dom (callers e).
Proof.
  unfold shutdown_step. destruct (callers e !! t) as [p|] eqn:Ht; [|done]. cbn [mbind option_bind].
  assert (forall q e1, callers e1 = callers e -> dom (callers (at_place t q e1)) = dom (callers e)) as Hd.
  { intros q e1 He. cbn. rewrite He. apply dom_insert_lookup_L. by exists p. }
  destruct p as [|h| | | | |].
  - destruct (MutexHelper_new true t (m_lock e)) as [[h m]|]; [|done]. intros [= <-]. by apply Hd.
  - destruct (MutexHelper_delete h (m_lock e)) as [m|]; [|done]. intros [= <-]. by apply Hd.
  - intros [= <-]. by apply Hd.
  - intros [= <-]. by apply Hd.
  - intros [= <-]. by apply Hd.
  - destruct g; [destruct (MutexHelper_delete _ (m_lock e)) as [m|]; [|done]|]; intros [= <-]; by apply Hd.
  - done.
Qed.

Lemma shutdowns_guarded ts e : rtc (shutdowns Lock_guard) (called_by ts) e -> guarded e /\ dom (callers e) = ts.
Proof.
  intros Hr. cut (guarded (called_by ts) /\ dom (callers (called_by ts)) = ts).
  - induction Hr as [|e1 e2 e3 [t Ht] _ IH]; [done|]. intros [Hg Hd]. apply IH.
    split; [by eapply shutdown_step_guarded|]. by rewrite (shutdown_step_callers _ _ _ _ Ht).
  - split; [apply called_by_guarded|]. cbn. apply dom_gset_to_gmap.
Qed.

(** Threads that have not all returned can go on. *)
Lemma guarded_progress e u q : guarded e -> callers e !! u = Some q -> q <> Returned -> exists e', shutdowns Lock_guard e e'.
Proof.
  intros [Hl Ho _|t p Hl Ht Hp _ _] Hu Hq.
  - exists (at_place u Checking (e <| m_lock := Held u |>)), u. unfold shutdown_step. rewrite Hu. cbn.
    destruct (Ho _ _ Hu) as [->|[-> _]]; [|done]. by rewrite Hl.
  - destruct (shutdown_step Lock_guard t e) as [e'|] eqn:E; [by exists e', t|]. unfold shutdown_step in E. rewrite Ht in E. cbn in E.
    rewrite Hl in E. by destruct p.
Qed.

(** C24: however many threads call [shutdown] at the same time: built with Boost, [on_close] is
    called at most once, some thread can always go on until all have returned, and then it has
    been called exactly once and the mutex is free. *)
Theorem shutdown_once ts e :
  rtc (shutdowns Lock_guard) (called_by ts) e ->
  on_closes e <= 1 /\
  ((exists u q, callers e !! u = Some q /\ q <> Returned) -> exists e', shutdowns Lock_guard e e') /\
  (ts <> ∅ -> (forall u q, callers e !! u = Some q -> q = Returned) -> is_closed e = true /\ on_closes e = 1 /\ m_lock e = Free).
Proof.
  intros [Hg Hd]%shutdowns_guarded. split_and!.
  - destruct Hg as [_ _ Hb|t p _ _ _ _ Hb]; [cbn in Hb; destruct (is_closed e); lia|].
    destruct p; cbn in Hb; try (destruct Hb; lia). destruct (is_closed e); lia.
  - intros (u & q & Hu & Hq). by eapply guarded_progress.
  - intros Hne Hall. apply set_choose_L in Hne as [u Hu]. rewrite <- Hd in Hu. apply elem_of_dom in Hu as [q Hu].
    destruct Hg as [Hl Ho Hb|t p _ Ht Hp _ _]; [|by rewrite (Hall _ _ Ht) in Hp].
    pose proof (Hall _ _ Hu) as ->. destruct (Ho _ _ Hu) as [?|[_ Hc]]; [done|]. cbn in Hb. by rewrite Hc in Hb |- *.
Qed.

(** ** With a temporary guard *)

(** The steps of the given threads, one after the other. *)
Fixpoint run (g : guard) (l : list Z) (e : endpoint) : option endpoint :=
  match l with
  | [] => Some e
  | t :: l => e ← shutdown_step g t e; run g l e
  end.
Lemma run_shutdowns g l e e' : run g l e = Some e' -> rtc (shutdowns g) e e'.
Proof.
  revert e. induction l as [|t l IH]; intros e; cbn [run]; [by intros [= ->]|].
  destruct (shutdown_step g t e) as [e1|] eqn:E; [|done]. cbn. intros H%IH. eapply rtc_l; [by exists t|exact H].
Qed.

(** Without Boost two threads can both find the endpoint open: [on_close] is called twice. *)
Theorem shutdown_twice : exists e, rtc (shutdowns Temporary) (called_by {[1; 2]}%Z) e /\ on_closes e = 2.
Proof.
  destruct (run Temporary [1; 1; 1; 2; 2; 2; 1; 2; 1; 2]%Z (called_by {[1; 2]}%Z)) as [e|] eqn:E; [|by vm_compute in E].
  exists e. split; [by eapply run_shutdowns|]. vm_compute in E. by injection E as <-.
Qed.

Lemma shutdown_once_witness :
  exists e, rtc (shutdowns Lock_guard) (called_by {[1; 2]}%Z) e /\ on_closes e = 1 /\ m_lock e = Free.
Proof.
  destruct (run Lock_guard [1; 1; 1; 1; 1; 2; 2; 2]%Z (called_by {[1; 2]}%Z)) as [e|] eqn:E; [|by vm_compute in E].
  exists e. apply run_shutdowns in E as Hr. split; [exact Hr|].
  apply (proj2 (proj2 (shutdown_once _ _ Hr))); [set_solver|]. vm_compute in E. injection E as <-.
  apply (bool_decide_unpack (map_Forall (fun _ q => q = Returned) _)). by vm_compute.
Defined.
