(* ===== verification/WsEndpointFacts.v ===== *)
(** * Facts about the WebSocket endpoint

    The frames the endpoint writes are those of the wire format; what its operations may
    do to its state; the termination of [AddRxData] and its independence of the way the
    bytes arrive. *)
From S2P Require Import Prelude Utf8 WsFrame WsFrameFacts WsEndpoint.

Local Open Scope Z_scope.
#[local] Arguments wire_head : simpl never.

(** ** Building frames *)
Definition out_frame (op : Z) (payload : bytes) : frame := Frame true op [] payload.

Lemma out_frame_ok op payload :
  0 <= op < 16 -> opcode.reserved op = false -> Z.of_nat (length payload) <= max_payload_size ->
  (8 <= op -> Z.of_nat (length payload) <= 125) -> frame_ok (out_frame op payload).
Proof. intros Hop Hr Hs Hc. constructor; cbn; auto. Qed.

(** The parser after [set_opcode], [set_fin(true)] and [set_masked(false)]. *)
Definition opened (op : Z) : parser :=
  MkParser STATE_BASIC_HEADER 2 false (zb (128 + op) :: NUL :: replicate 12 NUL) [].

Lemma open_frame op :
  0 <= op < 16 -> opcode.reserved op = false ->
  exists control, set_opcode op parser_new = Ret control /\ set_masked false [] (set_fin true control) = opened op.
Proof.
  intros Hop Hr. unfold set_opcode. rewrite Hr. unfold opcode.invalid.
  destruct (Z.ltb_spec 15 op); [lia|]. destruct (Z.ltb_spec op 0); [lia|]. cbn [orb].
  change (is_control parser_new) with false. cbn [andb]. eexists. split; [done|].
  change (MkParser STATE_BASIC_HEADER 2 false
    (zb (Z.lor (bz (zb (Z.lor 0 op))) 128) :: NUL :: replicate 12 NUL) [] = opened op).
  unfold opened. do 2 f_equal.
  pose proof (below_Z 16 (fun op => bool_decide (zb (Z.lor (bz (zb (Z.lor 0 op))) 128) = zb (128 + op)))
    ltac:(by vm_compute) op Hop) as Hb. by apply bool_decide_eq_true in Hb.
Qed.

Lemma opened_bits op : 0 <= op < 16 -> get_opcode (opened op) = op /\ get_masked (opened op) = false.
Proof.
  intros Hop. destruct (basic_bits (opened op) true false op 0 (replicate 12 NUL) Hop ltac:(lia) eq_refl)
    as (_ & _ & Ho & Hm & _). done.
Qed.

Lemma get_header_str_wire f p t :
  frame_ok f -> m_header p = wire_head f ++ t -> get_header_str p = wire_head f.
Proof.
  intros Hf E. unfold get_header_str.
  destruct (wire_header_len f Hf p (rest_head f ++ t) E) as [-> _]. rewrite E, Nat2Z.id.
  apply take_app_length.
Qed.

(** [set_payload] writes the length code and the extended length. *)
Lemma set_payload_opened op payload :
  0 <= op < 16 -> Z.of_nat (length payload) <= max_payload_size ->
  (8 <= op -> Z.of_nat (length payload) <= 125) ->
  exists t, set_payload payload (opened op) =
    Ret (MkParser STATE_BASIC_HEADER 2 false (wire_head (out_frame op payload) ++ t) payload).
Proof.
  intros Hop Hs Hc. destruct (opened_bits op Hop) as [Ho Hm]. unfold set_payload, set_payload_helper, is_control.
  rewrite Ho, Hm. unfold opcode.is_control, limits.PAYLOAD_SIZE_BASIC.
  destruct (Z.ltb_spec max_payload_size (Z.of_nat (length payload))); [lia|].
  assert ((8 <=? op) && (125 <? Z.of_nat (length payload)) = false) as ->.
  { destruct (Z.leb_spec 8 op), (Z.ltb_spec 125 (Z.of_nat (length payload))); try done. lia. }
  assert (store_at 0 payload (resize (Z.to_nat (Z.of_nat (length payload))) []) = payload) as Hst.
  { rewrite Nat2Z.id. unfold resize. rewrite take_nil, Nat.sub_0_r.
    pose proof (store_at_pad [] (length payload) payload ltac:(lia)) as E. cbn [app length] in *.
    rewrite E, Nat.sub_diag. apply app_nil_r. }
  assert (forall h, MkParser STATE_BASIC_HEADER 2 false h payload = MkParser STATE_BASIC_HEADER 2 false h
    (store_at 0 payload (resize (Z.to_nat (Z.of_nat (length payload))) []))) as Hq by (intros h; by rewrite Hst).
  unfold max_payload_size in *. unfold limits.PAYLOAD_SIZE_EXTENDED, limits.PAYLOAD_SIZE_JUMBO, wire_head, fr_size, length_code, extended_length.
  cbn [out_frame fr_fin fr_op fr_key fr_payload fr_masked].
  change (fr_masked (out_frame op payload)) with false. rewrite !app_nil_r.
  destruct (Z.leb_spec (Z.of_nat (length payload)) 125); [|destruct (Z.leb_spec (Z.of_nat (length payload)) 65535)].
  - exists (replicate 12 NUL). rewrite Hq. reflexivity.
  - exists (replicate 10 NUL). rewrite Hq. reflexivity.
  - destruct (Z.leb_spec (Z.of_nat (length payload)) 0x7FFFFFFFFFFFFFFF); [|lia].
    exists (replicate 4 NUL). rewrite Hq. reflexivity.
Qed.

Lemma build_frame_wire op payload :
  0 <= op < 16 -> opcode.reserved op = false -> Z.of_nat (length payload) <= max_payload_size ->
  (8 <= op -> Z.of_nat (length payload) <= 125) ->
  build_frame op payload = Ret (wire (out_frame op payload)).
Proof.
  intros Hop Hr Hs Hc. unfold build_frame. destruct (open_frame op Hop Hr) as (control & -> & ->).
  destruct (set_payload_opened op payload Hop Hs Hc) as (t & ->).
  rewrite (get_header_str_wire (out_frame op payload) _ t) by (done || by apply out_frame_ok). done.
Qed.

(** A frame that is too large, or a large control frame, is refused. *)
Lemma build_frame_refused op payload :
  0 <= op < 16 -> opcode.reserved op = false ->
  max_payload_size < Z.of_nat (length payload) \/ 8 <= op /\ 125 < Z.of_nat (length payload) ->
  exists what code, build_frame op payload = Throw (Ws_error what code) /\
    (code = wserror.MESSAGE_TOO_BIG \/ code = wserror.PROTOCOL_VIOLATION).
Proof.
  intros Hop Hr Hs. unfold build_frame. destruct (open_frame op Hop Hr) as (control & -> & ->).
  destruct (opened_bits op Hop) as [Ho Hm]. unfold set_payload, set_payload_helper, is_control.
  rewrite Ho. unfold opcode.is_control, limits.PAYLOAD_SIZE_BASIC.
  destruct (Z.ltb_spec max_payload_size (Z.of_nat (length payload))).
  - do 2 eexists. split; [done|by left].
  - destruct Hs as [|[H1 H2]]; [lia|]. destruct (Z.leb_spec 8 op); [|lia].
    destruct (Z.ltb_spec 125 (Z.of_nat (length payload))); [|lia]. cbn [andb].
    do 2 eexists. split; [done|by right].
Qed.

(** C14: a frame of the wire format, masked or not, is read back exactly: after the
    calls of [consume] for it the parser is ready with the opcode, the final bit, the header
    and the unmasked payload of the frame, and has taken nothing of what follows it. *)
Theorem frame_codec f s :
  frame_ok f ->
  exists p, consume_frame 3 parser_new (wire f ++ s) = Some (Ret tt, p, s) /\ ready p = true /\
    get_opcode p = fr_op f /\ get_fin p = fr_fin f /\ get_header_str p = wire_head f /\
    get_payload_str p = fr_payload f.
Proof.
  intros Hf. exists (parsed false f). pose proof (consume_frame_wire f false s Hf) as E.
  change (parser_new <| m_degraded := false |>) with parser_new in E.
  destruct (wire_bits f Hf (parsed false f) (rest_head f ++ _) eq_refl) as (Hfin & _ & Ho & _).
  split_and!; [done..|by eapply get_header_str_wire|done].
Qed.

(** RFC 6455, section 5.7: a masked "Hello". *)
Definition hello_frame : frame := Frame true opcode.TEXT (zb <$> [0x37; 0xfa; 0x21; 0x3d]) #"Hello".
Lemma hello_frame_ok : frame_ok hello_frame.
Proof. constructor; unfold hello_frame, opcode.TEXT, max_payload_size, fr_size; cbn; [lia|done|lia|lia|by right]. Qed.

Lemma frame_codec_witness :
  wire hello_frame = hello_masked /\
  exists p, consume_frame 3 parser_new (wire hello_frame ++ #"rest") = Some (Ret tt, p, #"rest") /\ ready p = true /\
    get_opcode p = fr_op hello_frame /\ get_fin p = fr_fin hello_frame /\
    get_header_str p = wire_head hello_frame /\ get_payload_str p = fr_payload hello_frame.
Proof. split; [by vm_compute|]. apply (frame_codec hello_frame #"rest" hello_frame_ok). Defined.

(** The frames the endpoint builds (for messages, pongs and close frames) are
    unmasked final frames of the wire format with the opcode and payload given; a payload
    of more than 100 MB, or of more than 125 bytes in a control frame, is refused with a
    [wserror]. *)
Theorem build_frame_spec op payload :
  0 <= op < 16 -> opcode.reserved op = false ->
  match build_frame op payload with
  | Ret tmp => tmp = wire (out_frame op payload) /\ frame_ok (out_frame op payload)
  | Throw (Ws_error _ code) =>
      (max_payload_size < Z.of_nat (length payload) \/ 8 <= op /\ 125 < Z.of_nat (length payload)) /\
      (code = wserror.MESSAGE_TOO_BIG \/ code = wserror.PROTOCOL_VIOLATION)
  | Throw _ => False
  end.
Proof.
  intros Hop Hr.
  destruct (decide (max_payload_size < Z.of_nat (length payload) \/ 8 <= op /\ 125 < Z.of_nat (length payload))) as [Hb|Hb].
  - by destruct (build_frame_refused op payload Hop Hr Hb) as (what & code & -> & Hc).
  - rewrite build_frame_wire by (done || lia). split; [done|]. apply out_frame_ok; (done || lia).
Qed.
Lemma build_frame_spec_witness :
  0 <= opcode.PONG < 16 /\ opcode.reserved opcode.PONG = false /\
  build_frame opcode.PONG #"hi" = Ret (wire (out_frame opcode.PONG #"hi")).
Proof.
  pose proof (build_frame_spec opcode.PONG #"hi" ltac:(by vm_compute) ltac:(done)) as H.
  destruct (build_frame opcode.PONG #"hi") as [tmp|e] eqn:E.
  - destruct H as [-> _]. by split_and!.
  - exfalso. revert E. by vm_compute.
Defined.

(** ** What a computation may do to the endpoint *)
Definition state_rank (s : session_state) : nat :=
  match s with CONNECTING => 0 | OPEN => 1 | CLOSING => 2 | CLOSED => 3 end.

Section facts.
Context {W : Type} {H : WsHandler W}.

(** It leaves the parser alone and never goes back to an earlier session state. *)
Definition tame {A} (m : ws A) : Prop := forall e (w : W),
  let '(_, e', _) := m e w in
  ep_parser e' = ep_parser e /\ (state_rank (ep_state e) <= state_rank (ep_state e'))%nat.

Lemma tame_bind {A B} (m : ws A) (k : A -> ws B) : tame m -> (forall a, tame (k a)) -> tame (bind m k).
Proof.
  intros Hm Hk e w. unfold bind. specialize (Hm e w). destruct (m e w) as [[[a|x] e1] w1]; [|done].
  specialize (Hk a e1 w1). destruct (k a e1 w1) as [[r e2] w2]. destruct Hk as [-> ?], Hm as [-> ?]. split; [done|lia].
Qed.
Lemma tame_ret {A} (a : A) : tame (ret a).
Proof. by intros e w. Qed.
Lemma tame_throw {A} x : tame (A := A) (throw x).
Proof. by intros e w. Qed.
Lemma tame_lift {A} (r : res A) : tame (lift r).
Proof. by intros e w. Qed.
Lemma tame_handler {A} (f : W -> res A * W) : tame (handler f).
Proof. intros e w. unfold handler. by destruct (f w). Qed.
Lemma tame_get_state : tame get_state.
Proof. by intros e w. Qed.
Lemma tame_get_parser : tame get_parser.
Proof. by intros e w. Qed.
Lemma tame_set_closed : tame (set_state CLOSED).
Proof. intros e w. cbn. split; [done|]. destruct (ep_state e); cbn; lia. Qed.

Lemma tame_if {A} (b : bool) (m k : ws A) : tame m -> tame k -> tame (if b then m else k).
Proof. by destruct b. Qed.
Lemma tame_decide {A} P `{Decision P} (m k : ws A) : tame m -> tame k -> tame (if decide P then m else k).
Proof. by destruct (decide P). Qed.

Ltac tame :=
  repeat (apply tame_ret || apply tame_throw || apply tame_lift || apply tame_handler || apply tame_get_state
          || apply tame_get_parser || apply tame_set_closed || (apply tame_bind; [|intros ?])
          || apply tame_if || apply tame_decide).

Lemma tame_shutdown : tame shutdown.
Proof using. unfold shutdown. tame. Qed.
Lemma tame_send payload op : tame (send payload op).
Proof using. unfold send. tame. Qed.
Lemma tame_pong payload : tame (pong payload).
Proof using. unfold pong. tame. Qed.

Lemma tame_send_close code reason : tame (send_close code reason).
Proof using.
  intros e w. unfold send_close, bind, get_state, ret, set_state, lift, handler.
  case_decide as Ho; [done|]. assert (ep_state e = OPEN) as E by (destruct (decide (ep_state e = OPEN)); tauto).
  destruct (status.invalid code); [done|]. destruct (status.reserved code); [done|].
  destruct (build_frame _ _); cbn; [destruct (do_response _ _); cbn|]; rewrite E; split; (done || cbn; lia).
Qed.

Lemma tame_process_data : tame process_data.
Proof using. unfold process_data. tame. Qed.
Lemma tame_process_control : tame process_control.
Proof using.
  unfold process_control, send_close_ack. tame. all: try apply tame_pong. all: apply tame_shutdown.
Qed.

(** ** A complete frame *)
Lemma frame_ready_spec e w :
  let '(r, e', w') := frame_ready e w in
  (state_rank (ep_state e) <= state_rank (ep_state e'))%nat /\
  ep_parser e' = if ready (ep_parser e) then match r with Ret _ => parser_new | Throw _ => ep_parser e end
                 else ep_parser e.
Proof using.
  unfold frame_ready, bind at 1, get_parser. destruct (ready (ep_parser e)); [|done].
  assert (tame (if is_control (ep_parser e) then process_control else process_data)) as Ht
    by (destruct (is_control _); [apply tame_process_control|apply tame_process_data]).
  unfold bind. specialize (Ht e w). destruct (_ e w) as [[[[]|x] e1] w1]; cbn; destruct Ht as [E ?]; [|done].
  split; [done|]. apply reset_new.
Qed.

(** ** The loop *)
Definition rx_next (n : nat) (x : res unit * bytes * wsendpoint * W) : option (res unit * wsendpoint * W) :=
  match x with
  | (Ret _, s, e, w) => rx_loop n s e w
  | (Throw (Ws_error what code), s, e, w) =>
      match rx_error what code e w with
      | (Ret Continue_loop, e, w) => rx_loop n s e w
      | (Ret Leave_loop, e, w) => Some (Ret tt, e, w)
      | (Throw x, e, w) => Some (Throw x, e, w)
      end
  | (Throw x, s, e, w) => Some (Throw x, e, w)
  end.

Lemma rx_loop_S n s e w :
  rx_loop (S n) s e w =
    if decide (ep_state e = CLOSED \/ s = []) then Some (Ret tt, e, w) else rx_next n (rx_body s e w).
Proof using. reflexivity. Qed.

Lemma rx_loop_mono n m s e w o : (n <= m)%nat -> rx_loop n s e w = Some o -> rx_loop m s e w = Some o.
Proof using.
  revert m s e w. induction n as [|n IH]; intros [|m] s e w Hle; [done..|lia|]. rewrite !rx_loop_S.
  case_decide; [done|]. destruct (rx_body s e w) as [[[[[]|x] s1] e1] w1]; cbn [rx_next]; [apply IH; lia|].
  destruct x as [| | | | |what code| |]; try done. destruct (rx_error what code e1 w1) as [[[[]|] e2] w2]; [done|apply IH; lia|done].
Qed.

(** The endpoint between two calls of [AddRxData]. *)
Definition endpoint_ok (e : wsendpoint) : Prop :=
  ep_state e = CLOSED \/ parser_ok (ep_parser e) \/ stuck (ep_parser e).

Lemma endpoint_parser_new e : ep_parser e = parser_new -> endpoint_ok e.
Proof using. intros E. right. left. rewrite E. apply parser_new_ok. Qed.

(** Where an error of the frame layer or of a handler leads. *)
Lemma rx_error_spec what code e w :
  let '(r, e', w') := rx_error what code e w in
  (state_rank (ep_state e) <= state_rank (ep_state e'))%nat /\
  ep_parser e' = (if ready (ep_parser e) then parser_new else ep_parser e) /\
  (code = wserror.FATAL_ERROR -> ep_state e' = CLOSED /\ r <> Ret Continue_loop).
Proof using.
  unfold rx_error, bind at 1, get_parser.
  set (e1 := if ready (ep_parser e) then e <| ep_parser := parser_new |> else e).
  assert (forall A (m : ws A) , bind (if ready (ep_parser e) then reset_parser else ret tt) (fun _ => m) e w = m e1 w) as Hb.
  { intros A m. unfold bind, e1. by destruct (ready (ep_parser e)). }
  rewrite Hb. clear Hb.
  assert (ep_state e1 = ep_state e /\ ep_parser e1 = if ready (ep_parser e) then parser_new else ep_parser e) as [Es Ep]
    by (unfold e1; by destruct (ready (ep_parser e))).
  assert (forall (a : after_error) c r, let '(x, e', w') := bind (send_close c r) (fun _ => ret a) e1 w in
    (state_rank (ep_state e) <= state_rank (ep_state e'))%nat /\ ep_parser e' = ep_parser e1) as Hc.
  { intros a c r. assert (tame (bind (send_close c r) (fun _ => ret a))) as Ht
      by (apply tame_bind; [apply tame_send_close|intros; apply tame_ret]).
    specialize (Ht e1 w). destruct (bind (send_close c r) (fun _ => ret a) e1 w) as [[x e'] w'].
    rewrite Es in Ht. tauto. }
  rewrite <- Ep. unfold wserror.PROTOCOL_VIOLATION, wserror.PAYLOAD_VIOLATION, wserror.INTERNAL_ENDPOINT_ERROR,
    wserror.SOFT_ERROR, wserror.MESSAGE_TOO_BIG, wserror.OUT_OF_MESSAGES, wserror.FATAL_ERROR.
  repeat (match goal with |- context [code =? ?k] => destruct (Z.eqb_spec code k) as [->|] end;
    [first [match goal with |- context [bind (send_close ?c ?r) (fun _ => ret ?a)] =>
              specialize (Hc a c r); destruct (bind (send_close c r) (fun _ => ret a) e1 w) as [[? ?] ?] end;
            destruct Hc as [? ?]; by split_and!
           |cbn; rewrite Es; by split_and!]|]).
  assert (tame (bind shutdown (fun _ => ret Leave_loop))) as Ht
    by (apply tame_bind; [apply tame_shutdown|intros; apply tame_ret]).
  specialize (Ht e1 w). destruct (bind shutdown (fun _ => ret Leave_loop) e1 w) as [[r e2] w2] eqn:E. rewrite Es in Ht.
  destruct Ht as [Ht1 Ht2]. split_and!; [done|done|]. intros _. revert E.
  unfold shutdown, bind, get_state, set_state, ret, handler. case_decide; [intros [= <- <- _]; by split|].
  destruct (on_close w) as [[[]|] w3]; intros [= <- <- _]; by split.
Qed.

(** ** Termination *)
Definition rx_measure (s : bytes) (e : wsendpoint) : nat :=
  (length s + if ready (ep_parser e) then 1 else 0)%nat.

(** What an iteration leaves: less to read, or an answer; an endpoint in order. *)
Definition rx_post (s : bytes) (e : wsendpoint) (x : res unit * bytes * wsendpoint * W) : Prop :=
  let '(r, s', e', w') := x in
  (state_rank (ep_state e) <= state_rank (ep_state e'))%nat /\
  match r with
  | Ret _ => parser_ok (ep_parser e') /\ (rx_measure s' e' < rx_measure s e)%nat
  | Throw (Ws_error _ code) =>
      parser_ok (ep_parser e') /\ (length s' < rx_measure s e)%nat \/
      code = wserror.FATAL_ERROR /\ ready (ep_parser e') = false
  | Throw _ => endpoint_ok e'
  end.

Lemma ready_true p : ready p = true <-> m_state p = STATE_READY.
Proof using. unfold ready. apply bool_decide_eq_true. Qed.
Lemma ready_false p : ready p = false <-> m_state p <> STATE_READY.
Proof using. unfold ready. apply bool_decide_eq_false. Qed.

Lemma rx_body_post s e w :
  ep_state e <> CLOSED -> s <> [] -> endpoint_ok e -> rx_post s e (rx_body s e w).
Proof using.
  intros Hc Hs [?|[Hok|Hst]]; [done| |].
  2: { unfold rx_body. rewrite consume_stuck by done. split; [done|]. right. by right. }
  pose proof (consume_ok (ep_parser e) s Hok Hs) as Hp. unfold rx_body.
  destruct (consume (ep_parser e) s) as [[r p] s']. destruct Hp as [Hprog Hp].
  destruct r as [[]|x].
  2: { split; [done|]. destruct x; try done.
    - right. left. apply Hp.
    - right. by right.
    - right. destruct Hp as (-> & _ & Hr). split; [done|]. by apply ready_false. }
  pose proof (frame_ready_spec (e <| ep_parser := p |>) w) as Hf.
  destruct (frame_ready _ w) as [[r e'] w']. cbn in Hf. destruct Hf as [Hrank Hpar]. split; [done|].
  assert (length s' < rx_measure s e)%nat as Hlen.
  { unfold rx_measure. destruct Hprog as [|(Hr & -> & _)]; [lia|]. apply ready_true in Hr. rewrite Hr. lia. }
  assert (r = Ret tt -> ready (ep_parser e') = false) as Hnr.
  { intros ->. rewrite Hpar. by destruct (ready p) eqn:E. }
  assert (parser_ok (ep_parser e')) as Hok'.
  { rewrite Hpar. destruct (ready p); [|done]. destruct r; [apply parser_new_ok|done]. }
  destruct r as [[]|x].
  - split; [done|]. unfold rx_measure at 1. rewrite Hnr by done. lia.
  - destruct x; try (right; by left). by left.
Qed.

Lemma rx_error_post s e what code s1 e1 w1 :
  rx_post s e (Throw (Ws_error what code), s1, e1, w1) ->
  let '(r, e2, _) := rx_error what code e1 w1 in
  endpoint_ok e2 /\ (state_rank (ep_state e) <= state_rank (ep_state e2))%nat /\
  (r = Ret Continue_loop -> (rx_measure s1 e2 < rx_measure s e)%nat).
Proof using.
  intros [Hr1 Hp]. pose proof (rx_error_spec what code e1 w1) as He.
  destruct (rx_error what code e1 w1) as [[r e2] w2]. destruct He as (Hr2 & Hp2 & Hf).
  assert (ready (ep_parser e2) = false) as Hnr by (rewrite Hp2; by destruct (ready (ep_parser e1)) eqn:E).
  split_and!; [|lia|].
  - destruct Hp as [[H1 _]|[H1 H2]]; [|left; by apply Hf]. right. left. rewrite Hp2.
    destruct (ready (ep_parser e1)); [apply parser_new_ok|done].
  - intros ->. destruct Hp as [[H1 H2]|[H1 _]]; [|by destruct (Hf H1) as [_ Hx]].
    unfold rx_measure at 1. rewrite Hnr. lia.
Qed.

Lemma rx_loop_returns n s e w :
  endpoint_ok e -> (rx_measure s e < n)%nat ->
  exists r e' w', rx_loop n s e w = Some (r, e', w') /\ endpoint_ok e' /\
    (state_rank (ep_state e) <= state_rank (ep_state e'))%nat.
Proof using.
  revert s e w. induction n as [|n IH]; intros s e w Hok Hn; [lia|]. rewrite rx_loop_S.
  case_decide as Hd; [by do 3 eexists|].
  pose proof (rx_body_post s e w ltac:(tauto) ltac:(tauto) Hok) as Hp.
  destruct (rx_body s e w) as [[[r s1] e1] w1]. destruct Hp as [Hr1 Hp]. cbn [rx_next].
  destruct r as [[]|x].
  { destruct Hp as [Hok1 Hm]. destruct (IH s1 e1 w1) as (r & e2 & w2 & -> & ? & ?); [by right; left|lia|].
    do 3 eexists. split_and!; [done..|lia]. }
  destruct x as [| | | | |what code| |]; try (by do 3 eexists).
  pose proof (rx_error_post s e what code s1 e1 w1 (conj Hr1 Hp)) as He. destruct (rx_error what code e1 w1) as [[r e2] w2].
  destruct He as (Hok2 & Hr2 & Hm).
  destruct r as [[]|x]; [by do 3 eexists| |by do 3 eexists].
  destruct (IH s1 e2 w2 Hok2) as (r & e3 & w3 & -> & ? & ?); [specialize (Hm eq_refl); lia|].
  do 3 eexists. split_and!; [done..|lia].
Qed.

Lemma rx_measure_fuel data e : (rx_measure data e < rx_fuel data)%nat.
Proof using. unfold rx_measure, rx_fuel. destruct (ready _); lia. Qed.

(** C8: the loop of [AddRxData] always ends, whatever bytes arrive and whatever the
    handler does or throws; the endpoint stays in order and its session state never
    goes back.  In order means: the session is closed, or the parser either waits for
    at least one byte or holds a complete frame, or the parser is stuck in the
    extended header of a frame beyond the limit with nothing to read, which is
    the case the invariant documented at [consume] forbids. *)
Theorem AddRxData_returns data e (w : W) :
  endpoint_ok e ->
  exists r e' w', AddRxData data e w = Some (r, e', w') /\ endpoint_ok e' /\
    (state_rank (ep_state e) <= state_rank (ep_state e'))%nat.
Proof using. intros Hok. apply rx_loop_returns; [done|]. apply rx_measure_fuel. Qed.

(** ** Independence of the way the bytes arrive *)

(** The handler does not ask for more messages. *)
Definition never_out {A} (r : res A) : Prop :=
  forall what, r <> Throw (Ws_error what wserror.OUT_OF_MESSAGES).
Record polite : Prop := {
  polite_message : forall h d w, never_out (on_message h d w).1;
  polite_close : forall w, never_out (on_close w).1;
  polite_ping : forall d w, never_out (on_ping d w).1;
  polite_pong : forall d w, never_out (on_pong d w).1;
  polite_response : forall d w, never_out (do_response d w).1
}.

Definition calm {A} (m : ws A) : Prop := forall e (w : W), never_out (m e w).1.1.

Lemma calm_bind {A B} (m : ws A) (k : A -> ws B) : calm m -> (forall a, calm (k a)) -> calm (bind m k).
Proof.
  intros Hm Hk e w. unfold bind. specialize (Hm e w). destruct (m e w) as [[[a|x] e1] w1]; [apply Hk|].
  intros what [= ->]. by apply (Hm what).
Qed.
Lemma calm_ret {A} (a : A) : calm (ret a).
Proof. by intros e w. Qed.
Lemma calm_get_state : calm get_state.
Proof. by intros e w. Qed.
Lemma calm_get_parser : calm get_parser.
Proof. by intros e w. Qed.
Lemma calm_set_state s : calm (set_state s).
Proof. by intros e w. Qed.
Lemma calm_reset : calm reset_parser.
Proof. by intros e w. Qed.
Lemma calm_lift {A} (r : res A) : never_out r -> calm (lift r).
Proof. by intros Hr e w. Qed.
Lemma calm_handler {A} (f : W -> res A * W) : (forall w, never_out (f w).1) -> calm (handler f).
Proof. intros Hf e w. unfold handler. specialize (Hf w). by destruct (f w). Qed.
Lemma calm_if {A} (b : bool) (m k : ws A) : calm m -> calm k -> calm (if b then m else k).
Proof. by destruct b. Qed.
Lemma calm_decide {A} P `{Decision P} (m k : ws A) : calm m -> calm k -> calm (if decide P then m else k).
Proof. by destruct (decide P). Qed.
Lemma calm_protocol {A} what : calm (A := A) (throw (Ws_error what wserror.PROTOCOL_VIOLATION)).
Proof. by intros e w. Qed.

Lemma build_frame_calm op payload : never_out (build_frame op payload).
Proof using.
  intros what E. revert E. unfold build_frame, set_opcode, set_payload, set_payload_helper.
  repeat case_match; by simplify_eq.
Qed.
Lemma close_code_calm p : never_out (get_close_code p).
Proof using. intros what. unfold get_close_code, get_raw_close_code. by repeat case_decide. Qed.
Lemma local_close_calm code reason : never_out (local_close code reason).
Proof using. intros what. unfold local_close. by repeat case_match. Qed.

Ltac calm Hp :=
  repeat (apply calm_ret || apply calm_get_state || apply calm_get_parser || apply calm_set_state || apply calm_reset
    || apply calm_protocol
    || (apply calm_handler; intros ?; apply Hp) || (apply calm_bind; [|intros ?]) || apply calm_if || apply calm_decide
    || (apply calm_lift; (apply build_frame_calm || apply close_code_calm || apply local_close_calm))).

Lemma calm_frame_ready : polite -> calm frame_ready.
Proof using.
  intros Hp. unfold frame_ready, process_control, process_data, pong, send_close_ack, shutdown. calm Hp.
Qed.

Lemma rx_error_leaves what code e w e' w' :
  code <> wserror.OUT_OF_MESSAGES -> rx_error what code e w = (Ret Leave_loop, e', w') -> ep_state e' <> OPEN.
Proof using.
  intros Hc. unfold rx_error, bind at 1, get_parser.
  set (e1 := if ready (ep_parser e) then e <| ep_parser := parser_new |> else e).
  assert (forall A (m : ws A) , bind (if ready (ep_parser e) then reset_parser else ret tt) (fun _ => m) e w = m e1 w) as Hb.
  { intros A m. unfold bind, e1. by destruct (ready (ep_parser e)). }
  rewrite Hb. clear Hb.
  assert (forall c r, status.invalid c = false -> status.reserved c = false ->
    bind (send_close c r) (fun _ => ret Leave_loop) e1 w = (Ret Leave_loop, e', w') -> ep_state e' <> OPEN) as Hs.
  { intros c r Hi Hr. unfold bind, send_close, get_state, set_state, lift, handler, ret, bind. rewrite Hi, Hr.
    case_decide as Ho; [by intros [= <- _]|].
    destruct (build_frame _ _); [|done]. destruct (do_response _ _) as [[]]; [|done]. by intros [= <- _]. }
  assert (bind shutdown (fun _ => ret Leave_loop) e1 w = (Ret Leave_loop, e', w') -> ep_state e' <> OPEN) as Hd.
  { unfold bind, shutdown, get_state, set_state, handler, ret, bind.
    case_decide as Ho; [intros [= <- _]; by rewrite Ho|]. destruct (on_close w) as [[]]; [|done]. by intros [= <- _]. }
  destruct (code =? wserror.PROTOCOL_VIOLATION); [by apply Hs|].
  destruct (code =? wserror.PAYLOAD_VIOLATION); [by apply Hs|].
  destruct (code =? wserror.INTERNAL_ENDPOINT_ERROR); [by apply Hs|].
  destruct (code =? wserror.SOFT_ERROR); [done|].
  destruct (code =? wserror.MESSAGE_TOO_BIG); [by apply Hs|].
  destruct (Z.eqb_spec code wserror.OUT_OF_MESSAGES); [done|]. done.
Qed.

Lemma rx_loop_closed n s e w : ep_state e = CLOSED -> rx_loop (S n) s e w = Some (Ret tt, e, w).
Proof using. intros Hc. rewrite rx_loop_S. by rewrite decide_True by (by left). Qed.

(** Once the errors are reported the session is open or closed for good. *)
Definition settled (e : wsendpoint) : Prop := ep_state e = OPEN \/ ep_state e = CLOSED.

Lemma rx_body_split a b e w :
  parser_ok (ep_parser e) -> a <> [] ->
  (rx_body (a ++ b) e w = let '(r, s', e', w') := rx_body a e w in (r, s' ++ b, e', w')) \/
  (exists p, rx_body a e w = (Ret tt, [], e <| ep_parser := p |>, w) /\
     rx_body b (e <| ep_parser := p |>) w = rx_body (a ++ b) e w).
Proof using.
  intros Hok Hne. unfold rx_body. destruct (consume_split (ep_parser e) a b Hok Hne) as [E|(p & E1 & E2 & E3)].
  - left. destruct (consume (ep_parser e) a) as [[r p] s]. rewrite E. destruct r; [|done].
    by destruct (frame_ready _ w) as [[? ?] ?].
  - right. exists p. rewrite E1. split.
    + unfold frame_ready, bind, get_parser. cbn. by rewrite E2.
    + cbn. rewrite E3. by destruct (consume (ep_parser e) (a ++ b)) as [[[] ?] ?].
Qed.

Lemma rx_body_calm s e w what s' e' w' :
  polite -> endpoint_ok e -> ep_state e <> CLOSED -> s <> [] ->
  rx_body s e w <> (Throw (Ws_error what wserror.OUT_OF_MESSAGES), s', e', w').
Proof using.
  intros Hp [?|[Hok|Hst]] Hc Hs; unfold rx_body; [done| |by rewrite consume_stuck].
  pose proof (consume_ok (ep_parser e) s Hok Hs) as H1.
  destruct (consume (ep_parser e) s) as [[[[]|x] p] s1]; destruct H1 as [_ H1].
  - pose proof (calm_frame_ready Hp (e <| ep_parser := p |>) w what) as Hf.
    destruct (frame_ready _ w) as [[r e2] w2]. intros [= -> _ _ _]. done.
  - intros [= -> _ _ _]. by destruct H1 as [? _].
Qed.

Lemma rx_loop_app n m a b e w e1 w1 o :
  polite -> endpoint_ok e ->
  rx_loop n a e w = Some (Ret tt, e1, w1) -> settled e1 -> rx_loop m b e1 w1 = Some o ->
  exists k, rx_loop k (a ++ b) e w = Some o.
Proof using.
  intros Hp. revert a e w. induction n as [|n IH]; intros a e w Hok Ha Hs Hb; [done|].
  destruct m as [|m]; [done|]. rewrite rx_loop_S in Ha. case_decide as Hd.
  { injection Ha as <- <-. destruct (decide (a = [])) as [->|Hne]; [by exists (S m)|].
    assert (ep_state e = CLOSED) as Hc by tauto. exists 1%nat.
    rewrite rx_loop_closed in Hb |- * by done. done. }
  assert (ep_state e <> CLOSED /\ a <> []) as [Hc Hne] by tauto.
  assert (forall b', ~ (ep_state e = CLOSED \/ a ++ b' = [])) as Hd' by (intros b' [?|[? _]%app_eq_nil]; done).
  pose proof (rx_body_post a e w Hc Hne Hok) as Hpost.
  pose proof (fun what s' e' w' => rx_body_calm a e w what s' e' w' Hp Hok Hc Hne) as Hcalm.
  destruct Hok as [?|[Hok|Hst]]; [done| |].
  2: { exfalso. unfold rx_body in Ha. by rewrite consume_stuck in Ha. }
  destruct (rx_body_split a b e w Hok Hne) as [E|(p & E1 & E2)].
  2: { rewrite E1 in Ha. cbn [rx_next] in Ha. destruct n as [|n]; [done|]. rewrite rx_loop_S in Ha.
       rewrite decide_True in Ha by (by right). injection Ha as <- <-.
       destruct (decide (b = [])) as [->|Hb'].
       - rewrite app_nil_r. exists 2%nat. rewrite rx_loop_S, decide_False by tauto. rewrite E1. cbn [rx_next].
         rewrite rx_loop_S in Hb |- *. rewrite decide_True in Hb |- * by (by right). done.
       - exists (S m). rewrite rx_loop_S, decide_False by apply Hd'. rewrite <- E2.
         rewrite rx_loop_S, decide_False in Hb by (intros [?|?]; done). done. }
  destruct (rx_body a e w) as [[[r s'] e'] w']. cbn [rx_next] in Ha.
  assert (forall k, rx_next k (r, s' ++ b, e', w') = Some o -> exists k, rx_loop k (a ++ b) e w = Some o) as Hk.
  { intros k H0. exists (S k). by rewrite rx_loop_S, decide_False, E by apply Hd'. }
  destruct r as [[]|x].
  { destruct (IH s' e' w') as [k ?]; [right; left; apply Hpost|done..|]. by apply (Hk k). }
  destruct x as [| | | | |what code| |]; try done. cbn [rx_next] in Hk.
  pose proof (rx_error_post a e what code s' e' w' Hpost) as He.
  destruct (rx_error what code e' w') as [[[[]|y] e2] w2] eqn:Er; [| |done].
  - injection Ha as <- <-. apply rx_error_leaves in Er; [|by intros ->; eapply Hcalm].
    assert (ep_state e2 = CLOSED) as Hcl by (by destruct Hs). rewrite rx_loop_closed in Hb by done.
    by apply (Hk 0%nat).
  - destruct (IH s' e2 w2) as [k ?]; [apply He|done..|]. by apply (Hk k).
Qed.

(** C6: cutting the input in two changes nothing: if the first part is processed
    without an exception and leaves the session open or closed, processing the second
    part from there does the same as processing both at once. *)
Theorem AddRxData_segments a b e (w : W) e1 w1 :
  polite -> endpoint_ok e -> AddRxData a e w = Some (Ret tt, e1, w1) -> settled e1 ->
  AddRxData (a ++ b) e w = AddRxData b e1 w1.
Proof using.
  intros Hp Hok Ha Hs.
  assert (endpoint_ok e1) as Hok1.
  { destruct (rx_loop_returns (rx_fuel a) a e w Hok (rx_measure_fuel a e)) as (r & e' & w' & E & H1 & _).
    unfold AddRxData in Ha. by simplify_eq. }
  destruct (rx_loop_returns (rx_fuel b) b e1 w1 Hok1 (rx_measure_fuel b e1)) as (r & e2 & w2 & Hb & _).
  destruct (rx_loop_app _ _ a b e w e1 w1 _ Hp Hok Ha Hs Hb) as [k Hk].
  destruct (rx_loop_returns (rx_fuel (a ++ b)) (a ++ b) e w Hok (rx_measure_fuel _ e)) as (r' & e3 & w3 & Hab & _).
  unfold AddRxData. rewrite Hb, Hab.
  apply (rx_loop_mono _ (k + rx_fuel (a ++ b))) in Hk; [|lia].
  apply (rx_loop_mono _ (k + rx_fuel (a ++ b))) in Hab; [|lia]. congruence.
Qed.

End facts.

(** ** Concrete runs *)
Lemma log_polite : polite (H := log_handler).
Proof. by split. Qed.

Lemma wsendpoint_new_ok : endpoint_ok wsendpoint_new.
Proof. by apply endpoint_parser_new. Qed.

Lemma AddRxData_returns_witness :
  endpoint_ok wsendpoint_new /\
  exists r e' w', AddRxData (hello_masked ++ #"garbage") wsendpoint_new [] = Some (r, e', w') /\ endpoint_ok e' /\
    (state_rank OPEN <= state_rank (ep_state e'))%nat.
Proof.
  split; [apply wsendpoint_new_ok|].
  apply (AddRxData_returns (H := log_handler) (hello_masked ++ #"garbage") wsendpoint_new [] wsendpoint_new_ok).
Defined.

(** The frame cut inside its masking key. *)
Definition half_read : wsendpoint :=
  MkEndpoint (MkParser STATE_EXTENDED_HEADER 2 false (take 4 hello_masked ++ replicate 10 NUL) []) OPEN.

Lemma AddRxData_segments_witness :
  polite (H := log_handler) /\ endpoint_ok wsendpoint_new /\
  AddRxData (take 4 hello_masked) wsendpoint_new [] = Some (Ret tt, half_read, []) /\ settled half_read /\
  AddRxData (take 4 hello_masked ++ drop 4 hello_masked) wsendpoint_new [] =
    AddRxData (drop 4 hello_masked) half_read [].
Proof.
  assert (AddRxData (H := log_handler) (take 4 hello_masked) wsendpoint_new [] = Some (Ret tt, half_read, [])) as E
    by (by vm_compute).
  assert (settled half_read) as Hs by (by left).
  split; [apply log_polite|]. split; [apply wsendpoint_new_ok|]. split; [exact E|]. split; [exact Hs|].
  exact (AddRxData_segments (H := log_handler) (take 4 hello_masked) (drop 4 hello_masked) wsendpoint_new []
    half_read [] log_polite wsendpoint_new_ok E Hs).
Defined.
