(* ===== verification/WsSession.v ===== *)
(** * WebSocket sessions

    What [AddRxData] does with frames, on top of WsEndpointFacts: messages and pings are
    served, the closing handshake, the frames that make the call throw, and the calls of
    [on_close]. *)
From S2P Require Import Prelude Utf8 WsFrame WsFrameFacts WsEndpoint WsEndpointFacts.

Local Open Scope Z_scope.
#[local] Arguments wire_head : simpl never.

Section session.
Context {W : Type} {H : WsHandler W}.

(** ** One frame through the loop *)
Lemma AddRxData_run k s e w o : endpoint_ok e -> rx_loop k s e w = Some o -> AddRxData s e w = Some o.
Proof using.
  intros Hok Hk. destruct (rx_loop_returns (rx_fuel s) s e w Hok (rx_measure_fuel s e)) as (r & e' & w' & E & _).
  unfold AddRxData. rewrite E. apply (rx_loop_mono _ (k + rx_fuel s)) in Hk; [|lia].
  apply (rx_loop_mono _ (k + rx_fuel s)) in E; [|lia]. congruence.
Qed.

Lemma frame_not_ready e w : ready (ep_parser e) = false -> frame_ready e w = (Ret tt, e, w).
Proof using. intros Hr. unfold frame_ready, bind, get_parser. by rewrite Hr. Qed.

Lemma rx_loop_frame k s e w p s1 n :
  consume_frame k (ep_parser e) s = Some (Ret tt, p, s1) -> ready p = true -> s <> [] -> ep_state e <> CLOSED ->
  exists j, rx_loop (S j + n) s e w =
    rx_next n (let '(r, e', w') := frame_ready (e <| ep_parser := p |>) w in (r, s1, e', w')).
Proof using.
  revert s e. induction k as [|k IH]; intros s e Hk Hr Hs Hc; [done|]. cbn [consume_frame] in Hk.
  destruct (consume (ep_parser e) s) as [[[[]|x] p1] s2] eqn:E; [|done].
  destruct (ready p1) eqn:Hr1; cbn [orb] in Hk.
  - injection Hk as -> ->. exists 0%nat. cbn [Nat.add]. rewrite rx_loop_S, decide_False by tauto.
    unfold rx_body. by rewrite E.
  - destruct (bool_decide (s2 = [])) eqn:E2; [congruence|]. apply bool_decide_eq_false in E2.
    destruct (IH s2 (MkEndpoint p1 (ep_state e)) Hk Hr E2 Hc) as [j Hj]. exists (S j). cbn [Nat.add].
    rewrite rx_loop_S, decide_False by tauto. unfold rx_body. rewrite E.
    rewrite (frame_not_ready (MkEndpoint p1 (ep_state e))) by done. exact Hj.
Qed.

(** An endpoint whose parser waits for a frame. *)
Definition waiting (degraded : bool) (st : session_state) : wsendpoint :=
  MkEndpoint (parser_new <| m_degraded := degraded |>) st.
Definition holding (degraded : bool) (st : session_state) (f : frame) : wsendpoint :=
  MkEndpoint (parsed degraded f) st.

Lemma waiting_ok degraded st : endpoint_ok (waiting degraded st).
Proof using. right. left. split; [done|]. cbn. by split. Qed.

Lemma wire_nonempty f s : wire f ++ s <> [].
Proof using. done. Qed.

Lemma rx_loop_wire f degraded st s w n :
  frame_ok f -> st <> CLOSED ->
  exists j, rx_loop (S j + n) (wire f ++ s) (waiting degraded st) w =
    rx_next n (let '(r, e', w') := frame_ready (holding degraded st f) w in (r, s, e', w')).
Proof using.
  intros Hf Hst. exact (rx_loop_frame 3 (wire f ++ s) (waiting degraded st) w (parsed degraded f) s n
    (consume_frame_wire f degraded s Hf) eq_refl (wire_nonempty f s) Hst).
Qed.

Lemma AddRxData_frame f degraded st s w e' w' :
  frame_ok f -> st <> CLOSED ->
  frame_ready (holding degraded st f) w = (Ret tt, e', w') ->
  AddRxData (wire f ++ s) (waiting degraded st) w = AddRxData s e' w'.
Proof using.
  intros Hf Hst Hr. pose proof (frame_ready_spec (holding degraded st f) w) as Hsp. rewrite Hr in Hsp.
  destruct Hsp as [_ Hp]. cbn in Hp. assert (endpoint_ok e') as Hok' by (by apply endpoint_parser_new).
  destruct (rx_loop_wire f degraded st s w (rx_fuel s) Hf Hst) as [j Hj]. rewrite Hr in Hj. cbn [rx_next] in Hj.
  destruct (rx_loop_returns (rx_fuel s) s e' w' Hok' (rx_measure_fuel s e')) as (r & e2 & w2 & E & _).
  unfold AddRxData at 2. rewrite E in Hj |- *. by eapply AddRxData_run; [apply waiting_ok|].
Qed.

(** The handler throws, or the frame makes the endpoint throw. *)
Lemma AddRxData_throws f degraded st s w x e' w' :
  frame_ok f -> st <> CLOSED ->
  frame_ready (holding degraded st f) w = (Throw x, e', w') ->
  (forall what code, x <> Ws_error what code) ->
  AddRxData (wire f ++ s) (waiting degraded st) w = Some (Throw x, e', w').
Proof using.
  intros Hf Hst Hr Hx. destruct (rx_loop_wire f degraded st s w 0 Hf Hst) as [j Hj]. rewrite Hr in Hj.
  eapply AddRxData_run; [apply waiting_ok|]. rewrite Hj. destruct x; try done. by destruct (Hx what code).
Qed.

Lemma AddRxData_ws_error f degraded st s w what code e' w' e2 w2 :
  frame_ok f -> st <> CLOSED ->
  frame_ready (holding degraded st f) w = (Throw (Ws_error what code), e', w') ->
  rx_error what code e' w' = (Ret Leave_loop, e2, w2) ->
  AddRxData (wire f ++ s) (waiting degraded st) w = Some (Ret tt, e2, w2).
Proof using.
  intros Hf Hst Hr Hx. destruct (rx_loop_wire f degraded st s w 0 Hf Hst) as [j Hj]. rewrite Hr in Hj.
  eapply AddRxData_run; [apply waiting_ok|]. rewrite Hj. cbn [rx_next]. by rewrite Hx.
Qed.

(** ** What the frame means to the endpoint *)
Lemma parsed_bits degraded f :
  frame_ok f -> get_opcode (parsed degraded f) = fr_op f /\ get_header_str (parsed degraded f) = wire_head f /\
  get_fin (parsed degraded f) = fr_fin f.
Proof using.
  intros Hf. assert (m_header (parsed degraded f) =
    wire_head f ++ replicate (MAX_HEADER_LENGTH - length (wire_head f)) NUL) as E by done.
  destruct (wire_bits f Hf (parsed degraded f) (rest_head f ++ _) E) as (Hfin & _ & Ho & _).
  split_and!; [done|by eapply get_header_str_wire|done].
Qed.

(** A handler that never throws. *)
Record obliging : Prop := {
  o_message : forall h d w, exists w', on_message h d w = (Ret tt, w');
  o_close : forall w, exists w', on_close w = (Ret tt, w');
  o_ping : forall d w, exists b w', on_ping d w = (Ret b, w');
  o_pong : forall d w, exists w', on_pong d w = (Ret tt, w');
  o_response : forall d w, exists w', do_response d w = (Ret tt, w')
}.

(** What a frame other than a close frame does in an open session. *)
Definition serve (f : frame) (w : W) : W :=
  if fr_op f <? 8 then (on_message (wire_head f) (fr_payload f) w).2
  else if fr_op f =? opcode.PING then
    let '(b, w) := on_ping (fr_payload f) w in
    match b with
    | Ret true => (do_response (wire (out_frame opcode.PONG (fr_payload f))) w).2
    | _ => w
    end
  else (on_pong (fr_payload f) w).2.

Lemma control_op f : frame_ok f -> 8 <= fr_op f ->
  fr_op f = opcode.CLOSE \/ fr_op f = opcode.PING \/ fr_op f = opcode.PONG.
Proof using.
  intros Hf Hc. pose proof (ok_op f Hf). pose proof (ok_reserved f Hf) as Hr.
  unfold opcode.reserved, opcode.RSV3, opcode.RSV7, opcode.CONTROL_RSVB, opcode.CONTROL_RSVF in Hr.
  unfold opcode.CLOSE, opcode.PING, opcode.PONG. bool_facts.
  destruct (Z.leb_spec 11 (fr_op f)), (Z.leb_spec (fr_op f) 15); cbn in *; try done; lia.
Qed.

Lemma serve_frame f w :
  obliging -> frame_ok f -> fr_op f <> opcode.CLOSE ->
  frame_ready (holding false OPEN f) w = (Ret tt, waiting false OPEN, serve f w).
Proof using.
  intros Ho Hf Hc. destruct (parsed_bits false f Hf) as (Hop & Hh & _).
  unfold frame_ready, bind at 1, get_parser. cbn [holding ep_parser]. change (ready (parsed false f)) with true.
  unfold is_control. rewrite Hop. unfold opcode.is_control, serve.
  destruct (Z.leb_spec 8 (fr_op f)) as [H8|H8]; destruct (Z.ltb_spec (fr_op f) 8); [lia| | |lia].
  - destruct (control_op f Hf H8) as [?|[E|E]]; [done| |]; unfold process_control, bind, get_parser;
      cbn [holding ep_parser]; rewrite Hop, E; cbn [Z.eqb Pos.eqb opcode.PING opcode.PONG].
    + unfold handler at 1. change (get_payload_str (parsed false f)) with (fr_payload f).
      destruct (o_ping Ho (fr_payload f) w) as (b & w1 & ->). destruct b; [|done].
      unfold pong, bind, get_state, lift, handler. cbn [holding ep_state]. rewrite decide_False by tauto.
      destruct (ok_control f Hf H8) as [_ Hsz]. rewrite build_frame_wire by (done || (unfold fr_size in *; unfold max_payload_size; lia)).
      destruct (o_response Ho (wire (out_frame opcode.PONG (fr_payload f))) w1) as (w2 & ->). done.
    + unfold handler. change (get_payload_str (parsed false f)) with (fr_payload f).
      destruct (o_pong Ho (fr_payload f) w) as (w1 & ->). done.
  - unfold process_data, bind, get_parser, handler. cbn [holding ep_parser]. rewrite Hh.
    change (get_payload_str (parsed false f)) with (fr_payload f).
    destruct (o_message Ho (wire_head f) (fr_payload f) w) as (w1 & ->). done.
Qed.

(** C5: in an open session, with a handler that never throws ([obliging]), every frame that is
    not a close frame, has no more than 100 MB of payload and otherwise obeys the protocol
    ([frame_ok]: no reserved opcode, control frames short and in one fragment) is served, in order
    and completely, however many of them arrive in one piece: the unmasked payload of every
    data frame is handed to [on_message], once for each fragment of a message (the comment
    promises complete messages), a ping is answered with a pong that carries its payload, if
    the handler wants so, a pong is reported; what follows the frames is processed from the
    same state.  (Frames beyond the limit and protocol errors are a different matter:
    [oversize_frame_sticks], [protocol_error_escapes].) *)
Theorem AddRxData_frames fs s (w : W) :
  obliging -> Forall (fun f => frame_ok f /\ fr_op f <> opcode.CLOSE) fs ->
  AddRxData (concat (wire <$> fs) ++ s) (waiting false OPEN) w =
    AddRxData s (waiting false OPEN) (foldl (fun w f => serve f w) w fs).
Proof using.
  intros Ho Hfs. revert w. induction Hfs as [|f fs [Hf Hc] _ IH]; intros w; [done|].
  cbn [fmap list_fmap concat foldl]. rewrite <- app_assoc.
  rewrite (AddRxData_frame f false OPEN _ w _ _ Hf ltac:(done) (serve_frame f w Ho Hf Hc)). apply IH.
Qed.

(** ** Close frames *)
Definition close_frame (f : frame) : Prop := frame_ok f /\ fr_op f = opcode.CLOSE.

Definition close_code (f : frame) : Z :=
  if decide (length (fr_payload f) = 0%nat) then status.NO_STATUS else ntoh (take 2 (fr_payload f)).

Lemma close_ready f degraded st w :
  close_frame f -> length (fr_payload f) <> 1%nat -> st = OPEN ->
  frame_ready (holding degraded st f) w =
    bind (send_close_ack (close_code f) (drop 2 (fr_payload f))) (fun _ => reset_parser) (holding degraded st f) w.
Proof using.
  intros [Hf Hop] H1 ->. destruct (parsed_bits degraded f Hf) as (Ho & _ & _).
  unfold frame_ready, bind at 1, get_parser. cbn [holding ep_parser]. change (ready (parsed degraded f)) with true.
  unfold is_control. rewrite Ho, Hop. cbn [opcode.is_control opcode.CLOSE Z.leb Z.compare Pos.compare Pos.compare_cont].
  unfold bind at 1 2, process_control. unfold bind at 1, get_parser. cbn [holding ep_parser]. rewrite Ho, Hop.
  cbn [Z.eqb Pos.eqb opcode.PING opcode.PONG opcode.CLOSE]. unfold bind at 1, get_state. cbn [holding ep_state].
  rewrite decide_True by done.
  assert (get_close_reason (parsed degraded f) = drop 2 (fr_payload f)) as ->.
  { unfold get_close_reason. cbn [parsed m_payload]. case_decide; [done|]. by rewrite drop_ge by lia. }
  assert (get_close_code (parsed degraded f) = Ret (close_code f)) as ->; [|done].
  unfold get_close_code, get_raw_close_code, close_code. cbn [parsed m_payload].
  destruct (decide (length (fr_payload f) = 0%nat)); [done|]. by rewrite decide_False by lia.
Qed.

(** The code and reason of the answer can always be sent. *)
Lemma local_close_ok f c r :
  frame_ok f -> fr_op f = opcode.CLOSE -> local_close (close_code f) (drop 2 (fr_payload f)) = Ret (c, r) ->
  status.invalid c = false /\ status.reserved c = false /\ c <> status.NO_STATUS /\
  Z.of_nat (length (htons c ++ r)) <= 125.
Proof using.
  intros Hf Hop Hl. destruct (ok_control f Hf) as [_ Hsz]; [rewrite Hop; done|]. unfold fr_size in Hsz.
  revert Hl. unfold local_close. set (cc := close_code f).
  destruct (Z.eqb_spec cc status.NO_STATUS) as [|Hne]; [by intros [= <- <-]|].
  destruct (cc =? status.ABNORMAL_CLOSE); [done|]. destruct (status.invalid cc) eqn:Hi; [by intros [= <- <-]|].
  destruct (status.reserved cc) eqn:Hr; [by intros [= <- <-]|]. intros [= <- <-]. split_and!; [done..|].
  rewrite length_app, length_drop. unfold htons. cbn [length]. lia.
Qed.

Lemma close_frame_answered f degraded s w c r w1 w2 :
  close_frame f -> length (fr_payload f) <> 1%nat ->
  local_close (close_code f) (drop 2 (fr_payload f)) = Ret (c, r) ->
  do_response (wire (out_frame opcode.CLOSE (htons c ++ r))) w = (Ret tt, w1) -> on_close w1 = (Ret tt, w2) ->
  AddRxData (wire f ++ s) (waiting degraded OPEN) w = Some (Ret tt, waiting false CLOSED, w2).
Proof using.
  intros Hcf H1 Hl Hr Hc. destruct Hcf as [Hf Hop] eqn:Ec. destruct (local_close_ok f c r Hf Hop Hl) as (_ & _ & Hn & Hsz).
  erewrite AddRxData_frame; [|done|done|].
  - unfold AddRxData, rx_fuel. apply rx_loop_closed. done.
  - rewrite close_ready by done. unfold send_close_ack. unfold bind at 1 2, lift. rewrite Hl.
    unfold bind at 1. cbn [fst snd]. rewrite (proj2 (Z.eqb_neq c status.NO_STATUS)) by done.
    rewrite build_frame_wire by (done || (unfold max_payload_size; lia)).
    unfold bind, handler. rewrite Hr.
    unfold shutdown, bind, get_state, set_state, handler. cbn [holding ep_state]. rewrite decide_False by done.
    by rewrite Hc.
Qed.

(** What the payload of a close frame is answered with: the code 1000 for an empty frame (or
    the code 1005, which stands for it), the code 1002 with an explanation for a code that
    is not allowed, and otherwise the same code and reason. *)
Definition close_answer (payload : bytes) : bytes :=
  let code := ntoh (take 2 payload) in
  if decide (payload = [] \/ code = 1005) then htons 1000
  else if decide (code < 1000 \/ 5000 <= code \/ code = 1015) then htons 1002 ++ #"Status code is invalid"
  else if decide (1016 <= code < 3000 \/ code = 1004 \/ 1012 <= code <= 1014) then
    htons 1002 ++ #"Status code is reserved"
  else payload.

Lemma htons_ntoh (a b : ascii) : htons (ntoh [a; b]) = [a; b].
Proof using.
  unfold htons, ntoh. cbn [fold_left]. pose proof (bz_range a). pose proof (bz_range b).
  rewrite (Z.div_add_l (0 * 256 + bz a) 256), Z.div_small, Z.add_0_r by lia.
  f_equal; [|f_equal]; apply bz_inj; rewrite bz_zb.
  - rewrite Z.mod_small; lia.
  - rewrite Z.add_comm, Z_mod_plus_full, Z.mod_small; lia.
Qed.

Lemma invalid_spec code : code <> 1005 -> code <> 1006 ->
  status.invalid code = bool_decide (code < 1000 \/ 5000 <= code \/ code = 1015).
Proof using.
  intros. unfold status.invalid, status.INVALID_END, status.INVALID_START, status.NO_STATUS, status.ABNORMAL_CLOSE,
    status.TLS_HANDSHAKE.
  apply eq_true_iff_eq. rewrite bool_decide_eq_true, !orb_true_iff, !Z.leb_le, !Z.eqb_eq. lia.
Qed.

Lemma reserved_spec code :
  status.reserved code = bool_decide (1016 <= code < 3000 \/ code = 1004 \/ 1012 <= code <= 1014).
Proof using.
  unfold status.reserved, status.RSV_START, status.RSV_END, status.RSV_ADHOC_1, status.RSV_ADHOC_2,
    status.RSV_ADHOC_3, status.RSV_ADHOC_4.
  apply eq_true_iff_eq. rewrite bool_decide_eq_true, !orb_true_iff, andb_true_iff, !Z.leb_le, !Z.eqb_eq. lia.
Qed.

Lemma local_close_answer f :
  length (fr_payload f) <> 1%nat -> close_code f <> status.ABNORMAL_CLOSE ->
  exists c r, local_close (close_code f) (drop 2 (fr_payload f)) = Ret (c, r) /\
    htons c ++ r = close_answer (fr_payload f).
Proof using.
  unfold local_close, close_answer, close_code. destruct (fr_payload f) as [|a [|b l]]; [|done|].
  { intros _ _. do 2 eexists. done. }
  intros _. rewrite decide_False by done. change (take 2 (a :: b :: l)) with [a; b].
  change (drop 2 (a :: b :: l)) with l. set (code := ntoh [a; b]). unfold status.NO_STATUS, status.ABNORMAL_CLOSE.
  intros H6. rewrite (proj2 (Z.eqb_neq code 1006) H6). destruct (Z.eqb_spec code 1005) as [->|H5].
  { rewrite decide_True by auto. do 2 eexists. done. }
  rewrite decide_False by (by intros [?|?]). rewrite invalid_spec, reserved_spec by done.
  destruct (decide (code < 1000 \/ _)) as [Hc|Hc];
    [rewrite (bool_decide_eq_true_2 _ Hc); do 2 eexists; split; reflexivity|rewrite (bool_decide_eq_false_2 _ Hc)].
  destruct (decide (1016 <= code < 3000 \/ _)) as [H'|H'];
    [rewrite (bool_decide_eq_true_2 _ H'); do 2 eexists; split; reflexivity|rewrite (bool_decide_eq_false_2 _ H')].
  do 2 eexists. split; [done|]. unfold code. by rewrite htons_ntoh.
Qed.

(** A close frame with half a code: the session is closed without an answer. *)
Lemma close_one_byte f degraded s w w1 :
  close_frame f -> length (fr_payload f) = 1%nat -> on_close w = (Ret tt, w1) ->
  AddRxData (wire f ++ s) (waiting degraded OPEN) w = Some (Ret tt, waiting false CLOSED, w1).
Proof using.
  intros [Hf Hop] H1 Hc. destruct (parsed_bits degraded f Hf) as (Ho & _ & _).
  apply (AddRxData_ws_error f degraded OPEN s w #"get_raw_close_code called with invalid size" wserror.FATAL_ERROR
    (holding degraded OPEN f) w); try done.
  - unfold frame_ready, bind at 1, get_parser. cbn [holding ep_parser]. change (ready (parsed degraded f)) with true.
    unfold is_control. rewrite Ho, Hop. cbn [opcode.is_control opcode.CLOSE Z.leb Z.compare Pos.compare Pos.compare_cont].
    unfold bind at 1, process_control. unfold bind at 1, get_parser. cbn [holding ep_parser]. rewrite Ho, Hop.
    cbn [Z.eqb Pos.eqb opcode.PING opcode.PONG opcode.CLOSE]. unfold bind at 1, get_state. cbn [holding ep_state].
    rewrite decide_True by done. unfold bind, lift, get_close_code, get_raw_close_code. cbn [parsed m_payload].
    by rewrite decide_False, decide_True by lia.
  - unfold rx_error, bind at 1, get_parser. cbn [holding ep_parser]. change (ready (parsed degraded f)) with true.
    unfold bind at 1, reset_parser. cbn [ret]. cbv beta iota.
    change (wserror.FATAL_ERROR =? wserror.PROTOCOL_VIOLATION) with false. change (wserror.FATAL_ERROR =? wserror.PAYLOAD_VIOLATION) with false.
    change (wserror.FATAL_ERROR =? wserror.INTERNAL_ENDPOINT_ERROR) with false. change (wserror.FATAL_ERROR =? wserror.SOFT_ERROR) with false.
    change (wserror.FATAL_ERROR =? wserror.MESSAGE_TOO_BIG) with false. change (wserror.FATAL_ERROR =? wserror.OUT_OF_MESSAGES) with false.
    unfold shutdown, bind, get_state, set_state, handler. cbn [holding ep_state]. rewrite decide_False by done. by rewrite Hc.
Qed.

Lemma close_1006 f degraded s (w : W) :
  close_frame f -> length (fr_payload f) <> 1%nat -> close_code f = status.ABNORMAL_CLOSE ->
  AddRxData (wire f ++ s) (waiting degraded OPEN) w = Some (Throw (C_string #"shouldn't be here"), holding degraded OPEN f, w).
Proof using.
  intros Hcf H1 Hc. apply AddRxData_throws; [apply Hcf|done| |done]. rewrite close_ready by done. by rewrite Hc.
Qed.

(** C13: what a close frame does in an open session, with a handler that never throws: every
    case.  As a rule it is answered with one close frame, then the session is closed and
    reported closed, and whatever follows is ignored; the answer repeats code and reason, but
    it is 1000 for an empty frame and for the code 1005, and 1002 with an explanation for the
    other invalid codes (below 1000, from 5000 on, 1015) and the reserved ones
    ([close_answer]).  But a payload of one byte closes the session, which is reported, without
    any answer; and the code 1006, which is invalid, too, makes the call throw a character
    string: nothing is answered, the session stays open and the frame stays in the parser. *)
Theorem close_handshake f degraded s (w : W) :
  obliging -> close_frame f ->
  AddRxData (wire f ++ s) (waiting degraded OPEN) w =
    if decide (length (fr_payload f) = 1%nat) then Some (Ret tt, waiting false CLOSED, (on_close w).2)
    else if decide (close_code f = 1006) then Some (Throw (C_string #"shouldn't be here"), holding degraded OPEN f, w)
    else Some (Ret tt, waiting false CLOSED,
               (on_close (do_response (wire (out_frame opcode.CLOSE (close_answer (fr_payload f)))) w).2).2).
Proof using.
  intros Ho Hcf. destruct (decide (length (fr_payload f) = 1%nat)) as [H1|H1].
  { destruct (o_close Ho w) as (w1 & E1). rewrite E1. by eapply close_one_byte. }
  destruct (decide (close_code f = 1006)) as [H6|H6]; [by apply close_1006|].
  destruct (local_close_answer f H1 H6) as (c & r & Hl & <-).
  destruct (o_response Ho (wire (out_frame opcode.CLOSE (htons c ++ r))) w) as (w1 & E1).
  destruct (o_close Ho w1) as (w2 & E2). rewrite E1. cbn [snd]. rewrite E2. by eapply close_frame_answered.
Qed.

(** A close frame with the code 1006 (which no endpoint may send) makes the
    endpoint throw a character string; no close frame is sent, the session stays open, and
    the frame stays in the parser, so that every later call throws again without
    reading its data. *)
Theorem close_1006_throws f s (w : W) :
  close_frame f -> close_code f = status.ABNORMAL_CLOSE ->
  AddRxData (wire f ++ s) (waiting false OPEN) w = Some (Throw (C_string #"shouldn't be here"), holding false OPEN f, w) /\
  forall d w', d <> [] ->
    AddRxData d (holding false OPEN f) w' = Some (Throw (C_string #"shouldn't be here"), holding false OPEN f, w').
Proof using.
  intros Hcf Hc. assert (length (fr_payload f) <> 1%nat) as H1.
  { intros E. unfold close_code in Hc. rewrite E, decide_False in Hc by done.
    pose proof (ntoh_bound (take 2 (fr_payload f))) as Hb. rewrite length_take, E in Hb.
    unfold status.ABNORMAL_CLOSE in Hc. cbn in Hb. lia. }
  assert (forall w, frame_ready (holding false OPEN f) w =
    (Throw (C_string #"shouldn't be here"), holding false OPEN f, w)) as Hr.
  { intros w0. rewrite close_ready by done. rewrite Hc. done. }
  split.
  - apply AddRxData_throws; [apply Hcf|done|apply Hr|done].
  - intros d w' Hd. unfold AddRxData, rx_fuel. rewrite rx_loop_S, decide_False by (intros [?|?]; done).
    assert (rx_body d (holding false OPEN f) w' =
      let '(r, e, w0) := frame_ready (holding false OPEN f) w' in (r, d, e, w0)) as -> by reflexivity.
    by rewrite Hr.
Qed.

(** ** Frame errors and recovery *)
Definition recovering (st : session_state) : wsendpoint :=
  MkEndpoint (parser_new <| m_state := STATE_RECOVERY |> <| m_degraded := true |>) st.
Definition first_bytes (degraded : bool) (b0 b1 : ascii) : parser :=
  MkParser STATE_BASIC_HEADER 0 degraded (b0 :: b1 :: replicate 12 NUL) [].

Lemma read_two degraded b0 b1 s :
  read_header BASIC_HEADER_LENGTH (parser_new <| m_degraded := degraded |>) (b0 :: b1 :: s) =
    (first_bytes degraded b0 b1, s).
Proof using.
  change (b0 :: b1 :: s) with ([b0; b1] ++ s). rewrite read_header_exact by done. reflexivity.
Qed.

Lemma recovering_ok st : endpoint_ok (recovering st).
Proof using. right. left. by split. Qed.

Lemma consume_bad_header b0 b1 s x :
  validate_basic_header (first_bytes false b0 b1) = Throw x ->
  consume (parser_new <| m_degraded := false |>) (b0 :: b1 :: s) = (Throw Std_exception, ep_parser (recovering OPEN), s).
Proof using.
  intros Hv. unfold consume, consume_body.
  change (m_state (parser_new <| m_degraded := false |>)) with STATE_BASIC_HEADER. cbv iota. rewrite read_two.
  change (m_bytes_needed (first_bytes false b0 b1) =? 0) with true. cbv beta iota zeta.
  change (validate_basic_header (process_basic_header (first_bytes false b0 b1)))
    with (validate_basic_header (first_bytes false b0 b1)).
  rewrite Hv. by rewrite (validate_throws _ _ Hv).
Qed.

(** The first byte of a close frame found, the parser is where reading that byte of a
    new frame would have left it. *)
Definition found_first : parser :=
  MkParser STATE_BASIC_HEADER 1 true (zb 0x88 :: replicate 13 NUL) [].

Lemma found_first_body t st w :
  rx_body t (MkEndpoint found_first st) w = rx_body (zb 0x88 :: t) (waiting true st) w.
Proof using.
  assert (consume_body found_first t = consume_body (parser_new <| m_degraded := true |>) (zb 0x88 :: t)) as E.
  { unfold consume_body. change (m_state (parser_new <| m_degraded := true |>)) with STATE_BASIC_HEADER.
    change (m_state found_first) with STATE_BASIC_HEADER. cbv iota.
    change (zb 0x88 :: t) with ([zb 0x88] ++ t).
    rewrite (read_header_across BASIC_HEADER_LENGTH (parser_new <| m_degraded := true |>) [zb 0x88] t) by done.
    reflexivity. }
  unfold rx_body, waiting, consume. cbn [ep_parser]. by rewrite E.
Qed.

Lemma recovering_body u t st w :
  Forall (fun b => bz b <> 0x88) u ->
  rx_body (u ++ zb 0x88 :: t) (recovering st) w = (Ret tt, t, MkEndpoint found_first st, w).
Proof using.
  intros Hu. assert (consume (ep_parser (recovering st)) (u ++ zb 0x88 :: t) = (Ret tt, found_first, t)) as E.
  { unfold consume, consume_body. change (m_state (ep_parser (recovering st))) with STATE_RECOVERY. cbv iota.
    rewrite (recover_found (ep_parser (recovering st)) u t) by (done || by split). reflexivity. }
  unfold rx_body. by rewrite E.
Qed.

Lemma recovering_skips u t st w :
  Forall (fun b => bz b <> 0x88) u -> t <> [] -> st <> CLOSED ->
  AddRxData (u ++ zb 0x88 :: t) (recovering st) w = AddRxData (zb 0x88 :: t) (waiting true st) w.
Proof using.
  intros Hu Ht Hst.
  destruct (rx_loop_returns (rx_fuel (zb 0x88 :: t)) (zb 0x88 :: t) (waiting true st) w (waiting_ok _ _)
    (rx_measure_fuel _ _)) as (r & e' & w' & E & _).
  unfold AddRxData at 2. rewrite E. apply (AddRxData_run (S (rx_fuel (zb 0x88 :: t)))); [apply recovering_ok|].
  unfold rx_fuel in *. rewrite rx_loop_S, decide_False in E by (intros [?|?]; done).
  rewrite rx_loop_S, decide_False by (intros [?|?%app_nil]; [done|naive_solver]). rewrite recovering_body by done.
  cbn [rx_next]. rewrite rx_loop_S, decide_False by (intros [?|?]; done). by rewrite found_first_body.
Qed.

(** A header that violates the protocol (a reserved bit or opcode, a fragmented
    or large control frame) makes the call throw: [consume] rethrows a copy sliced to
    [std::exception], which the handler for [wserror] in [AddRxData] does not catch, so no
    close frame with code 1002 is sent and the session stays open.  From then on
    everything up to the first byte 0x88 is skipped, and the close frame that starts
    there is processed as usual. *)
Theorem protocol_error_escapes b0 b1 s u f s' (w : W) :
  (exists x, validate_basic_header (first_bytes false b0 b1) = Throw x) ->
  close_frame f -> Forall (fun b => bz b <> 0x88) u ->
  AddRxData (b0 :: b1 :: s) (waiting false OPEN) w = Some (Throw Std_exception, recovering OPEN, w) /\
  AddRxData (u ++ wire f ++ s') (recovering OPEN) w = AddRxData (wire f ++ s') (waiting true OPEN) w.
Proof using.
  intros [x Hv] [Hf Hop] Hu. split.
  - apply (AddRxData_run 1); [apply waiting_ok|]. rewrite rx_loop_S, decide_False by (intros [?|?]; done).
    unfold rx_body. change (ep_parser (waiting false OPEN)) with (parser_new <| m_degraded := false |>).
    by rewrite (consume_bad_header b0 b1 s x Hv).
  - assert (wire f ++ s' = zb 0x88 :: (drop 1 (wire_head f) ++ wire_data f) ++ s') as ->.
    { unfold wire, wire_head. destruct (ok_control f Hf) as [-> _]; [by rewrite Hop|]. rewrite Hop.
      cbn [app drop]. by rewrite <- !app_assoc. }
    by apply recovering_skips.
Qed.

(** ** Frames beyond the limit *)
Lemma AddRxData_stuck d e w :
  stuck (ep_parser e) -> ep_state e <> CLOSED -> d <> [] ->
  AddRxData d e w =
    Some (Throw (C_string #"Got frame with payload greater than maximum frame buffer size."), e, w).
Proof using.
  intros Hst Hc Hd. unfold AddRxData, rx_fuel. rewrite rx_loop_S, decide_False by tauto.
  unfold rx_body. rewrite consume_stuck by done. cbn [rx_next]. by destruct e.
Qed.

(** The header of a data frame that announces [n] bytes. *)
Definition big_head (fin : bool) (op n : Z) (key : bytes) : bytes :=
  zb ((if fin then 128 else 0) + op) ::
  zb ((if negb (bool_decide (key = [])) then 128 else 0) + 127) :: htonll n ++ key.

Section big.
Context (fin : bool) (op n : Z) (key : bytes).
Context (Hop : 0 <= op < 8) (Hres : opcode.reserved op = false) (Hn : max_payload_size < n < 2 ^ 64)
  (Hkey : key = [] \/ length key = 4%nat).

Definition big_b0 : ascii := zb ((if fin then 128 else 0) + op).
Definition big_masked : bool := negb (bool_decide (key = [])).
Definition big_b1 : ascii := zb ((if big_masked then 128 else 0) + 127).
Definition big_rest : bytes := htonll n ++ key.

Lemma big_rest_length : Z.of_nat (length big_rest) = 8 + (if big_masked then 4 else 0).
Proof using Hkey.
  unfold big_rest. rewrite length_app. cbn [htonll length]. unfold big_masked. destruct Hkey as [->|E]; [done|].
  rewrite bool_decide_eq_false_2 by (by intros ->). cbn [negb]. lia.
Qed.

Lemma big_bits p t : m_header p = big_b0 :: big_b1 :: t ->
  get_opcode p = op /\ get_rsv1 p || get_rsv2 p || get_rsv3 p = false /\ get_basic_size p = 127 /\
  get_header_len p = 2 + Z.of_nat (length big_rest).
Proof using Hop Hkey.
  intros E. destruct (basic_bits p fin big_masked op 127 t ltac:(lia) ltac:(lia) E) as (_ & Hr & Ho & Hm & Hs).
  split_and!; [done..|]. rewrite big_rest_length. unfold get_header_len. rewrite Hm, Hs.
  by destruct big_masked.
Qed.

Lemma big_first s :
  consume (parser_new <| m_degraded := false |>) (big_b0 :: big_b1 :: s) =
    (Ret tt, MkParser STATE_EXTENDED_HEADER (Z.of_nat (length big_rest)) false (big_b0 :: big_b1 :: replicate 12 NUL) [], s).
Proof using Hop Hres Hkey.
  destruct (big_bits (first_bytes false big_b0 big_b1) (replicate 12 NUL) eq_refl) as (Ho & Hr & Hs & Hl).
  unfold consume, consume_body.
  change (m_state (parser_new <| m_degraded := false |>)) with STATE_BASIC_HEADER. cbv iota. rewrite read_two.
  change (m_bytes_needed (first_bytes false big_b0 big_b1) =? 0) with true. cbv beta iota zeta.
  assert (process_basic_header (first_bytes false big_b0 big_b1) =
    MkParser STATE_BASIC_HEADER (Z.of_nat (length big_rest)) false (big_b0 :: big_b1 :: replicate 12 NUL) []) as ->.
  { change (process_basic_header (first_bytes false big_b0 big_b1)) with (MkParser STATE_BASIC_HEADER
      (get_header_len (first_bytes false big_b0 big_b1) - 2) false (big_b0 :: big_b1 :: replicate 12 NUL) []).
    rewrite Hl. f_equal. lia. }
  assert (validate_basic_header (MkParser STATE_BASIC_HEADER (Z.of_nat (length big_rest)) false
    (big_b0 :: big_b1 :: replicate 12 NUL) []) = Ret tt) as ->.
  { destruct (big_bits (MkParser STATE_BASIC_HEADER (Z.of_nat (length big_rest)) false
      (big_b0 :: big_b1 :: replicate 12 NUL) []) (replicate 12 NUL) eq_refl) as (Ho' & Hr' & Hs' & _).
    unfold validate_basic_header, is_control. rewrite Ho', Hr', Hres. unfold opcode.is_control.
    by destruct (Z.leb_spec 8 op); [lia|]. }
  cbn [m_bytes_needed]. rewrite big_rest_length. by destruct big_masked.
Qed.

Definition big_parser : parser :=
  MkParser STATE_EXTENDED_HEADER 0 false (big_b0 :: big_b1 :: big_rest ++ replicate (12 - length big_rest) NUL) [].

Lemma big_stuck : stuck big_parser.
Proof using Hop Hn Hkey.
  destruct (big_bits big_parser _ eq_refl) as (_ & _ & Hs & _). unfold stuck. split_and!; [|done..|].
  - cbn [big_parser m_header length]. rewrite length_app, length_replicate.
    pose proof big_rest_length as Hl. unfold MAX_HEADER_LENGTH. destruct big_masked; lia.
  - cbn [big_parser m_header drop]. unfold big_rest. rewrite drop_0, <- app_assoc.
    rewrite (take_app_length' (htonll n)) by done. rewrite ntoh_htonll; unfold max_payload_size in *; lia.
Qed.

Lemma big_second s :
  consume (MkParser STATE_EXTENDED_HEADER (Z.of_nat (length big_rest)) false (big_b0 :: big_b1 :: replicate 12 NUL) [])
    (big_rest ++ s) =
    (Throw (C_string #"Got frame with payload greater than maximum frame buffer size."), big_parser, s).
Proof using Hop Hn Hkey.
  pose proof (consume_stuck big_parser [] big_stuck) as Hst.
  set (p := MkParser STATE_EXTENDED_HEADER (Z.of_nat (length big_rest)) false (big_b0 :: big_b1 :: replicate 12 NUL) []).
  assert (read_header (get_header_len p) p (big_rest ++ s) = (big_parser, s)) as E.
  { rewrite read_header_exact by done. f_equal. unfold big_parser.
    destruct (big_bits p (replicate 12 NUL) eq_refl) as (_ & _ & _ & ->).
    replace (Z.to_nat (2 + Z.of_nat (length big_rest) - Z.of_nat (length big_rest))) with 2%nat by lia.
    assert (length big_rest <= 12)%nat as Hle by (pose proof big_rest_length; destruct big_masked; lia).
    pose proof (store_at_pad [big_b0; big_b1] 12 big_rest Hle) as Hp. cbn [length app] in Hp.
    subst p. cbn [update m_state m_bytes_needed m_degraded m_header m_payload]. by rewrite Hp. }
  unfold consume, consume_body in Hst |- *.
  change (m_state big_parser) with STATE_EXTENDED_HEADER in Hst. change (m_state p) with STATE_EXTENDED_HEADER.
  cbv iota in Hst |- *. rewrite E.
  assert (read_header (get_header_len big_parser) big_parser [] = (big_parser, [])) as E2.
  { unfold read_header. change (stream_read (m_bytes_needed big_parser) []) with (@nil ascii, @nil ascii).
    cbn -[store_at get_header_len replicate]. by rewrite store_at_nil. }
  rewrite E2 in Hst. change (m_bytes_needed big_parser =? 0) with true in Hst |- *. cbv iota in Hst |- *.
  destruct (header_done big_parser) as [[[]|x] q]; [done|].
  destruct (is_std_exception x); [destruct (m_degraded q); discriminate|]. congruence.
Qed.
End big.

(** The header of a frame beyond 100 MB makes the call throw a character string;
    nothing is answered, the session stays open, and from then on every call throws the
    same way whatever arrives, a close frame included. *)
Theorem oversize_frame_sticks fin op n key s (w : W) :
  0 <= op < 8 -> opcode.reserved op = false -> max_payload_size < n < 2 ^ 64 ->
  (key = [] \/ length key = 4%nat) ->
  exists e, ep_state e = OPEN /\
    AddRxData (big_head fin op n key ++ s) (waiting false OPEN) w =
      Some (Throw (C_string #"Got frame with payload greater than maximum frame buffer size."), e, w) /\
    forall d w', d <> [] -> AddRxData d e w' =
      Some (Throw (C_string #"Got frame with payload greater than maximum frame buffer size."), e, w').
Proof using.
  intros Hop Hr Hn Hk. exists (MkEndpoint (big_parser fin op n key) OPEN). split_and!; [done| |].
  - apply (AddRxData_run 2); [apply waiting_ok|].
    change (big_head fin op n key ++ s) with (big_b0 fin op :: big_b1 key :: big_rest n key ++ s).
    rewrite rx_loop_S, decide_False by (intros [?|?]; done).
    assert (rx_body (big_b0 fin op :: big_b1 key :: big_rest n key ++ s) (waiting false OPEN) w =
      (Ret tt, big_rest n key ++ s, MkEndpoint (MkParser STATE_EXTENDED_HEADER (Z.of_nat (length (big_rest n key)))
         false (big_b0 fin op :: big_b1 key :: replicate 12 NUL) []) OPEN, w)) as ->.
    { unfold rx_body. change (ep_parser (waiting false OPEN)) with (parser_new <| m_degraded := false |>).
      rewrite (big_first fin op n key) by done. by rewrite frame_not_ready. }
    cbn [rx_next]. rewrite rx_loop_S, decide_False by (intros [?|?]; done).
    unfold rx_body. cbn [ep_parser]. by rewrite big_second.
  - intros d w' Hd. apply AddRxData_stuck; [by apply big_stuck|done|done].
Qed.

End session.

(** ** [on_close] *)
Section closing.
Context {W : Type} (H0 : WsHandler W).

(** The handler with a counter of the calls of [on_close]. *)
Definition with_count {A} (r : res A * W) (n : nat) : res A * (nat * W) := (r.1, (n, r.2)).
Definition counting : WsHandler (nat * W) := {|
  on_message h d x := with_count (on_message h d x.2) x.1;
  on_close x := with_count (on_close x.2) (S x.1);
  on_ping d x := with_count (on_ping d x.2) x.1;
  on_pong d x := with_count (on_pong d x.2) x.1;
  do_response d x := with_count (do_response d x.2) x.1
|}.
#[local] Existing Instance counting.

Definition closed_count (e : wsendpoint) : nat := if decide (ep_state e = CLOSED) then 1 else 0.

Definition counts {A} (m : ws (W := nat * W) A) : Prop := forall e x,
  let '(_, e', x') := m e x in (x'.1 + closed_count e = x.1 + closed_count e')%nat.

Lemma counts_bind {A B} (m : ws A) (k : A -> ws B) : counts m -> (forall a, counts (k a)) -> counts (bind m k).
Proof.
  intros Hm Hk e x. unfold bind. specialize (Hm e x). destruct (m e x) as [[[a|y] e1] x1]; [|done].
  specialize (Hk a e1 x1). destruct (k a e1 x1) as [[r e2] x2]. lia.
Qed.
Lemma counts_pure {A} (m : ws A) : (forall e x, exists r, m e x = (r, e, x)) -> counts m.
Proof. intros Hm e x. by destruct (Hm e x) as [r ->]. Qed.
Lemma counts_handler {A} (f : nat * W -> res A * (nat * W)) : (forall x, (f x).2.1 = x.1) -> counts (handler f).
Proof. intros Hf e x. unfold handler. specialize (Hf x). destruct (f x) as [r y]. cbn in *. lia. Qed.
Lemma counts_if {A} (b : bool) (m k : ws A) : counts m -> counts k -> counts (if b then m else k).
Proof. by destruct b. Qed.
Lemma counts_decide {A} P `{Decision P} (m k : ws A) : counts m -> counts k -> counts (if decide P then m else k).
Proof. by destruct (decide P). Qed.

Lemma counts_shutdown : counts shutdown.
Proof using.
  intros e x. unfold shutdown, bind, get_state, set_state, handler, ret. case_decide as Hc; [done|].
  cbn. destruct (on_close x.2) as [[[]|] w]; cbn; unfold closed_count; cbn; rewrite (decide_False (P := ep_state e = CLOSED)) by done;
    case_decide; (done || lia).
Qed.

Lemma counts_reset : counts reset_parser.
Proof using. intros e x. done. Qed.

Lemma counts_send_close code reason : counts (send_close code reason).
Proof using.
  intros e x. unfold send_close, bind, get_state, ret, set_state, lift, handler.
  case_decide as Ho; [done|]. assert (ep_state e = OPEN) as E by (destruct (decide (ep_state e = OPEN)); tauto).
  destruct (status.invalid code); [done|]. destruct (status.reserved code); [done|].
  destruct (build_frame _ _); cbn; unfold closed_count; by rewrite E.
Qed.

Ltac counts :=
  repeat (apply counts_shutdown || apply counts_send_close || apply counts_reset || (apply counts_pure; intros; eexists; reflexivity)
    || (apply counts_handler; intros; reflexivity) || (apply counts_bind; [|intros ?]) || apply counts_if
    || apply counts_decide).

Lemma counts_frame_ready : counts frame_ready.
Proof using. unfold frame_ready, process_control, process_data, pong, send_close_ack. counts. Qed.

Lemma counts_rx_error what code : counts (rx_error what code).
Proof using. unfold rx_error. counts. Qed.

Lemma counts_rx_loop k s e x r e' x' :
  rx_loop k s e x = Some (r, e', x') -> (x'.1 + closed_count e = x.1 + closed_count e')%nat.
Proof using.
  revert s e x. induction k as [|k IH]; intros s e x; [done|]. rewrite rx_loop_S.
  case_decide; [by intros [= <- <- <-]|].
  destruct (rx_body s e x) as [[[r1 s1] e1] x1] eqn:E.
  assert (x1.1 + closed_count e = x.1 + closed_count e1)%nat as H1.
  { revert E. unfold rx_body. destruct (consume (ep_parser e) s) as [[[[]|y] p] s2].
    - pose proof (counts_frame_ready (e <| ep_parser := p |>) x) as Hc.
      destruct (frame_ready _ x) as [[r2 e2] x2]. intros [= <- <- <- <-]. exact Hc.
    - by intros [= <- <- <- <-]. }
  destruct r1 as [[]|y]; cbn [rx_next]; [intros Hk; apply IH in Hk; lia|].
  destruct y as [| | | | |what code| |]; try (intros [= <- <- <-]; lia).
  pose proof (counts_rx_error what code e1 x1) as Hc. destruct (rx_error what code e1 x1) as [[[[]|y] e2] x2].
  - intros [= <- <- <-]. lia.
  - intros Hk. apply IH in Hk. lia.
  - intros [= <- <- <-]. lia.
Qed.

(** [on_close] is called exactly when the session becomes closed: once in the
    call of [AddRxData] that closes it, never again after that, and never otherwise,
    whatever arrives and whatever the handler throws. *)
Theorem on_close_once d e n (w : W) r e' n' w' :
  AddRxData d e (n, w) = Some (r, e', (n', w')) ->
  n' = (n + if decide (ep_state e <> CLOSED /\ ep_state e' = CLOSED) then 1 else 0)%nat.
Proof using.
  intros E. pose proof E as Hc. apply counts_rx_loop in Hc. cbn [fst] in Hc. unfold closed_count in Hc.
  destruct (decide (ep_state e = CLOSED)) as [Hcl|Hcl].
  - rewrite decide_False by tauto. unfold AddRxData, rx_fuel in E. rewrite rx_loop_closed in E by done.
    simplify_eq. lia.
  - destruct (decide (ep_state e' = CLOSED)); [rewrite decide_True by done|rewrite decide_False by tauto]; lia.
Qed.

End closing.

(** ** Concrete runs *)
Lemma log_obliging : obliging (H := log_handler).
Proof. split; intros; by repeat eexists. Qed.

Definition ping_frame : frame := Frame true opcode.PING (zb <$> [1; 2; 3; 4]) #"hi".
Lemma ping_frame_ok : frame_ok ping_frame.
Proof. constructor; unfold ping_frame, opcode.PING, max_payload_size, fr_size; cbn; [lia|done|split; (done || lia)|lia|by right]. Qed.

Lemma AddRxData_frames_witness :
  obliging (H := log_handler) /\ Forall (fun f => frame_ok f /\ fr_op f <> opcode.CLOSE) [hello_frame; ping_frame] /\
  AddRxData (concat (wire <$> [hello_frame; ping_frame]) ++ []) (waiting false OPEN) [] =
    Some (Ret tt, waiting false OPEN,
          [EvResponse (wire (out_frame opcode.PONG #"hi")); EvPing #"hi"; EvMessage (wire_head hello_frame) #"Hello"]).
Proof.
  assert (Forall (fun f => frame_ok f /\ fr_op f <> opcode.CLOSE) [hello_frame; ping_frame]) as Hfs
    by (repeat constructor; (apply hello_frame_ok || apply ping_frame_ok || done)).
  split; [apply log_obliging|]. split; [exact Hfs|].
  pose proof (AddRxData_frames (H := log_handler) [hello_frame; ping_frame] [] [] log_obliging Hfs) as E.
  by rewrite E.
Defined.

(** A close frame with code 1000 and a reason, masked. *)
Definition bye_frame (code : Z) : frame := Frame true opcode.CLOSE (zb <$> [9; 8; 7; 6]) (htons code ++ #"bye").
Lemma bye_frame_ok code : close_frame (bye_frame code).
Proof.
  split; [|done]. constructor; unfold bye_frame, opcode.CLOSE, max_payload_size, fr_size; cbn;
    [lia|done|split; (done || lia)|lia|by right].
Qed.

(** The three cases. *)
Definition half_code : frame := Frame true opcode.CLOSE (zb <$> [9; 8; 7; 6]) [zb 3].
Lemma half_code_ok : close_frame half_code.
Proof.
  split; [|done]. constructor; unfold half_code, opcode.CLOSE, max_payload_size, fr_size; cbn;
    [lia|done|split; (done || lia)|lia|by right].
Qed.

Lemma close_handshake_witness :
  obliging (H := log_handler) /\ close_frame (bye_frame 1000) /\
  AddRxData (wire (bye_frame 1000) ++ #"more") (waiting false OPEN) [] =
    Some (Ret tt, waiting false CLOSED, [EvClosed; EvResponse (wire (out_frame opcode.CLOSE (htons 1000 ++ #"bye")))]) /\
  AddRxData (wire (bye_frame 999) ++ []) (waiting false OPEN) [] =
    Some (Ret tt, waiting false CLOSED, [EvClosed; EvResponse (wire (out_frame opcode.CLOSE (htons 1002 ++ #"Status code is invalid")))]) /\
  AddRxData (wire (bye_frame 1006) ++ []) (waiting false OPEN) [] =
    Some (Throw (C_string #"shouldn't be here"), holding false OPEN (bye_frame 1006), []) /\
  AddRxData (wire half_code ++ []) (waiting false OPEN) [] = Some (Ret tt, waiting false CLOSED, [EvClosed]).
Proof.
  split; [apply log_obliging|]. split; [apply bye_frame_ok|]. split_and!.
  - rewrite (close_handshake (H := log_handler) (bye_frame 1000) false #"more" [] log_obliging (bye_frame_ok 1000)). vm_compute. reflexivity.
  - rewrite (close_handshake (H := log_handler) (bye_frame 999) false [] [] log_obliging (bye_frame_ok 999)). vm_compute. reflexivity.
  - rewrite (close_handshake (H := log_handler) (bye_frame 1006) false [] [] log_obliging (bye_frame_ok 1006)). vm_compute. reflexivity.
  - rewrite (close_handshake (H := log_handler) half_code false [] [] log_obliging half_code_ok). vm_compute. reflexivity.
Defined.

Lemma close_1006_throws_witness :
  close_frame (bye_frame 1006) /\ close_code (bye_frame 1006) = status.ABNORMAL_CLOSE /\
  AddRxData (wire (bye_frame 1006) ++ []) (waiting false OPEN) [] =
    Some (Throw (C_string #"shouldn't be here"), holding false OPEN (bye_frame 1006), []).
Proof.
  split; [apply bye_frame_ok|]. split; [by vm_compute|].
  apply (close_1006_throws (H := log_handler) (bye_frame 1006) [] []); [apply bye_frame_ok|by vm_compute].
Defined.

(** The first bytes of an unmasked text frame with a reserved bit set. *)
Lemma protocol_error_escapes_witness :
  (exists x, validate_basic_header (first_bytes false (zb 0xC1) (zb 0)) = Throw x) /\
  close_frame (bye_frame 1000) /\ Forall (fun b => bz b <> 0x88) #"noise" /\
  AddRxData (zb 0xC1 :: zb 0 :: #"lost") (waiting false OPEN) [] = Some (Throw Std_exception, recovering OPEN, []) /\
  AddRxData (#"noise" ++ wire (bye_frame 1000) ++ []) (recovering OPEN) [] =
    AddRxData (wire (bye_frame 1000) ++ []) (waiting true OPEN) [].
Proof.
  assert (exists x, validate_basic_header (first_bytes false (zb 0xC1) (zb 0)) = Throw x) as Hv
    by (eexists; by vm_compute).
  assert (Forall (fun b => bz b <> 0x88) #"noise") as Hu by (repeat constructor; by vm_compute).
  split_and!; [done|apply bye_frame_ok|done| |].
  - apply (protocol_error_escapes (H := log_handler) _ _ #"lost" #"noise" (bye_frame 1000) [] [] Hv (bye_frame_ok 1000) Hu).
  - apply (protocol_error_escapes (H := log_handler) _ _ #"lost" #"noise" (bye_frame 1000) [] [] Hv (bye_frame_ok 1000) Hu).
Defined.

Lemma oversize_frame_sticks_witness :
  opcode.reserved opcode.BINARY = false /\ max_payload_size < 100000001 < 2 ^ 64 /\
  exists e, ep_state e = OPEN /\
    AddRxData (big_head true opcode.BINARY 100000001 [] ++ []) (waiting false OPEN) [] =
      Some (Throw (C_string #"Got frame with payload greater than maximum frame buffer size."), e, []) /\
    forall d w', d <> [] -> AddRxData d e w' =
      Some (Throw (C_string #"Got frame with payload greater than maximum frame buffer size."), e, w').
Proof.
  assert (max_payload_size < 100000001 < 2 ^ 64) as Hn by (by vm_compute).
  split; [done|]. split; [exact Hn|].
  apply (oversize_frame_sticks (H := log_handler) true opcode.BINARY 100000001 [] [] []); 
    [by vm_compute|done|exact Hn|by left].
Defined.

Lemma on_close_once_witness :
  AddRxData (H := counting log_handler) (wire (bye_frame 1000)) (waiting false OPEN) (0%nat, []) =
    Some (Ret tt, waiting false CLOSED,
          (1%nat, [EvClosed; EvResponse (wire (out_frame opcode.CLOSE (htons 1000 ++ #"bye")))])) /\
  1%nat = (0 + if decide (OPEN <> CLOSED /\ CLOSED = CLOSED) then 1 else 0)%nat.
Proof.
  assert (AddRxData (H := counting log_handler) (wire (bye_frame 1000)) (waiting false OPEN) (0%nat, []) =
    Some (Ret tt, waiting false CLOSED,
          (1%nat, [EvClosed; EvResponse (wire (out_frame opcode.CLOSE (htons 1000 ++ #"bye")))]))) as E
    by (by vm_compute).
  split; [exact E|]. exact (on_close_once log_handler _ _ _ _ _ _ _ _ E).
Defined.
