(* ===== verification/WsGate.v ===== *)
(** * The WebSocket gateway (samples/ehs_wsgate.cpp)

    The sample server that upgrades HTTP connections to WebSockets: the opening
    handshake in [HandleRequest], the handler of thread exceptions, the handler of a
    WebSocket, which answers through the connection, and the map from connections
    to endpoints.  [main], the console and [MyBindHelper] (which forks a program) are
    left out, as is what is printed to the console. *)
From S2P Require Import Prelude Boost StdMap Datum EhsTypes HttpRequest HttpResponse Network Connection.
From S2P Require Import Sha1 Base64 WsFrame WsEndpoint.

Definition ws_magic : bytes := #"258EAFA5-E914-47DA-95CA-C5AB0DC85B11".

(** ** The opening handshake *)

(** A 32-bit word after [htonl], as it lies in memory, and the digest. *)
Definition htonl (n : Z) : bytes := [zb (n / 2 ^ 24); zb (n / 2 ^ 16); zb (n / 2 ^ 8); zb n].
Definition digest_bytes (d : words) : bytes :=
  htonl (wA d) ++ htonl (wB d) ++ htonl (wC d) ++ htonl (wD d) ++ htonl (wE d).

Section gate.
Context {B : Boost}.

(** The file [name], if it can be opened. *)
Variable open_file : bytes -> option bytes.
Variable m_sHostname : bytes.

Definition serve_page (response : HttpResponse) : res (ResponseCode * HttpResponse) :=
  match (match open_file #"samples/wstest.html" with None => open_file #"wstest.html" | f => f end) with
  | None => Throw (Runtime_error #"Failed to open html source")
  | Some buf => Ret (HTTPRESPONSECODE_200_OK, SetBody buf (length buf) response)
  end.

(** The answer to an upgrade request that passed the checks. *)
Definition accept_upgrade (request : HttpRequest) (digest : words) (response : HttpResponse) :
    ResponseCode * HttpResponse :=
  let response := RemoveHeader #"Content-Type" response in
  let response := RemoveHeader #"Content-Length" response in
  let response := RemoveHeader #"Last-Modified" response in
  let response := RemoveHeader #"Cache-Control" response in
  let wsproto := Headers request #"Sec-WebSocket-Protocol" in
  if negb (MultivalHeaderContains (Headers request #"Sec-WebSocket-Version") #"13") then
    (HTTPRESPONSECODE_426_UPGRADE_REQUIRED, resp_SetHeader #"Sec-WebSocket-Version" #"13" response)
  else
    let response :=
      if bool_decide (0 < length wsproto) then resp_SetHeader #"Sec-WebSocket-Protocol" wsproto response
      else response in
    let response := resp_SetHeader #"Upgrade" #"websocket" response in
    let response := resp_SetHeader #"Connection" #"Upgrade" response in
    let response := resp_SetHeader #"Sec-WebSocket-Accept" (base64_encode (digest_bytes digest)) response in
    (HTTPRESPONSECODE_101_SWITCHING_PROTOCOLS, response).

(** The part of [HandleRequest] for ["/wsgate"]. *)
Definition upgrade (request : HttpRequest) (response : HttpResponse) : ResponseCode * HttpResponse :=
  let response := SetBody [] 0 response in
  let bad := (HTTPRESPONSECODE_400_BADREQUEST, response) in
  if decide (m_nRequestMethod request <> REQUESTMETHOD_GET) then bad
  else if decide (m_sHttpVersionNumber request <> #"1.1") then bad
  else
    let wshost := to_lower_copy (Headers request #"Host") in
    let wsconn := to_lower_copy (Headers request #"Connection") in
    let wsupg := to_lower_copy (Headers request #"Upgrade") in
    let wskey := Headers request #"Sec-WebSocket-Key" in
    if negb (MultivalHeaderContains wsconn #"upgrade") then bad
    else if negb (MultivalHeaderContains wsupg #"websocket") then bad
    else if decide (wshost <> m_sHostname) then bad
    else if decide (length (base64_decode wskey) <> 16) then bad
    else
      match (Result (stream_in ws_magic (stream_in wskey SHA1_new))).1 with
      | None => (HTTPRESPONSECODE_500_INTERNALSERVERERROR, response)
      | Some digest => accept_upgrade request digest response
      end.

Definition gate_HandleRequest (request : HttpRequest) (response : HttpResponse) :
    res (ResponseCode * HttpResponse) :=
  let uri := m_sUri request in
  if decide (uri = #"/" \/ uri = #"/index.html") then serve_page response
  else if decide (uri = #"/wsgate") then Ret (upgrade request response)
  else Ret (HTTPRESPONSECODE_404_NOTFOUND, response).

End gate.

(** [HandleThreadException]: [what] is the text of the exception, [where] its
    backtrace, which only a [tracing::exception] has.  No response ends the server. *)
Definition gate_HandleThreadException (stale : bytes) (t : Z) (request : option HttpRequest)
    (what : bytes) (backtrace : option bytes) : res (option HttpResponse) :=
  match backtrace with
  | None => Ret None
  | Some tmsg =>
      if decide (what = #"fatal") then Ret None
      else
        match request with
        | None => Throw (Undefined #"null request")
        | Some request =>
            let ret := Error_request stale t HTTPRESPONSECODE_500_INTERNALSERVERERROR request in
            let tmsg := #"<br>" ++ [LF] ++ #"<pre>" ++ tmsg ++ what ++
                          #"</pre><p><a href=" ++ [DQ] ++ #"/" ++ [DQ] ++ #">Back to main page</a>" in
            let body := gr_sBody (hr_base ret) in
            match find #"</body>" body with
            | None => Throw Out_of_range
            | Some pos =>
                let body := take pos body ++ tmsg ++ drop pos body in
                Ret (Some (SetBody body (length body) ret))
            end
        end
  end.

(** ** The WebSocket handler and the raw socket handler

    A [MyWsHandler] sends through the connection it was made for, with
    [EHS::AddResponse]: its state is that connection and the world. *)
Section raw.
Context {W : Type} {E : Env W}.
Variable beyond : bytes.

Definition add_generic (body : bytes) (x : EHSConnection * W) : res unit * (EHSConnection * W) :=
  let r := GenericResponse_SetBody body (length body) (GenericResponse_new 0 (Some (conn_this x.1))) in
  (Ret tt, conn_AddResponse true beyond (Generic r) x.1 x.2).

(** [send_text] inside [on_message] goes to the endpoint's [send], which reads
    nothing of the endpoint. *)
Definition gate_send (payload : bytes) (op : Z) (x : EHSConnection * W) : res unit * (EHSConnection * W) :=
  match build_frame op payload with
  | Throw e => (Throw e, x)
  | Ret tmp => add_generic tmp x
  end.

(** [class MyWsHandler] *)
Definition MyWsHandler : WsHandler (EHSConnection * W) := {|
  on_message _ data x := gate_send (#"Yes, " ++ data) opcode.TEXT x;
  on_close x := add_generic [] x;
  on_ping _ x := (Ret true, x);
  on_pong _ x := (Ret tt, x);
  do_response data x := add_generic data x
|}.

(** [class MyRawSocketHandler]: the endpoints by connection; the map of handlers has the
    same keys. *)
Record MyRawSocketHandler : Type := MkRawSocketHandler {
  m_cmap : gmap nat wsendpoint;
  m_hmap : gset nat
}.
Definition MyRawSocketHandler_new : MyRawSocketHandler := MkRawSocketHandler ∅ ∅.

Definition OnConnect (conn : conn_id) (g : MyRawSocketHandler) : MyRawSocketHandler :=
  MkRawSocketHandler (<[conn := wsendpoint_new]> (m_cmap g)) ({[conn]} ∪ m_hmap g).
Definition OnDisconnect (conn : conn_id) (g : MyRawSocketHandler) : MyRawSocketHandler :=
  MkRawSocketHandler (delete conn (m_cmap g)) (m_hmap g ∖ {[conn]}).

Definition OnData (c : EHSConnection) (data : bytes) (g : MyRawSocketHandler) (w : W) :
    option (res bool * MyRawSocketHandler * EHSConnection * W) :=
  match m_cmap g !! conn_this c with
  | None => Some (Ret false, g, c, w)
  | Some e =>
      match AddRxData (H := MyWsHandler) data e (c, w) with
      | None => None
      | Some (r, e, (c', w)) =>
          let g := MkRawSocketHandler (<[conn_this c := e]> (m_cmap g)) (m_hmap g) in
          Some (match r with Ret _ => Ret true | Throw x => Throw x end, g, c', w)
      end
  end.

End raw.

(** The example of RFC 6455, section 1.3. *)
Definition sample_request : HttpRequest :=
  let r := HttpRequest_init 1 0 [] <| m_nRequestMethod := REQUESTMETHOD_GET |> <| m_sUri := #"/wsgate" |>
             <| m_sHttpVersionNumber := #"1.1" |> in
  SetHeader #"Host" #"Server.Example.com" (SetHeader #"Upgrade" #"websocket" (SetHeader #"Connection" #"keep-alive, Upgrade"
    (SetHeader #"Sec-WebSocket-Key" #"dGhlIHNhbXBsZSBub25jZQ==" (SetHeader #"Sec-WebSocket-Version" #"13" r)))).

Example upgrade_rfc6455 :
  let '(code, r) := upgrade (B := perl_boost) #"server.example.com" sample_request
                      (HttpResponse_new [] 0 1 (Some 0)) in
  code = HTTPRESPONSECODE_101_SWITCHING_PROTOCOLS /\
  Header r #"Sec-WebSocket-Accept" = #"s3pPLMBiTxaQ9kYGzzhZRbK+xOo=".
Proof. by vm_compute. Qed.
