(* ===== verification/WsGateFacts.v ===== *)
(** * Facts about the WebSocket gateway

    The opening handshake of RFC 6455 and the way of a message through the parts:
    connection, raw socket handler, endpoint, handler, connection. *)
From S2P Require Import Prelude Boost StdMap Datum EhsTypes HttpRequest HttpResponse HttpResponseFacts Network Connection.
From S2P Require Import Sha1 Sha1Facts Base64 Utf8 WsFrame WsFrameFacts WsEndpoint WsEndpointFacts WsSession WsGate.

(** ** The digest *)
Lemma stream_in_pieces text s :
  stream_in text s = foldl (fun s data => Input data s) s ((fun b => [b]) <$> c_str text).
Proof.
  unfold stream_in. generalize (c_str text). intros l. revert s.
  induction l as [|b l IH]; intros s; [done|]. cbn [foldl fmap list_fmap]. apply IH.
Qed.

Lemma concat_singletons {A} (l : list A) : concat ((fun b => [b]) <$> l) = l.
Proof. induction l as [|b l IH]; [done|]. cbn. by rewrite IH. Qed.

Lemma streamed_digest a b :
  (8 * Z.of_nat (length (c_str a ++ c_str b)) < 2 ^ 64)%Z ->
  (Result (stream_in b (stream_in a SHA1_new))).1 = Some (Fips.digest (c_str a ++ c_str b)).
Proof.
  intros Hl. rewrite !stream_in_pieces, <- foldl_app, <- fmap_app.
  pose proof (pieces_digest ((fun b => [b]) <$> (c_str a ++ c_str b))) as H. rewrite concat_singletons in H. by apply H.
Qed.

(** ** The handshake *)
Section handshake.
Context {B : Boost}.

(** The conditions of RFC 6455, section 4.2.1, that the gateway checks. *)
Definition upgrade_ok (host : bytes) (request : HttpRequest) : Prop :=
  m_nRequestMethod request = REQUESTMETHOD_GET /\ m_sHttpVersionNumber request = #"1.1" /\
  MultivalHeaderContains (to_lower_copy (Headers request #"Connection")) #"upgrade" = true /\
  MultivalHeaderContains (to_lower_copy (Headers request #"Upgrade")) #"websocket" = true /\
  to_lower_copy (Headers request #"Host") = host /\
  length (base64_decode (Headers request #"Sec-WebSocket-Key")) = 16.
#[export] Instance upgrade_ok_dec host request : Decision (upgrade_ok host request).
Proof. apply _. Defined.

Lemma find_set_header k v r k' :
  scm_find k' (m_oResponseHeaders (resp_SetHeader k v r)) =
    if decide (caseless k = caseless k') then Some v else scm_find k' (m_oResponseHeaders r).
Proof.
  cbn. case_decide as Hk; [by apply m_find_set_eq|by apply m_find_set_ne].
Qed.

Lemma Header_set k v r k' : Header (resp_SetHeader k v r) k' = if decide (caseless k = caseless k') then v else Header r k'.
Proof. rewrite !Header_find, find_set_header. by case_decide. Qed.

Lemma upgrade_cases host request response :
  let emptied := SetBody [] 0 response in
  upgrade host request response =
    if decide (upgrade_ok host request) then
      match (Result (stream_in ws_magic (stream_in (Headers request #"Sec-WebSocket-Key") SHA1_new))).1 with
      | None => (HTTPRESPONSECODE_500_INTERNALSERVERERROR, emptied)
      | Some digest => accept_upgrade request digest emptied
      end
    else (HTTPRESPONSECODE_400_BADREQUEST, emptied).
Proof.
  intros emptied. unfold upgrade. fold emptied.
  destruct (decide (upgrade_ok host request)) as [(H1 & H2 & H3 & H4 & H5 & H6)|Hn].
  - rewrite H3, H4. cbn [negb]. by repeat (case_decide; [exfalso; tauto|]).
  - case_decide as D1; [done|]. case_decide as D2; [done|].
    destruct (MultivalHeaderContains _ #"upgrade") eqn:E1; [|done].
    destruct (MultivalHeaderContains _ #"websocket") eqn:E2; [|done]. cbn [negb].
    case_decide as D3; [done|]. case_decide as D4; [done|].
    destruct Hn. split_and!; try done; by apply dec_stable.
Qed.

(** C10: the gateway answers 101 exactly to the requests that meet the conditions
    of the opening handshake and ask for version 13, 426 with the version it speaks to those
    that ask for another version, and 400 to the others.  The accepting answer carries the
    base 64 of the SHA-1 digest (as FIPS 180 defines it) of the client's key followed by
    the fixed GUID, and echoes the protocol asked for. *)
Theorem upgrade_spec host request response :
  let key := c_str (Headers request #"Sec-WebSocket-Key") in
  let version := MultivalHeaderContains (Headers request #"Sec-WebSocket-Version") #"13" in
  (8 * Z.of_nat (length (key ++ ws_magic)) < 2 ^ 64)%Z ->
  let '(code, r) := upgrade host request response in
  (code = HTTPRESPONSECODE_400_BADREQUEST <-> ~ upgrade_ok host request) /\
  (code = HTTPRESPONSECODE_426_UPGRADE_REQUIRED <-> upgrade_ok host request /\ version = false) /\
  (code = HTTPRESPONSECODE_101_SWITCHING_PROTOCOLS <-> upgrade_ok host request /\ version = true) /\
  (code = HTTPRESPONSECODE_426_UPGRADE_REQUIRED -> Header r #"Sec-WebSocket-Version" = #"13") /\
  (code = HTTPRESPONSECODE_101_SWITCHING_PROTOCOLS ->
     Header r #"Sec-WebSocket-Accept" = base64_encode (digest_bytes (Fips.digest (key ++ ws_magic))) /\
     Header r #"Upgrade" = #"websocket" /\ Header r #"Connection" = #"Upgrade" /\
     (Headers request #"Sec-WebSocket-Protocol" <> [] ->
        Header r #"Sec-WebSocket-Protocol" = Headers request #"Sec-WebSocket-Protocol")).
Proof.
  intros key version Hl. rewrite upgrade_cases.
  pose proof (streamed_digest (Headers request #"Sec-WebSocket-Key") ws_magic) as Hd.
  change (c_str ws_magic) with ws_magic in Hd. specialize (Hd Hl). rewrite Hd.
  case_decide as Hok; [|by split_and!; try (split; [done|tauto])].
  unfold accept_upgrade. fold version. destruct version; cbn [negb].
  - split_and!; try (split; [done|by (tauto || intros [? ?])]); try done. intros _.
    rewrite !Header_set. split_and!; [done..|]. intros Hp.
    rewrite bool_decide_eq_true_2 by (by apply length_pos). by rewrite Header_set.
  - split_and!; try (split; [done|by (tauto || intros [? ?])]); try done. intros _. by rewrite Header_set.
Qed.
End handshake.

Lemma upgrade_spec_witness :
  (8 * Z.of_nat (length (c_str (Headers sample_request #"Sec-WebSocket-Key") ++ ws_magic)) < 2 ^ 64)%Z /\
  exists r, upgrade (B := perl_boost) #"server.example.com" sample_request (HttpResponse_new [] 0 1 (Some 0)) =
      (HTTPRESPONSECODE_101_SWITCHING_PROTOCOLS, r) /\
    Header r #"Sec-WebSocket-Accept" =
      base64_encode (digest_bytes (Fips.digest (#"dGhlIHNhbXBsZSBub25jZQ==" ++ ws_magic))).
Proof.
  assert ((8 * Z.of_nat (length (c_str (Headers sample_request #"Sec-WebSocket-Key") ++ ws_magic)) < 2 ^ 64)%Z) as Hl
    by (by vm_compute).
  split; [exact Hl|].
  pose proof (upgrade_spec (B := perl_boost) #"server.example.com" sample_request (HttpResponse_new [] 0 1 (Some 0)) Hl) as Hs.
  destruct (upgrade _ _ _) as [code r] eqn:E. destruct Hs as (_ & _ & Hc & _ & Ha). exists r.
  assert (code = HTTPRESPONSECODE_101_SWITCHING_PROTOCOLS) as ->.
  { apply (f_equal fst) in E. cbn [fst] in E. rewrite <- E. by vm_compute. }
  split; [done|]. destruct (Ha eq_refl) as [Hx _].
  assert (c_str (Headers sample_request #"Sec-WebSocket-Key") = #"dGhlIHNhbXBsZSBub25jZQ==") as Hk by (by vm_compute).
  rewrite Hk in Hx. exact Hx.
Defined.

(** ** A message through the gateway *)
Section echo.
Context {W : Type} {E : Env W}.
Variable beyond : bytes.

(** Sending on a raw connection whose queue is empty. *)
Lemma add_generic_sends body c (w : W) k w1 :
  body <> [] -> m_bDisconnected c = false -> m_oResponseQueue c = [] ->
  na_Send (m_poNetworkAbstraction c) body w = (k, w1) -> k <> (-1)%Z ->
  add_generic beyond body (c, w) = (Ret tt, (UpdateLastActivity w1 c, w1)).
Proof.
  intros Hb Hd Hq Hs Hk. unfold add_generic, conn_AddResponse. cbn [fst snd].
  destruct c; cbn in *. subst. cbn. rewrite take_ge by lia.
  rewrite bool_decide_eq_true_2 by (by apply length_pos). rewrite Hs.
  by destruct (Z.eqb_spec k (-1)).
Qed.

Local Open Scope Z_scope.

(** C12: through all the parts: a data frame that arrives on an upgraded connection is
    unmasked and answered on the same connection with one text frame that holds
    the message after "Yes, "; the connection stays open and the endpoint waits for
    the next frame. *)
Theorem gate_echo f c g (w : W) k w1 :
  frame_ok f -> fr_op f < 8 -> fr_size f + 5 <= max_payload_size ->
  m_cmap g !! conn_this c = Some (waiting false OPEN) ->
  m_bDisconnected c = false -> m_oResponseQueue c = [] ->
  na_Send (m_poNetworkAbstraction c) (wire (out_frame opcode.TEXT (#"Yes, " ++ fr_payload f))) w = (k, w1) -> k <> -1 ->
  exists g', OnData beyond c (wire f) g w = Some (Ret true, g', UpdateLastActivity w1 c, w1) /\
    m_cmap g' !! conn_this c = Some (waiting false OPEN).
Proof using.
  intros Hf Hop Hsz Hg Hd Hq Hs Hk. destruct (parsed_bits false f Hf) as (Ho & Hh & _).
  assert (frame_ready (H := MyWsHandler beyond) (holding false OPEN f) (c, w) =
    (Ret tt, waiting false OPEN, (UpdateLastActivity w1 c, w1))) as Hr.
  { unfold frame_ready, bind, get_parser. cbn [holding ep_parser]. change (ready (parsed false f)) with true.
    unfold is_control. rewrite Ho. unfold opcode.is_control. destruct (Z.leb_spec 8 (fr_op f)); [lia|].
    unfold process_data, bind, get_parser, handler. cbn [holding ep_parser MyWsHandler on_message].
    change (get_payload_str (parsed false f)) with (fr_payload f). unfold gate_send.
    rewrite build_frame_wire; [|done|done| |done].
    - rewrite (add_generic_sends _ c w k w1) by done. reflexivity.
    - rewrite length_app. unfold fr_size in Hsz. cbn [length]. change (length #"Yes, ") with 5%nat. lia. }
  unfold OnData. rewrite Hg.
  pose proof (AddRxData_frame (H := MyWsHandler beyond) f false OPEN [] (c, w) _ _ Hf ltac:(done) Hr) as Ha.
  rewrite app_nil_r in Ha. rewrite Ha. eexists. split; [reflexivity|]. cbn. apply lookup_insert_eq.
Qed.

(** A close frame that arrives on an upgraded connection is answered with a close
    frame, and the connection is marked as read to its end without waiting for the
    client to disconnect, so that the server removes it. *)
Theorem gate_close f c g (w : W) code reason k w1 :
  close_frame f -> length (fr_payload f) <> 1%nat ->
  local_close (close_code f) (drop 2 (fr_payload f)) = Ret (code, reason) ->
  m_cmap g !! conn_this c = Some (waiting false OPEN) ->
  m_bDisconnected c = false -> m_oResponseQueue c = [] ->
  na_Send (m_poNetworkAbstraction c) (wire (out_frame opcode.CLOSE (htons code ++ reason))) w = (k, w1) -> k <> -1 ->
  exists g' c', OnData beyond c (wire f) g w = Some (Ret true, g', c', w1) /\
    m_bDoneReading c' = true /\ m_bDisconnected c' = false /\
    m_cmap g' !! conn_this c = Some (waiting false CLOSED).
Proof using.
  intros Hcf H1 Hl Hg Hd Hq Hs Hk.
  assert (do_response (WsHandler := MyWsHandler beyond) (wire (out_frame opcode.CLOSE (htons code ++ reason))) (c, w) =
    (Ret tt, (UpdateLastActivity w1 c, w1))) as Hr by (by apply (add_generic_sends _ c w k w1)).
  assert (exists c', on_close (WsHandler := MyWsHandler beyond) (UpdateLastActivity w1 c, w1) = (Ret tt, (c', w1)) /\
    m_bDoneReading c' = true /\ m_bDisconnected c' = false) as (c' & Hc & H2 & H3).
  { destruct c; cbn in *. subst. cbn. eexists. by split_and!. }
  pose proof (close_frame_answered (H := MyWsHandler beyond) f false [] (c, w) code reason _ _ Hcf H1 Hl Hr Hc) as Ha.
  rewrite app_nil_r in Ha. unfold OnData. rewrite Hg, Ha. do 2 eexists. split; [reflexivity|].
  split_and!; [done..|]. cbn. apply lookup_insert_eq.
Qed.
End echo.

Local Open Scope Z_scope.

(** ** Concrete runs *)
Definition gate_world : script := MkScript 0 [] [] true true [] [].
Definition gate_conn : EHSConnection := EHSConnection_new 7%nat 3%nat gate_world.
Definition gate_map : MyRawSocketHandler := OnConnect 7%nat MyRawSocketHandler_new.

Lemma gate_map_waits : m_cmap gate_map !! conn_this gate_conn = Some (waiting false OPEN).
Proof. by vm_compute. Qed.

Lemma gate_echo_witness :
  frame_ok hello_frame /\ fr_op hello_frame < 8 /\ fr_size hello_frame + 5 <= max_payload_size /\
  exists g', OnData [] gate_conn (wire hello_frame) gate_map gate_world =
      Some (Ret true, g', UpdateLastActivity (na_Send 3%nat (wire (out_frame opcode.TEXT #"Yes, Hello")) gate_world).2 gate_conn,
            (na_Send 3%nat (wire (out_frame opcode.TEXT #"Yes, Hello")) gate_world).2) /\
    m_cmap g' !! conn_this gate_conn = Some (waiting false OPEN).
Proof.
  assert (fr_op hello_frame < 8) as H1 by (by vm_compute).
  assert (fr_size hello_frame + 5 <= max_payload_size) as H2 by (by vm_compute).
  split; [apply hello_frame_ok|]. split; [exact H1|]. split; [exact H2|].
  exact (gate_echo [] hello_frame gate_conn gate_map gate_world _ _ hello_frame_ok H1 H2 gate_map_waits eq_refl eq_refl
    eq_refl ltac:(by vm_compute)).
Defined.

Lemma gate_close_witness :
  close_frame (bye_frame 1000) /\ length (fr_payload (bye_frame 1000)) <> 1%nat /\
  local_close (close_code (bye_frame 1000)) (drop 2 (fr_payload (bye_frame 1000))) = Ret (1000, #"bye") /\
  exists g' c', OnData [] gate_conn (wire (bye_frame 1000)) gate_map gate_world =
      Some (Ret true, g', c', (na_Send 3%nat (wire (out_frame opcode.CLOSE (htons 1000 ++ #"bye"))) gate_world).2) /\
    m_bDoneReading c' = true /\ m_bDisconnected c' = false /\
    m_cmap g' !! conn_this gate_conn = Some (waiting false CLOSED).
Proof.
  assert (local_close (close_code (bye_frame 1000)) (drop 2 (fr_payload (bye_frame 1000))) = Ret (1000, #"bye")) as Hl
    by (by vm_compute).
  assert (length (fr_payload (bye_frame 1000)) <> 1%nat) as Hn by done.
  split; [apply bye_frame_ok|]. split; [exact Hn|]. split; [exact Hl|].
  exact (gate_close [] (bye_frame 1000) gate_conn gate_map gate_world 1000 #"bye" _ _ (bye_frame_ok 1000) Hn Hl
    gate_map_waits eq_refl eq_refl eq_refl ltac:(by vm_compute)).
Defined.
